(* ===== verification/_CoqProject ===== *)
-Q . S2P
Prelude.v
RustStr.v
Heap.v
Sqlite.v
ConstraintParse.v
Terms.v
Error.v
Util.v
RustFloat.v
SchemaDefault.v
HookList.v
Hooks.v
ProgressDispatch.v
BusyHandler.v
Lifecycle.v
Connection.v
Query.v
Schema.v
Statements.v
Blob.v
Authorizer.v
ExplainAnalyze.v
Session.v
Maintenance.v
Nif.v
Cancellation.v
Resource.v
LogHook.v
Entrypoints.v
Unusable.v
Affinity.v
Atoms.v
TypeSpec.v
SchemaTypes.v
Bounds.v
TypeExtension.v
ElixirStream.v
Elixir.v
Regex.v
StrictTable.v
ElixirPragma.v
Bridge.v
BridgePort.v
BusyTimeout.v
