(* ===== verification/Prelude.v ===== *)
(** * xqlite: verification of the SQLite NIF crate and its Elixir library

    This library models the Rust crate [native/xqlitenif/src], the part of xqlite
    that runs inside the BEAM and talks to SQLite, and the parts of the Elixir library
    [lib] with logic of their own, and proves what makes them correct.  Names such as
    [nif.rs] below are files of the first, [pragma.ex] of the second directory.

    ** The program

    An Elixir process calls a NIF.  A NIF decodes its terms ([util.rs]), takes the
    connection's lock ([connection.rs], [with_conn]), works on SQLite through rusqlite
    or through the C interface, and encodes a term or an error ([error.rs]).  SQLite
    calls back on the same thread: update, commit, rollback, WAL and log hooks, the
    progress handler and the busy handler.  Those callbacks read lists of subscribers
    that other NIFs change ([hook_util.rs]).  Statements, streams, blobs and sessions
    are resources with a raw pointer that several processes may use, finalize or let
    the garbage collector drop at any time.

    ** Files

    - [Prelude]: results, machine integers, byte strings, shared automation and lemmas.
    - [RustStr]: the [str] operations the source uses, UTF-8, decimal texts.
    - [Heap]: boxes, raw pointers and reference counts, where [None] is undefined
      behaviour (use after free, double free).
    - [Sqlite], [Terms]: SQLite's codes and values; BEAM terms and rustler's decoders.
    - [ConstraintParse] = [constraint_parse.rs]; [Error] = [error.rs]; [Util] =
      [util.rs]; [RustFloat], [SchemaDefault] = the column defaults of [schema.rs]
      (lines 19-305); [Schema] = its introspection functions (lines 307-909).
    - [HookList] = [hook_util.rs]; [Hooks] = [update_hook.rs], [commit_hook.rs],
      [rollback_hook.rs], [wal_hook.rs], [log_hook.rs]; [ProgressDispatch] =
      [progress_dispatch.rs] and [cancel.rs]; [BusyHandler] = [busy_handler.rs].
    - [Lifecycle]: the resources of [connection.rs], [stream.rs], [statement.rs],
      [blob.rs] and [session.rs] under concurrency, as a step system.
    - [Connection] = [connection.rs], with the state and error monad [M] of connection
      bodies; [Query] = [query.rs], [pragma.rs], [transaction.rs]; [Statements] =
      [stream.rs], [statement.rs] and their NIFs; [Blob] = [blob.rs]; [Session] =
      [session.rs] and the changeset NIFs; [Authorizer] = [authorizer.rs];
      [ExplainAnalyze] = [explain_analyze.rs]; [Maintenance], [Nif], [Entrypoints] =
      the remaining NIFs of [nif.rs]; [Unusable] = all of them on a closed or poisoned
      connection.
    - Compositions: [Resource] = the whole [XqliteConn] resource, from
      [handle_open_result] with its allocations through every hook and busy NIF to
      [Drop]; [LogHook] = [log_hook.rs] interleaved; [Cancellation] = a query, its
      tokens, the progress callback and the error it ends with.
    - Contracts: [Affinity] = SQLite's rules beside [type_affinity_to_atom]; [Atoms] =
      the atom table of [lib.rs]; [TypeSpec] = the types the Elixir modules publish for
      errors and results; [SchemaTypes] = those of the schema structs and the explain
      report; [Bounds] = the narrowing casts beside cast-free references.
    - Elixir: [TypeExtension] = [type_extension.ex] and the modules in [type_extension/];
      [ElixirStream] = [stream_resource_callbacks.ex] under [Stream.resource/3];
      [Elixir] = sequences of NIF calls; [StrictTable] = the STRICT check and rebuild
      of [xqlite.ex], [Regex] = its two regular expressions and a matcher for them; [ElixirPragma] = [pragma.ex], [pragma_spec.ex] and the options of
      [Xqlite.open/2]; [Bridge] = [telemetry/bridge.ex], [BridgePort] =
      the same over the hook NIFs;
      [BusyTimeout] = [PRAGMA busy_timeout] beside the busy slot, [busy_timeout/2] and
      the options of [set_busy_policy/2] of [xqlite.ex].

    Each definition keeps the name of the Rust item where it can.  A Rust string is
    its list of bytes; a w-bit integer is a [Z] with its wrap-around written out; an
    atom is its name; a heap object is reached through a pointer; [let?] is the [?]
    operator, [let!] propagates undefined behaviour, [let*] is the monad's bind.

    ** Interfaces

    [HookList] discharges [SubscriberListLaws], and the hooks and the dispatcher are
    proved against that class.  The connection resource and the log hook discharge
    [HookPortLaws] (who is subscribed to what), and the telemetry bridge is proved
    against that.  What lies outside the crate is a class of operations,
    with a second class for the documented behaviour a theorem relies on:
    [Beam] and [RusqliteText] (texts and allocation), [RusqliteConn], [SqliteApi] with
    [SqliteApiLaws], [BlobApi] with [BlobApiLaws], [ExplainApi] with [RusqliteDrops],
    [SessionApi] with [ApplyLaws] (ABORT rolls back), [MaintenanceApi], [HookInstall] with
    [HookInstallLaws], [BusyApi] with [BusyApiLaws], [OpenApi], [FloatText],
    [IntApi]; [RusqliteTextValid] (the texts are UTF-8), [TypedConn] (so are the cells),
    [TxnLaws] (SQLite's transactions), [TimeoutApi] with [TimeoutLaws] (its one busy
    handler), [ElixirLibs] (Elixir's calendar modules, Decimal and Jason).  Concrete
    instances at the end of each file serve the witnesses, and show that the laws can
    hold.

    ** What the theorems show

    - Memory safety and concurrency: [no_use_after_free], [sqlite_calls_serialised],
      [lifecycle_no_deadlock], [statements_do_not_leak] over every interleaving of the
      step system; [log_hook_no_use_after_free] over every interleaving of the log
      hook; [connection_frees_what_it_owns] from opening to dropping;
      [hooklist_refines_table], [busy_slot_survives_timeouts] (and, while the handler is
      the crate's, [busy_slot_refines_spec]), [cancellation_refines_spec] as refinements of small specifications by pointer code;
      [stmt_prepare_owns_what_it_creates], [cancellable_leaves_no_token];
      destructors have nothing left to do after a close ([destructor_after_close]).
    - Callbacks: [events_reach_every_subscriber], [ticks_are_decimated], [busy_event_ends]; [cancel_reaches_the_query] from the
      cancelled token to the error the caller gets.
    - Data: the round trips of values, parameters, UUIDs, defaults, constraint texts and
      error terms; names cut out of a message are valid UTF-8 when the message is
      ([parse_details_names_from]); the two row paths agree; quoting is faithful; no cast loses a bit
      ([casts_are_lossless]); affinities of ASCII types are SQLite's
      ([affinity_is_sqlites]).
    - Published interface: errors, query results, steps and fetches have their
      documented types, with the exceptions the theorems name
      ([errors_are_documented], [results_are_documented]); so do the schema structs and
      the explain report ([schema_answers_are_documented],
      [explain_report_is_documented]); every atom is declared ([atoms_are_declared]).
    - Elixir: [elixir_stream_delivers] from the step of a statement to the consumer, in
      every error mode; [strict_rebuild_is_atomic]; [pragma_put_is_contained];
      [open_runs_nine_pragmas]; [extension_values_survive_storage];
      [bridge_is_all_or_nothing] and [bridged_events_are_emitted], from SQLite's call to
      the telemetry event; [busy_timeout_takes_over].
    - Operations: streams deliver every row, batches, blobs, introspection, backup,
      changesets, the authorizer, [explain_analyze], the change counter, the
      autocheckpoint threshold; on a closed or poisoned connection they refuse
      without reaching SQLite, the exceptions stated ([unusable_connection_refuses]).

    Some theorems record behaviour the source does not intend:
    [stream_open_loses_statement], [explain_analyze_loses_statement],
    [stale_busy_handle_removes_another_observer],
    [capital_autocheckpoint_loses_wal_hook], [foreign_keys_need_target_column],
    [busy_call_at_drop_is_use_after_free], [generic_violation_is_undocumented],
    [dotless_i_is_misread], [failing_batch_is_lost],
    [strict_rebuild_discards_transaction], [unchecked_text_escapes_its_quotes],
    [qualified_autocheckpoint_is_not_mirrored], [text_key_is_unknown],
    [qualified_check_raises], [stale_removal_clears_timeout],
    [observer_replaces_open_timeout], [all_in_a_list_leaves_subscribers],
    [failed_log_bridge_leaves_its_process], [dotted_table_is_missplit],
    [quoted_name_is_kept], [without_rowid_is_not_strict].

    ** Bounds and fuel

    String functions recurse on the length of their input, which bounds the pieces they
    consume ([chars_fuel_enough], [split_join]).  [drain] runs on [length rs + 2] fetches: each
    delivers a row or ends the stream; [consume] likewise.  [step_loop] and [collect_scan_status] need more fuel
    than the statement has rows and loops; [backup_loop] more than the iteration at which it
    stops, and with less it is shown to be still running.  The matcher of [Regex] recurses
    on the text.  Handles are 64-bit and theorems about
    them bound the number of registrations by that.

    ** Not modelled

    SQLite, rusqlite and rustler themselves; the registration of the NIF table
    ([rustler::init!]) and the [Debug] instances; sleeping and wall-clock time other
    than as an argument; weak memory beyond sequentially consistent steps.  Of the
    Elixir library: the wrappers that only pass their arguments to one NIF, telemetry
    spans and the OpenTelemetry adapter, the mix tasks, NimbleOptions' validation (the
    validated options are an argument), table names with regular-expression
    metacharacters in the STRICT rebuild.  A telemetry bridge is created and removed by one process
    at a time, and its GenServer stops in the second it is given.  The step system of
    [Lifecycle] and the sequential [Resource] are not one model: the first has the
    interleavings of the handles, the second the contents of the hook lists, whose NIFs
    all run under the connection's lock ([sqlite_calls_serialised]). *)

From Stdlib Require Export ZArith Lia.
From stdpp Require Export base list sets gmap strings option numbers decidable.

#[global] Open Scope Z_scope.

(** ** Rust's [Result] and the [?] operator *)

Inductive result (T E : Type) : Type :=
| Ok (t : T)
| Err (e : E).

Arguments Ok {T E} t.
Arguments Err {T E} e.

Declare Scope rust_scope.
Delimit Scope rust_scope with rust.

(** [let? x := c in k] is Rust's [let x = c?; k]: an [Err] returns early. *)
Notation "'let?' x ':=' c 'in' k" :=
  (match c with Ok x => k | Err e => Err e end)
  (at level 10, x pattern, c at level 100, k at level 200)
  : rust_scope.
#[global] Open Scope rust_scope.

(** [Result::map_err] *)
Definition map_err {T E F : Type} (f : E -> F) (r : result T E) : result T F :=
  match r with Ok t => Ok t | Err e => Err (f e) end.

(** [Result::map] *)
Definition result_map {T U E : Type} (f : T -> U) (r : result T E) : result U E :=
  match r with Ok t => Ok (f t) | Err e => Err e end.

(** [Option::ok_or] *)
Definition ok_or {T E : Type} (e : E) (o : option T) : result T E :=
  match o with Some t => Ok t | None => Err e end.

(** [iter.map(f).collect::<Result<Vec<_>, _>>()]: stops at the first [Err]. *)
Fixpoint collect_map {A T E : Type} (f : A -> result T E) (l : list A)
    : result (list T) E :=
  match l with
  | [] => Ok []
  | a :: l' =>
      let? t := f a in
      let? ts := collect_map f l' in
      Ok (t :: ts)
  end.

#[export] Instance result_eq_dec {T E} `{EqDecision T, EqDecision E} :
  EqDecision (result T E).
Proof. solve_decision. Defined.

(** ** Machine integers, kept as [Z] with their widths written out *)

Definition wrap_unsigned (w x : Z) : Z := x mod 2 ^ w.
Definition wrap_signed (w x : Z) : Z :=
  let y := x mod 2 ^ w in if y <? 2 ^ (w - 1) then y else y - 2 ^ w.
Definition in_u (w x : Z) : bool := (0 <=? x) && (x <? 2 ^ w).
Definition in_i (w x : Z) : bool := (- 2 ^ (w - 1) <=? x) && (x <? 2 ^ (w - 1)).

Definition i32_max : Z := 2147483647.
Definition i32_min : Z := -2147483648.
Definition i64_max : Z := 9223372036854775807.
Definition i64_min : Z := -9223372036854775808.
Definition u64_max : Z := 18446744073709551615.

(** ** Byte strings

    A Rust [String]/[&str] is its UTF-8 byte sequence, a byte is a [Z] in
    [0, 256).  [str "..."] is a string literal of the source. *)

Abbreviation bytes := (list Z).

Definition byte_of_ascii (a : Ascii.ascii) : Z := Z.of_N (Ascii.N_of_ascii a).
Fixpoint str (s : string) : bytes :=
  match s with
  | EmptyString => []
  | String a s' => byte_of_ascii a :: str s'
  end.

(** A [char] literal. *)
Definition chr (s : string) : Z := default 0 (head (str s)).

(** The two quote characters, which a literal would have to escape. *)
Definition QUOTE : Z := 39.
Definition DQUOTE : Z := 34.

Definition bytes_eqb (a b : bytes) : bool := bool_decide (a = b).

(** ** Automation *)

Create HintDb xq.

Ltac simp_res :=
  repeat match goal with
  | H : Ok _ = Ok _ |- _ => injection H as H; try subst
  | H : Err _ = Err _ |- _ => injection H as H; try subst
  | H : Some _ = Some _ |- _ => injection H as H; try subst
  | H : Ok _ = Err _ |- _ => discriminate H
  | H : Err _ = Ok _ |- _ => discriminate H
  | H : Some _ = None |- _ => discriminate H
  | H : None = Some _ |- _ => discriminate H
  end.

(** Case analysis on the scrutinee of the innermost [match] of the goal or of
    a hypothesis, keeping the equation. *)
Ltac break_match :=
  match goal with
  | |- context [match ?x with _ => _ end] =>
      lazymatch x with context [match _ with _ => _ end] => fail | _ => destruct x eqn:? end
  | H : context [match ?x with _ => _ end] |- _ =>
      lazymatch x with context [match _ with _ => _ end] => fail | _ => destruct x eqn:? end
  end.
Ltac break := repeat (break_match; simp_res; try discriminate; try congruence).

(** Proves a closed decidable proposition by evaluating its decision. *)
Ltac by_compute :=
  match goal with
  | |- ?P => apply (bool_decide_unpack P); vm_compute; exact I
  end.

(** ** Generic lemmas *)

Lemma bytes_eqb_eq a b : bytes_eqb a b = true <-> a = b.
Proof. apply bool_decide_eq_true. Qed.

Lemma bytes_eqb_refl a : bytes_eqb a a = true.
Proof. by apply bytes_eqb_eq. Qed.

Lemma str_app (a b : string) : str (a +:+ b) = str a ++ str b.
Proof. induction a as [|c a IH]; simpl; [done|]. by rewrite IH. Qed.

Lemma byte_of_ascii_bound a : 0 <= byte_of_ascii a < 256.
Proof. unfold byte_of_ascii. pose proof (Ascii.N_ascii_bounded a). lia. Qed.

Lemma str_bound s : Forall (fun b => 0 <= b < 256) (str s).
Proof. induction s; simpl; constructor; auto using byte_of_ascii_bound. Qed.

Lemma byte_of_ascii_inj a b : byte_of_ascii a = byte_of_ascii b -> a = b.
Proof.
  unfold byte_of_ascii. intros H.
  rewrite <- (Ascii.ascii_N_embedding a), <- (Ascii.ascii_N_embedding b).
  f_equal. lia.
Qed.

Lemma str_inj a b : str a = str b -> a = b.
Proof.
  revert b; induction a as [|c a IH]; intros [|d b]; simpl; try discriminate; [done|].
  intros [= Hc%byte_of_ascii_inj Ht]. subst. f_equal. by apply IH.
Qed.

Lemma collect_map_ok {A T E} (f : A -> result T E) l ts :
  collect_map f l = Ok ts <-> Forall2 (fun a t => f a = Ok t) l ts.
Proof.
  revert ts. induction l as [|a l IH]; intros ts; simpl.
  - split.
    + intros [= <-]. constructor.
    + intros H. by inversion H.
  - split.
    + destruct (f a) as [t|e] eqn:Ha; [|discriminate].
      destruct (collect_map f l) as [ts'|e] eqn:Hl; [|discriminate].
      intros [= <-]. constructor; [done|]. by apply IH.
    + intros H. inversion H as [|? t ? ts' Ha Hl]; subst.
      rewrite Ha. apply IH in Hl. by rewrite Hl.
Qed.

Lemma collect_map_err {A T E} (f : A -> result T E) l e :
  collect_map f l = Err e <->
  exists l1 a l2, l = l1 ++ a :: l2 /\ f a = Err e /\ Forall (fun x => exists t, f x = Ok t) l1.
Proof.
  induction l as [|a l IH]; simpl.
  - split; [discriminate|]. intros (l1 & a & l2 & H & _). by destruct l1.
  - destruct (f a) as [t|e'] eqn:Ha.
    + split.
      * destruct (collect_map f l) as [ts|e''] eqn:Hl; [discriminate|].
        intros [= ->]. destruct IH as [IH _].
        destruct (IH eq_refl) as (l1 & x & l2 & -> & Hx & HF).
        exists (a :: l1), x, l2. split_and!; [done|done|]. constructor; eauto.
      * intros (l1 & x & l2 & Heq & Hx & HF).
        destruct l1 as [|y l1]; simplify_eq/=; [congruence|].
        inversion HF; subst.
        destruct IH as [_ IH]. rewrite IH; eauto 10.
    + split.
      * intros [= ->]. exists [], a, l. eauto.
      * intros (l1 & x & l2 & Heq & Hx & HF).
        destruct l1 as [|y l1]; simplify_eq/=; [congruence|].
        inversion HF as [|? ? (t & Ht)]; congruence.
Qed.

(** A filter keeps everything exactly when it keeps the length. *)
Lemma filter_same_length {A} (P : A -> Prop) `{forall x, Decision (P x)} (l : list A) :
  length (filter P l) = length l <-> Forall P l.
Proof.
  induction l as [|a l IH]; [done|]. rewrite filter_cons.
  destruct (decide (P a)) as [Ha|Ha]; simpl.
  - rewrite Forall_cons_iff, <- IH. split; [|intros [_ ->]; done]. intros. split; [done|lia].
  - pose proof (length_filter P l). split; [lia|]. by intros Hf%Forall_inv.
Qed.

Lemma filter_all {A} (P : A -> Prop) `{forall x, Decision (P x)} (l : list A) :
  Forall P l -> filter P l = l.
Proof.
  induction 1 as [|a l Ha HF IH]; [done|]. rewrite filter_cons, decide_True by done. by f_equal.
Qed.

Lemma sublist_map {A B} (f : A -> B) l k : sublist l k -> sublist (map f l) (map f k).
Proof. induction 1; simpl; constructor; auto. Qed.

#[global] Arguments str : simpl never.
