(* ===== verification/RustStr.v ===== *)
(** * The [str] and [u8] methods of Rust's standard library that the crate uses

    A [str] is its UTF-8 byte sequence ([Prelude.bytes]).  Each function is the
    documented behaviour of the method of the same name; patterns are byte
    strings (a [char] pattern is the singleton of an ASCII byte, which is how
    every call site of the crate uses it). *)

From Stdlib Require Import Numbers.DecimalPos Numbers.DecimalZ.
From S2P Require Import Prelude.

(** ** [u8] predicates *)

Definition is_ascii_digit (b : Z) : bool := (48 <=? b) && (b <=? 57).
Definition is_ascii_lowercase (b : Z) : bool := (97 <=? b) && (b <=? 122).
Definition is_ascii_uppercase (b : Z) : bool := (65 <=? b) && (b <=? 90).
Definition is_ascii_alphanumeric (b : Z) : bool :=
  is_ascii_digit b || is_ascii_lowercase b || is_ascii_uppercase b.
Definition is_ascii_hexdigit (b : Z) : bool :=
  is_ascii_digit b || ((97 <=? b) && (b <=? 102)) || ((65 <=? b) && (b <=? 70)).

(** [char::to_digit(16)] *)
Definition to_digit16 (b : Z) : option Z :=
  if is_ascii_digit b then Some (b - 48)
  else if (97 <=? b) && (b <=? 102) then Some (b - 87)
  else if (65 <=? b) && (b <=? 70) then Some (b - 55)
  else None.

Definition to_ascii_lowercase (b : Z) : Z := if is_ascii_uppercase b then b + 32 else b.
Definition to_ascii_uppercase (b : Z) : Z := if is_ascii_lowercase b then b - 32 else b.

(** [str::eq_ignore_ascii_case] *)
Definition eq_ignore_ascii_case (a b : bytes) : bool :=
  bytes_eqb (map to_ascii_lowercase a) (map to_ascii_lowercase b).

(** ** Prefixes, suffixes, searching *)

Fixpoint strip_prefix (p s : bytes) : option bytes :=
  match p, s with
  | [], _ => Some s
  | _ :: _, [] => None
  | a :: p', b :: s' => if a =? b then strip_prefix p' s' else None
  end.

Definition strip_suffix (p s : bytes) : option bytes :=
  match strip_prefix (rev p) (rev s) with
  | Some r => Some (rev r)
  | None => None
  end.

Definition starts_with (p s : bytes) : bool :=
  match strip_prefix p s with Some _ => true | None => false end.

(** [str::split_once]: the text before and after the first occurrence. *)
Fixpoint split_once (p s : bytes) : option (bytes * bytes) :=
  match strip_prefix p s with
  | Some r => Some ([], r)
  | None =>
      match s with
      | [] => None
      | b :: s' =>
          match split_once p s' with
          | Some (l, r) => Some (b :: l, r)
          | None => None
          end
      end
  end.

(** [str::contains] *)
Definition contains (p s : bytes) : bool :=
  match split_once p s with Some _ => true | None => false end.

(** [str::split]: the parts between the successive non-overlapping
    occurrences of a non-empty pattern; [length s] rounds suffice, since each
    one consumes at least one byte. *)
Fixpoint split_fuel (n : nat) (p s : bytes) : list bytes :=
  match n with
  | O => [s]
  | S n' =>
      match split_once p s with
      | Some (l, r) => l :: split_fuel n' p r
      | None => [s]
      end
  end.
Definition split (p s : bytes) : list bytes := split_fuel (length s) p s.

(** [str::split_once] with a set of ASCII characters as the pattern. *)
Fixpoint split_once_any (cs : bytes) (s : bytes) : option (bytes * bytes) :=
  match s with
  | [] => None
  | b :: s' =>
      if bool_decide (b ∈ cs) then Some ([], s')
      else match split_once_any cs s' with
           | Some (l, r) => Some (b :: l, r)
           | None => None
           end
  end.

(** [str::replace] of one ASCII character by a string. *)
Definition replace_char (c : Z) (by_ : bytes) (s : bytes) : bytes :=
  flat_map (fun b => if b =? c then by_ else [b]) s.

(** ** [str::trim]: the code points with the Unicode White_Space property, as
    their UTF-8 encodings *)

Definition white_space : list bytes :=
  [[9]; [10]; [11]; [12]; [13]; [32]; [194; 133]; [194; 160]; [225; 154; 128];
   [226; 128; 128]; [226; 128; 129]; [226; 128; 130]; [226; 128; 131];
   [226; 128; 132]; [226; 128; 133]; [226; 128; 134]; [226; 128; 135];
   [226; 128; 136]; [226; 128; 137]; [226; 128; 138]; [226; 128; 168];
   [226; 128; 169]; [226; 128; 175]; [226; 129; 159]; [227; 128; 128]].

Fixpoint strip_any (strip : bytes -> bytes -> option bytes) (ps : list bytes) (s : bytes)
    : option bytes :=
  match ps with
  | [] => None
  | p :: ps' =>
      match strip p s with Some r => Some r | None => strip_any strip ps' s end
  end.

Fixpoint strip_loop (n : nat) (strip : bytes -> bytes -> option bytes) (s : bytes) : bytes :=
  match n with
  | O => s
  | S n' =>
      match strip_any strip white_space s with
      | Some r => strip_loop n' strip r
      | None => s
      end
  end.

Definition trim_start (s : bytes) : bytes := strip_loop (length s) strip_prefix s.
Definition trim_end (s : bytes) : bytes := strip_loop (length s) strip_suffix s.
Definition trim (s : bytes) : bytes := trim_end (trim_start s).

(** ** UTF-8

    [utf8_char s] reads one well-formed encoded code point off the front of
    [s] (Unicode table 3-7), [utf8_valid] is [str::from_utf8(..).is_ok()]. *)

Definition is_cont (b : Z) : bool := (128 <=? b) && (b <=? 191).

Definition utf8_char (s : bytes) : option (bytes * bytes) :=
  match s with
  | b0 :: s0 =>
      if (0 <=? b0) && (b0 <=? 127) then Some ([b0], s0)
      else match s0 with
      | b1 :: s1 =>
          if (194 <=? b0) && (b0 <=? 223) && is_cont b1 then Some ([b0; b1], s1)
          else match s1 with
          | b2 :: s2 =>
              if ((b0 =? 224) && (160 <=? b1) && (b1 <=? 191)
                  || ((225 <=? b0) && (b0 <=? 236) || (238 <=? b0) && (b0 <=? 239)) && is_cont b1
                  || (b0 =? 237) && (128 <=? b1) && (b1 <=? 159)) && is_cont b2
              then Some ([b0; b1; b2], s2)
              else match s2 with
              | b3 :: s3 =>
                  if ((b0 =? 240) && (144 <=? b1) && (b1 <=? 191)
                      || (241 <=? b0) && (b0 <=? 243) && is_cont b1
                      || (b0 =? 244) && (128 <=? b1) && (b1 <=? 143)) && is_cont b2 && is_cont b3
                  then Some ([b0; b1; b2; b3], s3)
                  else None
              | [] => None
              end
          | [] => None
          end
      | [] => None
      end
  | [] => None
  end.

(** The characters of a string; a byte that starts no well-formed character
    stands alone (never the case in a Rust [str]). *)
Fixpoint chars_fuel (n : nat) (s : bytes) : list bytes :=
  match n, s with
  | S n', b :: s' =>
      match utf8_char s with
      | Some (c, r) => c :: chars_fuel n' r
      | None => [b] :: chars_fuel n' s'
      end
  | _, _ => []
  end.
Definition chars (s : bytes) : list bytes := chars_fuel (length s) s.

Fixpoint utf8_valid_fuel (n : nat) (s : bytes) : bool :=
  match s with
  | [] => true
  | _ :: _ =>
      match n with
      | O => false
      | S n' => match utf8_char s with Some (_, r) => utf8_valid_fuel n' r | None => false end
      end
  end.
Definition utf8_valid (s : bytes) : bool := utf8_valid_fuel (length s) s.

(** ** Case conversion

    ASCII characters are mapped as documented; the image of a non-ASCII
    character is Unicode data (it may depend on the neighbouring characters,
    as Greek sigma does), so it is an argument: a table gets all the
    characters and the position of the one it maps. *)

Definition case_table : Type := list bytes -> nat -> bytes.

Definition map_case_char (ascii : Z -> Z) (tbl : case_table) (cs : list bytes)
    (i : nat) (c : bytes) : bytes :=
  match c with
  | [b] => if b <=? 127 then [ascii b] else tbl cs i
  | _ => tbl cs i
  end.

Definition map_case (ascii : Z -> Z) (tbl : case_table) (s : bytes) : bytes :=
  let cs := chars s in concat (imap (map_case_char ascii tbl cs) cs).

Definition to_lowercase : case_table -> bytes -> bytes := map_case to_ascii_lowercase.
Definition to_uppercase : case_table -> bytes -> bytes := map_case to_ascii_uppercase.

(** ** Integers as text *)

(** [Display] for the integer types. *)
Fixpoint uint_bytes (d : Decimal.uint) : bytes :=
  match d with
  | Decimal.Nil => []
  | Decimal.D0 d => 48 :: uint_bytes d
  | Decimal.D1 d => 49 :: uint_bytes d
  | Decimal.D2 d => 50 :: uint_bytes d
  | Decimal.D3 d => 51 :: uint_bytes d
  | Decimal.D4 d => 52 :: uint_bytes d
  | Decimal.D5 d => 53 :: uint_bytes d
  | Decimal.D6 d => 54 :: uint_bytes d
  | Decimal.D7 d => 55 :: uint_bytes d
  | Decimal.D8 d => 56 :: uint_bytes d
  | Decimal.D9 d => 57 :: uint_bytes d
  end.
Definition show_Z (z : Z) : bytes :=
  match Z.to_int z with
  | Decimal.Pos d => uint_bytes d
  | Decimal.Neg d => 45 :: uint_bytes d
  end.

(** Value of a digit string in a base (the digits are already checked). *)
Definition digits_value (base : Z) (s : bytes) : Z :=
  fold_left (fun acc b => acc * base + default 0 (to_digit16 b)) s 0.

(** [u64::from_str_radix(s, 16)] *)
Definition u64_from_str_radix16 (s : bytes) : option Z :=
  let body := default s (strip_prefix [43] s) in
  if bool_decide (body = []) || negb (forallb is_ascii_hexdigit body) then None
  else let v := digits_value 16 body in if in_u 64 v then Some v else None.

(** [str::parse::<i64>] *)
Definition parse_i64 (s : bytes) : option Z :=
  let '(neg, body) :=
    match strip_prefix [45] s with
    | Some r => (true, r)
    | None => (false, default s (strip_prefix [43] s))
    end in
  if bool_decide (body = []) || negb (forallb is_ascii_digit body) then None
  else let v := digits_value 10 body in
       let v := if (neg : bool) then - v else v in
       if in_i 64 v then Some v else None.

(** ** Lemmas: prefixes and suffixes *)

Lemma strip_prefix_app p s : strip_prefix p (p ++ s) = Some s.
Proof. induction p as [|a p IH]; simpl; [done|]. by rewrite Z.eqb_refl. Qed.

Lemma strip_prefix_some p s r : strip_prefix p s = Some r <-> s = p ++ r.
Proof.
  split; [|intros ->; apply strip_prefix_app].
  revert s; induction p as [|a p IH]; intros [|b s]; simpl; try congruence.
  destruct (Z.eqb_spec a b) as [->|]; [|discriminate].
  intros H%IH. congruence.
Qed.

Lemma strip_suffix_some p s r : strip_suffix p s = Some r <-> s = r ++ p.
Proof.
  unfold strip_suffix. split.
  - destruct (strip_prefix (rev p) (rev s)) as [q|] eqn:H; [|discriminate].
    intros [= <-]. apply strip_prefix_some in H.
    rewrite <- (rev_involutive s), H, rev_app_distr. by rewrite !rev_involutive.
  - intros ->. rewrite rev_app_distr, strip_prefix_app. by rewrite rev_involutive.
Qed.

Lemma strip_suffix_app s p : strip_suffix p (s ++ p) = Some s.
Proof. by apply strip_suffix_some. Qed.

Lemma starts_with_app p s : starts_with p (p ++ s) = true.
Proof. unfold starts_with. by rewrite strip_prefix_app. Qed.

Lemma starts_with_true p s : starts_with p s = true <-> exists r, s = p ++ r.
Proof.
  unfold starts_with. split.
  - destruct (strip_prefix p s) as [r|] eqn:H; [|discriminate].
    intros _. exists r. by apply strip_prefix_some.
  - intros [r ->]. by rewrite strip_prefix_app.
Qed.

(** ** Lemmas: [split_once] and [split] *)

Lemma split_once_sound p s l r : split_once p s = Some (l, r) -> s = l ++ p ++ r.
Proof.
  revert l r; induction s as [|b s IH]; intros l r; simpl.
  - destruct (strip_prefix p []) as [q|] eqn:H; [|discriminate].
    intros [= <- <-]. by apply strip_prefix_some in H.
  - destruct (strip_prefix p (b :: s)) as [q|] eqn:H.
    + intros [= <- <-]. by apply strip_prefix_some in H.
    + destruct (split_once p s) as [[l' r']|] eqn:Hs; [|discriminate].
      intros [= <- <-]. simpl. f_equal. by apply IH.
Qed.

(** [p] does not occur in [s] *)
Definition absent (p s : bytes) : Prop := split_once p s = None.

Lemma split_once_none p s : split_once p s = None <-> forall l r, s <> l ++ p ++ r.
Proof.
  split.
  - revert s. induction s as [|b s IH]; simpl; intros H l r Heq.
    + destruct l; destruct p; try discriminate. 
    + destruct l as [|c l]; simpl in Heq.
      * rewrite Heq, strip_prefix_app in H. discriminate.
      * injection Heq as -> Heq. destruct (strip_prefix p (c :: s)); [discriminate|].
        destruct (split_once p s) as [[??]|] eqn:E; [discriminate|].
        by apply (IH eq_refl l r).
  - intros H. destruct (split_once p s) as [[l r]|] eqn:E; [|done].
    apply split_once_sound in E. by destruct (H l r).
Qed.

(** A one-byte pattern is found after a prefix that does not contain it. *)
Lemma split_once_char c l r : c ∉ l -> split_once [c] (l ++ c :: r) = Some (l, r).
Proof.
  induction l as [|b l IH]; simpl; intros H.
  - by rewrite Z.eqb_refl.
  - destruct (Z.eqb_spec c b) as [->|]; [set_solver|].
    destruct l; simpl in *; rewrite IH by set_solver; done.
Qed.

Lemma split_once_char_none c s : c ∉ s -> split_once [c] s = None.
Proof.
  intros H. apply split_once_none. intros l r ->. set_solver.
Qed.

(** The pattern occurs at the end of [l] and no earlier occurrence starts in
    [l], whatever follows: the condition [split_once] needs to stop there. *)
Definition first_at (p l : bytes) : Prop :=
  forall i, (i < length l)%nat -> forall r, strip_prefix p (drop i l ++ p ++ r) = None.

Lemma split_once_at p l r : first_at p l -> split_once p (l ++ p ++ r) = Some (l, r).
Proof.
  induction l as [|b l IH]; intros H; simpl.
  - destruct (p ++ r) eqn:E; simpl; rewrite <- E, strip_prefix_app; done.
  - rewrite (H O ltac:(simpl; lia) r : strip_prefix p (b :: l ++ p ++ r) = None).
    rewrite IH; [done|]. intros i Hi r'. apply (H (S i)). simpl; lia.
Qed.

(** A prefix free of the pattern's first byte satisfies [first_at]. *)
Lemma first_at_fresh c p l : c ∉ l -> first_at (c :: p) l.
Proof.
  intros H i Hi r. destruct (drop i l) as [|b q] eqn:E.
  - apply (f_equal length) in E. rewrite length_drop in E. simpl in E. lia.
  - simpl. destruct (Z.eqb_spec c b) as [->|]; [|done].
    exfalso. apply H. apply list_elem_of_In. rewrite <- (firstn_skipn i l).
    apply in_or_app. right. change (b ∈ (drop i l)) with (b ∈ drop i l).
    apply list_elem_of_In. rewrite E. set_solver.
Qed.

Lemma split_fuel_none n p s : split_once p s = None -> split_fuel n p s = [s].
Proof. intros H. destruct n; simpl; [done|]. by rewrite H. Qed.

(** Joining the parts with the pattern gives the string back. *)
Fixpoint join (sep : bytes) (l : list bytes) : bytes :=
  match l with
  | [] => []
  | [x] => x
  | x :: l' => x ++ sep ++ join sep l'
  end.

Lemma join_cons sep x l : l <> [] -> join sep (x :: l) = x ++ sep ++ join sep l.
Proof. by destruct l. Qed.

Lemma split_fuel_nonempty n p s : split_fuel n p s <> [].
Proof. destruct n; simpl; [done|]. by destruct (split_once p s) as [[??]|]. Qed.

Lemma split_fuel_join n p s : join p (split_fuel n p s) = s.
Proof.
  revert s; induction n as [|n IH]; intros s; simpl; [done|].
  destruct (split_once p s) as [[l r]|] eqn:E; [|done].
  rewrite join_cons by apply split_fuel_nonempty. rewrite IH. symmetry.
  by apply split_once_sound.
Qed.

Lemma split_join p s : join p (split p s) = s.
Proof. apply split_fuel_join. Qed.

(** Splitting undoes joining when no part contains the pattern's first byte. *)
Lemma split_fuel_of_join c p l n :
  l <> [] -> Forall (fun x => c ∉ x) l -> (length (join (c :: p) l) <= n)%nat ->
  split_fuel n (c :: p) (join (c :: p) l) = l.
Proof.
  revert n; induction l as [|x l IH]; intros n Hne HF Hn; [done|].
  inversion HF as [|? ? Hx Hl]; subst.
  destruct l as [|y l].
  - simpl in *. apply split_fuel_none. apply split_once_none. intros a b ->. set_solver.
  - rewrite (join_cons _ x) in * by done. rewrite !length_app in Hn. cbn [length] in Hn.
    destruct n as [|n]; [lia|]. cbn [split_fuel].
    rewrite split_once_at by (by apply first_at_fresh).
    rewrite IH; [done|done|done|lia].
Qed.

Lemma split_of_join c p l :
  l <> [] -> Forall (fun x => c ∉ x) l -> split (c :: p) (join (c :: p) l) = l.
Proof. intros. apply split_fuel_of_join; auto. Qed.

Lemma contains_mid p l r : contains p (l ++ p ++ r) = true.
Proof.
  unfold contains. destruct (split_once p (l ++ p ++ r)) as [[??]|] eqn:E; [done|].
  rewrite split_once_none in E. by destruct (E l r).
Qed.

(** ** Lemmas: case conversion of ASCII text *)

Definition ascii_text (p : bytes) : Prop := Forall (fun b => 0 <= b <= 127) p.

Lemma utf8_char_ascii b s : 0 <= b <= 127 -> utf8_char (b :: s) = Some ([b], s).
Proof.
  intros H. simpl. rewrite (proj2 (andb_true_iff _ _)); [done|].
  split; apply Z.leb_le; lia.
Qed.

Lemma chars_fuel_ascii p s n :
  ascii_text p -> chars_fuel (length p + n) (p ++ s) = map (fun b => [b]) p ++ chars_fuel n s.
Proof.
  induction 1 as [|b p Hb HF IH]; [done|].
  cbn [length app map Nat.add chars_fuel]. by rewrite utf8_char_ascii, IH.
Qed.

Lemma chars_ascii p s : ascii_text p -> chars (p ++ s) = map (fun b => [b]) p ++ chars s.
Proof. intros H. unfold chars. rewrite length_app. by apply chars_fuel_ascii. Qed.

(** Reading a character never runs past the end of [x] into a byte that is no
    continuation byte, such as one of the ASCII range. *)
Lemma utf8_char_app_lead x b s :
  x <> [] -> is_cont b = false ->
  utf8_char (x ++ b :: s) =
  match utf8_char x with Some (c, r) => Some (c, r ++ b :: s) | None => None end.
Proof.
  intros Hx Hb. unfold utf8_char, is_cont in *.
  destruct x as [|b0 [|b1 [|b2 [|b3 x]]]]; [done|..]; cbn [app];
    repeat case_match; simplify_eq; try done; lia.
Qed.

Lemma utf8_char_app_ascii x b s :
  x <> [] -> 0 <= b <= 127 ->
  utf8_char (x ++ b :: s) =
  match utf8_char x with Some (c, r) => Some (c, r ++ b :: s) | None => None end.
Proof. intros Hx Hb. apply utf8_char_app_lead; [done|]. unfold is_cont. lia. Qed.

Lemma utf8_char_shorter s c r : utf8_char s = Some (c, r) -> (length r < length s)%nat.
Proof. unfold utf8_char. intros H. repeat case_match; simplify_eq; simpl; lia. Qed.

(** With enough fuel the characters do not depend on it. *)
Lemma chars_fuel_enough n s : (length s <= n)%nat -> chars_fuel n s = chars_fuel (length s) s.
Proof.
  revert s. induction (lt_wf n) as [n _ IH]. intros s Hn.
  destruct n as [|n], s as [|b s]; try done; [simpl in Hn; lia|].
  cbn [chars_fuel length].
  destruct (utf8_char (b :: s)) as [[c r]|] eqn:E.
  - apply utf8_char_shorter in E. simpl in E, Hn. f_equal.
    rewrite (IH n) by lia. destruct (decide (length s = n)) as [->|]; [by rewrite (IH n) by lia|].
    symmetry. apply IH; lia.
  - simpl in Hn. f_equal. rewrite (IH n) by lia. done.
Qed.

Lemma chars_app_ascii x b s :
  0 <= b <= 127 -> chars (x ++ b :: s) = chars x ++ chars (b :: s).
Proof.
  intros Hb. remember (length x) as n eqn:Hn.
  revert x Hn. induction (lt_wf n) as [n _ IH]. intros x ->.
  destruct x as [|a x]; [done|]. unfold chars at 1 2. rewrite length_app.
  cbn [length Nat.add chars_fuel app].
  pose proof (utf8_char_app_ascii (a :: x) b s ltac:(done) Hb) as H. cbn [app] in H. rewrite H.
  destruct (utf8_char (a :: x)) as [[c r]|] eqn:E.
  - apply utf8_char_shorter in E. simpl in E. cbn [app]. f_equal.
    rewrite chars_fuel_enough by (rewrite length_app; simpl; lia).
    rewrite (chars_fuel_enough (length x)) by lia. apply (IH (length r)); simpl; lia.
  - cbn [app]. f_equal. rewrite chars_fuel_enough by (rewrite length_app; simpl; lia).
    apply (IH (length x)); simpl; lia.
Qed.

Lemma map_case_run f tbl cs p n :
  ascii_text p ->
  concat (imap (fun i => map_case_char f tbl cs (n + i)) (map (fun b => [b]) p)) = map f p.
Proof.
  intros Hp. revert n. induction Hp as [|a q Ha HF IH]; intros n; [done|].
  cbn [map imap concat]. unfold map_case_char at 1. rewrite (proj2 (Z.leb_le a 127)) by lia.
  cbn [app]. f_equal. rewrite <- (IH (S n)). f_equal. apply imap_ext. intros i y _.
  unfold compose. by replace (n + S i)%nat with (S n + i)%nat by lia.
Qed.

(** The conversion of ASCII text is the byte-wise one, whatever surrounds it. *)
Lemma map_case_ascii f tbl x p s :
  ascii_text p -> p <> [] ->
  exists l r, map_case f tbl (x ++ p ++ s) = l ++ map f p ++ r /\ (x = [] -> l = []).
Proof.
  intros Hp Hne. destruct p as [|b p]; [done|].
  assert (Hb : 0 <= b <= 127) by (by inversion Hp).
  unfold map_case.
  assert (Hc : chars (x ++ (b :: p) ++ s) = chars x ++ map (fun b => [b]) (b :: p) ++ chars s).
  { rewrite <- (chars_ascii _ s Hp). by apply chars_app_ascii. }
  set (F := map_case_char f tbl _). rewrite Hc, imap_app, imap_app, !concat_app.
  match goal with |- exists l r, ?A ++ (?B ++ ?C) = _ /\ _ => exists A, C end.
  split; [|by intros ->]. f_equal. f_equal.
  by apply map_case_run.
Qed.

Lemma to_lowercase_prefix tbl p s :
  ascii_text p -> p <> [] -> exists r, to_lowercase tbl (p ++ s) = map to_ascii_lowercase p ++ r.
Proof.
  intros Hp Hne. destruct (map_case_ascii to_ascii_lowercase tbl [] p s Hp Hne) as (l & r & H & Hl).
  exists r. rewrite Hl in H by done. exact H.
Qed.

Lemma to_lowercase_contains tbl x p s :
  ascii_text p -> p <> [] ->
  contains (map to_ascii_lowercase p) (to_lowercase tbl (x ++ p ++ s)) = true.
Proof.
  intros Hp Hne. destruct (map_case_ascii to_ascii_lowercase tbl x p s Hp Hne) as (l & r & H & _).
  unfold to_lowercase. rewrite H. apply contains_mid.
Qed.

(** ** Lemmas: [trim] *)

Definition not_ws_start (b : Z) : bool :=
  forallb (fun p => negb (default b (list.head p) =? b)) white_space.
Definition not_ws_end (b : Z) : bool :=
  forallb (fun p => negb (default b (list.last p) =? b)) white_space.

Lemma strip_any_none strip ps s :
  Forall (fun p => strip p s = None) ps -> strip_any strip ps s = None.
Proof. induction 1 as [|p ps Hp HF IH]; simpl; [done|]. by rewrite Hp. Qed.

Lemma strip_prefix_head b s p : negb (default b (list.head p) =? b) = true -> strip_prefix p (b :: s) = None.
Proof.
  destruct p as [|a p]; simpl; [lia|]. intros H. by destruct (Z.eqb_spec a b).
Qed.

Lemma last_rev (l : bytes) : list.head (rev l) = list.last l.
Proof.
  induction l as [|a l IH] using rev_ind; [done|]. rewrite rev_app_distr, last_snoc. done.
Qed.

Lemma strip_suffix_last b s p : negb (default b (list.last p) =? b) = true -> strip_suffix p (s ++ [b]) = None.
Proof.
  intros H. unfold strip_suffix. rewrite rev_app_distr. cbn [rev app].
  rewrite strip_prefix_head; [done|]. by rewrite last_rev.
Qed.

Lemma strip_loop_none n strip s : strip_any strip white_space s = None -> strip_loop n strip s = s.
Proof. intros H. destruct n; cbn [strip_loop]; [done|]. by rewrite H. Qed.

Lemma trim_start_id b s : not_ws_start b = true -> trim_start (b :: s) = b :: s.
Proof.
  intros H. apply strip_loop_none, strip_any_none. unfold not_ws_start in H.
  apply Forall_forall. intros p Hp.
  apply strip_prefix_head. rewrite forallb_forall in H. apply H. exact Hp.
Qed.

Lemma trim_end_id b s : not_ws_end b = true -> trim_end (s ++ [b]) = s ++ [b].
Proof.
  intros H. apply strip_loop_none, strip_any_none. apply Forall_forall. intros p Hp.
  apply strip_suffix_last. unfold not_ws_end in H. rewrite forallb_forall in H.
  apply H. exact Hp.
Qed.

(** Text that begins and ends with no white space is its own [trim]. *)
Lemma trim_id b s c : not_ws_start b = true -> not_ws_end c = true ->
  list.head s = Some b -> list.last s = Some c -> trim s = s.
Proof.
  intros Hb Hc Hh Hl. destruct s as [|b' s]; [done|]. injection Hh as ->.
  unfold trim. rewrite trim_start_id by done.
  apply last_Some in Hl as [l Hl]. rewrite Hl. by apply trim_end_id.
Qed.

(** ** Lemmas: integers as text *)

Definition digit_text (d : bytes) : Prop := d <> [] /\ forallb is_ascii_digit d = true.

Lemma uint_bytes_digits d : forallb is_ascii_digit (uint_bytes d) = true.
Proof. induction d; simpl; auto. Qed.

Lemma digits_value_acc d p :
  fold_left (fun acc b => acc * 10 + default 0 (to_digit16 b)) (uint_bytes d) (Zpos p)
  = Zpos (Pos.of_uint_acc d p).
Proof.
  revert p; induction d as [|d IH|d IH|d IH|d IH|d IH|d IH|d IH|d IH|d IH|d IH]; intros p;
    [done|..]; cbn [uint_bytes fold_left Pos.of_uint_acc].
  all: rewrite <- IH; f_equal; cbn; lia.
Qed.

Lemma digits_value_uint d : digits_value 10 (uint_bytes d) = Z.of_uint d.
Proof.
  unfold digits_value, Z.of_uint, Z.of_N.
  induction d; try done; cbn [uint_bytes fold_left Pos.of_uint]; try exact (digits_value_acc _ _).
Qed.

Lemma pos_uint_text p : digit_text (uint_bytes (Pos.to_uint p)) /\
  digits_value 10 (uint_bytes (Pos.to_uint p)) = Zpos p.
Proof.
  rewrite digits_value_uint. split; [split|].
  - pose proof (DecimalPos.Unsigned.to_uint_nonnil p). by destruct (Pos.to_uint p).
  - apply uint_bytes_digits.
  - exact (DecimalZ.of_to (Zpos p)).
Qed.

(** The shape of a printed integer: an optional minus sign and its digits. *)
Lemma show_Z_spec z : exists d, digit_text d /\ digits_value 10 d = Z.abs z /\
  show_Z z = (if z <? 0 then 45 :: d else d).
Proof.
  destruct z as [|p|p].
  - exists [48]. done.
  - exists (uint_bytes (Pos.to_uint p)). destruct (pos_uint_text p). done.
  - exists (uint_bytes (Pos.to_uint p)). destruct (pos_uint_text p). done.
Qed.

(** ** Lemmas: UTF-8 validity and ASCII separators *)

Lemma utf8_fuel_enough n s : (length s <= n)%nat -> utf8_valid_fuel n s = utf8_valid s.
Proof.
  unfold utf8_valid. revert s. induction (lt_wf n) as [n _ IH]. intros s Hn.
  destruct s as [|b s]; [by destruct n|]. destruct n as [|n]; [simpl in Hn; lia|].
  cbn [utf8_valid_fuel length]. destruct (utf8_char (b :: s)) as [[c r]|] eqn:E; [|done].
  apply utf8_char_shorter in E. cbn [length] in E, Hn. rewrite (IH n) by lia.
  destruct (decide (length s = n)) as [->|]; [by rewrite (IH n) by lia|]. symmetry. apply IH; lia.
Qed.

Lemma utf8_valid_step b s :
  utf8_valid (b :: s) = match utf8_char (b :: s) with Some (_, r) => utf8_valid r | None => false end.
Proof.
  unfold utf8_valid at 1. cbn [length utf8_valid_fuel].
  destruct (utf8_char (b :: s)) as [[c r]|] eqn:E; [|done].
  apply utf8_char_shorter in E. cbn [length] in E. apply utf8_fuel_enough. lia.
Qed.

Lemma utf8_char_app s c r t : utf8_char s = Some (c, r) -> utf8_char (s ++ t) = Some (c, r ++ t).
Proof.
  unfold utf8_char. intros E.
  destruct s as [|b0 [|b1 [|b2 [|b3 s]]]]; cbn [app] in *; repeat case_match; simplify_eq; try done; lia.
Qed.

Lemma utf8_valid_app a b : utf8_valid a = true -> utf8_valid (a ++ b) = utf8_valid b.
Proof.
  remember (length a) as n eqn:Hn. revert a Hn. induction (lt_wf n) as [n _ IH]. intros [|x a] -> Ha; [done|].
  rewrite utf8_valid_step in Ha. cbn [app]. rewrite utf8_valid_step.
  destruct (utf8_char (x :: a)) as [[c r]|] eqn:E; [|done].
  change (x :: a ++ b) with ((x :: a) ++ b). rewrite (utf8_char_app _ _ _ b E).
  apply utf8_char_shorter in E. by apply (IH (length r)).
Qed.

Lemma utf8_valid_ascii p : ascii_text p -> utf8_valid p = true.
Proof.
  induction 1 as [|b p Hb _ IH]; [done|]. by rewrite utf8_valid_step, utf8_char_ascii.
Qed.

(** Where a byte is no continuation byte, a valid text is cut into two valid texts,
    and only those. *)
Lemma utf8_valid_cut_at x b s : is_cont b = false ->
  utf8_valid (b :: s) = true \/ 0 <= b <= 127 -> utf8_valid (x ++ b :: s) = utf8_valid x && utf8_valid (b :: s).
Proof.
  intros Hb Hs. remember (length x) as n eqn:Hn. revert x Hn. induction (lt_wf n) as [n _ IH]. intros [|a x] ->; [done|].
  cbn [app]. rewrite (utf8_valid_step a (x ++ _)), (utf8_valid_step a x). change (a :: x ++ b :: s) with ((a :: x) ++ b :: s).
  rewrite utf8_char_app_lead by done. destruct (utf8_char (a :: x)) as [[c r]|] eqn:E; [|done].
  apply utf8_char_shorter in E. by apply (IH (length r)).
Qed.

Lemma utf8_valid_cut x b s : 0 <= b <= 127 -> utf8_valid (x ++ b :: s) = utf8_valid x && utf8_valid s.
Proof.
  intros Hb. rewrite utf8_valid_cut_at; [|unfold is_cont; lia|by right]. by rewrite (utf8_valid_step b), utf8_char_ascii.
Qed.

Lemma utf8_lead b s : utf8_valid (b :: s) = true -> is_cont b = false.
Proof. rewrite utf8_valid_step. unfold utf8_char, is_cont. repeat case_match; try done; lia. Qed.

(** A valid text can be taken off either end of a valid text. *)
Lemma utf8_valid_prefix x p : utf8_valid p = true -> utf8_valid (x ++ p) = true -> utf8_valid x = true.
Proof.
  destruct p as [|b p]; [by rewrite app_nil_r|]. intros Hp. rewrite utf8_valid_cut_at; [|by apply (utf8_lead b p)|by left].
  by intros [? _]%andb_true_iff.
Qed.

Lemma utf8_valid_around l p r : ascii_text p -> p <> [] -> utf8_valid (l ++ p ++ r) = true ->
  utf8_valid l = true /\ utf8_valid r = true.
Proof.
  intros Hp. destruct Hp as [|b p Hb Hp]; [done|]. intros _. cbn [app]. rewrite utf8_valid_cut by done.
  rewrite utf8_valid_app by (by apply utf8_valid_ascii). apply andb_true_iff.
Qed.

Lemma ascii_str (s : string) : forallb (fun b => b <=? 127) (str s) = true -> ascii_text (str s).
Proof.
  intros H. pose proof (str_bound s) as Hb. unfold ascii_text.
  induction Hb; simpl in *; constructor;
    apply andb_true_iff in H as [H1 H2]; [lia|auto].
Qed.

Lemma digit_text_ascii d : digit_text d -> ascii_text d.
Proof.
  intros [_ Hd]. rewrite forallb_forall in Hd. apply list.Forall_forall. intros b Hb.
  apply list_elem_of_In, Hd in Hb. unfold is_ascii_digit in Hb. lia.
Qed.

Lemma show_Z_ascii z : ascii_text (show_Z z).
Proof.
  destruct (show_Z_spec z) as (d & Hd & _ & ->). apply digit_text_ascii in Hd.
  destruct (z <? 0); [constructor; [lia|]|]; done.
Qed.

(** Replacing an ASCII byte by ASCII text changes nothing about validity. *)
Lemma utf8_valid_replace q r s : 0 <= q <= 127 -> ascii_text r -> r <> [] ->
  utf8_valid (flat_map (fun c => if c =? q then r else [c]) s) = utf8_valid s.
Proof.
  intros Hq Hr Hne.
  assert (Hg : forall x, utf8_valid (x ++ flat_map (fun c => if c =? q then r else [c]) s) = utf8_valid (x ++ s));
    [|exact (Hg [])].
  induction s as [|c s IH]; intros x; [done|]. cbn [flat_map]. destruct (Z.eqb_spec c q) as [->|_].
  - rewrite utf8_valid_cut by done. destruct Hr as [|b r Hb Hr]; [done|]. cbn [app]. rewrite utf8_valid_cut by done.
    rewrite utf8_valid_app by (by apply utf8_valid_ascii). f_equal. exact (IH []).
  - specialize (IH (x ++ [c])). rewrite <- !app_assoc in IH. exact IH.
Qed.

Lemma white_space_valid : Forall (fun p => utf8_valid p = true) white_space.
Proof. repeat constructor. Qed.

(** [trim] takes whole characters off. *)
Lemma strip_loop_valid strip n s :
  (forall p s r, utf8_valid p = true -> strip p s = Some r -> utf8_valid s = true -> utf8_valid r = true) ->
  utf8_valid s = true -> utf8_valid (strip_loop n strip s) = true.
Proof.
  intros Hs. revert s; induction n as [|n IH]; intros s Hv; [done|]. cbn [strip_loop].
  destruct (strip_any strip white_space s) as [r|] eqn:E; [|done]. apply IH.
  pose proof white_space_valid as Hw. revert E Hw. generalize white_space. intros ps E Hw.
  induction Hw as [|p ps Hp _ IHp]; [done|]. cbn [strip_any] in E.
  destruct (strip p s) as [r'|] eqn:Ep; [|by apply IHp]. injection E as ->. by eapply Hs.
Qed.

Lemma trim_valid s : utf8_valid s = true -> utf8_valid (trim s) = true.
Proof.
  intros Hs. unfold trim, trim_end, trim_start. apply strip_loop_valid.
  - intros p x r Hp ->%strip_suffix_some. by apply utf8_valid_prefix.
  - apply strip_loop_valid; [|done]. intros p x r Hp ->%strip_prefix_some. by rewrite utf8_valid_app.
Qed.
