(* ===== verification/Heap.v ===== *)
(** * Manually managed memory: [Box::into_raw]/[Box::from_raw] and [Arc]

    The crate keeps subscriber state behind raw pointers that SQLite's C
    callbacks dereference.  A [heap] holds the boxes that are live; using or
    freeing a pointer that is not live is undefined behaviour, written [None].
    Addresses are never handed out twice, so a dangling pointer can not become
    valid again by accident and a use after free is always seen.  A null
    pointer is [None] of [option ptr]. *)

From S2P Require Import Prelude.

Abbreviation ptr := positive.

(** [let! x := c in k]: [None] is undefined behaviour, and it propagates. *)
Notation "'let!' x ':=' c 'in' k" :=
  (match c with Some x => k | None => None end)
  (at level 10, x pattern, c at level 100, k at level 200)
  : rust_scope.

Record heap (A : Type) := mkHeap { cells : gmap ptr A; brk : ptr }.
Arguments mkHeap {A}. Arguments cells {A}. Arguments brk {A}.

Section Box.
  Context {A : Type}.
  Implicit Types (h : heap A) (p : ptr).

(** [Box::into_raw(Box::new(a))] *)
Definition box_into_raw (a : A) h : ptr * heap A :=
  (brk h, mkHeap (<[brk h := a]> (cells h)) (Pos.succ (brk h))).

(** [&*p] *)
Definition deref p h : option A := cells h !! p.

(** [drop(Box::from_raw(p))] *)
Definition drop_box p h : option (heap A) :=
  match cells h !! p with
  | Some _ => Some (mkHeap (delete p (cells h)) (brk h))
  | None => None
  end.

(** [if !p.is_null() { drop(Box::from_raw(p)) }] *)
Definition drop_nonnull (o : option ptr) h : option (heap A) :=
  match o with Some p => drop_box p h | None => Some h end.

Definition empty_heap : heap A := mkHeap ∅ 1.

(** The heap holds exactly the box [o] points to, with contents [a]. *)
Definition holds_box (o : option ptr) (a : A) h : Prop :=
  match o with
  | None => cells h = ∅
  | Some p => cells h = {[p := a]} /\ (p < brk h)%positive
  end.

Lemma holds_empty a : holds_box None a empty_heap.
Proof. done. Qed.

(** Allocating a box and then freeing the one it replaces never touches a dead
    pointer and leaves exactly the new box. *)
Lemma swap_box o a b h : holds_box o a h ->
  let '(p, h1) := box_into_raw b h in
  exists h2, drop_nonnull o h1 = Some h2 /\ holds_box (Some p) b h2.
Proof.
  destruct o as [q|]; simpl.
  - intros [Hc Hq]. unfold drop_box. simpl. rewrite Hc.
    rewrite lookup_insert_ne by lia. rewrite lookup_singleton. rewrite decide_True by done.
    eexists. split; [done|]. simpl. split; [|lia].
    rewrite delete_insert_ne by lia. rewrite delete_singleton, decide_True by done. done.
  - intros Hc. eexists. split; [done|]. simpl. rewrite Hc. split; [done|lia].
Qed.

Lemma drop_held o a h : holds_box o a h ->
  exists h', drop_nonnull o h = Some h' /\ cells h' = ∅.
Proof.
  destruct o as [q|]; simpl; [|by eauto].
  intros [Hc Hq]. unfold drop_box. rewrite Hc, lookup_singleton, decide_True by done.
  eexists. split; [done|]. simpl. by rewrite delete_singleton, decide_True.
Qed.

(** Allocating a box and freeing it again changes nothing that is held. *)
Lemma box_alloc_drop o a b h : holds_box o a h ->
  let '(p, h1) := box_into_raw b h in
  exists h2, drop_box p h1 = Some h2 /\ holds_box o a h2.
Proof.
  intros Hb. unfold box_into_raw, drop_box. cbn [cells brk]. rewrite lookup_insert, decide_True by done.
  eexists. split; [done|]. rewrite delete_insert_id; [by destruct o; simpl in *; naive_solver lia|].
  destruct o as [q|]; simpl in Hb; [|by rewrite Hb].
  destruct Hb as [-> Hq]. apply lookup_singleton_ne. lia.
Qed.

Lemma deref_held p a h : holds_box (Some p) a h -> deref p h = Some a.
Proof. intros [Hc _]. unfold deref. by rewrite Hc, lookup_singleton, decide_True. Qed.

End Box.

(** ** [Arc]: shared boxes with a strong count *)

Section Arc.
  Context {A : Type}.
  Abbreviation arcs := (heap (A * nat)).

Definition arc_new (a : A) (h : arcs) : ptr * arcs := box_into_raw (a, 1%nat) h.

Definition arc_clone (p : ptr) (h : arcs) : option arcs :=
  match cells h !! p with
  | Some (a, c) => Some (mkHeap (<[p := (a, S c)]> (cells h)) (brk h))
  | None => None
  end.

(** Dropping the last owner frees the box. *)
Definition arc_drop (p : ptr) (h : arcs) : option arcs :=
  match cells h !! p with
  | Some (a, S (S c)) => Some (mkHeap (<[p := (a, S c)]> (cells h)) (brk h))
  | Some (_, _) => Some (mkHeap (delete p (cells h)) (brk h))
  | None => None
  end.

(** [load] and [store] through the pointer *)
Definition arc_load (p : ptr) (h : arcs) : option A :=
  match cells h !! p with Some (a, _) => Some a | None => None end.
Definition arc_store (p : ptr) (a : A) (h : arcs) : option arcs :=
  match cells h !! p with
  | Some (_, c) => Some (mkHeap (<[p := (a, c)]> (cells h)) (brk h))
  | None => None
  end.

(** What the cell of a pointer with [c] owners and value [a] holds. *)
Definition arc_cell (a : A) (c : nat) : option (A * nat) :=
  match c with O => None | S _ => Some (a, c) end.

Lemma arc_clone_cell p h a c : cells h !! p = arc_cell a c -> c <> O ->
  exists h', arc_clone p h = Some h' /\ brk h' = brk h /\
    cells h' !! p = arc_cell a (S c) /\ (forall q, q <> p -> cells h' !! q = cells h !! q).
Proof.
  intros Hp Hc. unfold arc_clone. rewrite Hp. destruct c as [|c]; [done|]. simpl.
  eexists. split_and!; [done|done| |]; simpl; [by rewrite lookup_insert, decide_True|].
  intros q Hq. by rewrite lookup_insert_ne.
Qed.

Lemma arc_drop_cell p h a c : cells h !! p = arc_cell a c -> c <> O ->
  exists h', arc_drop p h = Some h' /\ brk h' = brk h /\
    cells h' !! p = arc_cell a (pred c) /\ (forall q, q <> p -> cells h' !! q = cells h !! q).
Proof.
  intros Hp Hc. unfold arc_drop. rewrite Hp. destruct c as [|[|c]]; [done|..]; simpl.
  - eexists. split_and!; [done|done| |]; simpl; [by rewrite lookup_delete, decide_True|].
    intros q Hq. by rewrite lookup_delete_ne.
  - eexists. split_and!; [done|done| |]; simpl; [by rewrite lookup_insert, decide_True|].
    intros q Hq. by rewrite lookup_insert_ne.
Qed.

Lemma arc_store_cell p b h a c : cells h !! p = arc_cell a c -> c <> O ->
  exists h', arc_store p b h = Some h' /\ brk h' = brk h /\
    cells h' !! p = arc_cell b c /\ (forall q, q <> p -> cells h' !! q = cells h !! q).
Proof.
  intros Hp Hc. unfold arc_store. rewrite Hp. destruct c as [|c]; [done|]. simpl.
  eexists. split_and!; [done|done| |]; simpl; [by rewrite lookup_insert, decide_True|].
  intros q Hq. by rewrite lookup_insert_ne.
Qed.

Lemma arc_load_cell p h a c : cells h !! p = arc_cell a c -> c <> O -> arc_load p h = Some a.
Proof. intros Hp Hc. unfold arc_load. rewrite Hp. by destruct c. Qed.

End Arc.

#[export] Hint Resolve holds_empty : xq.
