(* ===== verification/Sqlite.v ===== *)
(** * Constants and enumerations of SQLite and rusqlite that the crate names

    Result codes carry the numeric values of SQLite's public header; [Type_] is
    [rusqlite::types::Type], [Value] is [rusqlite::types::Value]. *)

From Stdlib Require Import Floats.SpecFloat.
From S2P Require Import Prelude.

(** ** Primary result codes *)
Definition SQLITE_OK : Z := 0.
Definition SQLITE_ERROR : Z := 1.
Definition SQLITE_BUSY : Z := 5.
Definition SQLITE_LOCKED : Z := 6.
Definition SQLITE_READONLY : Z := 8.
Definition SQLITE_INTERRUPT : Z := 9.
Definition SQLITE_SCHEMA : Z := 17.
Definition SQLITE_CONSTRAINT : Z := 19.
Definition SQLITE_MISUSE : Z := 21.
Definition SQLITE_AUTH : Z := 23.
Definition SQLITE_ROW : Z := 100.
Definition SQLITE_DONE : Z := 101.

(** ** Extended constraint codes: [SQLITE_CONSTRAINT | (n << 8)] *)
Definition SQLITE_CONSTRAINT_CHECK : Z := 275.
Definition SQLITE_CONSTRAINT_COMMITHOOK : Z := 531.
Definition SQLITE_CONSTRAINT_FOREIGNKEY : Z := 787.
Definition SQLITE_CONSTRAINT_FUNCTION : Z := 1043.
Definition SQLITE_CONSTRAINT_NOTNULL : Z := 1299.
Definition SQLITE_CONSTRAINT_PRIMARYKEY : Z := 1555.
Definition SQLITE_CONSTRAINT_TRIGGER : Z := 1811.
Definition SQLITE_CONSTRAINT_UNIQUE : Z := 2067.
Definition SQLITE_CONSTRAINT_VTAB : Z := 2323.
Definition SQLITE_CONSTRAINT_ROWID : Z := 2579.
Definition SQLITE_CONSTRAINT_PINNED : Z := 2835.
Definition SQLITE_CONSTRAINT_DATATYPE : Z := 3091.

(** ** Column type codes *)
Definition SQLITE_INTEGER : Z := 1.
Definition SQLITE_FLOAT : Z := 2.
Definition SQLITE_TEXT : Z := 3.
Definition SQLITE_BLOB : Z := 4.
Definition SQLITE_NULL : Z := 5.

(** ** Storage classes and values *)
Inductive Type_ := TNull | TInteger | TReal | TText | TBlob.
#[export] Instance Type_eq_dec : EqDecision Type_.
Proof. solve_decision. Defined.

(** An [f64] is its IEEE 754 binary64 datum. *)
Abbreviation f64 := spec_float.
#[export] Instance f64_eq_dec : EqDecision f64.
Proof. solve_decision. Defined.

Inductive Value :=
| VNull
| VInteger (i : Z)
| VReal (f : f64)
| VText (s : bytes)
| VBlob (b : bytes).
#[export] Instance Value_eq_dec : EqDecision Value.
Proof. solve_decision. Defined.
