(* ===== verification/ConstraintParse.v ===== *)
(** * [constraint_parse.rs]: constraint error texts into structured details

    The parsers are translated line for line; the messages SQLite writes are
    the printers [unique_message], [not_null_message], ... below, taken from the
    formats the source documents, and the theorems are round trips: what SQLite
    prints for a table and its columns is parsed back to that table and those
    columns. *)

From S2P Require Import Prelude RustStr Sqlite.

Definition parse_storage_class (s : bytes) : option Type_ :=
  if bytes_eqb s (str "INT") || bytes_eqb s (str "INTEGER") then Some TInteger
  else if bytes_eqb s (str "REAL") then Some TReal
  else if bytes_eqb s (str "TEXT") then Some TText
  else if bytes_eqb s (str "BLOB") then Some TBlob
  else if bytes_eqb s (str "NULL") then Some TNull
  else None.

Record ConstraintDetails := mkDetails {
  table : option bytes;
  columns : list bytes;
  index_name : option bytes;
  constraint_name : option bytes;
  source_type : option Type_;
  target_type : option Type_;
}.

#[export] Instance ConstraintDetails_eq_dec : EqDecision ConstraintDetails.
Proof. solve_decision. Defined.

Definition default_details : ConstraintDetails := mkDetails None [] None None None None.

(** The [for part in rest.split(", ")] loop: [table] and [columns] are the
    mutable locals. *)
Fixpoint parse_parts (parts : list bytes) (table : option bytes) (columns : list bytes)
    : option bytes * list bytes :=
  match parts with
  | [] => (table, columns)
  | part :: parts' =>
      match split_once (str ".") part with
      | Some (t, c) =>
          let table := match table with None => Some t | Some _ => table end in
          parse_parts parts' table (columns ++ [c])
      | None => parse_parts parts' table (columns ++ [part])
      end
  end.

Definition parse_table_columns (rest : bytes) : ConstraintDetails :=
  let '(table, columns) := parse_parts (split (str ", ") rest) None [] in
  mkDetails table columns None None None None.

Definition parse_unique (message : bytes) : ConstraintDetails :=
  match strip_prefix (str "UNIQUE constraint failed: ") message with
  | None => default_details
  | Some rest =>
      match (match strip_prefix (str "index '") rest with
             | Some s => strip_suffix [QUOTE] s
             | None => None
             end) with
      | Some inner => mkDetails None [] (Some inner) None None None
      | None => parse_table_columns rest
      end
  end.

Definition parse_primary_key (message : bytes) : ConstraintDetails :=
  match strip_prefix (str "PRIMARY KEY constraint failed: ") message with
  | None => default_details
  | Some rest => parse_table_columns rest
  end.

Definition parse_not_null (message : bytes) : ConstraintDetails :=
  match strip_prefix (str "NOT NULL constraint failed: ") message with
  | None => default_details
  | Some rest => parse_table_columns rest
  end.

Definition parse_check (message : bytes) : ConstraintDetails :=
  match strip_prefix (str "CHECK constraint failed: ") message with
  | None => default_details
  | Some rest => mkDetails None [] None (Some rest) None None
  end.

Definition parse_datatype (message : bytes) : ConstraintDetails :=
  match strip_prefix (str "cannot store ") message with
  | None => default_details
  | Some rest =>
      match split_once (str " value in ") rest with
      | None => default_details
      | Some (src, rest) =>
          match split_once (str " column ") rest with
          | None => default_details
          | Some (tgt, rest) =>
              let '(table, columns) :=
                match split_once (str ".") rest with
                | Some (t, c) => (Some t, [c])
                | None => (None, [rest])
                end in
              mkDetails table columns None None
                (parse_storage_class src) (parse_storage_class tgt)
          end
      end
  end.

Definition parse_details (extended_code : Z) (message : bytes) : ConstraintDetails :=
  if extended_code =? SQLITE_CONSTRAINT_UNIQUE then parse_unique message
  else if extended_code =? SQLITE_CONSTRAINT_PRIMARYKEY then
    let d := parse_primary_key message in
    if bool_decide (d = default_details) then parse_unique message else d
  else if extended_code =? SQLITE_CONSTRAINT_NOTNULL then parse_not_null message
  else if extended_code =? SQLITE_CONSTRAINT_CHECK then parse_check message
  else if extended_code =? SQLITE_CONSTRAINT_DATATYPE then parse_datatype message
  else default_details.

(** ** The messages SQLite prints (the formats the source documents) *)

Definition qualified (t c : bytes) : bytes := t ++ str "." ++ c.
Definition qualified_list (t : bytes) (cs : list bytes) : bytes :=
  join (str ", ") (map (qualified t) cs).

Definition unique_message t cs := str "UNIQUE constraint failed: " ++ qualified_list t cs.
Definition unique_index_message i :=
  str "UNIQUE constraint failed: index '" ++ i ++ [QUOTE].
Definition primary_key_message t cs :=
  str "PRIMARY KEY constraint failed: " ++ qualified_list t cs.
Definition not_null_message t c := str "NOT NULL constraint failed: " ++ qualified t c.
Definition check_message n := str "CHECK constraint failed: " ++ n.
Definition datatype_message src tgt t c :=
  str "cannot store " ++ src ++ str " value in " ++ tgt ++ str " column " ++ qualified t c.

(** The storage-class tokens SQLite writes into a DATATYPE message. *)
Definition source_token (ty : Type_) : bytes :=
  match ty with
  | TInteger => str "INT" | TReal => str "REAL" | TText => str "TEXT"
  | TBlob => str "BLOB" | TNull => str "NULL"
  end.
Definition target_token (ty : Type_) : bytes :=
  match ty with TInteger => str "INTEGER" | _ => source_token ty end.

(** Names the formats can carry unambiguously: the separators are [", "] and
    the first ['.'], so a table name has neither ',' nor '.', a column no ','. *)
Definition COMMA : Z := 44.
Definition PERIOD : Z := 46.
Definition table_ok (t : bytes) : Prop := (COMMA ∉ t) /\ (PERIOD ∉ t) /\ (QUOTE ∉ t).
Definition column_ok (c : bytes) : Prop := COMMA ∉ c.

(** ** Lemmas *)

Lemma split_once_qualified t c :
  PERIOD ∉ t -> split_once (str ".") (qualified t c) = Some (t, c).
Proof. intros H. unfold qualified. by apply split_once_char. Qed.

Lemma parse_parts_qualified t cs acc_t acc_c :
  PERIOD ∉ t ->
  parse_parts (map (qualified t) cs) acc_t acc_c =
  (match cs with [] => acc_t | _ => Some (default t acc_t) end, acc_c ++ cs).
Proof.
  intros Ht. revert acc_t acc_c; induction cs as [|c cs IH]; intros acc_t acc_c; simpl.
  - by rewrite app_nil_r.
  - rewrite (split_once_qualified t c Ht), IH.
    f_equal; [destruct cs, acc_t; done|]. by rewrite <- app_assoc.
Qed.

Lemma qualified_no_comma t c : COMMA ∉ t -> COMMA ∉ c -> COMMA ∉ qualified t c.
Proof.
  unfold qualified. rewrite !elem_of_app. intros Ht Hc [H|[H|H]]; try done.
  apply list_elem_of_singleton in H. discriminate H.
Qed.

Lemma parse_table_columns_qualified t cs :
  cs <> [] -> table_ok t -> Forall column_ok cs ->
  parse_table_columns (qualified_list t cs) = mkDetails (Some t) cs None None None None.
Proof.
  intros Hne (Hc & Hp & _) HF. unfold parse_table_columns, qualified_list.
  assert (Hs : split (str ", ") (join (str ", ") (map (qualified t) cs))
               = map (qualified t) cs).
  { apply (split_of_join COMMA [32]).
    - by destruct cs.
    - apply Forall_map. eapply Forall_impl; [|exact HF]. intros c Hcc.
      by apply qualified_no_comma. }
  rewrite Hs, parse_parts_qualified by done. by destruct cs.
Qed.

(** A list of qualified names is never read as an index name. *)
Lemma qualified_list_not_index t cs :
  cs <> [] -> QUOTE ∉ t -> strip_prefix (str "index '") (qualified_list t cs) <> None ->
  False.
Proof.
  intros Hne Ht H.
  destruct (strip_prefix (str "index '") (qualified_list t cs)) as [r|] eqn:E; [|done].
  apply strip_prefix_some in E. clear H.
  destruct cs as [|c cs]; [done|].
  assert (Hq : exists r', qualified_list t (c :: cs) = t ++ PERIOD :: r').
  { unfold qualified_list, qualified. destruct cs; simpl; rewrite <- ?app_assoc; eauto. }
  destruct Hq as [r' Hr']. rewrite Hr' in E. clear - Ht E.
  (* the prefix has no '.', so it lies inside [t], yet it ends in a quote *)
  do 7 (destruct t as [|? t]; [discriminate E|]; injection E as -> E). set_solver.
Qed.

Lemma default_not_qualified t cs :
  cs <> [] -> mkDetails (Some t) cs None None None None <> default_details.
Proof. by destruct cs. Qed.

Lemma parse_unique_message t cs :
  cs <> [] -> table_ok t -> Forall column_ok cs ->
  parse_unique (unique_message t cs) = mkDetails (Some t) cs None None None None.
Proof.
  intros Hne Ht HF. unfold parse_unique, unique_message. rewrite strip_prefix_app.
  destruct (strip_prefix (str "index '") (qualified_list t cs)) as [s|] eqn:E.
  - exfalso. destruct Ht as (_ & _ & Hq).
    by apply (qualified_list_not_index t cs Hne Hq); rewrite E.
  - by apply parse_table_columns_qualified.
Qed.

(** A text with another first byte is not recognised by a prefix parser. *)
Lemma parse_primary_key_of_unique t cs :
  parse_primary_key (unique_message t cs) = default_details.
Proof. reflexivity. Qed.

(** Contiguous part of a text, cut at character boundaries. *)
Definition part_of (x m : bytes) : Prop :=
  (exists a b, m = a ++ x ++ b) /\ (utf8_valid m = true -> utf8_valid x = true).

Lemma part_of_refl m : part_of m m.
Proof. split; [|done]. exists [], []. by rewrite app_nil_r. Qed.

Lemma part_of_trans x y m : part_of x y -> part_of y m -> part_of x m.
Proof.
  intros [(a & b & ->) Hx] [(c & d & ->) Hy]. split; [|by auto].
  exists (c ++ a), (b ++ d). by rewrite <- !app_assoc.
Qed.

Lemma part_of_Forall l r s : Forall (fun x => part_of x r) l -> part_of r s ->
  Forall (fun x => part_of x s) l.
Proof. intros H Hr. induction H; constructor; eauto using part_of_trans. Qed.

(** A separator of the formats: ASCII text, not empty. *)
Definition separator (p : bytes) : Prop := ascii_text p /\ p <> [].

Lemma separator_str s : forallb (fun b => b <=? 127) (str s) = true -> str s <> [] -> separator (str s).
Proof. split; [by apply ascii_str|done]. Qed.

#[export] Hint Extern 2 (separator (str _)) => (apply separator_str; [vm_compute; reflexivity|discriminate]) : xq.

Lemma part_of_prefix p s r : separator p -> strip_prefix p s = Some r -> part_of r s.
Proof.
  intros [Ha Hp] ->%strip_prefix_some. split; [exists p, []; by rewrite app_nil_r|].
  intros Hv. by apply (utf8_valid_around [] p r).
Qed.

Lemma part_of_suffix p s r : separator p -> strip_suffix p s = Some r -> part_of r s.
Proof.
  intros [Ha Hp] ->%strip_suffix_some. split; [by exists [], p|].
  intros Hv. apply (utf8_valid_around r p []); [done|done|]. by rewrite app_nil_r.
Qed.

Lemma part_of_split_once p s l r :
  separator p -> split_once p s = Some (l, r) -> part_of l s /\ part_of r s.
Proof.
  intros [Ha Hp] ->%split_once_sound. split; (split; [|intros Hv; by apply (utf8_valid_around l p r)]).
  - by exists [], (p ++ r).
  - exists (l ++ p), []. by rewrite app_nil_r, <- app_assoc.
Qed.

Lemma part_of_split p n s : separator p -> Forall (fun x => part_of x s) (split_fuel n p s).
Proof.
  intros Hp. revert s; induction n as [|n IH]; intros s; simpl.
  - constructor; [apply part_of_refl|done].
  - destruct (split_once p s) as [[l r]|] eqn:E.
    + apply part_of_split_once in E as [Hl Hr]; [|done]. constructor; [done|].
      eauto using part_of_Forall.
    + constructor; [apply part_of_refl|done].
Qed.

#[export] Hint Resolve part_of_refl part_of_prefix part_of_suffix : xq.

(** Every name in the details is a contiguous part of [m]. *)
Definition names_from (m : bytes) (d : ConstraintDetails) : Prop :=
  (forall t, table d = Some t -> part_of t m) /\
  Forall (fun c => part_of c m) (columns d) /\
  (forall i, index_name d = Some i -> part_of i m) /\
  (forall n, constraint_name d = Some n -> part_of n m).

Lemma names_from_default m : names_from m default_details.
Proof. split_and!; simpl; try done. Qed.

Lemma names_from_trans r m d : names_from r d -> part_of r m -> names_from m d.
Proof.
  intros (Ht & Hc & Hi & Hn) Hr.
  split_and!; [eauto using part_of_trans| |eauto using part_of_trans..].
  eauto using part_of_Forall.
Qed.

Lemma parse_parts_from m parts t cs :
  Forall (fun x => part_of x m) parts ->
  (forall x, t = Some x -> part_of x m) -> Forall (fun c => part_of c m) cs ->
  let '(t', cs') := parse_parts parts t cs in
  (forall x, t' = Some x -> part_of x m) /\ Forall (fun c => part_of c m) cs'.
Proof.
  intros HF. revert t cs; induction HF as [|p parts Hp HF IH]; intros t cs Ht Hcs; simpl; [done|].
  destruct (split_once (str ".") p) as [[l r]|] eqn:E.
  - apply part_of_split_once in E as [Hl Hr]; [|auto with xq].
    apply IH.
    + destruct t; intros x [= <-]; eauto using part_of_trans.
    + apply Forall_app; split; [done|]. constructor; eauto using part_of_trans.
  - apply IH; [done|]. apply Forall_app; split; [done|]. by constructor.
Qed.

Lemma parse_table_columns_from rest : names_from rest (parse_table_columns rest).
Proof.
  unfold parse_table_columns.
  pose proof (parse_parts_from rest (split (str ", ") rest) None []
                (part_of_split (str ", ") _ _ ltac:(auto with xq))) as H.
  destruct (parse_parts _ None []) as [t cs]. simpl in H.
  destruct H as [Ht Hc]; [done|done|]. by split_and!.
Qed.

Lemma parse_unique_from m : names_from m (parse_unique m).
Proof.
  unfold parse_unique.
  destruct (strip_prefix _ m) as [rest|] eqn:E; [|apply names_from_default].
  apply part_of_prefix in E; [|auto with xq].
  destruct (strip_prefix (str "index '") rest) as [s|] eqn:E1.
  2: { eauto using names_from_trans, parse_table_columns_from, part_of_trans. }
  destruct (strip_suffix [QUOTE] s) as [i|] eqn:E2.
  2: { eauto using names_from_trans, parse_table_columns_from, part_of_trans. }
  apply part_of_prefix in E1; [|auto with xq]. apply part_of_suffix in E2; [|by split; [by repeat constructor|]].
  split_and!; simpl; [done|done| |done]. intros ? [= <-].
  eauto using part_of_trans.
Qed.

Lemma parse_datatype_from m : names_from m (parse_datatype m).
Proof.
  unfold parse_datatype.
  destruct (strip_prefix _ m) as [r|] eqn:E; [|apply names_from_default].
  destruct (split_once (str " value in ") r) as [[src r1]|] eqn:E1; [|apply names_from_default].
  destruct (split_once (str " column ") r1) as [[tgt r2]|] eqn:E2; [|apply names_from_default].
  apply part_of_prefix in E; [|auto with xq]. apply part_of_split_once in E1 as [_ E1]; [|auto with xq].
  apply part_of_split_once in E2 as [_ E2]; [|auto with xq].
  apply (names_from_trans r2); [|eauto using part_of_trans].
  destruct (split_once (str ".") r2) as [[t c]|] eqn:E3.
  - apply part_of_split_once in E3 as [Ht Hc]; [|auto with xq].
    split_and!; simpl; [by intros ? [= <-]|by constructor|done|done].
  - split_and!; simpl; [done| |done|done]. constructor; [apply part_of_refl|done].
Qed.

(** STRICT-table DATATYPE texts give back the source and target storage
    class, the table and the column. *)
Lemma datatype_message_roundtrip sty tty t c :
  PERIOD ∉ t ->
  parse_details SQLITE_CONSTRAINT_DATATYPE
    (datatype_message (source_token sty) (target_token tty) t c)
  = mkDetails (Some t) [c] None None (Some sty) (Some tty).
Proof.
  intros Ht. change (parse_datatype (datatype_message (source_token sty) (target_token tty) t c)
    = mkDetails (Some t) [c] None None (Some sty) (Some tty)).
  unfold parse_datatype, datatype_message. rewrite strip_prefix_app.
  rewrite (split_once_at (str " value in ")) by (apply (first_at_fresh 32); destruct sty; by_compute).
  rewrite (split_once_at (str " column ")) by (apply (first_at_fresh 32); destruct tty; by_compute).
  rewrite split_once_qualified by done. by destruct sty, tty.
Qed.

(** ** Theorems *)

(** C15: the texts SQLite prints for UNIQUE, PRIMARY KEY (either form), NOT NULL and
    (STRICT tables) datatype violations are parsed back to exactly the table and the
    columns, and both storage classes, for every table name without a comma, a period
    or a single quote and all column names without a comma.  (With a period in the
    table name the text is ambiguous: [dotted_table_is_missplit].) *)
Theorem constraint_message_roundtrip t cs :
  cs <> [] -> table_ok t -> Forall column_ok cs ->
  let d := mkDetails (Some t) cs None None None None in
  parse_details SQLITE_CONSTRAINT_UNIQUE (unique_message t cs) = d /\
  parse_details SQLITE_CONSTRAINT_PRIMARYKEY (unique_message t cs) = d /\
  parse_details SQLITE_CONSTRAINT_PRIMARYKEY (primary_key_message t cs) = d /\
  (forall c, cs = [c] ->
     parse_details SQLITE_CONSTRAINT_NOTNULL (not_null_message t c) = d) /\
  (forall c sty tty, cs = [c] ->
     parse_details SQLITE_CONSTRAINT_DATATYPE (datatype_message (source_token sty) (target_token tty) t c)
     = mkDetails (Some t) cs None None (Some sty) (Some tty)).
Proof.
  intros Hne Ht HF d. split_and!.
  - by apply parse_unique_message.
  - change (parse_unique (unique_message t cs) = d). by apply parse_unique_message.
  - assert (Hpk : parse_primary_key (primary_key_message t cs) = d).
    { unfold parse_primary_key, primary_key_message. rewrite strip_prefix_app.
      by apply parse_table_columns_qualified. }
    unfold parse_details. simpl (_ =? _). cbv iota. rewrite Hpk.
    rewrite bool_decide_eq_false_2; [done|]. by apply default_not_qualified.
  - intros c ->. change (parse_not_null (not_null_message t c) = d).
    unfold parse_not_null, not_null_message. rewrite strip_prefix_app.
    by apply (parse_table_columns_qualified t [c]).
  - intros c sty tty ->. by apply datatype_message_roundtrip, Ht.
Qed.

Lemma constraint_message_roundtrip_witness :
  parse_details SQLITE_CONSTRAINT_PRIMARYKEY
    (primary_key_message (str "users") [str "a.x"; str "b"])
  = mkDetails (Some (str "users")) [str "a.x"; str "b"] None None None None.
Proof.
  destruct (constraint_message_roundtrip (str "users") [str "a.x"; str "b"])
    as (_ & _ & H & _).
  - discriminate.
  - split_and!; by_compute.
  - unfold column_ok. by_compute.
  - exact H.
Defined.

(** The text names table and column with a period between them and nothing quoted: the
    one of the column [c] of a table [a.b] is that of the column [b.c] of a table [a],
    and is read so. *)
Theorem dotted_table_is_missplit a b c : table_ok a -> column_ok (b ++ str "." ++ c) ->
  parse_details SQLITE_CONSTRAINT_NOTNULL (not_null_message (a ++ str "." ++ b) c)
  = mkDetails (Some a) [b ++ str "." ++ c] None None None None.
Proof.
  intros Ha Hc. change (parse_not_null (not_null_message (a ++ str "." ++ b) c) = mkDetails (Some a) [b ++ str "." ++ c] None None None None).
  unfold parse_not_null, not_null_message. rewrite strip_prefix_app.
  replace (qualified (a ++ str "." ++ b) c) with (qualified a (b ++ str "." ++ c))
    by (unfold qualified; by rewrite <- !app_assoc).
  apply (parse_table_columns_qualified a [b ++ str "." ++ c]); [done|done|]. by constructor.
Qed.

Example dotted_table :
  parse_details SQLITE_CONSTRAINT_NOTNULL (not_null_message (str "a.b") (str "c"))
  = mkDetails (Some (str "a")) [str "b.c"] None None None None.
Proof. reflexivity. Qed.

(** Whatever the result code and the text, every table, column, index and
    constraint name reported is a contiguous part of SQLite's message, cut at
    character boundaries: when the message is valid UTF-8, so is every name. *)
Theorem parse_details_names_from code m : names_from m (parse_details code m).
Proof.
  unfold parse_details, parse_primary_key, parse_not_null, parse_check.
  repeat case_bool_decide; repeat case_match;
    eauto using names_from_default, parse_unique_from, parse_datatype_from;
    match goal with
    | H : strip_prefix _ _ = Some _ |- _ => apply part_of_prefix in H; [|auto with xq]
    end;
    eauto using names_from_trans, parse_table_columns_from.
  all: split_and!; simpl; try done; by intros ? [= <-].
Qed.

(** ** The unit tests of [constraint_parse.rs], each an assertion of the model *)

Definition same_val {A} `{EqDecision A} (x y : A) : bool := bool_decide (x = y).

Definition unit_tests : list bool :=
  let unique_single_column_qualified :=
    let d := parse_unique (str "UNIQUE constraint failed: users.email") in
    same_val (table d) (Some (str "users")) && same_val (columns d) [str "email"] && same_val (index_name d) None in
  let unique_composite_columns :=
    let d := parse_unique (str "UNIQUE constraint failed: users.first, users.last") in
    same_val (table d) (Some (str "users")) && same_val (columns d) [str "first"; str "last"] in
  let unique_by_index_name :=
    let d := parse_unique (str "UNIQUE constraint failed: index 'unique_email_ci'") in
    same_val (index_name d) (Some (str "unique_email_ci")) && same_val (table d) None && same_val (columns d) [] in
  let unique_unknown_prefix_returns_empty := same_val (parse_unique (str "something unexpected")) default_details in
  let not_null_qualified :=
    let d := parse_not_null (str "NOT NULL constraint failed: users.email") in
    same_val (table d) (Some (str "users")) && same_val (columns d) [str "email"] in
  let check_named :=
    same_val (constraint_name (parse_check (str "CHECK constraint failed: positive_age"))) (Some (str "positive_age")) in
  let check_anonymous_expression_is_returned_verbatim :=
    same_val (constraint_name (parse_check (str "CHECK constraint failed: age > 0"))) (Some (str "age > 0")) in
  let primary_key_composite :=
    let d := parse_primary_key (str "PRIMARY KEY constraint failed: users.a, users.b") in
    same_val (table d) (Some (str "users")) && same_val (columns d) [str "a"; str "b"] in
  let parse_details_falls_back_to_unique_for_rowid_primary_key :=
    let d := parse_details SQLITE_CONSTRAINT_PRIMARYKEY (str "UNIQUE constraint failed: t.id") in
    same_val (table d) (Some (str "t")) && same_val (columns d) [str "id"] in
  let parse_details_foreign_key_yields_empty :=
    same_val (parse_details SQLITE_CONSTRAINT_FOREIGNKEY (str "FOREIGN KEY constraint failed")) default_details in
  let datatype_text_into_integer_column :=
    let d := parse_datatype (str "cannot store TEXT value in INTEGER column t1.v") in
    same_val (table d) (Some (str "t1")) && same_val (columns d) [str "v"] &&
    same_val (source_type d) (Some TText) && same_val (target_type d) (Some TInteger) in
  let datatype_int_source_normalises_to_integer :=
    let d := parse_datatype (str "cannot store INT value in BLOB column t8.v") in
    same_val (source_type d) (Some TInteger) && same_val (target_type d) (Some TBlob) in
  let datatype_real_source :=
    let d := parse_datatype (str "cannot store REAL value in BLOB column t9.v") in
    same_val (source_type d) (Some TReal) && same_val (target_type d) (Some TBlob) in
  let datatype_any_target_is_unreachable_but_returns_nil_types :=
    let d := parse_datatype (str "cannot store BLOB value in ANY column t.v") in
    same_val (source_type d) (Some TBlob) && same_val (target_type d) None in
  let datatype_column_without_qualifier_leaves_table_nil :=
    let d := parse_datatype (str "cannot store TEXT value in INTEGER column v") in
    same_val (table d) None && same_val (columns d) [str "v"] in
  let datatype_unknown_prefix_returns_empty := same_val (parse_datatype (str "something unexpected")) default_details in
  let parse_details_datatype_routes_through_parser :=
    let d := parse_details SQLITE_CONSTRAINT_DATATYPE (str "cannot store TEXT value in INTEGER column mc.a") in
    same_val (table d) (Some (str "mc")) && same_val (source_type d) (Some TText) && same_val (target_type d) (Some TInteger) in
  [unique_single_column_qualified; unique_composite_columns; unique_by_index_name;
   unique_unknown_prefix_returns_empty; not_null_qualified; check_named;
   check_anonymous_expression_is_returned_verbatim; primary_key_composite;
   parse_details_falls_back_to_unique_for_rowid_primary_key; parse_details_foreign_key_yields_empty;
   datatype_text_into_integer_column; datatype_int_source_normalises_to_integer; datatype_real_source;
   datatype_any_target_is_unreachable_but_returns_nil_types; datatype_column_without_qualifier_leaves_table_nil;
   datatype_unknown_prefix_returns_empty; parse_details_datatype_routes_through_parser].

(** The model passes the module's own tests. *)
Theorem unit_tests_pass : Forall (eq true) unit_tests.
Proof. repeat constructor. Qed.
