(* ===== verification/Terms.v ===== *)
(** * Elixir terms, as the NIF boundary sees them

    [term] is a BEAM term; the [decode_*] functions are rustler's documented
    decoders, [map_put] is [Term::map_put].  What only the runtime decides (the
    text of a debug print, whether an allocation succeeds) is the class [Beam],
    an argument of every definition that depends on it. *)

From Stdlib Require Import Floats.SpecFloat.
From S2P Require Import Prelude RustStr Sqlite.

Inductive term :=
| TAtom (a : string)
| TInt (z : Z)                                  (* a bignum *)
| TFloat (f : f64)
| TBin (b : bytes)
| TBits (b : bytes) (extra : Z)                 (* a bitstring that is no whole number of bytes *)
| TList (l : list term)
| TImproper (l : list term) (tl : term)
| TTuple (l : list term)
| TMap (m : list (term * term))
| TFun (id : Z)
| TPid (id : Z)
| TPort (id : Z)
| TRef (id : Z)
| TOther.

Inductive TermType :=
| TyAtom | TyBinary | TyFloat | TyFun | TyInteger | TyList | TyMap | TyPid | TyPort
| TyRef | TyTuple | TyUnknown.
#[export] Instance TermType_eq_dec : EqDecision TermType.
Proof. solve_decision. Defined.

Definition get_type (t : term) : TermType :=
  match t with
  | TAtom _ => TyAtom
  | TInt _ => TyInteger
  | TFloat _ => TyFloat
  | TBin _ | TBits _ _ => TyBinary
  | TList _ | TImproper _ _ => TyList
  | TTuple _ => TyTuple
  | TMap _ => TyMap
  | TFun _ => TyFun
  | TPid _ => TyPid
  | TPort _ => TyPort
  | TRef _ => TyRef
  | TOther => TyUnknown
  end.

(** ** Decoders *)

Definition decode_atom (t : term) : option string :=
  match t with TAtom a => Some a | _ => None end.
Definition decode_i64 (t : term) : option Z :=
  match t with TInt z => if in_i 64 z then Some z else None | _ => None end.
Definition decode_f64 (t : term) : option f64 :=
  match t with TFloat f => Some f | _ => None end.
(** [decode::<String>]: a binary holding well-formed UTF-8. *)
Definition decode_string (t : term) : option bytes :=
  match t with TBin b => if utf8_valid b then Some b else None | _ => None end.
Definition decode_binary (t : term) : option bytes :=
  match t with TBin b => Some b | _ => None end.
(** [decode::<(Atom, Term)>] *)
Definition decode_atom_pair (t : term) : option (string * term) :=
  match t with TTuple [TAtom a; v] => Some (a, v) | _ => None end.
Definition decode_bool (t : term) : option bool :=
  match t with
  | TAtom a => if String.eqb a "true" then Some true
               else if String.eqb a "false" then Some false else None
  | _ => None
  end.
(** [decode::<ListIterator>]: what iterating yields.  Any list term decodes;
    the iterator over an improper list stops at its tail. *)
Definition decode_list (t : term) : option (list term) :=
  match t with TList l => Some l | TImproper l _ => Some l | _ => None end.
Definition is_empty_list (t : term) : bool :=
  match t with TList [] => true | _ => false end.

Definition is_atom (a : string) (t : term) : bool :=
  match t with TAtom b => String.eqb a b | _ => false end.
Lemma is_atom_true a t : is_atom a t = true <-> t = TAtom a.
Proof.
  destruct t; simpl; split; try discriminate.
  - intros ->%String.eqb_eq. done.
  - intros [= ->]. apply String.eqb_refl.
Qed.

Definition is_nil : term -> bool := is_atom "nil".

(** ** Encoders *)

Definition nil_term : term := TAtom "nil".
Definition encode_bool (b : bool) : term := TAtom (if b then "true" else "false").
Definition encode_opt {A} (f : A -> term) (o : option A) : term :=
  match o with Some a => f a | None => nil_term end.

Fixpoint assoc_put (eqb : term -> bool) (k v : term) (m : list (term * term)) : list (term * term) :=
  match m with
  | [] => [(k, v)]
  | (k', v') :: m' => if eqb k' then (k, v) :: m' else (k', v') :: assoc_put eqb k v m'
  end.

(** [Term::map_put] with an atom key, the only kind the crate uses; an error
    when the receiver is not a map. *)
Definition map_put (m : term) (k : string) (v : term) : result term unit :=
  match m with
  | TMap kvs => Ok (TMap (assoc_put (is_atom k) (TAtom k) v kvs))
  | _ => Err tt
  end.

Definition map_new : term := TMap [].

Definition ok_tuple (t : term) : term := TTuple [TAtom "ok"; t].
Definition error_tuple (t : term) : term := TTuple [TAtom "error"; t].

(** ** The runtime *)

Class Beam := {
  (** [format!("{term:?}")] *)
  term_debug : term -> bytes;
  (** [format!("{err:?}")] for the decode error [rustler::Error::BadArg] *)
  badarg_debug : bytes;
  (** [format!("{atom:?}")] *)
  atom_debug : string -> bytes;
  (** [OwnedBinary::new(n).is_some()] *)
  owned_binary_ok : Z -> bool;
  (** [enif_make_atom_len]: the atom of a (Latin-1) name *)
  make_atom : bytes -> term;
}.

Definition string_of_bytes (b : bytes) : string :=
  fold_right (fun c s => String (Ascii.ascii_of_N (Z.to_N c)) s) EmptyString b.

(** A runtime that always allocates and prints constants: for the witnesses. *)
Definition demo_beam : Beam :=
  {| term_debug := fun _ => str "term"; badarg_debug := str "BadArg";
     atom_debug := str; owned_binary_ok := fun _ => true;
     make_atom := fun b => TAtom (string_of_bytes b) |}.
