(* ===== verification/Error.v ===== *)
(** * [error.rs]: the crate's error type, its classification and its encoding

    [XqliteError] has the source's variants.  [classify_sqlite_error] and
    [from_rusqlite] ([impl From<rusqlite::Error>]) sort SQLite's result codes and
    texts into them, [display] and [encode] are the [Display] and [Encoder]
    instances.  The texts rusqlite itself prints are arguments ([RusqliteText]). *)

From Stdlib Require Import Floats.SpecFloat.
From S2P Require Import Prelude RustStr Sqlite ConstraintParse Terms.

(** ** [rusqlite::Error]: the variants the crate matches on; [R_Other] is any
    other one.  A payload that is only ever printed is its text. *)

Record ffi_Error := mkFfi { extended_code : Z }.
(** [ffi::Error::new] *)
Definition ffi_new (rc : Z) : ffi_Error := mkFfi rc.

Inductive RusqliteError :=
| R_SqliteFailure (error : ffi_Error) (msg : option bytes)
| R_SqlInputError (error : ffi_Error) (msg sql : bytes) (offset : Z)
| R_ExecuteReturnedResults
| R_InvalidParameterCount (provided expected : Z)
| R_InvalidParameterName (name : bytes)
| R_NulError
| R_Utf8Error (col : Z) (text : bytes)
| R_FromSqlConversionFailure (idx : Z) (ty : Type_) (text : bytes)
| R_IntegralValueOutOfRange (idx val : Z)
| R_ToSqlConversionFailure (text : bytes)
| R_InvalidColumnIndex (idx : Z)
| R_InvalidColumnName (name : bytes)
| R_InvalidColumnType (idx : Z) (name : bytes) (ty : Type_)
| R_MultipleStatement
| R_QueryReturnedNoRows
| R_BlobSizeError
| R_Other (text : bytes).

Class RusqliteText := {
  (** [ffi_err.to_string()] *)
  ffi_display : ffi_Error -> bytes;
  (** [other_err.to_string()] *)
  rusqlite_display : RusqliteError -> bytes;
  (** the non-ASCII part of [str::to_lowercase] *)
  lower_table : case_table;
}.

Definition demo_text : RusqliteText :=
  {| ffi_display := fun _ => str "ffi"; rusqlite_display := fun _ => str "rusqlite";
     lower_table := fun cs i => default [] (cs !! i) |}.

(** ** [XqliteError] *)

Inductive XqliteError :=
| CannotConvertToSqliteValue (value_str reason : bytes)
| ToSqlConversionFailure (reason : bytes)
| ExpectedKeywordList (value_str : bytes)
| ExpectedKeywordTuple (value_str : bytes)
| ExpectedList (value_str : bytes)
| UnsupportedAtom (atom_value : bytes)
| UnsupportedDataType (term_type : TermType)
| CannotConvertAtomToString (reason : bytes)
| InvalidParameterCount (provided expected : Z)
| InvalidParameterName (name : bytes)
| InvalidPragmaName (name : bytes)
| InvalidTransactionMode
| InvalidAuthorizerAction (action : string)
| NulErrorInString
| MultipleStatements
| CannotOpenDatabase (path : bytes) (code : Z) (message : bytes)
| LockError (reason : bytes)
| SqlInputError (code : Z) (message sql : bytes) (offset : Z)
| ExecuteReturnedResults
| CannotExecute (reason : bytes)
| CannotExecutePragma (pragma reason : bytes)
| DatabaseBusyOrLocked (extended_code : Z) (message : bytes)
| OperationCancelled
| NoSuchTable (message : bytes)
| NoSuchIndex (message : bytes)
| TableExists (message : bytes)
| IndexExists (message : bytes)
| SchemaChanged (extended_code : Z) (message : bytes)
| ReadOnlyDatabase (extended_code : Z) (message : bytes)
| AuthorizationDenied (extended_code : Z) (message : bytes)
| InvalidColumnIndex (index : Z)
| InvalidColumnName (name : bytes)
| InvalidColumnType (index : Z) (name : bytes) (sqlite_type : string)
| FromSqlConversionFailure (index : Z) (sqlite_type : string) (reason : bytes)
| IntegralValueOutOfRange (index value : Z)
| Utf8Error (column : Z) (reason : bytes)
| ConstraintViolation (kind : option string) (message : bytes) (details : ConstraintDetails)
| SqliteFailure (code extended_code : Z) (message : option bytes)
| SchemaParsingError (context unexpected_value : bytes)
| InvalidStreamHandle (reason : bytes)
| ConnectionClosed
| StatementFinalized
| InternalEncodingError (context : bytes).

#[export] Instance XqliteError_eq_dec : EqDecision XqliteError.
Proof. solve_decision. Defined.

(** ** Classification *)

Definition constraint_kind_to_atom_extended (extended_code : Z) : option string :=
  if extended_code =? SQLITE_CONSTRAINT_CHECK then Some "constraint_check"%string
  else if extended_code =? SQLITE_CONSTRAINT_COMMITHOOK then Some "constraint_commit_hook"%string
  else if extended_code =? SQLITE_CONSTRAINT_FOREIGNKEY then Some "constraint_foreign_key"%string
  else if extended_code =? SQLITE_CONSTRAINT_FUNCTION then Some "constraint_function"%string
  else if extended_code =? SQLITE_CONSTRAINT_NOTNULL then Some "constraint_not_null"%string
  else if extended_code =? SQLITE_CONSTRAINT_PRIMARYKEY then Some "constraint_primary_key"%string
  else if extended_code =? SQLITE_CONSTRAINT_ROWID then Some "constraint_rowid"%string
  else if extended_code =? SQLITE_CONSTRAINT_TRIGGER then Some "constraint_trigger"%string
  else if extended_code =? SQLITE_CONSTRAINT_UNIQUE then Some "constraint_unique"%string
  else if extended_code =? SQLITE_CONSTRAINT_VTAB then Some "constraint_vtab"%string
  else if extended_code =? SQLITE_CONSTRAINT_PINNED then Some "constraint_pinned"%string
  else if extended_code =? SQLITE_CONSTRAINT_DATATYPE then Some "constraint_datatype"%string
  else if Z.land extended_code 255 =? SQLITE_CONSTRAINT then Some "constraint_violation"%string
  else None.

Definition sqlite_type_to_atom (t : Type_) : string :=
  match t with
  | TNull => "nil" | TInteger => "integer" | TReal => "float" | TText => "text"
  | TBlob => "binary"
  end.

(** [is_sqlite_auth] *)
Definition is_sqlite_auth (err : RusqliteError) : bool :=
  match err with
  | R_SqliteFailure e _ | R_SqlInputError e _ _ _ =>
      Z.land (extended_code e) 255 =? SQLITE_AUTH
  | _ => false
  end.

Section Classify.
Context `{RusqliteText}.

Definition classify_sqlite_error (ffi_err : ffi_Error) (message_string : bytes) : XqliteError :=
  let lower_msg := to_lowercase lower_table message_string in
  let ext := extended_code ffi_err in
  let primary_code := Z.land ext 255 in
  if primary_code =? SQLITE_READONLY then ReadOnlyDatabase ext message_string
  else if primary_code =? SQLITE_INTERRUPT then OperationCancelled
  else if (primary_code =? SQLITE_BUSY) || (primary_code =? SQLITE_LOCKED) then
    DatabaseBusyOrLocked ext message_string
  else if primary_code =? SQLITE_SCHEMA then SchemaChanged ext message_string
  else if primary_code =? SQLITE_AUTH then AuthorizationDenied ext message_string
  else if primary_code =? SQLITE_CONSTRAINT then
    ConstraintViolation (constraint_kind_to_atom_extended ext) message_string
      (parse_details ext message_string)
  else if starts_with (str "no such table") lower_msg then NoSuchTable message_string
  else if starts_with (str "no such index") lower_msg then NoSuchIndex message_string
  else if starts_with (str "table") lower_msg && contains (str "already exists") lower_msg then
    TableExists message_string
  else if starts_with (str "index") lower_msg && contains (str "already exists") lower_msg then
    IndexExists message_string
  else SqliteFailure (Z.land ext 255) ext (Some message_string).

(** The [Display] text of the [SqliteFailure] variant ([classified.to_string()]
    in [From]); [display] below is the whole instance. *)
Definition display_sqlite_failure (code extended_code : Z) (message : option bytes) : bytes :=
  str "SQLite failure (Code: " ++ show_Z code ++ str ", Extended: " ++ show_Z extended_code
  ++ str "): " ++ default (str "No details") message.

(** [impl From<RusqliteError> for XqliteError] *)
Definition from_rusqlite (err : RusqliteError) : XqliteError :=
  match err with
  | R_SqliteFailure ffi_err msg_opt =>
      let message_string := match msg_opt with Some m => m | None => ffi_display ffi_err end in
      classify_sqlite_error ffi_err message_string
  | R_SqlInputError ffi_err msg sql offset =>
      match classify_sqlite_error ffi_err msg with
      | SqliteFailure c x m =>
          SqlInputError (extended_code ffi_err) (display_sqlite_failure c x m) sql offset
      | classified => classified
      end
  | R_ExecuteReturnedResults => ExecuteReturnedResults
  | R_InvalidParameterCount p e => InvalidParameterCount p e
  | R_InvalidParameterName name => InvalidParameterName name
  | R_NulError => NulErrorInString
  | R_Utf8Error col e => Utf8Error col e
  | R_FromSqlConversionFailure idx ty e => FromSqlConversionFailure idx (sqlite_type_to_atom ty) e
  | R_IntegralValueOutOfRange idx val => IntegralValueOutOfRange idx val
  | R_ToSqlConversionFailure e => ToSqlConversionFailure e
  | R_InvalidColumnIndex idx => InvalidColumnIndex idx
  | R_InvalidColumnName name => InvalidColumnName name
  | R_InvalidColumnType idx name ty => InvalidColumnType idx name (sqlite_type_to_atom ty)
  | R_MultipleStatement => MultipleStatements
  | R_QueryReturnedNoRows | R_BlobSizeError | R_Other _ =>
      CannotExecute (rusqlite_display err)
  end.

End Classify.

(** ** [impl Display] *)

Definition term_type_name (t : TermType) : string :=
  match t with
  | TyAtom => "atom" | TyBinary => "binary" | TyFloat => "float" | TyFun => "function"
  | TyInteger => "integer" | TyList => "list" | TyMap => "map" | TyPid => "pid"
  | TyPort => "port" | TyRef => "reference" | TyTuple => "tuple" | TyUnknown => "unknown"
  end.

Section Display.
Context `{Beam}.

Definition display (e : XqliteError) : bytes :=
  match e with
  | CannotConvertToSqliteValue v r =>
      str "Cannot convert Elixir value '" ++ v ++ str "' to SQLite type: " ++ r
  | ToSqlConversionFailure r => str "Cannot convert Rust value to SQLite type: " ++ r
  | ExpectedKeywordList v => str "Expected a keyword list for named parameters, got: " ++ v
  | ExpectedKeywordTuple v =>
      str "Expected a {atom, value} tuple inside keyword list, got: " ++ v
  | ExpectedList v => str "Expected a List for parameters, got: " ++ v
  | UnsupportedAtom a =>
      str "Unsupported atom value '" ++ a ++ str "'. Allowed values: nil, true, false"
  | UnsupportedDataType ty =>
      str "Unsupported data type " ++ str (term_type_name ty)
      ++ str ". Allowed types: atom, integer, float, binary"
  | CannotExecute r => str "Cannot execute query/statement: " ++ r
  | CannotExecutePragma p r => str "Cannot execute PRAGMA '" ++ p ++ str "': " ++ r
  | DatabaseBusyOrLocked _ m => str "Database busy or locked: " ++ m
  | OperationCancelled => str "Database operation was cancelled"
  | NoSuchTable m => str "No such table: " ++ m
  | NoSuchIndex m => str "No such index: " ++ m
  | TableExists m => str "Table already exists: " ++ m
  | IndexExists m => str "Index already exists: " ++ m
  | SchemaChanged _ m => str "Database schema changed: " ++ m
  | ReadOnlyDatabase _ m => str "Database is read-only: " ++ m
  | AuthorizationDenied _ m => str "Authorization denied: " ++ m
  | CannotOpenDatabase p c m =>
      str "Cannot open database '" ++ p ++ str "' (Code: " ++ show_Z c ++ str "): " ++ m
  | CannotConvertAtomToString r => str "Cannot convert Elixir atom to string: " ++ r
  | LockError r => str "Failed to lock connection mutex: " ++ r
  | InvalidStreamHandle r => str "Invalid stream handle: " ++ r
  | ConnectionClosed => str "Connection is closed"
  | StatementFinalized => str "Statement is already finalized"
  | InternalEncodingError c => str "Internal error during result encoding: " ++ c
  | InvalidParameterCount p x =>
      str "Invalid parameter count: provided " ++ show_Z p ++ str ", expected " ++ show_Z x
  | InvalidParameterName n => str "Invalid parameter name: '" ++ n ++ str "'"
  | InvalidPragmaName n => str "Invalid pragma name: '" ++ n ++ str "'"
  | InvalidTransactionMode =>
      str "Invalid transaction mode. Allowed: :deferred, :immediate, :exclusive"
  | InvalidAuthorizerAction _ => str "Invalid authorizer action atom"
  | NulErrorInString => str "Input string contains embedded null byte"
  | MultipleStatements => str "Provided SQL string contains multiple statements"
  | InvalidColumnIndex i => str "Invalid column index: " ++ show_Z i
  | InvalidColumnName n => str "Invalid column name: '" ++ n ++ str "'"
  | InvalidColumnType i n ty =>
      str "Invalid column type at index " ++ show_Z i ++ str " (name: '" ++ n
      ++ str "'): cannot convert SQLite type '" ++ atom_debug ty ++ str "'"
  | ExecuteReturnedResults => str "Execute returned results, expected no rows"
  | Utf8Error c r => str "UTF-8 decoding error at column " ++ show_Z c ++ str ": " ++ r
  | FromSqlConversionFailure i ty r =>
      str "Failed to convert SQLite type '" ++ atom_debug ty ++ str "' at index " ++ show_Z i
      ++ str " to Rust type: " ++ r
  | IntegralValueOutOfRange i v =>
      str "Integral value " ++ show_Z v ++ str " at index " ++ show_Z i
      ++ str " out of range for requested Rust type"
  | SqlInputError c m _ o =>
      str "SQL input error (Code " ++ show_Z c ++ str "): '" ++ m ++ str "' near offset "
      ++ show_Z o
  | ConstraintViolation _ m _ => str "Constraint violation: " ++ m
  | SchemaParsingError c u =>
      str "Schema parsing error (" ++ c ++ str ")" ++ str ": Unexpected value '" ++ u ++ str "'"
  | SqliteFailure c x m => display_sqlite_failure c x m
  end.

End Display.

(** ** [impl Encoder] *)

Definition option_to_term (v : option bytes) : term := encode_opt TBin v.

Definition storage_class_to_term (t : option Type_) : term :=
  match t with
  | Some TInteger => TAtom "integer"
  | Some TReal => TAtom "real"
  | Some TText => TAtom "text"
  | Some TBlob => TAtom "blob"
  | Some TNull | None => nil_term
  end.

Definition term_type_to_atom (t : TermType) : string :=
  match t with
  | TyAtom => "atom" | TyBinary => "binary" | TyFloat => "float" | TyFun => "function"
  | TyInteger => "integer" | TyList => "list" | TyMap => "map" | TyPid => "pid"
  | TyPort => "port" | TyRef => "reference" | TyTuple => "tuple" | TyUnknown => "unknown"
  end.

Definition tagged (tag : string) (args : list term) : term := TTuple (TAtom tag :: args).

Definition encode_internal (context : bytes) : term :=
  tagged "internal_encoding_error" [TBin context].

(** A chain of [map_put]s, then [(tag.., map)]; a failed put degrades to the
    internal encoding error. *)
Definition with_map (built : result term unit) (k : term -> term) (context : string) : term :=
  match built with Ok m => k m | Err _ => encode_internal (str context) end.

Definition encode_details (message : bytes) (details : ConstraintDetails) : result term unit :=
  let? m := map_put map_new "message" (TBin message) in
  let? m := map_put m "table" (option_to_term (table details)) in
  let? m := map_put m "columns" (TList (map TBin (columns details))) in
  let? m := map_put m "index_name" (option_to_term (index_name details)) in
  let? m := map_put m "constraint_name" (option_to_term (constraint_name details)) in
  let? m := map_put m "source_type" (storage_class_to_term (source_type details)) in
  map_put m "target_type" (storage_class_to_term (target_type details)).

Definition encode (e : XqliteError) : term :=
  match e with
  | CannotConvertToSqliteValue v r => tagged "cannot_convert_to_sqlite_value" [TBin v; TBin r]
  | ToSqlConversionFailure r => tagged "to_sql_conversion_failure" [TBin r]
  | ExpectedKeywordList v => tagged "expected_keyword_list" [TBin v]
  | ExpectedKeywordTuple v => tagged "expected_keyword_tuple" [TBin v]
  | ExpectedList v => tagged "expected_list" [TBin v]
  | UnsupportedAtom a => tagged "unsupported_atom" [TBin a]
  | UnsupportedDataType ty => tagged "unsupported_data_type" [TAtom (term_type_to_atom ty)]
  | CannotExecute r => tagged "cannot_execute" [TBin r]
  | CannotExecutePragma p r => tagged "cannot_execute_pragma" [TBin p; TBin r]
  | DatabaseBusyOrLocked c m => tagged "database_busy_or_locked" [TInt c; TBin m]
  | OperationCancelled => TAtom "operation_cancelled"
  | NoSuchTable m => tagged "no_such_table" [TBin m]
  | NoSuchIndex m => tagged "no_such_index" [TBin m]
  | TableExists m => tagged "table_exists" [TBin m]
  | IndexExists m => tagged "index_exists" [TBin m]
  | SchemaChanged c m => tagged "schema_changed" [TInt c; TBin m]
  | ReadOnlyDatabase c m => tagged "read_only_database" [TInt c; TBin m]
  | AuthorizationDenied c m => tagged "authorization_denied" [TInt c; TBin m]
  | CannotOpenDatabase p c m => tagged "cannot_open_database" [TBin p; TInt c; TBin m]
  | CannotConvertAtomToString r => tagged "cannot_convert_atom_to_string" [TBin r]
  | LockError r => tagged "lock_error" [TBin r]
  | InvalidStreamHandle r => tagged "invalid_stream_handle" [TBin r]
  | ConnectionClosed => TAtom "connection_closed"
  | StatementFinalized => TAtom "statement_finalized"
  | InternalEncodingError c => encode_internal c
  | InvalidParameterCount p x =>
      with_map
        (let? m := map_put map_new "provided" (TInt p) in map_put m "expected" (TInt x))
        (fun m => tagged "invalid_parameter_count" [m])
        "Failed map create for InvalidParameterCount"
  | InvalidParameterName n => tagged "invalid_parameter_name" [TBin n]
  | InvalidPragmaName n => tagged "invalid_pragma_name" [TBin n]
  | InvalidTransactionMode => TAtom "invalid_transaction_mode"
  | InvalidAuthorizerAction a => tagged "invalid_authorizer_action" [TAtom a]
  | NulErrorInString => TAtom "null_byte_in_string"
  | MultipleStatements => TAtom "multiple_statements"
  | InvalidColumnIndex i => tagged "invalid_column_index" [TInt i]
  | InvalidColumnName n => tagged "invalid_column_name" [TBin n]
  | InvalidColumnType i n ty => tagged "invalid_column_type" [TInt i; TBin n; TAtom ty]
  | ExecuteReturnedResults => TAtom "execute_returned_results"
  | Utf8Error c r => tagged "utf8_error" [TInt c; TBin r]
  | FromSqlConversionFailure i ty r =>
      tagged "from_sql_conversion_failure" [TInt i; TAtom ty; TBin r]
  | IntegralValueOutOfRange i v => tagged "integral_value_out_of_range" [TInt i; TInt v]
  | SqlInputError c m s o =>
      with_map
        (let? mp := map_put map_new "code" (TInt c) in
         let? mp := map_put mp "message" (TBin m) in
         let? mp := map_put mp "sql" (TBin s) in
         map_put mp "offset" (TInt o))
        (fun mp => tagged "sql_input_error" [mp])
        "Failed map create for SqlInputError"
  | ConstraintViolation k m d =>
      with_map (encode_details m d)
        (fun mp => tagged "constraint_violation" [encode_opt TAtom k; mp])
        "Failed map create for ConstraintViolation"
  | SchemaParsingError c u =>
      tagged "schema_parsing_error" [TBin c; tagged "unexpected_value" [TBin u]]
  | SqliteFailure c x m => tagged "sqlite_failure" [TInt c; TInt x; encode_opt TBin m]
  end.

(** [singular_ok_or_error_tuple] ([util.rs]) *)
Definition singular_ok_or_error_tuple (r : result unit XqliteError) : term :=
  match r with Ok _ => TAtom "ok" | Err err => error_tuple (encode err) end.

(** ** Lemmas *)

Lemma constraint_kind_some code :
  Z.land code 255 = SQLITE_CONSTRAINT ->
  exists k, constraint_kind_to_atom_extended code = Some k.
Proof.
  intros H. unfold constraint_kind_to_atom_extended.
  rewrite (proj2 (Z.eqb_eq _ _) H). repeat case_match; eauto.
Qed.

(** The known extended codes have the primary code 19, so the kind is [None]
    exactly when the primary code is not 19. *)
Lemma constraint_kind_none code :
  constraint_kind_to_atom_extended code = None <-> Z.land code 255 <> SQLITE_CONSTRAINT.
Proof.
  split.
  - intros H Hc. destruct (constraint_kind_some code Hc). congruence.
  - intros H. unfold constraint_kind_to_atom_extended.
    repeat match goal with
    | |- context [code =? ?c] => destruct (Z.eqb_spec code c) as [->|_]; [by destruct H|]
    end.
    destruct (Z.eqb_spec (Z.land code 255) SQLITE_CONSTRAINT); [done|done].
Qed.

(** The nil atom is not a kind, so [Some k] and [None] encode differently. *)
Lemma constraint_kind_not_nil code :
  constraint_kind_to_atom_extended code <> Some "nil"%string.
Proof. unfold constraint_kind_to_atom_extended. repeat case_match; intros; congruence. Qed.

Lemma encode_opt_bin_inj (a b : option bytes) : encode_opt TBin a = encode_opt TBin b -> a = b.
Proof. destruct a, b; cbv [encode_opt nil_term]; intros; congruence. Qed.

Lemma map_TBin_inj (a b : list bytes) : map TBin a = map TBin b -> a = b.
Proof.
  revert b; induction a as [|x a IH]; intros [|y b]; simpl; try congruence.
  intros [= -> H]. f_equal. by apply IH.
Qed.

(** What the encoding keeps of an error: everything, except that a [NULL]
    storage class and an unknown one both become [nil], and that an atom-valued
    kind [nil] would too. *)
Definition visible_type (t : option Type_) : option Type_ :=
  match t with Some TNull => None | _ => t end.
Definition visible_details (d : ConstraintDetails) : ConstraintDetails :=
  mkDetails (table d) (columns d) (index_name d) (constraint_name d)
    (visible_type (source_type d)) (visible_type (target_type d)).
Definition visible (e : XqliteError) : XqliteError :=
  match e with
  | ConstraintViolation (Some k) m d =>
      ConstraintViolation (if String.eqb k "nil" then None else Some k) m (visible_details d)
  | ConstraintViolation None m d => ConstraintViolation None m (visible_details d)
  | _ => e
  end.

Lemma storage_class_inj a b :
  storage_class_to_term a = storage_class_to_term b -> visible_type a = visible_type b.
Proof. destruct a as [[]|], b as [[]|]; cbv; intros; congruence. Qed.

Lemma term_type_to_atom_inj a b : term_type_to_atom a = term_type_to_atom b -> a = b.
Proof. destruct a, b; simpl; intros; congruence. Qed.

Lemma encode_details_ok m d : exists mp, encode_details m d = Ok (TMap mp).
Proof. unfold encode_details, map_put, map_new; simpl. eauto. Qed.

Lemma encode_details_inj m1 d1 m2 d2 :
  encode_details m1 d1 = encode_details m2 d2 ->
  m1 = m2 /\ visible_details d1 = visible_details d2.
Proof.
  unfold encode_details, map_put, map_new; simpl. intros [= -> Ht Hc Hi Hn Hs Hg].
  apply encode_opt_bin_inj in Ht, Hi, Hn. apply map_TBin_inj in Hc.
  apply storage_class_inj in Hs, Hg. split; [done|]. unfold visible_details. congruence.
Qed.

(** The tag atom of an encoded error; one per variant. *)
Definition term_tag (t : term) : option string :=
  match t with TAtom a => Some a | TTuple (TAtom a :: _) => Some a | _ => None end.

Lemma encode_violation_inj k1 m1 d1 k2 m2 d2 :
  encode (ConstraintViolation k1 m1 d1) = encode (ConstraintViolation k2 m2 d2) ->
  visible (ConstraintViolation k1 m1 d1) = visible (ConstraintViolation k2 m2 d2).
Proof.
  cbn [encode].
  destruct (encode_details_ok m1 d1) as [mp1 E1], (encode_details_ok m2 d2) as [mp2 E2].
  rewrite E1, E2. cbv [with_map tagged]. intros [= Hk ->].
  destruct (encode_details_inj m1 d1 m2 d2) as [-> Hd]; [congruence|].
  destruct k1 as [k1|], k2 as [k2|]; cbn [encode_opt visible] in *; rewrite Hd; try done.
  - by injection Hk as ->.
  - by injection Hk as ->.
  - by injection Hk as <-.
Qed.

Lemma exists_contained tbl x s :
  contains (str "already exists") (to_lowercase tbl (x ++ str " already exists" ++ s)) = true.
Proof.
  change (str " already exists") with ([32] ++ str "already exists").
  rewrite <- app_assoc, app_assoc.
  apply (to_lowercase_contains tbl (x ++ [32]) (str "already exists") s);
    [by apply ascii_str|done].
Qed.

(** Rewrites the lower-cased message, whose ASCII prefix is [p], to that prefix
    (lower-cased) and an unknown rest. *)
Ltac lower_prefix p :=
  match goal with
  | |- context [to_lowercase ?tbl (p ++ ?s)] =>
      let r := fresh "r" in let Hr := fresh "Hr" in
      destruct (to_lowercase_prefix tbl p s) as [r Hr];
      [by apply ascii_str|done|rewrite Hr; clear Hr]
  end.

(** ** Theorems *)

(** A SQLite failure is reported as a cancellation exactly when SQLite's
    primary result code is SQLITE_INTERRUPT: no message text, extended code or
    other rusqlite error is ever mistaken for one, and no interrupt is reported
    as anything else. *)
Lemma cancelled_iff_interrupt `{RusqliteText} err :
  from_rusqlite err = OperationCancelled <->
  match err with
  | R_SqliteFailure e _ | R_SqlInputError e _ _ _ => Z.land (extended_code e) 255 = SQLITE_INTERRUPT
  | _ => False
  end.
Proof.
  destruct err; simpl; try (split; [discriminate|done]).
  - unfold classify_sqlite_error.
    destruct (Z.eqb_spec (Z.land (extended_code error) 255) SQLITE_INTERRUPT) as [->|Hne].
    + done.
    + split; [|done]. repeat case_match; discriminate.
  - unfold classify_sqlite_error.
    destruct (Z.eqb_spec (Z.land (extended_code error) 255) SQLITE_INTERRUPT) as [->|Hne].
    + done.
    + split; [|done]. repeat case_match; discriminate.
Qed.

(** Constraint violations are recognised by the primary code alone; they
    always carry a kind atom and the details parsed from exactly the message
    that is reported. *)
Lemma constraint_iff_code `{RusqliteText} e m :
  (Z.land (extended_code e) 255 = SQLITE_CONSTRAINT ->
   exists k, constraint_kind_to_atom_extended (extended_code e) = Some k /\
     classify_sqlite_error e m
     = ConstraintViolation (Some k) m (parse_details (extended_code e) m)) /\
  (forall k m' d, classify_sqlite_error e m = ConstraintViolation k m' d ->
   Z.land (extended_code e) 255 = SQLITE_CONSTRAINT).
Proof.
  split.
  - intros Hc. destruct (constraint_kind_some _ Hc) as [k Hk]. exists k. split; [done|].
    unfold classify_sqlite_error. rewrite Hc, Hk. done.
  - intros k m' d. unfold classify_sqlite_error. repeat case_match; try discriminate.
    intros _. by apply Z.eqb_eq.
Qed.

(** C16: what went wrong is decided by SQLite's primary result code alone.  A rusqlite error
    is reported as a cancellation exactly when that code is SQLITE_INTERRUPT: no text,
    extended code or other error is mistaken for one.  A failure is reported as a
    constraint violation exactly when it is SQLITE_CONSTRAINT, with its kind and the
    details parsed from the very message reported. *)
Theorem errors_classified_by_code `{RusqliteText} err e m :
  (from_rusqlite err = OperationCancelled <->
   match err with
   | R_SqliteFailure e _ | R_SqlInputError e _ _ _ => Z.land (extended_code e) 255 = SQLITE_INTERRUPT
   | _ => False
   end) /\
  (Z.land (extended_code e) 255 = SQLITE_CONSTRAINT <->
   exists k, constraint_kind_to_atom_extended (extended_code e) = Some k /\
     classify_sqlite_error e m = ConstraintViolation (Some k) m (parse_details (extended_code e) m)) /\
  (forall k m' d, classify_sqlite_error e m = ConstraintViolation k m' d -> Z.land (extended_code e) 255 = SQLITE_CONSTRAINT).
Proof.
  destruct (constraint_iff_code e m) as [H1 H2]. split_and!; [apply cancelled_iff_interrupt| |exact H2].
  split; [exact H1|]. intros (k & _ & E). by eapply H2.
Qed.

(** With SQLite's generic error code, the four object-existence texts are
    recognised for every object name and every Unicode case table, and the
    message is kept verbatim. *)
Theorem object_existence_classified `{RusqliteText} e n :
  Z.land (extended_code e) 255 = SQLITE_ERROR ->
  (let m := str "no such table: " ++ n in classify_sqlite_error e m = NoSuchTable m) /\
  (let m := str "no such index: " ++ n in classify_sqlite_error e m = NoSuchIndex m) /\
  (let m := str "table " ++ n ++ str " already exists" in
   classify_sqlite_error e m = TableExists m) /\
  (let m := str "index " ++ n ++ str " already exists" in
   classify_sqlite_error e m = IndexExists m).
Proof.
  intros Hc. unfold classify_sqlite_error. rewrite Hc. cbn [Z.eqb orb]. cbv zeta.
  split_and!.
  - lower_prefix (str "no such table: "). done.
  - lower_prefix (str "no such index: "). done.
  - rewrite (app_assoc (str "table ")), <- (app_nil_r (str " already exists")).
    rewrite exists_contained. rewrite <- app_assoc. lower_prefix (str "table "). done.
  - rewrite (app_assoc (str "index ")), <- (app_nil_r (str " already exists")).
    rewrite exists_contained. rewrite <- app_assoc. lower_prefix (str "index "). done.
Qed.

(** C17: the encoding sent to Elixir loses nothing: two errors with the same
    encoding are the same error (up to the NULL storage class, shown as nil). *)
Theorem encode_injective e1 e2 : encode e1 = encode e2 -> visible e1 = visible e2.
Proof.
  intros Heq. assert (Ht : term_tag (encode e1) = term_tag (encode e2)) by (by f_equal).
  destruct e1, e2; try discriminate Ht; clear Ht; revert Heq.
  all: try (cbv [encode tagged with_map map_put map_new assoc_put encode_internal]; simpl; intros; congruence).
  - simpl. intros [= H%term_type_to_atom_inj]. by subst.
  - cbn [encode]. apply encode_violation_inj.
  - simpl. intros [= -> -> H]. f_equal. by apply encode_opt_bin_inj.
Qed.

Lemma object_existence_classified_witness :
  let m := str "table users already exists" in
  @classify_sqlite_error demo_text (ffi_new SQLITE_ERROR) m = TableExists m.
Proof.
  destruct (@object_existence_classified demo_text (ffi_new SQLITE_ERROR) (str "users"))
    as (_ & _ & H & _); [reflexivity|exact H].
Defined.

Lemma encode_injective_witness :
  let d s := mkDetails None [] None None s None in
  visible (ConstraintViolation None (str "m") (d (Some TNull)))
  = visible (ConstraintViolation None (str "m") (d None)).
Proof. apply encode_injective. reflexivity. Defined.
