(* ===== verification/Util.v ===== *)
(** * [util.rs]: values between Elixir and SQLite

    Parameter decoding ([elixir_term_to_rusqlite_value] and the two list
    decoders), result encoding ([encode_val] for the rusqlite path,
    [sqlite_row_to_elixir_terms] for the raw statement path), and the two
    quoting functions that put caller text into SQL. *)

From Stdlib Require Import Floats.SpecFloat.
From S2P Require Import Prelude RustStr Sqlite Terms ConstraintParse Error.

(** ** Encoding results *)

Definition HEAP_BINARY_THRESHOLD : Z := 64.

(** Where the bytes of a binary term live: on the process heap, or in a
    reference-counted [BlobResource]. *)
Inductive backing := HeapBinary | ResourceBinary.

Definition wrap_blob_resource (owned_vec : bytes) : term * backing :=
  (TBin owned_vec, ResourceBinary).

(** [f64::is_finite] *)
Definition is_finite (f : f64) : bool :=
  match f with S754_zero _ | S754_finite _ _ _ => true | _ => false end.

Definition encode_f64 (f : f64) : term :=
  if is_finite f then TFloat f
  else match f with
       | S754_infinity false => TAtom "positive_infinity"
       | S754_infinity true => TAtom "negative_infinity"
       | _ => nil_term
       end.

Section Encode.
Context `{Beam}.

Definition encode_blob (owned_vec : bytes) : term * backing :=
  if HEAP_BINARY_THRESHOLD <? Z.of_nat (length owned_vec) then wrap_blob_resource owned_vec
  else if owned_binary_ok (Z.of_nat (length owned_vec)) then (TBin owned_vec, HeapBinary)
  else wrap_blob_resource owned_vec.

Definition encode_text (bs : bytes) : result term XqliteError :=
  if owned_binary_ok (Z.of_nat (length bs)) then Ok (TBin bs)
  else Err (InternalEncodingError
              (str "Failed to allocate " ++ show_Z (Z.of_nat (length bs))
               ++ str "-byte OwnedBinary for TEXT value")).

Definition encode_val (val : Value) : result term XqliteError :=
  match val with
  | VNull => Ok nil_term
  | VInteger i => Ok (TInt i)
  | VReal f => Ok (encode_f64 f)
  | VText s => encode_text s
  | VBlob owned_vec => Ok (fst (encode_blob owned_vec))
  end.

Definition term_to_tagged_elixir_value (t : term) : term :=
  match get_type t with
  | TyAtom => tagged "atom" [t]
  | TyBinary =>
      match decode_string t with
      | Some _ => tagged "string" [t]
      | None => tagged "binary" [t]
      end
  | TyInteger => tagged "integer" [t]
  | TyFloat => tagged "float" [t]
  | TyList => tagged "list" [t]
  | TyMap => tagged "map" [t]
  | TyFun => tagged "function" [t]
  | TyPid => tagged "pid" [t]
  | TyPort => tagged "port" [t]
  | TyRef => tagged "reference" [t]
  | TyTuple => tagged "tuple" [t]
  | TyUnknown => tagged "unknown" [TBin (str "Unknown TermType: " ++ term_debug t)]
  end.

(** ** [process_rows]: rusqlite's [Rows], as the answers of the successive
    [rows.next()] calls before [Ok(None)]; a row answers [row.get(i)]. *)

Definition row : Type := nat -> result Value RusqliteError.

Context `{RusqliteText}.

(** [for i in 0..column_count] *)
Definition encode_row (r : row) (column_count : nat) : result (list term) XqliteError :=
  collect_map (fun i => let? val := map_err from_rusqlite (r i) in encode_val val)
    (seq 0 column_count).

Fixpoint process_rows (rows : list (result row RusqliteError)) (column_count : nat)
    (results : list (list term)) : result (list (list term)) XqliteError :=
  match rows with
  | [] => Ok results
  | Ok r :: rows' =>
      let? row_values := encode_row r column_count in
      process_rows rows' column_count (results ++ [row_values])
  | Err e :: _ => Err (from_rusqlite e)
  end.

(** ** The raw statement path: what the [sqlite3_column_*] functions answer for
    one column of the current row.  A pointer is the memory it points to
    ([None] is null). *)

Record column := mkColumn {
  column_type : Z;
  column_int64 : Z;
  column_double : f64;
  column_text : option bytes;
  column_blob : option bytes;
  column_bytes : Z;
  utf8_err_text : bytes;  (* [utf8_err.to_string()] *)
}.

Definition internal (context : bytes) : XqliteError := InternalEncodingError context.

Definition column_to_term (i : nat) (c : column) : result term XqliteError :=
  if column_type c =? SQLITE_INTEGER then Ok (TInt (column_int64 c))
  else if column_type c =? SQLITE_FLOAT then Ok (encode_f64 (column_double c))
  else if column_type c =? SQLITE_TEXT then
    match column_text c with
    | None => Err (internal (str "SQLite TEXT column pointer was null for column index "
                             ++ show_Z (Z.of_nat i)))
    | Some mem =>
        let text_slice := take (Z.to_nat (column_bytes c)) mem in
        if utf8_valid text_slice then encode_text text_slice
        else Err (Utf8Error (Z.of_nat i) (utf8_err_text c))
    end
  else if column_type c =? SQLITE_BLOB then
    let len := column_bytes c in
    match column_blob c with
    | None =>
        if len =? 0 then
          if owned_binary_ok 0 then Ok (TBin [])
          else Err (internal (str "Failed to allocate 0-byte OwnedBinary"))
        else Err (internal (str "SQLite BLOB column pointer was null for non-empty blob (column index "
                            ++ show_Z (Z.of_nat i) ++ str ")"))
    | Some mem =>
        let data_slice := take (Z.to_nat len) mem in
        if owned_binary_ok len then Ok (TBin data_slice)
        else Err (internal (str "Failed to allocate " ++ show_Z len
                            ++ str "-byte OwnedBinary for blob"))
    end
  else if column_type c =? SQLITE_NULL then Ok nil_term
  else Err (internal (str "Unknown SQLite column type: " ++ show_Z (column_type c)
                      ++ str " for column index " ++ show_Z (Z.of_nat i))).

(** [sqlite_row_to_elixir_terms]: the columns [0..column_count] in order. *)
Definition sqlite_row_to_elixir_terms (cols : nat -> column) (column_count : nat)
    : result (list term) XqliteError :=
  collect_map (fun i => column_to_term i (cols i)) (seq 0 column_count).

(** ** Decoding parameters *)

Definition make_convert_error (t : term) : XqliteError :=
  CannotConvertToSqliteValue (term_debug t) badarg_debug.

Definition elixir_term_to_rusqlite_value (t : term) : result Value XqliteError :=
  match get_type t with
  | TyAtom =>
      if is_nil t then Ok VNull
      else if is_atom "true" t then Ok (VInteger 1)
      else if is_atom "false" t then Ok (VInteger 0)
      else Err (UnsupportedAtom (match decode_atom t with
                                 | Some a => str a
                                 | None => term_debug t
                                 end))
  | TyInteger =>
      match decode_i64 t with
      | Some i => Ok (VInteger i)
      | None => Err (make_convert_error t)
      end
  | TyFloat =>
      match decode_f64 t with
      | Some f => Ok (VReal f)
      | None => Err (make_convert_error t)
      end
  | TyBinary =>
      match decode_string t with
      | Some s => Ok (VText s)
      | None =>
          match decode_binary t with
          | Some b => Ok (VBlob b)
          | None => Err (make_convert_error t)
          end
      end
  | ty => Err (UnsupportedDataType ty)
  end.

Definition COLON : Z := 58.

(** [atom_to_string] fails on no atom of this model, whose names are texts; the error path
    is the code's. *)
Definition decode_keyword_item (term_item : term) : result (bytes * Value) XqliteError :=
  let? kv := ok_or (ExpectedKeywordTuple (term_debug term_item)) (decode_atom_pair term_item) in
  let? key_atom := ok_or (CannotConvertAtomToString badarg_debug) (decode_atom (TAtom (fst kv))) in
  let key_string := COLON :: str key_atom in
  let? rusqlite_value := elixir_term_to_rusqlite_value (snd kv) in
  Ok (key_string, rusqlite_value).

Definition decode_exec_keyword_params (list_term : term) : result (list (bytes * Value)) XqliteError :=
  let? iter := ok_or (ExpectedKeywordList (term_debug list_term)) (decode_list list_term) in
  collect_map decode_keyword_item iter.

Definition decode_plain_list_params (list_term : term) : result (list Value) XqliteError :=
  let? iter := ok_or (ExpectedList (term_debug list_term)) (decode_list list_term) in
  collect_map elixir_term_to_rusqlite_value iter.

Definition is_keyword (list_term : term) : bool :=
  match decode_list list_term with
  | Some (first_el :: _) =>
      match decode_atom_pair first_el with Some _ => true | None => false end
  | _ => false
  end.

End Encode.

(** ** Text put into SQL *)

(** [f64]'s [Display] *)
Class FloatText := { f64_display : f64 -> bytes }.

Definition quote_identifier (name : bytes) : bytes :=
  [DQUOTE] ++ replace_char DQUOTE [DQUOTE; DQUOTE] name ++ [DQUOTE].

Definition format_term_for_pragma `{Beam} `{FloatText} (t : term) : result bytes XqliteError :=
  match get_type t with
  | TyAtom =>
      if is_nil t then Ok (str "NULL")
      else if is_atom "true" t then Ok (str "ON")
      else if is_atom "false" t then Ok (str "OFF")
      else match decode_atom t with
           | Some a => Ok (str a)
           | None => Err (CannotConvertAtomToString badarg_debug)
           end
  | TyInteger =>
      match decode_i64 t with
      | Some i => Ok (show_Z i)
      | None => Err (make_convert_error t)
      end
  | TyFloat =>
      match decode_f64 t with
      | Some f => Ok (f64_display f)
      | None => Err (make_convert_error t)
      end
  | TyBinary =>
      match decode_string t with
      | Some s => Ok ([QUOTE] ++ replace_char QUOTE [QUOTE; QUOTE] s ++ [QUOTE])
      | None => Err (CannotConvertToSqliteValue (term_debug t)
                       (str "Failed to decode binary as string for PRAGMA: " ++ badarg_debug))
      end
  | ty => Err (UnsupportedDataType ty)
  end.

(** ** Specifications *)

(** How an accepted parameter reads back: booleans are stored as 1 and 0. *)
Definition canonical (t : term) : term :=
  if is_atom "true" t then TInt 1 else if is_atom "false" t then TInt 0 else t.

(** The terms SQLite can store. *)
Definition storable (t : term) : bool :=
  match t with
  | TAtom a => String.eqb a "nil" || String.eqb a "true" || String.eqb a "false"
  | TInt z => in_i 64 z
  | TFloat _ | TBin _ => true
  | _ => false
  end.

(** BEAM floats are always finite. *)
Definition beam_float_finite (t : term) : Prop := forall f, t = TFloat f -> is_finite f = true.

(** What the [sqlite3_column_*] functions answer for a stored value (SQLite's
    documentation: the type code names the storage class, text and blob pointers
    address [column_bytes] bytes, the pointer to a zero-length blob is null). *)
Definition column_holds (c : column) (v : Value) : Prop :=
  match v with
  | VNull => column_type c = SQLITE_NULL
  | VInteger i => column_type c = SQLITE_INTEGER /\ column_int64 c = i
  | VReal f => column_type c = SQLITE_FLOAT /\ column_double c = f
  | VText s =>
      column_type c = SQLITE_TEXT /\ column_bytes c = Z.of_nat (length s) /\
      exists mem, column_text c = Some mem /\ take (length s) mem = s
  | VBlob b =>
      column_type c = SQLITE_BLOB /\ column_bytes c = Z.of_nat (length b) /\
      if bool_decide (b = []) then column_blob c = None
      else exists mem, column_blob c = Some mem /\ take (length b) mem = b
  end.

(** A [VText] is a Rust [String]. *)
Definition text_valid (v : Value) : Prop :=
  match v with VText s => utf8_valid s = true | _ => True end.

(** SQL's reading of a quoted token after the opening quote: up to the first
    quote that is not doubled.  Gives the unescaped text and what follows. *)
Fixpoint read_quoted (q : Z) (s : bytes) : option (bytes * bytes) :=
  match s with
  | [] => None
  | c :: s' =>
      if c =? q then
        match s' with
        | c2 :: s'' =>
            if c2 =? q then
              match read_quoted q s'' with Some (t, r) => Some (q :: t, r) | None => None end
            else Some ([], s')
        | [] => Some ([], [])
        end
      else match read_quoted q s' with Some (t, r) => Some (c :: t, r) | None => None end
  end.

(** A whole quoted token. *)
Definition sql_quoted_token (q : Z) (s : bytes) : option (bytes * bytes) :=
  match s with c :: s' => if c =? q then read_quoted q s' else None | [] => None end.

(** ** Lemmas *)

Lemma encode_blob_fst `{Beam} b : fst (encode_blob b) = TBin b.
Proof. unfold encode_blob, wrap_blob_resource. by repeat case_match. Qed.

Lemma encode_text_ok `{Beam} b :
  (forall n, owned_binary_ok n = true) -> encode_text b = Ok (TBin b).
Proof. intros Ha. unfold encode_text. by rewrite Ha. Qed.

Lemma read_quoted_replace q n rest :
  head rest <> Some q ->
  read_quoted q (replace_char q [q; q] n ++ [q] ++ rest) = Some (n, rest).
Proof.
  intros Hr. induction n as [|c n IH]; simpl.
  - rewrite Z.eqb_refl. destruct rest as [|c rest]; [done|].
    destruct (Z.eqb_spec c q) as [->|]; [by destruct Hr|done].
  - destruct (Z.eqb_spec c q) as [->|Hne]; simpl.
    + rewrite !Z.eqb_refl. simpl in IH. by rewrite IH.
    + rewrite (proj2 (Z.eqb_neq c q) Hne). simpl in IH. by rewrite IH.
Qed.

Lemma column_to_term_holds `{Beam} i c v :
  (forall n, owned_binary_ok n = true) -> text_valid v -> column_holds c v ->
  column_to_term i c = encode_val v.
Proof.
  intros Ha Hu Hc. unfold column_to_term. destruct v as [|z|f|s|b]; simpl in *.
  - by rewrite Hc.
  - destruct Hc as [-> ->]. done.
  - destruct Hc as [-> ->]. done.
  - destruct Hc as (-> & Hl & mem & Hm & Ht). simpl. rewrite Hm, Hl, Nat2Z.id, Ht. by rewrite Hu.
  - destruct Hc as (-> & Hl & Hb). simpl. rewrite encode_blob_fst. case_bool_decide.
    + subst. rewrite Hb, Hl. simpl. by rewrite Ha.
    + destruct Hb as (mem & Hm & Ht). by rewrite Hm, Hl, Ha, Nat2Z.id, Ht.
Qed.

(** The terms a cell can be. *)
Definition cell_shape (t : term) : Prop :=
  t = nil_term \/ (exists z, t = TInt z) \/ (exists f, t = encode_f64 f) \/ (exists b, t = TBin b).

Lemma encode_val_shape `{Beam} v t : encode_val v = Ok t ->
  match v with
  | VNull => t = nil_term
  | VInteger i => t = TInt i
  | VReal f => t = encode_f64 f
  | VText b | VBlob b => t = TBin b
  end.
Proof.
  destruct v; cbn [encode_val]; try (by intros [= <-]); unfold encode_text.
  - destruct (owned_binary_ok _); [by intros [= <-]|done].
  - intros [= <-]. apply encode_blob_fst.
Qed.

Lemma column_shape `{Beam} i c t : column_to_term i c = Ok t -> cell_shape t.
Proof.
  unfold column_to_term, encode_text, cell_shape. intros E.
  repeat match type of E with
  | (if ?b then _ else _) = _ => destruct b
  | (match column_text ?c with _ => _ end) = _ => destruct (column_text c)
  | (match column_blob ?c with _ => _ end) = _ => destruct (column_blob c)
  end; try discriminate E; injection E as <-; eauto 10.
Qed.

Lemma collect_map_ext {A T E} (f g : A -> result T E) l :
  (forall a, a ∈ l -> f a = g a) -> collect_map f l = collect_map g l.
Proof.
  induction l as [|a l IH]; intros H; simpl; [done|].
  rewrite (H a) by set_solver. rewrite IH by set_solver. done.
Qed.

Lemma collect_map_length {A T E} (f : A -> result T E) l ts :
  collect_map f l = Ok ts -> length ts = length l.
Proof. intros H%collect_map_ok. symmetry. by eapply Forall2_length. Qed.

Lemma encode_row_length `{Beam} `{RusqliteText} r n ts : encode_row r n = Ok ts -> length ts = n.
Proof. intros Hl%collect_map_length. by rewrite length_seq in Hl. Qed.

Lemma process_rows_collect `{Beam} `{RusqliteText} rows n acc :
  process_rows rows n acc =
  let? rs := collect_map (fun r => let? r := map_err from_rusqlite r in encode_row r n) rows in
  Ok (acc ++ rs).
Proof.
  revert acc; induction rows as [|[r|e] rows IH]; intros acc; simpl.
  - by rewrite app_nil_r.
  - destruct (encode_row r n) as [ts|e]; [|done]. rewrite IH.
    destruct (collect_map _ rows); [|done]. by rewrite <- app_assoc.
  - done.
Qed.

(** ** Theorems *)

(** A term is accepted as a SQL parameter exactly when it is nil, a boolean,
    an integer of 64 bits, a float or a whole-byte binary. *)
Theorem param_accepted_iff `{Beam} `{RusqliteText} t :
  (exists v, elixir_term_to_rusqlite_value t = Ok v) <-> storable t = true.
Proof.
  unfold elixir_term_to_rusqlite_value, is_nil.
  destruct t; cbn [get_type is_atom decode_atom storable decode_i64 decode_f64 decode_string
    decode_binary]; try (split; [by intros [? ?]|discriminate]); try (by split; eauto).
  - rewrite (String.eqb_sym a "nil"), (String.eqb_sym a "true"), (String.eqb_sym a "false").
    destruct (String.eqb "nil" a); [split; eauto|].
    destruct (String.eqb "true" a); [split; eauto|].
    destruct (String.eqb "false" a); [split; eauto|]. split; [by intros [? ?]|discriminate].
  - destruct (in_i 64 z); [by split; eauto|split; [by intros [? ?]|discriminate]].
  - split; [done|]. intros _. destruct (utf8_valid b); eauto.
Qed.

(** C18: every accepted parameter reads back as itself (booleans as 1 and 0): the
    conversion to a SQLite value and the result encoding are inverse, for text
    and for blobs of every size. *)
Theorem param_roundtrip `{Beam} `{RusqliteText} t v :
  (forall n, owned_binary_ok n = true) -> beam_float_finite t ->
  elixir_term_to_rusqlite_value t = Ok v -> encode_val v = Ok (canonical t).
Proof.
  intros Ha Hf. unfold elixir_term_to_rusqlite_value, canonical, is_nil.
  destruct t; cbn [get_type is_atom decode_atom decode_i64 decode_f64 decode_string
    decode_binary]; try discriminate.
  - destruct (String.eqb_spec "nil" a) as [<-|]; [by intros [= <-]|].
    destruct (String.eqb "true" a); [by intros [= <-]|].
    destruct (String.eqb "false" a); [by intros [= <-]|discriminate].
  - destruct (in_i 64 z); [by intros [= <-]|discriminate].
  - intros [= <-]. cbn [encode_val]. unfold encode_f64. by rewrite (Hf f).
  - destruct (utf8_valid b); intros [= <-]; cbn [encode_val]; [by apply encode_text_ok|].
    by rewrite encode_blob_fst.
Qed.

Lemma param_roundtrip_witness :
  @encode_val demo_beam (VBlob [255; 0]) = Ok (TBin [255; 0]).
Proof.
  apply (@param_roundtrip demo_beam demo_text (TBin [255; 0])); [done|done|reflexivity].
Defined.

(** C20: the raw statement path (streams, manual statements) and the rusqlite path
    (query) give Elixir the same row. *)
Theorem row_paths_agree `{Beam} `{RusqliteText} (cols : nat -> column) (r : row) vs n :
  (forall k, owned_binary_ok k = true) -> Forall text_valid vs -> length vs = n ->
  (forall i v, vs !! i = Some v -> column_holds (cols i) v /\ r i = Ok v) ->
  sqlite_row_to_elixir_terms cols n = encode_row r n.
Proof.
  intros Ha Hu Hn Hv. apply collect_map_ext. intros i Hi. apply elem_of_seq in Hi.
  destruct (lookup_lt_is_Some_2 vs i) as [v Hl]; [lia|].
  destruct (Hv i v Hl) as [Hc Hr]. rewrite Hr. simpl.
  apply column_to_term_holds; [done| |done]. by eapply Forall_lookup_1.
Qed.

Lemma row_paths_agree_witness :
  @sqlite_row_to_elixir_terms demo_beam
    (fun i => if (i =? 0)%nat then mkColumn SQLITE_INTEGER 7 (S754_zero false) None None 0 []
              else mkColumn SQLITE_BLOB 0 (S754_zero false) None None 0 []) 2
  = Ok [TInt 7; TBin []].
Proof.
  etransitivity.
  - apply (@row_paths_agree demo_beam demo_text _
             (fun i => Ok (if (i =? 0)%nat then VInteger 7 else VBlob [])) [VInteger 7; VBlob []]).
    + done.
    + by repeat constructor.
    + done.
    + intros [|[|i]] v; simpl; intros; simplify_eq; simpl; done.
  - reflexivity.
Defined.

(** A query result has one row per row SQLite produced, each with one term
    per column; the first failing row or column is the error. *)
Theorem process_rows_shape `{Beam} `{RusqliteText} rows n rs :
  process_rows rows n [] = Ok rs ->
  length rs = length rows /\ Forall (fun ts => length ts = n) rs /\
  Forall2 (fun r ts => exists x, r = Ok x /\ encode_row x n = Ok ts) rows rs.
Proof.
  rewrite process_rows_collect. destruct (collect_map _ rows) as [rs'|] eqn:E; [|discriminate].
  intros [= <-]. simpl. apply collect_map_ok in E. split_and!.
  - symmetry. by eapply Forall2_length.
  - induction E as [|[x|e] ts rows rs' Hx HF IH]; constructor; try done.
    simpl in Hx. by eapply encode_row_length.
  - eapply Forall2_impl; [|exact E]. intros [x|e] ts Hx; simpl in *; [eauto|discriminate].
Qed.

Lemma process_rows_shape_witness :
  length [[TInt 1]; [TInt 1]]
  = length [Ok (fun _ : nat => Ok (VInteger 1)) : result row RusqliteError;
            Ok (fun _ : nat => Ok (VInteger 1))].
Proof.
  apply (@process_rows_shape demo_beam demo_text _ 1%nat). reflexivity.
Defined.

(** C21: an identifier or PRAGMA text quoted by the crate is read by SQL as exactly
    that text, and reading stops exactly at the closing quote: no caller text can
    escape its quotes. *)
Theorem quoting_is_faithful `{Beam} `{FloatText} name rest :
  head rest <> Some DQUOTE ->
  sql_quoted_token DQUOTE (quote_identifier name ++ rest) = Some (name, rest) /\
  (utf8_valid name = true -> head rest <> Some QUOTE ->
   exists lit, format_term_for_pragma (TBin name) = Ok lit /\
     sql_quoted_token QUOTE (lit ++ rest) = Some (name, rest)).
Proof.
  intros Hr. split.
  - unfold sql_quoted_token, quote_identifier. rewrite <- !app_assoc. cbn [app].
    rewrite Z.eqb_refl. by apply read_quoted_replace.
  - intros Hu Hq. unfold format_term_for_pragma. cbn [get_type decode_string]. rewrite Hu.
    eexists. split; [done|]. unfold sql_quoted_token. rewrite <- !app_assoc. cbn [app].
    rewrite Z.eqb_refl. by apply read_quoted_replace.
Qed.

Lemma quoting_is_faithful_witness :
  sql_quoted_token DQUOTE (quote_identifier [97; DQUOTE; 59] ++ str ";") = Some ([97; DQUOTE; 59], str ";").
Proof.
  apply (@quoting_is_faithful demo_beam {| f64_display := fun _ => [] |}). discriminate.
Defined.
