(* ===== verification/RustFloat.v ===== *)
(** * [str::parse::<f64>]: decimal text to the nearest binary64

    The grammar of the standard library's float parser and the correctly
    rounded conversion, on the [SpecFloat] description of binary64. *)

From Stdlib Require Import Floats.SpecFloat.
From S2P Require Import Prelude RustStr Sqlite.

Definition prec : Z := 53.
Definition emax : Z := 1024.

(** The binary64 nearest to [± num / den], ties to even. *)
Definition round_ratio (s : bool) (num den : positive) : f64 :=
  let '(mz, ez, lz) := SFdiv_core_binary prec emax (Zpos num) 0 (Zpos den) 0 in
  binary_round_aux prec emax s mz ez lz.

(** The binary64 nearest to [± m * 10 ^ e]. *)
Definition round_decimal (s : bool) (m e : Z) : f64 :=
  match m with
  | Zpos p =>
      if 0 <=? e then round_ratio s (Z.to_pos (m * 10 ^ e)) 1
      else round_ratio s p (Z.to_pos (10 ^ (- e)))
  | _ => S754_zero s
  end.

Definition strip_sign (t : bytes) : bool * bytes :=
  match t with
  | c :: r => if c =? 45 then (true, r) else if c =? 43 then (false, r) else (false, t)
  | [] => (false, t)
  end.

(** [Digit+ | Digit+ '.' Digit* | Digit* '.' Digit+] as (all digits, number of
    fraction digits). *)
Definition parse_mantissa (m : bytes) : option (bytes * Z) :=
  let '(ip, fp) := match split_once (str ".") m with Some (i, f) => (i, f) | None => (m, []) end in
  if forallb is_ascii_digit ip && forallb is_ascii_digit fp && negb (bool_decide (ip ++ fp = []))
  then Some (ip ++ fp, Z.of_nat (length fp)) else None.

Definition parse_exponent (e : bytes) : option Z :=
  let '(neg, ds) := strip_sign e in
  if bool_decide (ds = []) || negb (forallb is_ascii_digit ds) then None
  else Some (if (neg : bool) then - digits_value 10 ds else digits_value 10 ds).

Definition parse_f64 (t : bytes) : option f64 :=
  let '(neg, body) := strip_sign t in
  if eq_ignore_ascii_case body (str "inf") || eq_ignore_ascii_case body (str "infinity")
  then Some (S754_infinity neg)
  else if eq_ignore_ascii_case body (str "nan") then Some S754_nan
  else
    let '(m, e) :=
      match split_once_any (str "eE") body with Some (m, e) => (m, Some e) | None => (body, None) end in
    match parse_mantissa m with
    | None => None
    | Some (ds, nfrac) =>
        match e with
        | None => Some (round_decimal neg (digits_value 10 ds) (- nfrac))
        | Some e =>
            match parse_exponent e with
            | Some x => Some (round_decimal neg (digits_value 10 ds) (x - nfrac))
            | None => None
            end
        end
    end.

Example parse_f64_half : parse_f64 (str "-0.5") = Some (S754_finite true 4503599627370496 (-53)).
Proof. vm_compute. reflexivity. Qed.
Example parse_f64_tenth : parse_f64 (str "1e-1") = Some (S754_finite false 7205759403792794 (-56)).
Proof. vm_compute. reflexivity. Qed.
Example parse_f64_overflow : parse_f64 (str "9e999") = Some (S754_infinity false).
Proof. vm_compute. reflexivity. Qed.
