(* ===== verification/SchemaDefault.v ===== *)
(** * [schema.rs], column defaults: [classify_default] and its term encoding *)

From Stdlib Require Import Floats.SpecFloat.
From S2P Require Import Prelude RustStr Sqlite Terms ConstraintParse Error Util RustFloat.

Inductive CurrentKind := CTime | CDate | CTimestamp.

Inductive DefaultValue :=
| DNone
| LiteralNull
| LiteralBool (b : bool)
| LiteralInt (i : Z)
| LiteralFloat (f : f64)
| LiteralText (s : bytes)
| Blob (b : bytes)
| Current (k : CurrentKind)
| Expr (s : bytes).

#[export] Instance CurrentKind_eq_dec : EqDecision CurrentKind.
Proof. solve_decision. Defined.
#[export] Instance DefaultValue_eq_dec : EqDecision DefaultValue.
Proof. solve_decision. Defined.

(** ** The literal parsers *)

(** The [while let Some(c) = chars.next()] loop of [parse_text_literal]. *)
Fixpoint unescape_text (inner : bytes) : option bytes :=
  match inner with
  | [] => Some []
  | c :: rest =>
      if c =? QUOTE then
        match rest with
        | c2 :: rest' =>
            if c2 =? QUOTE then
              match unescape_text rest' with Some out => Some (QUOTE :: out) | None => None end
            else None
        | [] => None
        end
      else match unescape_text rest with Some out => Some (c :: out) | None => None end
  end.

Definition strip_quotes (t : bytes) : option bytes :=
  match strip_prefix [QUOTE] t with Some r => strip_suffix [QUOTE] r | None => None end.

Definition parse_text_literal (t : bytes) : option bytes :=
  match strip_quotes t with Some inner => unescape_text inner | None => None end.

(** [for pair in raw.as_chunks::<2>().0] *)
Fixpoint hex_pairs (raw : bytes) : option bytes :=
  match raw with
  | a :: b :: rest =>
      match to_digit16 a, to_digit16 b with
      | Some hi, Some lo =>
          match hex_pairs rest with
          | Some bs => Some (Z.lor (Z.shiftl hi 4) lo :: bs)
          | None => None
          end
      | _, _ => None
      end
  | _ => Some []
  end.

(** [t.strip_prefix(a).or_else(|| t.strip_prefix(b))] *)
Definition strip_either (a b t : bytes) : option bytes :=
  match strip_prefix a t with Some r => Some r | None => strip_prefix b t end.

Definition parse_blob_literal (t : bytes) : option bytes :=
  match strip_either (str "x") (str "X") t with
  | None => None
  | Some rest =>
      match strip_quotes rest with
      | None => None
      | Some inner =>
          if negb (Z.of_nat (length inner) mod 2 =? 0) || negb (forallb is_ascii_hexdigit inner)
          then None
          else hex_pairs inner
      end
  end.

Definition nonempty (s : bytes) : bool := negb (bool_decide (s = [])).

Definition looks_like_int (t : bytes) : bool :=
  let body := default t (strip_either (str "-") (str "+") t) in
  match strip_either (str "0x") (str "0X") body with
  | Some hex => nonempty hex && forallb is_ascii_hexdigit hex
  | None => nonempty body && forallb is_ascii_digit body
  end.

(** [i64::checked_neg] *)
Definition checked_neg (v : Z) : option Z := if v =? i64_min then None else Some (- v).

Definition parse_int_literal (t : bytes) : option Z :=
  let '(neg, body) :=
    match strip_prefix (str "-") t with
    | Some rest => (true, rest)
    | None => (false, default t (strip_prefix (str "+") t))
    end in
  match strip_either (str "0x") (str "0X") body with
  | Some hex =>
      match u64_from_str_radix16 hex with
      | None => None
      | Some u =>
          let value := wrap_signed 64 u in
          if (neg : bool) then checked_neg value else Some value
      end
  | None => let signed := if (neg : bool) then t else body in parse_i64 signed
  end.

Definition parse_float_literal (t : bytes) : option f64 :=
  let body := default t (strip_either (str "-") (str "+") t) in
  let '(mantissa, exponent) :=
    match split_once_any (str "eE") body with
    | Some (m, e) => (m, Some e)
    | None => (body, None)
    end in
  let mantissa_ok :=
    match split_once (str ".") mantissa with
    | Some (int_part, frac_part) =>
        (nonempty int_part || nonempty frac_part)
        && forallb is_ascii_digit int_part && forallb is_ascii_digit frac_part
    | None => nonempty mantissa && forallb is_ascii_digit mantissa
    end in
  if negb mantissa_ok then None
  else if negb (contains (str ".") body) && match exponent with None => true | Some _ => false end
  then None
  else
    let exponent_ok :=
      match exponent with
      | None => true
      | Some e =>
          let e_body := default e (strip_either (str "-") (str "+") e) in
          nonempty e_body && forallb is_ascii_digit e_body
      end in
    if negb exponent_ok then None
    else match parse_f64 t with
         | Some f => if is_finite f then Some f else None
         | None => None
         end.

Definition classify_default (raw : option bytes) : DefaultValue :=
  match raw with
  | None => DNone
  | Some s =>
      let t := trim s in
      if eq_ignore_ascii_case t (str "NULL") then LiteralNull
      else if eq_ignore_ascii_case t (str "TRUE") then LiteralBool true
      else if eq_ignore_ascii_case t (str "FALSE") then LiteralBool false
      else if eq_ignore_ascii_case t (str "CURRENT_TIME") then Current CTime
      else if eq_ignore_ascii_case t (str "CURRENT_DATE") then Current CDate
      else if eq_ignore_ascii_case t (str "CURRENT_TIMESTAMP") then Current CTimestamp
      else
        match parse_text_literal t with
        | Some text => LiteralText text
        | None =>
            match parse_blob_literal t with
            | Some bs => Blob bs
            | None =>
                if looks_like_int t then
                  match parse_int_literal t with
                  | Some i => LiteralInt i
                  | None => Expr s
                  end
                else
                  match parse_float_literal t with
                  | Some f => LiteralFloat f
                  | None => Expr s
                  end
            end
        end
  end.

(** ** Term encoding *)

Definition current_atom (k : CurrentKind) : string :=
  match k with CTime => "time" | CDate => "date" | CTimestamp => "timestamp" end.

Definition encode_default `{Beam} (d : DefaultValue) : term :=
  match d with
  | DNone => TAtom "none"
  | LiteralNull => tagged "literal" [nil_term]
  | LiteralBool b => tagged "literal" [encode_bool b]
  | LiteralInt i => tagged "literal" [TInt i]
  | LiteralFloat f => tagged "literal" [TFloat f]
  | LiteralText s => tagged "literal" [TBin s]
  | Blob bs =>
      if owned_binary_ok (Z.of_nat (length bs)) then tagged "blob" [TBin bs]
      else encode (InternalEncodingError
                     (str "failed to allocate " ++ show_Z (Z.of_nat (length bs))
                      ++ str "-byte OwnedBinary for blob default"))
  | Current k => tagged "current" [TAtom (current_atom k)]
  | Expr s => tagged "expr" [TBin s]
  end.

(** [impl Decoder for DefaultValue]; the error is always [BadArg]. *)
Definition decode_default (t : term) : option DefaultValue :=
  match decode_atom t with
  | Some atom => if String.eqb atom "none" then Some DNone else None
  | None =>
      match decode_atom_pair t with
      | None => None
      | Some (tag, value) =>
          if String.eqb tag "literal" then
            match decode_bool value with
            | Some b => Some (LiteralBool b)
            | None =>
                match decode_atom value with
                | Some inner => if String.eqb inner "nil" then Some LiteralNull else None
                | None =>
                    match decode_i64 value with
                    | Some i => Some (LiteralInt i)
                    | None =>
                        match decode_f64 value with
                        | Some f => Some (LiteralFloat f)
                        | None => option_map LiteralText (decode_string value)
                        end
                    end
                end
            end
          else if String.eqb tag "blob" then option_map Blob (decode_binary value)
          else if String.eqb tag "current" then
            match decode_atom value with
            | Some kind =>
                if String.eqb kind "time" then Some (Current CTime)
                else if String.eqb kind "date" then Some (Current CDate)
                else if String.eqb kind "timestamp" then Some (Current CTimestamp)
                else None
            | None => None
            end
          else if String.eqb tag "expr" then option_map Expr (decode_string value)
          else None
      end
  end.

(** ** SQL's own spelling of the literals, for the statements *)

Definition sql_text_literal (s : bytes) : bytes :=
  [QUOTE] ++ flat_map (fun c => if c =? QUOTE then [QUOTE; QUOTE] else [c]) s ++ [QUOTE].

Definition hex_digit (n : Z) : Z := if n <? 10 then n + 48 else n + 55.
Definition hex_text (bs : bytes) : bytes :=
  flat_map (fun b => [hex_digit (Z.shiftr b 4); hex_digit (Z.land b 15)]) bs.
Definition sql_blob_literal (bs : bytes) : bytes := str "X" ++ [QUOTE] ++ hex_text bs ++ [QUOTE].

(** The values a schema row can hold: UTF-8 text, integers of 64 bits. *)
Definition default_wf (d : DefaultValue) : Prop :=
  match d with
  | LiteralInt i => in_i 64 i = true
  | LiteralText s | Expr s => utf8_valid s = true
  | _ => True
  end.

(** ** Lemmas *)

Lemma unescape_text_escaped s :
  unescape_text (flat_map (fun c => if c =? QUOTE then [QUOTE; QUOTE] else [c]) s) = Some s.
Proof.
  induction s as [|c s IH]; [done|]. cbn [flat_map].
  destruct (Z.eqb_spec c QUOTE) as [->|Hne]; cbn [app unescape_text].
  - rewrite Z.eqb_refl. by rewrite IH.
  - rewrite (proj2 (Z.eqb_neq c QUOTE) Hne). by rewrite IH.
Qed.

Lemma strip_quotes_wrap s : strip_quotes (QUOTE :: (s ++ [QUOTE])) = Some s.
Proof.
  unfold strip_quotes. change (QUOTE :: ?l) with ([QUOTE] ++ l). rewrite strip_prefix_app.
  apply strip_suffix_app.
Qed.

Lemma nibble_bounds b : 0 <= b < 256 -> 0 <= Z.shiftr b 4 < 16 /\ 0 <= Z.land b 15 < 16.
Proof.
  intros Hb. rewrite Z.shiftr_div_pow2 by lia. change 15 with (Z.ones 4).
  rewrite Z.land_ones by lia. split; [|apply Z.mod_pos_bound; lia].
  change (2 ^ 4) with 16. split; [apply Z.div_pos; lia|apply Z.div_lt_upper_bound; lia].
Qed.

Lemma hex_digit_spec n : 0 <= n < 16 ->
  is_ascii_hexdigit (hex_digit n) = true /\ to_digit16 (hex_digit n) = Some n.
Proof.
  intros Hn. assert (n ∈ seqZ 0 16) as Hin by (apply elem_of_seqZ; lia).
  cut (Forall (fun n => is_ascii_hexdigit (hex_digit n) = true /\ to_digit16 (hex_digit n) = Some n)
         (seqZ 0 16)).
  - intros HF. rewrite Forall_forall in HF. apply HF. by apply list_elem_of_In.
  - vm_compute. repeat constructor.
Qed.

Lemma nibbles_join b : 0 <= b < 256 -> Z.lor (Z.shiftl (Z.shiftr b 4) 4) (Z.land b 15) = b.
Proof.
  intros Hb. apply Z.bits_inj'. intros k Hk.
  rewrite Z.lor_spec, Z.shiftl_spec, Z.land_spec by lia. change 15 with (Z.ones 4).
  destruct (decide (k < 4)) as [Hlt|Hge].
  - rewrite Z.ones_spec_low by lia. rewrite (Z.testbit_neg_r _ (k - 4)) by lia.
    by rewrite andb_true_r.
  - rewrite Z.ones_spec_high, Z.shiftr_spec by lia. rewrite andb_false_r, orb_false_r.
    f_equal. lia.
Qed.

Lemma hex_pairs_text bs : Forall (fun b => 0 <= b < 256) bs ->
  forallb is_ascii_hexdigit (hex_text bs) = true /\ hex_pairs (hex_text bs) = Some bs.
Proof.
  induction 1 as [|b bs Hb HF [IH1 IH2]]; [done|].
  destruct (nibble_bounds b Hb) as [Hh Hl].
  apply hex_digit_spec in Hh as [Hh1 Hh2]. apply hex_digit_spec in Hl as [Hl1 Hl2].
  cbn [hex_text flat_map app forallb hex_pairs]. fold (hex_text bs).
  rewrite Hh1, Hh2, Hl1, Hl2, IH1, IH2, nibbles_join by done. done.
Qed.

Lemma hex_text_even bs : Z.of_nat (length (hex_text bs)) mod 2 = 0.
Proof.
  replace (length (hex_text bs)) with (2 * length bs)%nat.
  - rewrite Nat2Z.inj_mul, Z.mul_comm. apply Z.mod_mul. lia.
  - induction bs as [|b bs IH]; [done|]. cbn [hex_text flat_map]. rewrite length_app.
    fold (hex_text bs). rewrite <- IH. simpl. lia.
Qed.

Lemma eq_ignore_case_head c s k :
  to_ascii_lowercase c <> to_ascii_lowercase (default 0 (head k)) -> k <> [] ->
  eq_ignore_ascii_case (c :: s) k = false.
Proof.
  intros Hc Hk. apply bool_decide_eq_false. destruct k as [|d k]; [done|].
  simpl in *. congruence.
Qed.

(** The branches of [classify_default] below the keywords. *)
Definition classify_literal (s t : bytes) : DefaultValue :=
  match parse_text_literal t with
  | Some text => LiteralText text
  | None =>
      match parse_blob_literal t with
      | Some bs => Blob bs
      | None =>
          if looks_like_int t then
            match parse_int_literal t with Some i => LiteralInt i | None => Expr s end
          else match parse_float_literal t with Some f => LiteralFloat f | None => Expr s end
      end
  end.

Lemma classify_default_literal c s d :
  to_ascii_lowercase c ∉ str "ntfc" -> not_ws_start c = true -> not_ws_end d = true ->
  list.last (c :: s) = Some d ->
  classify_default (Some (c :: s)) = classify_literal (c :: s) (c :: s).
Proof.
  intros Hc Hs He Hl. unfold classify_default. rewrite (trim_id c _ d) by done.
  assert (forall k : bytes, k <> [] ->
    to_ascii_lowercase (default 0 (list.head k)) ∈ str "ntfc" ->
    eq_ignore_ascii_case (c :: s) k = false) as Hk.
  { intros k Hne Hin. apply eq_ignore_case_head; [congruence|done]. }
  rewrite !Hk; [done|..]; try done; vm_compute; set_solver.
Qed.

(** An integer's text names no quoted literal. *)
Lemma show_Z_head z : exists c s d, show_Z z = c :: s /\ list.last (c :: s) = Some d /\
  (c = 45 \/ is_ascii_digit c = true) /\ is_ascii_digit d = true.
Proof.
  destruct (show_Z_spec z) as (d & [Hne Hd] & _ & ->).
  assert (exists l, list.last d = Some l /\ is_ascii_digit l = true) as (l & Hl & Hld).
  { destruct (list.last d) as [l|] eqn:El; [|by apply last_None in El].
    exists l. split; [done|]. apply last_Some in El as [d' ->].
    rewrite forallb_app in Hd. apply andb_true_iff in Hd as [_ Hd]. simpl in Hd.
    by rewrite andb_true_r in Hd. }
  destruct d as [|c s]; [done|]. cbn [forallb] in Hd. destruct (z <? 0).
  - exists 45, (c :: s), l. split_and!; auto.
  - exists c, s, l. split_and!; auto. right. by apply andb_true_iff in Hd as [Hd _].
Qed.

Lemma digit_not_ws d : is_ascii_digit d = true -> not_ws_start d = true /\ not_ws_end d = true.
Proof.
  intros Hd. assert (d ∈ seqZ 48 10) as Hin.
  { apply elem_of_seqZ. unfold is_ascii_digit in Hd. lia. }
  cut (Forall (fun d => not_ws_start d = true /\ not_ws_end d = true) (seqZ 48 10)).
  - intros HF. rewrite Forall_forall in HF. apply HF. by apply list_elem_of_In.
  - vm_compute. repeat constructor.
Qed.

Lemma strip_prefix1_ne a b s : a <> b -> strip_prefix [a] (b :: s) = None.
Proof. intros H. simpl. by rewrite (proj2 (Z.eqb_neq a b) H). Qed.

Lemma strip_either_ne a b c s : a <> c -> b <> c -> strip_either [a] [b] (c :: s) = None.
Proof. intros Ha Hb. unfold strip_either. by rewrite !strip_prefix1_ne. Qed.

(** A decimal digit string is no hexadecimal literal. *)
Lemma digits_not_hex d : forallb is_ascii_digit d = true -> strip_either (str "0x") (str "0X") d = None.
Proof.
  change (str "0x") with [48; 120]. change (str "0X") with [48; 88].
  destruct d as [|a [|b d]]; intros Hd; unfold strip_either; cbn [strip_prefix]; [done| |].
  - by repeat case_match.
  - apply andb_true_iff in Hd as [_ Hd]. apply andb_true_iff in Hd as [Hd _].
    unfold is_ascii_digit in Hd. replace (120 =? b) with false by lia. replace (88 =? b) with false by lia.
    by repeat case_match.
Qed.

Lemma parse_i64_digits neg d : digit_text d ->
  parse_i64 (if (neg : bool) then 45 :: d else d) =
  let v := if neg then - digits_value 10 d else digits_value 10 d in
  if in_i 64 v then Some v else None.
Proof.
  intros [Hne Hd]. unfold parse_i64.
  assert (bool_decide (d = []) || negb (forallb is_ascii_digit d) = false) as Hg.
  { rewrite Hd, bool_decide_eq_false_2 by done. done. }
  destruct neg.
  - cbn [strip_prefix]. rewrite Z.eqb_refl, Hg. done.
  - destruct d as [|c d]; [done|].
    assert (45 <> c /\ 43 <> c) as [H1 H2].
    { apply andb_true_iff in Hd as [Hd _]. unfold is_ascii_digit in Hd. lia. }
    rewrite !strip_prefix1_ne by done. cbn [from_option id]. by rewrite Hg.
Qed.

Lemma int_literal_show z :
  looks_like_int (show_Z z) = true /\
  parse_int_literal (show_Z z) = if in_i 64 z then Some z else None.
Proof.
  destruct (show_Z_spec z) as (d & Hd & Hv & ->).
  assert (exists c s, d = c :: s /\ 45 <> c /\ 43 <> c) as (c & s & Hcs & H1 & H2).
  { destruct Hd as [Hne Hd]. destruct d as [|c s]; [done|]. exists c, s.
    apply andb_true_iff in Hd as [Hd _]. unfold is_ascii_digit in Hd. split_and!; [done|lia|lia]. }
  unfold looks_like_int, parse_int_literal.
  change (str "-") with [45]. change (str "+") with [43].
  pose proof (digits_not_hex d (proj2 Hd)) as Hx.
  assert (nonempty d && forallb is_ascii_digit d = true) as Hg.
  { destruct Hd as [Hne ->]. unfold nonempty. by rewrite bool_decide_eq_false_2. }
  destruct (Z.ltb_spec z 0).
  - change (strip_either [45] [43] (45 :: d)) with (Some d).
    change (strip_prefix [45] (45 :: d)) with (Some d). cbn [from_option id].
    rewrite Hx. split; [exact Hg|]. rewrite (parse_i64_digits true) by done. simpl.
    by replace (- digits_value 10 d) with z by lia.
  - replace (strip_either [45] [43] d) with (@None bytes)
      by (rewrite Hcs; symmetry; by apply strip_either_ne).
    replace (strip_prefix [45] d) with (@None bytes)
      by (rewrite Hcs; symmetry; by apply strip_prefix1_ne).
    replace (strip_prefix [43] d) with (@None bytes)
      by (rewrite Hcs; symmetry; by apply strip_prefix1_ne).
    cbn [from_option id]. rewrite Hx. split; [done|].
    rewrite (parse_i64_digits false) by done. simpl.
    by replace (digits_value 10 d) with z by lia.
Qed.

Lemma text_literal_not_other s :
  to_ascii_lowercase QUOTE ∉ str "ntfc" /\ not_ws_start QUOTE = true /\ not_ws_end QUOTE = true /\
  list.last (sql_text_literal s) = Some QUOTE.
Proof.
  split_and!; [by vm_compute; set_solver|done|done|].
  unfold sql_text_literal. rewrite app_assoc. apply last_snoc.
Qed.

Lemma int_not_quoted c s : c <> QUOTE -> c <> 120 -> c <> 88 ->
  parse_text_literal (c :: s) = None /\ parse_blob_literal (c :: s) = None.
Proof.
  intros H1 H2 H3. unfold parse_text_literal, parse_blob_literal, strip_quotes.
  change (str "x") with [120]. change (str "X") with [88].
  by rewrite strip_prefix1_ne, strip_either_ne.
Qed.

(** ** Theorems *)

(** C24: a column default written as a SQL text, blob or integer literal is
    classified back to exactly the value written: quotes are unescaped, hex
    pairs decoded, and an integer that no 64-bit integer can hold is kept as
    its own text. *)
Theorem classify_default_literals (s bs : bytes) (z : Z) :
  Forall (fun b => 0 <= b < 256) bs ->
  classify_default (Some (sql_text_literal s)) = LiteralText s /\
  classify_default (Some (sql_blob_literal bs)) = Blob bs /\
  classify_default (Some (show_Z z)) = (if in_i 64 z then LiteralInt z else Expr (show_Z z)).
Proof.
  intros Hb. split_and!.
  - destruct (text_literal_not_other s) as (H1 & H2 & H3 & H4).
    unfold sql_text_literal in *. cbn [app] in *. rewrite (classify_default_literal _ _ QUOTE) by done.
    unfold classify_literal, parse_text_literal. rewrite strip_quotes_wrap. by rewrite unescape_text_escaped.
  - unfold sql_blob_literal. change (str "X" ++ ?l) with (88 :: l).
    rewrite (classify_default_literal _ _ QUOTE);
      [|by vm_compute; set_solver|done|done|].
    + unfold classify_literal, parse_text_literal.
      change (strip_quotes (88 :: ?l)) with (@None bytes).
      unfold parse_blob_literal. change (strip_either _ _ (88 :: ?l)) with (Some l). cbn iota beta.
      cbn [app]. rewrite strip_quotes_wrap, hex_text_even.
      destruct (hex_pairs_text bs Hb) as [-> ->]. done.
    + change (88 :: [QUOTE] ++ ?l) with ([88; QUOTE] ++ l). rewrite app_assoc. apply last_snoc.
  - destruct (int_literal_show z) as [Hl Hp].
    destruct (show_Z_head z) as (c & t & d & E & Hlast & Hc & Hd).
    assert (to_ascii_lowercase c ∉ str "ntfc" /\ not_ws_start c = true /\ c <> QUOTE /\ c <> 120 /\ c <> 88)
      as (H1 & H2 & H3 & H4 & H5).
    { destruct Hc as [->|Hc]; [by vm_compute; set_solver|]. pose proof (digit_not_ws c Hc) as [? _].
      unfold is_ascii_digit in Hc. split_and!; [|done|unfold QUOTE; lia|lia|lia].
      unfold to_ascii_lowercase, is_ascii_uppercase. replace ((65 <=? c) && (c <=? 90)) with false by lia.
      change (str "ntfc") with [110; 116; 102; 99]. set_solver by lia. }
    rewrite E in *. rewrite (classify_default_literal _ _ d);
      [|done|done|by apply digit_not_ws|done].
    unfold classify_literal. destruct (int_not_quoted c t) as [-> ->]; try done.
    rewrite Hl, Hp. by destruct (in_i 64 z).
Qed.

Lemma classify_default_literals_witness :
  classify_default (Some (sql_text_literal [97; QUOTE])) = LiteralText [97; QUOTE] /\
  classify_default (Some (sql_blob_literal [171; 0])) = Blob [171; 0] /\
  classify_default (Some (show_Z 9223372036854775808)) = Expr (show_Z 9223372036854775808).
Proof.
  apply (classify_default_literals [97; QUOTE] [171; 0] 9223372036854775808).
  repeat constructor; lia.
Defined.

(** Whatever [classify_default] does not recognise is handed over verbatim,
    untrimmed, and an absent default is the only one classified as none. *)
Theorem classify_default_total raw :
  (forall e, classify_default raw = Expr e -> raw = Some e) /\
  (classify_default raw = DNone <-> raw = None).
Proof.
  destruct raw as [s|]; cbn [classify_default]; [|by split].
  split; [|split; [|discriminate]].
  - intros e. repeat case_match; congruence.
  - repeat case_match; discriminate.
Qed.

(** Decoding the Elixir form of a column default gives it back. *)
Theorem default_term_roundtrip `{Beam} d :
  (forall n, owned_binary_ok n = true) -> default_wf d ->
  decode_default (encode_default d) = Some d.
Proof.
  intros Ha Hw. destruct d as [| |[]| | | | |[]|]; cbn in *; try done; rewrite ?Ha, ?Hw; try done.
Qed.

Lemma default_term_roundtrip_witness :
  decode_default (@encode_default demo_beam (Blob [1; 2])) = Some (Blob [1; 2]).
Proof. apply (@default_term_roundtrip demo_beam); [reflexivity|exact I]. Defined.
