(* ===== verification/HookList.v ===== *)
(** * [hook_util.rs]: hook slots and the multi-subscriber list

    [HookList] is the copy-on-write list of subscribers: a raw pointer to a
    boxed vector which register and unregister replace and free.  The class
    [SubscriberList] is what its clients (the update, commit, rollback, WAL,
    log and progress hooks) rely on; [HookList_laws] discharges it. *)

From S2P Require Import Prelude Heap Error.

(** ** [guard_ffi_callback]: a body that panics ([Err]) yields the fallback *)

Definition guard_ffi_callback {S P : Type} (fallback : Z) (body : S -> result Z P * S) (s : S) : Z * S :=
  match body s with
  | (Ok rc, s') => (rc, s')
  | (Err _, s') => (fallback, s')
  end.

(** ** Single-subscriber slots

    [register_fn] is the SQLite registration; [Db] is whatever it changes. *)

Section Slot.
  Context {T Db : Type}.

Definition install_hook (slot : option ptr) (state : T)
    (register_fn : ptr -> Db -> result unit XqliteError * Db) (h : heap T) (db : Db)
    : option (result unit XqliteError * option ptr * heap T * Db) :=
  let '(new_ptr, h) := box_into_raw state h in
  match register_fn new_ptr db with
  | (Ok _, db) =>
      let! h := drop_nonnull slot h in
      Some (Ok tt, Some new_ptr, h, db)
  | (Err e, db) =>
      let! h := drop_box new_ptr h in
      Some (Err e, slot, h, db)
  end.

Definition uninstall_hook (slot : option ptr)
    (unregister_fn : Db -> result unit XqliteError * Db) (h : heap T) (db : Db)
    : option (result unit XqliteError * option ptr * heap T * Db) :=
  match unregister_fn db with
  | (Err e, db) => Some (Err e, slot, h, db)
  | (Ok _, db) =>
      let! h := drop_nonnull slot h in
      Some (Ok tt, None, h, db)
  end.

Definition drop_hook (slot : option ptr) (h : heap T) : option (option ptr * heap T) :=
  let! h := drop_nonnull slot h in Some (None, h).

End Slot.

(** ** [HookList] *)

Module HookList.

Record HookEntry (T : Type) := mkEntry { id : Z; state : T }.
Arguments mkEntry {T}. Arguments id {T}. Arguments state {T}.

Record HookList := mkList { head : option ptr; next_id : Z }.

Definition new : HookList := mkList None 1.

Section Ops.
  Context {T : Type}.
  Abbreviation vecs := (heap (list (HookEntry T))).

(** [HookEntry { id: e.id, state: e.state.clone() }] *)
Definition clone_entry (e : HookEntry T) : HookEntry T := mkEntry (id e) (state e).

(** [self.head.swap(new_ptr); if !prev.is_null() { drop(Box::from_raw(prev)) }] *)
Definition swap_head (hl : HookList) (new_ptr : option ptr) (next : Z) (h : vecs)
    : option (HookList * vecs) :=
  let! h := drop_nonnull (head hl) h in
  Some (mkList new_ptr next, h).

Definition register (st : T) (hl : HookList) (h : vecs)
    : option (Z * HookList * vecs) :=
  let i := next_id hl in
  let next := wrap_unsigned 64 (i + 1) in
  let entry := mkEntry i st in
  let! new_vec :=
    match head hl with
    | None => Some [entry]
    | Some old_ptr =>
        let! existing := deref old_ptr h in
        Some (map clone_entry existing ++ [entry])
    end in
  let '(new_ptr, h) := box_into_raw new_vec h in
  let! r := swap_head hl (Some new_ptr) next h in
  let '(hl, h) := r in
  Some (i, hl, h).

Definition unregister (i : Z) (hl : HookList) (h : vecs)
    : option (bool * HookList * vecs) :=
  match head hl with
  | None => Some (false, hl, h)
  | Some old_ptr =>
      let! existing := deref old_ptr h in
      let filtered := map clone_entry (filter (fun e => id e <> i) existing) in
      if bool_decide (length filtered = length existing) then Some (false, hl, h)
      else
        let '(new_ptr, h) :=
          match filtered with
          | [] => (None, h)
          | _ => let '(p, h) := box_into_raw filtered h in (Some p, h)
          end in
        let! r := swap_head hl new_ptr (next_id hl) h in
        let '(hl, h) := r in
        Some (true, hl, h)
  end.

(** The body is [FnMut]: it threads what it captures. *)
Definition for_each_snapshot {S : Type} (f : HookEntry T -> S -> option S) (hl : HookList) (h : vecs) (s : S)
    : option S :=
  match head hl with
  | None => Some s
  | Some p =>
      let! snapshot := deref p h in
      foldl (fun acc e => let! s := acc in f e s) (Some s) snapshot
  end.

Definition is_empty (hl : HookList) : bool := bool_decide (head hl = None).

Definition drop_all (hl : HookList) (h : vecs) : option (HookList * vecs) :=
  swap_head hl None (next_id hl) h.

End Ops.

(** *** Lemmas *)

Section Facts.
  Context {T : Type}.
  Abbreviation vecs := (heap (list (HookEntry T))).

(** The live subscribers are [es], in registration order, and [n] is the next
    handle: exactly one box is allocated when there are subscribers, none
    otherwise. *)
Definition holds (hl : HookList) (h : vecs) (es : list (HookEntry T)) (n : Z) : Prop :=
  holds_box (head hl) es h /\ (head hl = None <-> es = []) /\
  next_id hl = n /\ 1 <= n < 2 ^ 64 /\ NoDup (map id es) /\ Forall (fun e => 1 <= id e < n) es.

Lemma map_clone (es : list (HookEntry T)) : map clone_entry es = es.
Proof. induction es as [|[i t] es IH]; simpl; [done|]. by rewrite IH. Qed.

Lemma holds_new : holds new (@empty_heap (list (HookEntry T))) [] 1.
Proof. split_and!; simpl; try done; try lia. constructor. Qed.

Lemma holds_read hl h es n : holds hl h es n ->
  match head hl with Some p => deref p h = Some es | None => es = [] end.
Proof.
  intros (Hb & He & _). destruct (head hl) as [p|]; [by apply deref_held|]. by apply He.
Qed.

(** Swapping in a fresh box for [es'] keeps the representation. *)
Lemma swap_head_box hl (h : vecs) es es' n : holds_box (head hl) es h ->
  let '(p, h1) := box_into_raw es' h in
  exists h2, swap_head hl (Some p) n h1 = Some (mkList (Some p) n, h2) /\ holds_box (Some p) es' h2.
Proof.
  intros Hb. pose proof (swap_box _ _ es' _ Hb) as Hs.
  destruct (box_into_raw es' h) as [p h1]. destruct Hs as (h2 & Hd & Hh).
  exists h2. unfold swap_head. by rewrite Hd.
Qed.

Lemma register_holds t hl h es n : holds hl h es n -> n + 1 < 2 ^ 64 ->
  exists hl' h', register t hl h = Some (n, hl', h') /\ holds hl' h' (es ++ [mkEntry n t]) (n + 1).
Proof.
  intros Hh Hn. pose proof (holds_read _ _ _ _ Hh) as Hr.
  destruct Hh as (Hb & He & Hi & Hr1 & Hnd & Hlt). unfold register.
  assert (match head hl with
    | None => Some [mkEntry (next_id hl) t]
    | Some p => let! existing := deref p h in Some (map clone_entry existing ++ [mkEntry (next_id hl) t])
    end = Some (es ++ [mkEntry n t])) as ->.
  { destruct (head hl) as [p|]; [rewrite Hr, map_clone|rewrite Hr]; by rewrite Hi. }
  pose proof (swap_head_box hl h es (es ++ [mkEntry n t]) (wrap_unsigned 64 (next_id hl + 1)) Hb) as Hs.
  destruct (box_into_raw _ h) as [p h1]. destruct Hs as (h2 & -> & Hb2).
  exists (mkList (Some p) (wrap_unsigned 64 (next_id hl + 1))), h2. split; [by rewrite Hi|].
  assert (wrap_unsigned 64 (next_id hl + 1) = n + 1) as Hw.
  { rewrite Hi. apply Z.mod_small. lia. }
  split_and!; simpl; try done; try lia.
  - split; [discriminate|]. intros Hnil. by apply app_eq_nil in Hnil as [_ ?].
  - rewrite map_app. apply list.NoDup_app. split_and!; [done| |apply NoDup_singleton].
    intros i Hin Hin2. apply list_elem_of_singleton in Hin2. simpl in Hin2. subst i.
    apply list_elem_of_fmap in Hin as (e & He1 & He2).
    rewrite Forall_forall in Hlt. apply list_elem_of_In in He2. specialize (Hlt e He2). lia.
  - apply Forall_app. split; [|constructor; simpl; [lia|done]].
    eapply Forall_impl; [|exact Hlt]. simpl. intros; lia.
Qed.

Lemma unregister_holds i hl h es n : holds hl h es n ->
  exists hl' h', unregister i hl h = Some (bool_decide (i ∈ map id es), hl', h') /\
    holds hl' h' (filter (fun e => id e <> i) es) n.
Proof.
  intros Hh. pose proof (holds_read _ _ _ _ Hh) as Hr. unfold unregister.
  destruct (head hl) as [p|] eqn:Ehd.
  2: { subst es. exists hl, h. done. }
  rewrite Hr, map_clone. destruct Hh as (Hb & He & Hi & Hr1 & Hnd & Hlt).
  set (fs := filter (fun e : HookEntry T => id e <> i) es).
  assert (NoDup (map id fs) /\ Forall (fun e => 1 <= id e < n) fs) as [Hnd' Hlt'].
  { split; [|rewrite list.Forall_forall in *; intros e [_ ?]%list_elem_of_filter; by apply Hlt].
    eapply sublist_NoDup; [exact Hnd|]. apply sublist_map, sublist_filter. }
  assert (length fs = length es <-> i ∉ map id es) as Hl.
  { unfold fs. rewrite filter_same_length, list.Forall_forall, list_elem_of_fmap. naive_solver. }
  destruct (decide (i ∈ map id es)) as [Hin|Hin].
  2: { rewrite bool_decide_eq_true_2 by (by apply Hl). rewrite bool_decide_eq_false_2 by done.
       exists hl, h. split; [done|].
       replace fs with es; [unfold holds; rewrite ?Ehd in *; tauto|].
       symmetry. apply filter_all. apply (proj1 (filter_same_length _ _)). by apply Hl. }
  rewrite (bool_decide_eq_false_2 (length _ = _)) by naive_solver.
  rewrite bool_decide_eq_true_2 by done.
  destruct fs as [|e fs'] eqn:Efs.
  - destruct (drop_held _ _ _ Hb) as (h' & Hd & Hc).
    exists (mkList None (next_id hl)), h'. unfold swap_head. rewrite Hd. by split.
  - pose proof (swap_head_box hl h es (e :: fs') (next_id hl) Hb) as Hs.
    destruct (box_into_raw (e :: fs') h) as [q h1]. destruct Hs as (h2 & -> & Hb2).
    eexists _, h2. split; [done|]. split_and!; simpl; try done; lia.
Qed.

Lemma for_each_holds {S} (f : HookEntry T -> S -> option S) hl h es n s : holds hl h es n ->
  for_each_snapshot f hl h s = foldl (fun acc e => let! s := acc in f e s) (Some s) es.
Proof.
  intros Hh%holds_read. unfold for_each_snapshot.
  destruct (head hl); [by rewrite Hh|by subst].
Qed.

Lemma is_empty_holds hl h es n : holds hl h es n -> is_empty hl = bool_decide (es = []).
Proof.
  intros (_ & He & _). unfold is_empty. apply bool_decide_ext, He.
Qed.

Lemma drop_all_holds hl h es n : holds hl h es n ->
  exists hl' h', drop_all hl h = Some (hl', h') /\ holds hl' h' [] n /\ cells h' = ∅.
Proof.
  intros (Hb & He & Hi & Hr & _). destruct (drop_held _ _ _ Hb) as (h' & Hd & Hc).
  eexists _, h'. unfold drop_all, swap_head. rewrite Hd. split; [done|].
  split; [|done]. split_and!; simpl; try done; try lia. constructor.
Qed.

End Facts.
End HookList.

(** ** What a subscriber list promises to the hooks that use it *)

Class SubscriberList (T L : Type) := {
  sl_new : L;
  sl_register : T -> L -> option (Z * L);
  sl_unregister : Z -> L -> option (bool * L);
  sl_for_each : forall S : Type, (HookList.HookEntry T -> S -> option S) -> L -> S -> option S;
  sl_is_empty : L -> bool;
  sl_drop_all : L -> option L;
}.
Arguments sl_for_each {T L _} {S}.

(** [sl_holds l es n]: the live subscribers are [es], oldest first, and [n] is
    the next handle. *)
Class SubscriberListLaws (T L : Type) `{SubscriberList T L} := {
  sl_holds : L -> list (HookList.HookEntry T) -> Z -> Prop;
  sl_new_holds : sl_holds sl_new [] 1;
  sl_register_holds t l es n : sl_holds l es n -> n + 1 < 2 ^ 64 ->
    exists l', sl_register t l = Some (n, l') /\
      sl_holds l' (es ++ [HookList.mkEntry n t]) (n + 1);
  sl_unregister_holds i l es n : sl_holds l es n ->
    exists l', sl_unregister i l = Some (bool_decide (i ∈ map HookList.id es), l') /\
      sl_holds l' (filter (fun e => HookList.id e <> i) es) n;
  sl_for_each_holds (S : Type) (f : HookList.HookEntry T -> S -> option S) l es n s :
    sl_holds l es n -> sl_for_each f l s = foldl (fun acc e => let! s := acc in f e s) (Some s) es;
  sl_is_empty_holds l es n : sl_holds l es n -> sl_is_empty l = bool_decide (es = []);
  sl_drop_all_holds l es n : sl_holds l es n ->
    exists l', sl_drop_all l = Some l' /\ sl_holds l' [] n;
  sl_ids l es n : sl_holds l es n ->
    NoDup (map HookList.id es) /\ Forall (fun e => 1 <= HookList.id e < n) es;
}.

(** The implementation: the list together with the boxes it owns. *)
Section Instances.
  Context (T : Type).

Definition hook_list : Type := HookList.HookList * heap (list (HookList.HookEntry T)).

#[export] Instance HookList_ops : SubscriberList T hook_list := {|
  sl_new := (HookList.new, empty_heap);
  sl_register t l := let! r := HookList.register t l.1 l.2 in
                     let '(i, hl, h) := r in Some (i, (hl, h));
  sl_unregister i l := let! r := HookList.unregister i l.1 l.2 in
                       let '(b, hl, h) := r in Some (b, (hl, h));
  sl_for_each S f l s := HookList.for_each_snapshot f l.1 l.2 s;
  sl_is_empty l := HookList.is_empty l.1;
  sl_drop_all l := HookList.drop_all l.1 l.2;
|}.

#[export] Instance HookList_laws : SubscriberListLaws T hook_list.
Proof.
  refine {| sl_holds l := HookList.holds l.1 l.2 |}; cbn [sl_new sl_register sl_unregister sl_for_each
    sl_is_empty sl_drop_all HookList_ops].
  - apply HookList.holds_new.
  - intros t l es n Hh Hn.
    destruct (HookList.register_holds t _ _ _ _ Hh Hn) as (hl & h & -> & Hh'). by exists (hl, h).
  - intros i l es n Hh.
    destruct (HookList.unregister_holds i _ _ _ _ Hh) as (hl & h & -> & Hh'). by exists (hl, h).
  - intros S f l es n s. apply HookList.for_each_holds.
  - intros l es n. apply HookList.is_empty_holds.
  - intros l es n Hh.
    destruct (HookList.drop_all_holds _ _ _ _ Hh) as (hl & h & -> & Hh' & _). by exists (hl, h).
  - intros l es n (_ & _ & _ & _ & Hnd & Hlt). done.
Defined.
End Instances.

(** ** Abstract specification: a table of subscribers *)

Section Table.
  Context {T : Type}.

Inductive list_op := OpRegister (t : T) | OpUnregister (i : Z) | OpSnapshot | OpIsEmpty | OpDropAll.
Inductive list_answer :=
| AHandle (i : Z) | ARemoved (b : bool) | ASeen (es : list (Z * T)) | AEmpty (b : bool) | ADropped.

Record table := mkTable { rows : list (Z * T); fresh : Z }.

Definition table_step (o : list_op) (t : table) : list_answer * table :=
  match o with
  | OpRegister x => (AHandle (fresh t), mkTable (rows t ++ [(fresh t, x)]) (fresh t + 1))
  | OpUnregister i =>
      (ARemoved (bool_decide (i ∈ (rows t).*1)), mkTable (filter (fun r => r.1 <> i) (rows t)) (fresh t))
  | OpSnapshot => (ASeen (rows t), t)
  | OpIsEmpty => (AEmpty (bool_decide (rows t = [])), t)
  | OpDropAll => (ADropped, mkTable [] (fresh t))
  end.

Fixpoint run_table (ops : list list_op) (t : table) : list list_answer * table :=
  match ops with
  | [] => ([], t)
  | o :: ops =>
      let '(a, t) := table_step o t in
      let '(l, t) := run_table ops t in (a :: l, t)
  end.

(** The same operations on an implementation; [None] is undefined behaviour. *)
Definition list_step {L} `{SubscriberList T L} (o : list_op) (l : L) : option (list_answer * L) :=
  match o with
  | OpRegister x => let! r := sl_register x l in Some (AHandle r.1, r.2)
  | OpUnregister i => let! r := sl_unregister i l in Some (ARemoved r.1, r.2)
  | OpSnapshot =>
      let! es := sl_for_each (fun e acc => Some (acc ++ [(HookList.id e, HookList.state e)])) l [] in
      Some (ASeen es, l)
  | OpIsEmpty => Some (AEmpty (sl_is_empty l), l)
  | OpDropAll => let! l := sl_drop_all l in Some (ADropped, l)
  end.

Fixpoint run_list {L} `{SubscriberList T L} (ops : list list_op) (l : L)
    : option (list list_answer * L) :=
  match ops with
  | [] => Some ([], l)
  | o :: ops =>
      let! r := list_step o l in
      let! s := run_list ops r.2 in
      Some (r.1 :: s.1, s.2)
  end.

Definition row_of (e : HookList.HookEntry T) : Z * T := (HookList.id e, HookList.state e).

Definition is_register (o : list_op) : bool := match o with OpRegister _ => true | _ => false end.
Definition registrations (ops : list list_op) : Z := Z.of_nat (length (filter is_register ops)).
Definition handles (l : list list_answer) : list Z :=
  omap (fun a => match a with AHandle i => Some i | _ => None end) l.

Lemma map_fst_row es : (map row_of es).*1 = map HookList.id es.
Proof. rewrite <- list_fmap_compose. done. Qed.

Lemma filter_map_row i es :
  filter (fun r : Z * T => r.1 <> i) (map row_of es)
  = map row_of (filter (fun e => HookList.id e <> i) es).
Proof.
  induction es as [|e es IH]; [done|]. cbn [map]. rewrite !filter_cons. simpl.
  destruct (decide (HookList.id e <> i)); simpl; by rewrite IH.
Qed.

Lemma snapshot_rows es acc :
  foldl (fun acc e => let! s := acc in Some (s ++ [row_of e])) (Some acc) es
  = Some (acc ++ map row_of es).
Proof.
  revert acc; induction es as [|e es IH]; intros acc; simpl; [by rewrite app_nil_r|].
  rewrite IH. by rewrite <- app_assoc.
Qed.

Lemma registrations_cons o ops :
  registrations (o :: ops) = (if is_register o then 1 else 0) + registrations ops.
Proof.
  unfold registrations. rewrite filter_cons. destruct o; simpl; lia.
Qed.

Lemma registrations_nonneg ops : 0 <= registrations ops.
Proof. unfold registrations. lia. Qed.

(** One operation of an implementation that keeps the laws is the table's. *)
Lemma list_step_table {L} `{SubscriberListLaws T L} o l es n :
  sl_holds l es n -> n + (if is_register o then 1 else 0) < 2 ^ 64 ->
  exists l' es' n', list_step o l = Some ((table_step o (mkTable (map row_of es) n)).1, l') /\
    sl_holds l' es' n' /\ (table_step o (mkTable (map row_of es) n)).2 = mkTable (map row_of es') n' /\
    n' = n + (if is_register o then 1 else 0).
Proof.
  intros Hh Hn. destruct o as [t|i| | |]; cbn [list_step table_step is_register rows fresh fst snd] in *.
  - destruct (sl_register_holds t _ _ _ Hh Hn) as (l' & -> & Hh'). eexists l', _, _.
    split_and!; [done|exact Hh'| |done]. by rewrite map_app.
  - destruct (sl_unregister_holds i _ _ _ Hh) as (l' & -> & Hh'). eexists l', _, _.
    rewrite map_fst_row. split_and!; [done|exact Hh'| |lia]. by rewrite filter_map_row.
  - rewrite (sl_for_each_holds _ _ _ _ _ _ Hh). setoid_rewrite snapshot_rows. simpl.
    eexists l, es, n. split_and!; [done|done|done|lia].
  - rewrite (sl_is_empty_holds _ _ _ Hh). eexists l, es, n. split_and!; [|done|done|lia].
    do 3 f_equal. apply bool_decide_ext. by destruct es.
  - destruct (sl_drop_all_holds _ _ _ Hh) as (l' & -> & Hh'). eexists l', [], n.
    split_and!; [done|done|done|lia].
Qed.

Lemma run_list_table {L} `{SubscriberListLaws T L} ops l es n :
  sl_holds l es n -> n + registrations ops < 2 ^ 64 ->
  exists l' es' n', run_list ops l = Some ((run_table ops (mkTable (map row_of es) n)).1, l') /\
    sl_holds l' es' n' /\ (run_table ops (mkTable (map row_of es) n)).2 = mkTable (map row_of es') n'.
Proof.
  revert l es n; induction ops as [|o ops IH]; intros l es n Hh Hn; [by eexists _, _, _|].
  rewrite registrations_cons in Hn. pose proof (registrations_nonneg ops).
  destruct (list_step_table o l es n Hh) as (l1 & es1 & n1 & Hs & Hh1 & Ht & Hn1); [lia|].
  cbn [run_list run_table]. rewrite Hs. cbn [fst snd].
  destruct (table_step o _) as [a t]. simpl in Ht |- *. subst t.
  destruct (IH l1 es1 n1 Hh1) as (l2 & es2 & n2 & -> & Hh2 & Ht2); [lia|].
  destruct (run_table ops _) as [as2 t2]. simpl in *. subst t2. by eexists _, _, _.
Qed.

Lemma run_table_handles ops t :
  Forall (fun i => fresh t <= i) (handles (run_table ops t).1) /\ NoDup (handles (run_table ops t).1).
Proof.
  revert t; induction ops as [|o ops IH]; intros t; [split; constructor|].
  cbn [run_table]. destruct (table_step o t) as [a t1] eqn:E. specialize (IH t1).
  destruct (run_table ops t1) as [l t2]. cbn [fst] in *. destruct IH as [IH1 IH2].
  assert (fresh t <= fresh t1) as Hle by (destruct o; simplify_eq/=; lia).
  assert (Forall (fun i => fresh t <= i) (handles l)) as IH1'.
  { eapply Forall_impl; [|exact IH1]. simpl. intros; lia. }
  destruct o; simplify_eq/=; try done. split.
  - constructor; [lia|done].
  - constructor; [|done]. rewrite list.Forall_forall in IH1. intros Hin. specialize (IH1 _ Hin). lia.
Qed.

End Table.
Arguments list_op : clear implicits.
Arguments list_answer : clear implicits.

(** ** Slots: what SQLite holds is always live *)

Section SlotFacts.
  Context {T Db : Type}.
  (** The pointer SQLite passes to the callback, if one is registered. *)
  Context (installed : Db -> option ptr).
  Context (register_fn : ptr -> Db -> result unit XqliteError * Db).
  Context (unregister_fn : Db -> result unit XqliteError * Db).
  Context (register_spec : forall p db,
    match register_fn p db with
    | (Ok _, db') => installed db' = Some p
    | (Err _, db') => installed db' = installed db
    end).
  Context (unregister_spec : forall db,
    match unregister_fn db with
    | (Ok _, db') => installed db' = None
    | (Err _, db') => installed db' = installed db
    end).

(** SQLite's pointer is the slot's, and the slot's box is the only live one. *)
Definition slot_ok (slot : option ptr) (a : T) (h : heap T) (db : Db) : Prop :=
  installed db = slot /\ holds_box slot a h.

Lemma install_hook_ok slot a st h db : slot_ok slot a h db ->
  exists r slot' h' db', install_hook slot st register_fn h db = Some (r, slot', h', db') /\
    match r with
    | Ok _ => slot_ok slot' st h' db' /\ slot' <> None
    | Err _ => slot' = slot /\ slot_ok slot' a h' db'
    end.
Proof.
  intros [Hi Hb]. unfold install_hook. pose proof (swap_box _ _ st _ Hb) as Hs.
  pose proof (box_alloc_drop slot a st h Hb) as Ha.
  destruct (box_into_raw st h) as [p h1]. specialize (register_spec p db).
  destruct (register_fn p db) as [[[]|e] db'].
  - destruct Hs as (h2 & -> & Hb2). eexists _, _, _, _. split; [done|]. simpl. by split.
  - destruct Ha as (h2 & -> & Hb2). eexists _, _, _, _. split; [done|]. simpl.
    split; [done|]. split; [congruence|done].
Qed.

Lemma uninstall_hook_ok slot a h db : slot_ok slot a h db ->
  exists r slot' h' db', uninstall_hook slot unregister_fn h db = Some (r, slot', h', db') /\
    match r with
    | Ok _ => slot' = None /\ slot_ok slot' a h' db'
    | Err _ => slot' = slot /\ slot_ok slot' a h' db'
    end.
Proof.
  intros [Hi Hb]. unfold uninstall_hook. specialize (unregister_spec db).
  destruct (drop_held _ _ _ Hb) as (h1 & Hd & Hc).
  destruct (unregister_fn db) as [[[]|e] db'].
  - rewrite Hd. eexists _, _, _, _. split; [done|]. simpl. by split.
  - eexists _, _, _, _. split; [done|]. simpl. split; [done|]. split; [congruence|done].
Qed.

End SlotFacts.

(** ** Theorems *)

(** C3: a subscriber list behaves as a table of subscribers with fresh handles:
    on every sequence of operations no freed or null pointer is dereferenced and
    nothing is freed twice, each call answers what the table answers, no handle
    is ever given out twice, and at the end the only live allocation is the box
    of the current subscribers (none when there are none): nothing leaks. *)
Theorem hooklist_refines_table {T} (ops : list (list_op T)) :
  registrations ops < 2 ^ 64 - 1 ->
  exists l, run_list ops (sl_new : hook_list T) = Some ((run_table ops (mkTable [] 1)).1, l) /\
    NoDup (handles (run_table ops (mkTable [] 1)).1) /\
    size (cells l.2) = if bool_decide (rows (run_table ops (mkTable [] 1)).2 = []) then 0%nat else 1%nat.
Proof.
  intros Hn. destruct (run_list_table ops (sl_new : hook_list T) [] 1 sl_new_holds)
    as (l & es & n & Hr & (Hb & He & _) & Ht); [lia|].
  exists l. split; [exact Hr|]. split; [apply run_table_handles|].
  change (map row_of (@nil (HookList.HookEntry T))) with (@nil (Z * T)) in Ht. rewrite Ht. simpl.
  destruct (HookList.head l.1) as [p|]; simpl in Hb.
  - destruct Hb as [-> _]. rewrite map_size_singleton.
    destruct es as [|e es]; [|done]. by destruct He as [_ He]; specialize (He eq_refl).
  - rewrite Hb. rewrite (proj1 He) by done. done.
Qed.

Lemma hooklist_refines_table_witness :
  NoDup (handles (run_table [OpRegister 7; OpRegister 7; OpUnregister 1; OpRegister 8] (mkTable [] 1)).1).
Proof.
  destruct (hooklist_refines_table [OpRegister 7; OpRegister 7; OpUnregister 1; OpRegister 8])
    as (l & _ & H & _); [vm_compute; reflexivity|exact H].
Defined.
