(* ===== verification/Hooks.v ===== *)
(** * [update_hook.rs], [commit_hook.rs], [rollback_hook.rs], [wal_hook.rs], [log_hook.rs]

    The event hooks: one callback per connection (one per process for the log)
    that sends every event to every live subscriber.  They use the subscriber
    list through its interface only.  Sending is appending to an outbox of
    [(pid, message)]; the result of [enif_send] is ignored by the code. *)

From S2P Require Import Prelude RustStr Sqlite Terms Heap Error HookList.

Abbreviation outbox := (list (Z * term)).

Definition enif_send (pid : Z) (msg : term) (out : outbox) : outbox := out ++ [(pid, msg)].

(** The subscriber types of these five hooks hold only the pid. *)
Record PidSubscriber := mkSub { pid : Z }.

Section Hooks.
  Context `{Beam} {L : Type} `{SubscriberListLaws PidSubscriber L}.

(** ** Update hook *)

Inductive Action := SQLITE_INSERT | SQLITE_UPDATE | SQLITE_DELETE | UNKNOWN_ACTION.

Definition action_name (a : Action) : bytes :=
  match a with
  | SQLITE_INSERT => str "insert"
  | SQLITE_UPDATE => str "update"
  | SQLITE_DELETE => str "delete"
  | UNKNOWN_ACTION => str "unknown"
  end.

Definition update_message (a : Action) (db tbl : bytes) (rowid : Z) : term :=
  TTuple [make_atom (str "xqlite_update"); make_atom (action_name a); TBin db; TBin tbl; TInt rowid].

Definition send_update_to_pid (p : Z) (a : Action) (db tbl : bytes) (rowid : Z) (out : outbox) : outbox :=
  enif_send p (update_message a db tbl rowid) out.

(** The closure [update_hook::install_callback] installs. *)
Definition update_callback (subs : L) (a : Action) (db tbl : bytes) (rowid : Z) (out : outbox) : option outbox :=
  sl_for_each (fun e out => Some (send_update_to_pid (pid (HookList.state e)) a db tbl rowid out))
    subs out.

Definition update_register (p : Z) (subs : L) : option (result Z XqliteError * L) :=
  let! r := sl_register (mkSub p) subs in Some (Ok r.1, r.2).
Definition update_unregister (i : Z) (subs : L) : option L :=
  let! r := sl_unregister i subs in Some r.2.

(** ** Commit and rollback hooks *)

Definition send_commit_to_pid (p : Z) (out : outbox) : outbox :=
  enif_send p (TTuple [make_atom (str "xqlite_commit")]) out.
Definition send_rollback_to_pid (p : Z) (out : outbox) : outbox :=
  enif_send p (TTuple [make_atom (str "xqlite_rollback")]) out.

(** The closure's value is whether to veto the commit. *)
Definition commit_callback (subs : L) (out : outbox) : option (bool * outbox) :=
  let! out' := sl_for_each (fun e out => Some (send_commit_to_pid (pid (HookList.state e)) out)) subs out in
  Some (false, out').

Definition commit_register (p : Z) (subs : L) : option (result Z XqliteError * L) :=
  let! r := sl_register (mkSub p) subs in Some (Ok r.1, r.2).
Definition commit_unregister (i : Z) (subs : L) : option L :=
  let! r := sl_unregister i subs in Some r.2.

Definition rollback_callback (subs : L) (out : outbox) : option outbox :=
  sl_for_each (fun e out => Some (send_rollback_to_pid (pid (HookList.state e)) out)) subs out.

Definition rollback_register (p : Z) (subs : L) : option (result Z XqliteError * L) :=
  let! r := sl_register (mkSub p) subs in Some (Ok r.1, r.2).
Definition rollback_unregister (i : Z) (subs : L) : option L :=
  let! r := sl_unregister i subs in Some r.2.

(** ** WAL hook *)

Definition DEFAULT_WAL_AUTOCHECKPOINT_PAGES : Z := 1000.

Record WalDispatch := mkWal { wal_list : L; autocheckpoint_pages : Z }.

Definition wal_new : WalDispatch := mkWal sl_new DEFAULT_WAL_AUTOCHECKPOINT_PAGES.

(** What the callback does to the world: messages, and the database names of
    the PASSIVE checkpoints it asks SQLite for. *)
Record wal_effects := mkWalEffects { wal_out : outbox; checkpoints : list (option bytes) }.

Definition send_wal_to_pid (p : Z) (db_name : bytes) (pages : Z) (out : outbox) : outbox :=
  enif_send p (TTuple [make_atom (str "xqlite_wal"); TBin db_name; TInt pages]) out.

(** [db_name] is SQLite's C string: null, or bytes up to its terminator. *)
Definition db_name_str (db_name : option bytes) : bytes :=
  match db_name with Some b => if utf8_valid b then b else [] | None => [] end.

Definition wal_hook_callback (d : WalDispatch) (db_name : option bytes) (pages : Z) (w : wal_effects)
    : option (Z * wal_effects) :=
  let! out := sl_for_each
      (fun e out => Some (send_wal_to_pid (pid (HookList.state e)) (db_name_str db_name) pages out))
      (wal_list d) (wal_out w) in
  let threshold := autocheckpoint_pages d in
  let cps := if (0 <? threshold) && (threshold <=? pages)
             then checkpoints w ++ [db_name] else checkpoints w in
  Some (SQLITE_OK, mkWalEffects out cps).

Definition wal_register (p : Z) (d : WalDispatch) : option (result Z XqliteError * WalDispatch) :=
  let! r := sl_register (mkSub p) (wal_list d) in
  Some (Ok r.1, mkWal r.2 (autocheckpoint_pages d)).
Definition wal_unregister (i : Z) (d : WalDispatch) : option WalDispatch :=
  let! r := sl_unregister i (wal_list d) in Some (mkWal r.2 (autocheckpoint_pages d)).

(** ** Log hook: process-wide, serialised by [MASTER_LOCK] *)

Record log_state := mkLog {
  LOG_SUBSCRIBERS : L;
  MASTER_INSTALLED : bool;
  lock_poisoned : option bytes;      (* the text of the lock error, when poisoned *)
  config_calls : list (result unit bytes);  (* the [config_log] calls made, oldest first *)
}.

Definition send_log_to_pid (p : Z) (err_code : Z) (msg : bytes) (out : outbox) : outbox :=
  enif_send p (TTuple [make_atom (str "xqlite_log"); TInt err_code; TBin msg]) out.

(** A poisoned lock is entered all the same. *)
Definition log_callback (g : log_state) (err_code : Z) (msg : bytes) (out : outbox) : option outbox :=
  sl_for_each (fun e out => Some (send_log_to_pid (pid (HookList.state e)) err_code msg out))
    (LOG_SUBSCRIBERS g) out.

(** [config_log] is the outcome of [trace::config_log(Some(log_callback))], its
    error already printed. *)
Definition log_register (config_log : result unit bytes) (p : Z) (g : log_state)
    : option (result Z bytes * log_state) :=
  match lock_poisoned g with
  | Some e => Some (Err (str "lock error: " ++ e), g)
  | None =>
      let installed :=
        if MASTER_INSTALLED g then Ok g
        else
          let calls := config_calls g ++ [config_log] in
          match config_log with
          | Err e => Err (str "sqlite3_config failed: " ++ e, mkLog (LOG_SUBSCRIBERS g) false None calls)
          | Ok _ => Ok (mkLog (LOG_SUBSCRIBERS g) true None calls)
          end in
      match installed with
      | Err (e, g) => Some (Err e, g)
      | Ok g =>
          let! r := sl_register (mkSub p) (LOG_SUBSCRIBERS g) in
          Some (Ok r.1, mkLog r.2 (MASTER_INSTALLED g) None (config_calls g))
      end
  end.

Definition log_unregister (i : Z) (g : log_state) : option (result unit bytes * log_state) :=
  match lock_poisoned g with
  | Some e => Some (Err (str "lock error: " ++ e), g)
  | None =>
      let! r := sl_unregister i (LOG_SUBSCRIBERS g) in
      Some (Ok tt, mkLog r.2 (MASTER_INSTALLED g) None (config_calls g))
  end.

(** ** Lemmas *)

Definition pids (es : list (HookList.HookEntry PidSubscriber)) : list Z :=
  map (fun e => pid (HookList.state e)) es.
Definition to_all (ps : list Z) (msg : term) : outbox := map (fun p => (p, msg)) ps.

Lemma fan_out (msg : term) es out :
  foldl (fun acc e => let! out := acc in Some (enif_send (pid (HookList.state e)) msg out)) (Some out) es
  = Some (out ++ to_all (pids es) msg).
Proof.
  revert out; induction es as [|e es IH]; intros out; simpl; [by rewrite app_nil_r|].
  rewrite IH. unfold enif_send. by rewrite <- app_assoc.
Qed.

Lemma sl_fan_out (msg : term) (subs : L) es n out : sl_holds subs es n ->
  sl_for_each (fun e out => Some (enif_send (pid (HookList.state e)) msg out)) subs out
  = Some (out ++ to_all (pids es) msg).
Proof. intros Hh. rewrite (sl_for_each_holds _ _ _ _ _ _ Hh). apply fan_out. Qed.

End Hooks.
Arguments WalDispatch : clear implicits.
Arguments log_state : clear implicits.

(** ** Theorems *)

(** The WAL callback, which replaces SQLite's own autocheckpoint hook, keeps
    its behaviour: a passive checkpoint of that database exactly when the
    threshold is positive and the log has reached it, whatever the subscribers;
    and each subscriber is told once. *)
Lemma wal_callback_checkpoints `{Beam} {L} `{SubscriberListLaws PidSubscriber L}
    (d : WalDispatch L) es n db pages w :
  sl_holds (wal_list d) es n ->
  exists cps, wal_hook_callback d db pages w
    = Some (SQLITE_OK, mkWalEffects
        (wal_out w ++ to_all (pids es)
           (TTuple [make_atom (str "xqlite_wal"); TBin (db_name_str db); TInt pages]))
        (checkpoints w ++ cps)) /\
    (cps = [db] <-> 0 < autocheckpoint_pages d <= pages) /\ (cps = [] \/ cps = [db]).
Proof.
  intros Hh. unfold wal_hook_callback. setoid_rewrite (sl_fan_out _ _ _ n); [|done].
  destruct ((0 <? autocheckpoint_pages d) && (autocheckpoint_pages d <=? pages)) eqn:E.
  - exists [db]. split_and!; [done| |auto]. split; [lia|done].
  - exists []. rewrite app_nil_r. split_and!; [done| |auto]. split; [done|lia].
Qed.

(** C25: an update, commit, rollback, log or WAL event sends exactly one message to
    each live subscriber, in registration order, and to nobody else; the commit
    hook never vetoes.  The WAL callback, which replaces SQLite's own autocheckpoint
    hook, keeps its behaviour whoever is subscribed: one passive checkpoint of that
    database exactly when the threshold is positive and the log has reached it. *)
Theorem events_reach_every_subscriber `{Beam} {L} `{SubscriberListLaws PidSubscriber L}
    (subs : L) es n out :
  sl_holds subs es n ->
  (forall a db tbl rowid, update_callback subs a db tbl rowid out
     = Some (out ++ to_all (pids es) (update_message a db tbl rowid))) /\
  commit_callback subs out
    = Some (false, out ++ to_all (pids es) (TTuple [make_atom (str "xqlite_commit")])) /\
  rollback_callback subs out
    = Some (out ++ to_all (pids es) (TTuple [make_atom (str "xqlite_rollback")])) /\
  (forall g code msg, LOG_SUBSCRIBERS g = subs -> log_callback g code msg out
     = Some (out ++ to_all (pids es) (TTuple [make_atom (str "xqlite_log"); TInt code; TBin msg]))) /\
  (forall (d : WalDispatch L) db pages w, wal_list d = subs -> exists cps, wal_hook_callback d db pages w
     = Some (SQLITE_OK, mkWalEffects
         (wal_out w ++ to_all (pids es) (TTuple [make_atom (str "xqlite_wal"); TBin (db_name_str db); TInt pages]))
         (checkpoints w ++ cps)) /\
     (cps = [db] <-> 0 < autocheckpoint_pages d <= pages) /\ (cps = [] \/ cps = [db])).
Proof.
  intros Hh. split_and!.
  - intros. by apply (sl_fan_out _ _ _ n).
  - unfold commit_callback. setoid_rewrite (sl_fan_out _ _ _ n); done.
  - by apply (sl_fan_out _ _ _ n).
  - intros g code msg <-. by apply (sl_fan_out _ _ _ n).
  - intros d db pages w <-. by apply (wal_callback_checkpoints d es n).
Qed.

Lemma events_reach_every_subscriber_witness :
  let one : hook_list PidSubscriber :=
    match sl_register (mkSub 42) sl_new with Some r => r.2 | None => sl_new end in
  @commit_callback demo_beam _ _ one []
  = Some (false, [(42, TTuple [TAtom "xqlite_commit"])]).
Proof.
  intros one.
  destruct (sl_register_holds (mkSub 42) (sl_new : hook_list PidSubscriber) [] 1 sl_new_holds)
    as (l' & Hr & Hh); [lia|].
  destruct (@events_reach_every_subscriber demo_beam _ _ _ l' _ _ [] Hh) as (_ & Hc & _).
  unfold one. rewrite Hr. exact Hc.
Defined.
