(* ===== verification/ProgressDispatch.v ===== *)
(** * [progress_dispatch.rs] and [cancel.rs]: cancellation and progress ticks

    One SQLite progress callback per connection walks two subscriber lists: the
    cancel tokens of the running query, raw pointers into [Arc<AtomicBool>]s that
    a [ProgressHandlerGuard] keeps alive, and the tick subscribers, whose counter
    is shared by all copies of the subscriber. *)

From S2P Require Import Prelude Sqlite Terms Heap Error HookList Hooks.

Definition PROGRESS_NUM_OPS : Z := 8.

Record CancelSubscriber := mkCancel { flag : ptr }.

Record TickSubscriber := mkTick {
  tick_pid : Z;
  every_n : Z;                       (* u32 *)
  tag_bytes : option bytes;
  count : ptr;                       (* an [Arc<AtomicU64>], shared by clones *)
  install_instant : Z;               (* milliseconds *)
}.

(** [u64::is_multiple_of] *)
Definition is_multiple_of (n k : Z) : bool := if k =? 0 then n =? 0 else n mod k =? 0.

Section Dispatch.
  Context `{Beam}.
  Context {LC : Type} `{SubscriberListLaws CancelSubscriber LC}.
  Context {LT : Type} `{SubscriberListLaws TickSubscriber LT}.

Record ProgressDispatch := mkDispatch { cancels : LC; ticks : LT }.

Definition dispatch_new : ProgressDispatch := mkDispatch sl_new sl_new.

(** What the callback reads and writes besides the lists: the tokens' flags, the
    tick counters, the messages sent. *)
Record progress_world := mkWorld {
  flags : heap (bool * nat);
  counters : heap Z;
  sent : outbox;
}.

Definition tick_message (tag : option bytes) (n elapsed_ms : Z) : term :=
  let tail := [TInt (wrap_signed 64 n); TInt (wrap_signed 64 elapsed_ms)] in
  match tag with
  | Some b => TTuple (make_atom (str "xqlite_progress") :: make_atom b :: tail)
  | None => TTuple (make_atom (str "xqlite_progress") :: tail)
  end.

Definition send_tick_to_pid (p : Z) (tag : option bytes) (n elapsed_ms : Z) (out : outbox) : outbox :=
  enif_send p (tick_message tag n elapsed_ms) out.

(** [count.fetch_add(1)] *)
Definition fetch_add1 (p : ptr) (cs : heap Z) : option (Z * heap Z) :=
  match cells cs !! p with
  | Some n => Some (n, mkHeap (<[p := wrap_unsigned 64 (n + 1)]> (cells cs)) (brk cs))
  | None => None
  end.

(** [install_instant.elapsed().as_millis() as u64] when the clock reads [now] *)
Definition elapsed_ms (now since : Z) : Z := wrap_unsigned 64 (Z.max 0 (now - since)).

Definition tick_body (now : Z -> Z) (e : HookList.HookEntry TickSubscriber) (s : heap Z * outbox)
    : option (heap Z * outbox) :=
  let st := HookList.state e in
  let! r := fetch_add1 (count st) s.1 in
  let '(n, cs) := r in
  if is_multiple_of n (every_n st)
  then Some (cs, send_tick_to_pid (tick_pid st) (tag_bytes st) n
                   (elapsed_ms (now (HookList.id e)) (install_instant st)) s.2)
  else Some (cs, s.2).

Definition cancel_body (fl : heap (bool * nat)) (e : HookList.HookEntry CancelSubscriber) (acc : bool)
    : option bool :=
  let! b := arc_load (flag (HookList.state e)) fl in
  Some (if (b : bool) then true else acc).

(** [now i] is the clock as the subscriber with handle [i] is reached. *)
Definition progress_dispatch_callback (now : Z -> Z) (d : ProgressDispatch) (w : progress_world)
    : option (Z * progress_world) :=
  let! should_interrupt := sl_for_each (cancel_body (flags w)) (cancels d) false in
  if (should_interrupt : bool) then Some (1, w)
  else if sl_is_empty (ticks d) then Some (0, w)
  else
    let! r := sl_for_each (tick_body now) (ticks d) (counters w, sent w) in
    Some (0, mkWorld (flags w) r.1 r.2).

(** The body of [register_progress_hook] and [unregister_progress_hook] under the
    connection lock; [tick_new] is [TickSubscriber::new]. *)
Definition tick_new (p n : Z) (tag : option bytes) (now : Z) (cs : heap Z) : TickSubscriber * heap Z :=
  let '(c, cs) := box_into_raw 0 cs in (mkTick p n tag c now, cs).

Definition register_progress_hook (p n : Z) (tag : option bytes) (now : Z) (d : ProgressDispatch)
    (w : progress_world) : option (result Z XqliteError * ProgressDispatch * progress_world) :=
  if n =? 0 then
    Some (Err (CannotExecute (str "register_progress_hook: every_n must be >= 1")), d, w)
  else
    let '(sub, cs) := tick_new p n tag now (counters w) in
    let! r := sl_register sub (ticks d) in
    Some (Ok r.1, mkDispatch (cancels d) r.2, mkWorld (flags w) cs (sent w)).

Definition unregister_progress_hook (i : Z) (d : ProgressDispatch) : option ProgressDispatch :=
  let! r := sl_unregister i (ticks d) in Some (mkDispatch (cancels d) r.2).

(** ** [ProgressHandlerGuard] *)

Definition guard_entries : Type := list (Z * ptr).

Fixpoint guard_new (tokens : list ptr) (cs : LC) : option (guard_entries * LC) :=
  match tokens with
  | [] => Some ([], cs)
  | t :: tokens =>
      let! r := sl_register (mkCancel t) cs in
      let! s := guard_new tokens r.2 in
      Some ((r.1, t) :: s.1, s.2)
  end.

(** Each entry is unregistered, then its [Arc] dropped. *)
Fixpoint guard_drop (entries : guard_entries) (cs : LC) (fl : heap (bool * nat))
    : option (LC * heap (bool * nat)) :=
  match entries with
  | [] => Some (cs, fl)
  | (i, arc) :: entries =>
      let! r := sl_unregister i cs in
      let! fl := arc_drop arc fl in
      guard_drop entries r.2 fl
  end.

(** ** [XqliteCancelToken] *)

Definition token_new (fl : heap (bool * nat)) : ptr * heap (bool * nat) := arc_new false fl.
Definition token_cancel (t : ptr) (fl : heap (bool * nat)) : option (heap (bool * nat)) :=
  arc_store t true fl.

(** ** Lemmas: the two passes of the callback *)

Abbreviation centry := (HookList.HookEntry CancelSubscriber).
Abbreviation tentry := (HookList.HookEntry TickSubscriber).

Definition flag_set (fl : heap (bool * nat)) (p : ptr) : bool := default false (arc_load p fl).

Lemma cancel_pass fl (es : list centry) acc :
  Forall (fun e => is_Some (arc_load (flag (HookList.state e)) fl)) es ->
  foldl (fun acc e => let! s := acc in cancel_body fl e s) (Some acc) es
  = Some (acc || existsb (fun e => flag_set fl (flag (HookList.state e))) es).
Proof.
  intros HF. revert acc; induction HF as [|e es [b Hb] HF IH]; intros acc; simpl.
  - by rewrite orb_false_r.
  - unfold cancel_body at 2, flag_set at 1. rewrite Hb. rewrite IH. f_equal. simpl.
    by destruct b, acc.
Qed.

(** The messages of one tick pass when the counter at [p] reads [c p]. *)
Definition tick_msgs (c : ptr -> Z) (now : Z -> Z) (es : list tentry) : outbox :=
  flat_map (fun e =>
    let st := HookList.state e in
    if is_multiple_of (c (count st)) (every_n st)
    then [(tick_pid st, tick_message (tag_bytes st) (c (count st))
             (elapsed_ms (now (HookList.id e)) (install_instant st)))]
    else []) es.

Definition counter_ptrs (es : list tentry) : list ptr := map (fun e => count (HookList.state e)) es.

Definition counters_read (cs : heap Z) (c : ptr -> Z) (es : list tentry) : Prop :=
  forall p, p ∈ counter_ptrs es -> cells cs !! p = Some (c p).

Lemma tick_msgs_ext c c' now es : (forall p, p ∈ counter_ptrs es -> c p = c' p) ->
  tick_msgs c now es = tick_msgs c' now es.
Proof.
  induction es as [|e es IH]; intros Hc; [done|]. unfold tick_msgs in *. cbn [flat_map].
  rewrite (Hc (count (HookList.state e))) by constructor. f_equal. apply IH.
  intros p Hp. apply Hc. by constructor.
Qed.

Lemma tick_pass now es cs c out : NoDup (counter_ptrs es) -> counters_read cs c es ->
  exists cs', foldl (fun acc e => let! s := acc in tick_body now e s) (Some (cs, out)) es
      = Some (cs', out ++ tick_msgs c now es) /\
    counters_read cs' (fun p => wrap_unsigned 64 (c p + 1)) es /\
    (forall p, p ∉ counter_ptrs es -> cells cs' !! p = cells cs !! p).
Proof.
  revert cs out; induction es as [|e es IH]; intros cs out Hnd Hc.
  - exists cs. simpl. rewrite app_nil_r. split_and!; [done| |done]. intros p Hp. by inversion Hp.
  - unfold counter_ptrs in Hnd. cbn [map] in Hnd. apply list.NoDup_cons in Hnd as [Hni Hnd].
    cbn [foldl]. unfold tick_body at 2, fetch_add1. cbn [fst snd].
    rewrite (Hc (count (HookList.state e))) by constructor.
    set (p0 := count (HookList.state e)) in *.
    set (cs1 := mkHeap (<[p0 := wrap_unsigned 64 (c p0 + 1)]> (cells cs)) (brk cs)).
    set (out1 := if is_multiple_of (c p0) (every_n (HookList.state e))
                 then send_tick_to_pid (tick_pid (HookList.state e)) (tag_bytes (HookList.state e))
                        (c p0) (elapsed_ms (now (HookList.id e)) (install_instant (HookList.state e))) out
                 else out).
    replace (if is_multiple_of _ _ then Some (cs1, _) else Some (cs1, out)) with (Some (cs1, out1))
      by (unfold out1; by destruct (is_multiple_of _ _)).
    destruct (IH cs1 out1 Hnd) as (cs' & -> & Hr & Hsame).
    { intros p Hp. simpl. rewrite lookup_insert_ne by (intros <-; done). apply Hc. by constructor. }
    exists cs'. split_and!.
    + do 2 f_equal. unfold out1, tick_msgs, send_tick_to_pid, enif_send. cbn [flat_map]. fold p0.
      destruct (is_multiple_of _ _); [by rewrite <- app_assoc|done].
    + intros p Hp. destruct (decide (p = p0)) as [->|Hne].
      * rewrite Hsame by done. simpl. by rewrite lookup_insert, decide_True.
      * apply Hr. apply elem_of_cons in Hp as [|]; done.
    + intros p [Hne Hp]%not_elem_of_cons. rewrite Hsame by done. simpl. by rewrite lookup_insert_ne.
Qed.

Lemma callback_spec now d w ces m tes n c :
  sl_holds (cancels d) ces m -> sl_holds (ticks d) tes n ->
  Forall (fun e => is_Some (arc_load (flag (HookList.state e)) (flags w))) ces ->
  NoDup (counter_ptrs tes) -> counters_read (counters w) c tes ->
  let interrupt := existsb (fun e => flag_set (flags w) (flag (HookList.state e))) ces in
  exists cs', progress_dispatch_callback now d w
    = Some (if interrupt then (1, w)
            else (0, mkWorld (flags w) cs' (sent w ++ tick_msgs c now tes))) /\
    (interrupt = false -> counters_read cs' (fun p => wrap_unsigned 64 (c p + 1)) tes).
Proof.
  intros Hc Ht Hf Hnd Hr interrupt. unfold progress_dispatch_callback.
  rewrite (sl_for_each_holds _ _ _ _ _ _ Hc), cancel_pass by done. cbn [orb].
  fold interrupt. destruct interrupt; [by exists (counters w)|].
  rewrite (sl_is_empty_holds _ _ _ Ht). case_bool_decide as He.
  - subst tes. exists (counters w). simpl. rewrite app_nil_r. destruct w; simpl. split; [done|].
    intros _ p Hp. by inversion Hp.
  - rewrite (sl_for_each_holds _ _ _ _ _ _ Ht).
    destruct (tick_pass now tes (counters w) c (sent w) Hnd Hr) as (cs' & -> & Hr' & _).
    by exists cs'.
Qed.

(** The callback fired once per element of [nows], the clock readings. *)
Fixpoint fire (nows : list (Z -> Z)) (d : ProgressDispatch) (w : progress_world)
    : option (list Z * progress_world) :=
  match nows with
  | [] => Some ([], w)
  | now :: nows =>
      let! r := progress_dispatch_callback now d w in
      let! s := fire nows d r.2 in
      Some (r.1 :: s.1, s.2)
  end.

Fixpoint tick_history (c : ptr -> Z) (nows : list (Z -> Z)) (es : list tentry) : outbox :=
  match nows with
  | [] => []
  | now :: nows => tick_msgs c now es ++ tick_history (fun p => wrap_unsigned 64 (c p + 1)) nows es
  end.

Lemma fire_ticks nows d w ces m tes n c :
  sl_holds (cancels d) ces m -> sl_holds (ticks d) tes n ->
  Forall (fun e => arc_load (flag (HookList.state e)) (flags w) = Some false) ces ->
  NoDup (counter_ptrs tes) -> counters_read (counters w) c tes ->
  exists w', fire nows d w = Some (replicate (length nows) 0, w') /\
    sent w' = sent w ++ tick_history c nows tes.
Proof.
  intros Hc Ht Hf Hnd. revert w c Hf; induction nows as [|now nows IH]; intros w c Hf Hr; simpl.
  - exists w. by rewrite app_nil_r.
  - destruct (callback_spec now d w ces m tes n c Hc Ht) as (cs' & -> & Hr'); try done.
    { eapply Forall_impl; [|exact Hf]. simpl. by intros e ->. }
    assert (existsb (fun e => flag_set (flags w) (flag (HookList.state e))) ces = false) as Hi.
    { clear -Hf. induction Hf as [|e es He HF IH]; simpl; [done|]. unfold flag_set at 1.
      by rewrite He, IH. }
    rewrite Hi in *. cbn [fst snd].
    destruct (IH (mkWorld (flags w) cs' (sent w ++ tick_msgs c now tes)) _ Hf (Hr' eq_refl))
      as (w' & -> & Hs). exists w'. split; [done|]. rewrite Hs. simpl. by rewrite <- app_assoc.
Qed.

Lemma tick_history_ext f g nows es : (forall p, f p = g p) ->
  tick_history f nows es = tick_history g nows es.
Proof.
  revert f g; induction nows as [|now nows IH]; intros f g Hfg; [done|]. cbn [tick_history]. f_equal.
  - apply tick_msgs_ext. auto.
  - apply IH. intros p. by rewrite Hfg.
Qed.

Lemma tick_history_closed (c : ptr -> Z) nows es k :
  tick_history (fun p => wrap_unsigned 64 (c p + Z.of_nat k)) nows es
  = mjoin (imap (fun j now => tick_msgs (fun p => wrap_unsigned 64 (c p + Z.of_nat (k + j))) now es) nows).
Proof.
  revert k; induction nows as [|now nows IH]; intros k; [done|]. cbn [tick_history imap].
  rewrite Nat.add_0_r. simpl. f_equal.
  transitivity (tick_history (fun p => wrap_unsigned 64 (c p + Z.of_nat (S k))) nows es).
  - apply tick_history_ext. intros p. unfold wrap_unsigned.
    rewrite Z.add_mod_idemp_l by lia. f_equal. lia.
  - rewrite IH. f_equal. apply imap_ext. intros j x _. simpl.
    apply tick_msgs_ext. intros p _. do 2 f_equal. lia.
Qed.

(** ** Lemmas: the guard *)

Lemma guard_new_holds tokens cs es n : sl_holds cs es n -> n + Z.of_nat (length tokens) < 2 ^ 64 ->
  exists g cs', guard_new tokens cs = Some (g, cs') /\ map snd g = tokens /\
    sl_holds cs' (es ++ map (fun x => HookList.mkEntry x.1 (mkCancel x.2)) g) (n + Z.of_nat (length tokens)).
Proof.
  revert cs es n; induction tokens as [|t ts IH]; intros cs es n Hh Hn; cbn [guard_new length].
  - exists [], cs. simpl. rewrite app_nil_r, Z.add_0_r. done.
  - cbn [length] in Hn.
    destruct (sl_register_holds (mkCancel t) cs es n Hh) as (cs1 & -> & Hh1); [lia|]. cbn [fst snd].
    destruct (IH cs1 _ (n + 1) Hh1) as (g & cs2 & -> & Hg & Hh2); [lia|].
    exists ((n, t) :: g), cs2. split_and!; [done|simpl; by f_equal|].
    simpl. rewrite <- app_assoc in Hh2. simpl in Hh2.
    by replace (n + Z.of_nat (S (length ts))) with (n + 1 + Z.of_nat (length ts)) by lia.
Qed.

(** The subscribers a guard owns. *)
Definition guard_subs (g : guard_entries) : list centry :=
  map (fun x => HookList.mkEntry x.1 (mkCancel x.2)) g.

Lemma guard_drop_step i t g cs n : sl_holds cs (guard_subs ((i, t) :: g)) n ->
  exists cs', sl_unregister i cs = Some (true, cs') /\ sl_holds cs' (guard_subs g) n.
Proof.
  intros Hh. destruct (sl_ids _ _ _ Hh) as [Hnd _].
  destruct (sl_unregister_holds i _ _ _ Hh) as (cs' & -> & Hh'). exists cs'. split.
  - rewrite bool_decide_eq_true_2; [done|]. simpl. constructor.
  - simpl in Hnd. apply list.NoDup_cons in Hnd as [Hni _].
    cbn [guard_subs map] in Hh'. rewrite filter_cons, decide_False in Hh' by (simpl; tauto).
    rewrite filter_all in Hh'; [exact Hh'|]. apply list.Forall_forall. intros e He <-.
    apply Hni. by apply list_elem_of_fmap_2.
Qed.

End Dispatch.
Arguments ProgressDispatch : clear implicits.

(** ** Tokens, queries and garbage collection as one system

    The operations that touch the cancel tokens of one connection, in any order
    the runtime may interleave them: [XqliteCancelToken::new], [cancel] from any
    process, the collection of a token's resource (its [Arc] is dropped), a
    cancellable query (its tokens' [Arc]s cloned into a guard), SQLite's callback
    firing, and the end of the query. *)

Section CancelSystem.
  Context `{Beam}.
  Context {LC : Type} `{SubscriberListLaws CancelSubscriber LC}.

Record cancel_sys := mkSys {
  s_list : LC;
  s_flags : heap (bool * nat);
  s_guard : option guard_entries;
}.

Inductive cancel_op :=
| TokenNew
| TokenCancel (t : ptr)
| TokenCollected (t : ptr)
| QueryBegin (ts : list ptr)
| CallbackFires
| QueryEnd.

Inductive cancel_answer := ANone | AToken (t : ptr) | AInterrupt (b : bool).

Fixpoint clone_all (ts : list ptr) (fl : heap (bool * nat)) : option (heap (bool * nat)) :=
  match ts with [] => Some fl | t :: ts => let! fl := arc_clone t fl in clone_all ts fl end.

Definition sys_step (o : cancel_op) (s : cancel_sys) : option (cancel_answer * cancel_sys) :=
  match o with
  | TokenNew =>
      let '(t, fl) := token_new (s_flags s) in Some (AToken t, mkSys (s_list s) fl (s_guard s))
  | TokenCancel t =>
      let! fl := token_cancel t (s_flags s) in Some (ANone, mkSys (s_list s) fl (s_guard s))
  | TokenCollected t =>
      let! fl := arc_drop t (s_flags s) in Some (ANone, mkSys (s_list s) fl (s_guard s))
  | QueryBegin ts =>
      let! fl := clone_all ts (s_flags s) in
      let! r := guard_new ts (s_list s) in
      Some (ANone, mkSys r.2 fl (Some r.1))
  | CallbackFires =>
      let! b := sl_for_each (cancel_body (s_flags s)) (s_list s) false in
      Some (AInterrupt b, s)
  | QueryEnd =>
      match s_guard s with
      | Some g => let! r := guard_drop g (s_list s) (s_flags s) in
                  Some (ANone, mkSys r.1 r.2 None)
      | None => Some (ANone, s)
      end
  end.

(** The specification: which tokens Elixir holds, which were ever cancelled, and
    the tokens of the running query. *)
Record cancel_spec := mkSpec {
  held : gset ptr;
  cancelled : gset ptr;
  running : option (list ptr);
  next_token : ptr;
}.

(** What Elixir can do: use a token only while it holds it, run one query at a
    time on a connection (the lock). *)
Definition allowed (o : cancel_op) (x : cancel_spec) : bool :=
  match o with
  | TokenNew | CallbackFires | QueryEnd => true
  | TokenCancel t | TokenCollected t => bool_decide (t ∈ held x)
  | QueryBegin ts => bool_decide (Forall (fun t => t ∈ held x) ts) && bool_decide (running x = None)
  end.

Definition spec_step (o : cancel_op) (x : cancel_spec) : cancel_answer * cancel_spec :=
  match o with
  | TokenNew =>
      (AToken (next_token x),
       mkSpec ({[next_token x]} ∪ held x) (cancelled x) (running x) (Pos.succ (next_token x)))
  | TokenCancel t => (ANone, mkSpec (held x) ({[t]} ∪ cancelled x) (running x) (next_token x))
  | TokenCollected t => (ANone, mkSpec (held x ∖ {[t]}) (cancelled x) (running x) (next_token x))
  | QueryBegin ts => (ANone, mkSpec (held x) (cancelled x) (Some ts) (next_token x))
  | CallbackFires =>
      (AInterrupt (existsb (fun t => bool_decide (t ∈ cancelled x)) (default [] (running x))), x)
  | QueryEnd => (ANone, mkSpec (held x) (cancelled x) None (next_token x))
  end.

Fixpoint run_sys (ops : list cancel_op) (s : cancel_sys) : option (list cancel_answer * cancel_sys) :=
  match ops with
  | [] => Some ([], s)
  | o :: ops => let! r := sys_step o s in let! q := run_sys ops r.2 in Some (r.1 :: q.1, q.2)
  end.

Fixpoint run_spec (ops : list cancel_op) (x : cancel_spec) : list cancel_answer * cancel_spec :=
  match ops with
  | [] => ([], x)
  | o :: ops => let '(a, x) := spec_step o x in let '(l, x) := run_spec ops x in (a :: l, x)
  end.

Fixpoint all_allowed (ops : list cancel_op) (x : cancel_spec) : bool :=
  match ops with
  | [] => true
  | o :: ops => allowed o x && all_allowed ops (spec_step o x).2
  end.

Definition op_tokens (o : cancel_op) : Z :=
  match o with QueryBegin ts => Z.of_nat (length ts) | _ => 0 end.
Definition total_tokens (ops : list cancel_op) : Z := foldr (fun o n => op_tokens o + n) 0 ops.

Definition occ (p : ptr) (l : list ptr) : nat := length (filter (fun q => q = p) l).

(** The number of owners of a token's [Arc]: its resource and the query's guard. *)
Definition owners (x : cancel_spec) (p : ptr) : nat :=
  ((if decide (p ∈ held x) then 1 else 0) + occ p (default [] (running x)))%nat.

Definition flags_rep (fl : heap (bool * nat)) (c : gset ptr) (own : ptr -> nat) : Prop :=
  forall p, cells fl !! p = arc_cell (bool_decide (p ∈ c)) (own p).

Definition sys_rep (s : cancel_sys) (x : cancel_spec) (n : Z) : Prop :=
  sl_holds (s_list s) (guard_subs (default [] (s_guard s))) n /\
  running x = option_map (map snd) (s_guard s) /\
  flags_rep (s_flags s) (cancelled x) (owners x) /\
  brk (s_flags s) = next_token x /\
  (forall p, p ∈ cancelled x \/ p ∈ held x \/ p ∈ default [] (running x) -> (p < next_token x)%positive).

Lemma occ_cons p t l : occ p (t :: l) = ((if decide (t = p) then 1 else 0) + occ p l)%nat.
Proof. unfold occ. rewrite filter_cons. by destruct (decide (t = p)). Qed.

Lemma occ_elem p l : p ∈ l -> occ p l <> O.
Proof.
  intros Hp. unfold occ. intros Hz. apply nil_length_inv in Hz.
  assert (p ∈ filter (fun q => q = p) l) as Hin by (by apply list_elem_of_filter).
  rewrite Hz in Hin. by inversion Hin.
Qed.

Lemma occ_not_elem p l : p ∉ l -> occ p l = O.
Proof.
  induction l as [|q l IH]; intros Hp; [done|]. apply not_elem_of_cons in Hp as [Hq Hp].
  rewrite occ_cons, decide_False by congruence. by rewrite IH.
Qed.

(** Changing the cell of one pointer. *)
Lemma flags_rep_upd fl fl' c c' own own' p :
  flags_rep fl c own ->
  cells fl' !! p = arc_cell (bool_decide (p ∈ c')) (own' p) ->
  (forall q, q <> p -> cells fl' !! q = cells fl !! q) ->
  (forall q, q <> p -> own' q = own q /\ (q ∈ c' <-> q ∈ c)) ->
  flags_rep fl' c' own'.
Proof.
  intros Hr Hp Ho Hq q. destruct (decide (q = p)) as [->|Hne]; [done|].
  rewrite (Ho q Hne), (Hr q). destruct (Hq q Hne) as [-> Hc].
  f_equal. apply bool_decide_ext. by symmetry.
Qed.

Lemma clone_all_rep ts fl c own : flags_rep fl c own -> Forall (fun t => own t <> O) ts ->
  exists fl', clone_all ts fl = Some fl' /\ brk fl' = brk fl /\
    flags_rep fl' c (fun p => own p + occ p ts)%nat.
Proof.
  intros Hr HF. revert fl own Hr HF; induction ts as [|t ts IH]; intros fl own Hr HF; cbn [clone_all].
  - exists fl. split_and!; [done|done|]. intros p. rewrite (Hr p). f_equal. unfold occ. simpl. lia.
  - inversion HF as [|? ? Ht HF']; subst.
    destruct (arc_clone_cell t fl _ _ (Hr t) Ht) as (fl1 & -> & Hb & Hp & Ho).
    destruct (IH fl1 (fun p => own p + (if decide (t = p) then 1 else 0))%nat) as (fl2 & -> & Hb2 & Hr2).
    + eapply flags_rep_upd; [exact Hr|rewrite Hp| exact Ho|].
      * rewrite decide_True by done. f_equal. lia.
      * intros q Hq. rewrite decide_False by congruence. split; [lia|done].
    + eapply Forall_impl; [|exact HF']. simpl. lia.
    + exists fl2. split_and!; [done|congruence|]. intros p. rewrite (Hr2 p), occ_cons. f_equal. lia.
Qed.

Lemma guard_drop_rep g cs n fl c own : sl_holds cs (guard_subs g) n ->
  flags_rep fl c (fun p => own p + occ p (map snd g))%nat ->
  exists cs' fl', guard_drop g cs fl = Some (cs', fl') /\ sl_holds cs' [] n /\
    brk fl' = brk fl /\ flags_rep fl' c own.
Proof.
  revert cs fl; induction g as [|[i t] g IH]; intros cs fl Hh Hr; cbn [guard_drop].
  - exists cs, fl. split_and!; [done|done|done|]. intros p. rewrite (Hr p). f_equal. unfold occ. simpl. lia.
  - destruct (guard_drop_step i t g cs n Hh) as (cs1 & -> & Hh1). cbn [map snd] in Hr |- *.
    assert (own t + occ t (t :: map snd g) <> O)%nat as Hne.
    { rewrite occ_cons, decide_True by done. lia. }
    destruct (arc_drop_cell t fl _ _ (Hr t) Hne) as (fl1 & -> & Hb & Hp & Ho).
    destruct (IH cs1 fl1 Hh1) as (cs2 & fl2 & -> & Hh2 & Hb2 & Hr2).
    + eapply flags_rep_upd; [exact Hr|rewrite Hp|exact Ho|].
      * rewrite occ_cons, decide_True by done. f_equal. lia.
      * intros q Hq. cbn [map snd]. cbv beta. rewrite occ_cons, decide_False by congruence. split; [lia|done].
    + exists cs2, fl2. split_and!; [done|done|congruence|done].
Qed.

Lemma owners_held x p : p ∈ held x -> owners x p <> O.
Proof. intros Hp. unfold owners. rewrite decide_True by done. lia. Qed.

Lemma sys_cancel s x n t : sys_rep s x n -> t ∈ held x ->
  exists s', sys_step (TokenCancel t) s = Some (ANone, s') /\
    sys_rep s' (spec_step (TokenCancel t) x).2 n.
Proof.
  intros (Hh & Hrun & Hr & Hb & Hlt) Ht. cbn [sys_step spec_step snd]. unfold token_cancel.
  destruct (arc_store_cell t true _ _ _ (Hr t) (owners_held _ _ Ht)) as (fl' & -> & Hb' & Hp & Ho).
  eexists. split; [done|]. split_and!; simpl; [done|done| |congruence|set_solver].
  eapply flags_rep_upd; [exact Hr|rewrite Hp|exact Ho|set_solver].
  rewrite bool_decide_eq_true_2 by set_solver. done.
Qed.

Lemma sys_collected s x n t : sys_rep s x n -> t ∈ held x ->
  exists s', sys_step (TokenCollected t) s = Some (ANone, s') /\
    sys_rep s' (spec_step (TokenCollected t) x).2 n.
Proof.
  intros (Hh & Hrun & Hr & Hb & Hlt) Ht. cbn [sys_step spec_step snd].
  destruct (arc_drop_cell t _ _ _ (Hr t) (owners_held _ _ Ht)) as (fl' & -> & Hb' & Hp & Ho).
  eexists. split; [done|]. split_and!; simpl; [done|done| |congruence|set_solver].
  eapply flags_rep_upd; [exact Hr|rewrite Hp|exact Ho|].
  - f_equal. unfold owners. cbn [held running]. rewrite decide_True by done.
    rewrite decide_False by set_solver. lia.
  - intros q Hq. split; [|done]. unfold owners. cbn [held running]. f_equal.
    destruct (decide (q ∈ held x)); [rewrite decide_True by set_solver|rewrite decide_False by set_solver]; done.
Qed.

Lemma sys_new s x n : sys_rep s x n ->
  exists s', sys_step TokenNew s = Some (AToken (next_token x), s') /\
    sys_rep s' (spec_step TokenNew x).2 n.
Proof.
  intros (Hh & Hrun & Hr & Hb & Hlt). cbn [sys_step spec_step snd]. unfold token_new, arc_new.
  unfold box_into_raw. rewrite Hb. eexists. split; [done|].
  assert (next_token x ∉ cancelled x /\ next_token x ∉ held x /\ next_token x ∉ default [] (running x))
    as (Hc & Hd & He) by (split_and!; intros Hin; specialize (Hlt (next_token x)); naive_solver lia).
  split_and!; simpl; [done|done| |done|].
  - eapply flags_rep_upd with (p := next_token x); [exact Hr| | |]; simpl.
    + rewrite lookup_insert, decide_True by done. rewrite bool_decide_eq_false_2 by done.
      unfold owners. cbn [held running]. rewrite decide_True by set_solver.
      by rewrite occ_not_elem by done.
    + intros q Hq. by rewrite lookup_insert_ne.
    + intros q Hq. split; [|done]. unfold owners. cbn [held running]. f_equal.
      destruct (decide (q ∈ held x)); [rewrite decide_True by set_solver|rewrite decide_False by set_solver]; done.
  - intros p Hp. assert (p = next_token x \/ (p < next_token x)%positive) as [->|]; [set_solver|lia|lia].
Qed.

Lemma sys_begin s x n ts : sys_rep s x n -> Forall (fun t => t ∈ held x) ts -> running x = None ->
  n + Z.of_nat (length ts) < 2 ^ 64 ->
  exists s', sys_step (QueryBegin ts) s = Some (ANone, s') /\
    sys_rep s' (spec_step (QueryBegin ts) x).2 (n + Z.of_nat (length ts)).
Proof.
  intros (Hh & Hrun & Hr & Hb & Hlt) Hts Hnone Hn. cbn [sys_step spec_step snd].
  destruct (s_guard s); [by rewrite Hnone in Hrun|].
  destruct (clone_all_rep ts _ _ _ Hr) as (fl' & -> & Hb' & Hr').
  { eapply Forall_impl; [|exact Hts]. simpl. intros t. apply owners_held. }
  destruct (guard_new_holds ts _ _ _ Hh Hn) as (g & cs' & -> & Hg & Hh').
  eexists. split; [done|]. split_and!; simpl; [done|by rewrite Hg| |congruence|].
  - intros p. rewrite (Hr' p). f_equal. unfold owners. cbn [held running]. rewrite Hnone. simpl.
    unfold occ at 1. simpl. lia.
  - rewrite list.Forall_forall in Hts. intros p. specialize (Hlt p). specialize (Hts p). tauto.
Qed.

Lemma sys_fires s x n : sys_rep s x n ->
  sys_step CallbackFires s = Some ((spec_step CallbackFires x).1, s).
Proof.
  intros (Hh & Hrun & Hr & Hb & Hlt). cbn [sys_step spec_step fst].
  rewrite (sl_for_each_holds _ _ _ _ _ _ Hh), Hrun.
  destruct (s_guard s) as [g|]; simpl in *; [|done].
  assert (Forall (fun t => arc_load t (s_flags s) = Some (bool_decide (t ∈ cancelled x))) (map snd g)) as HF.
  { apply list.Forall_forall. intros t Ht. eapply arc_load_cell; [apply Hr|].
    unfold owners. rewrite Hrun. simpl. pose proof (occ_elem t _ Ht). lia. }
  rewrite cancel_pass.
  - do 3 f_equal. clear -HF. simpl. induction g as [|[i t] g IH]; simpl; [done|].
    inversion HF as [|? ? Ht HF']; subst. rewrite IH by done. unfold flag_set. by rewrite Ht.
  - clear -HF. induction g as [|[i t] g IH]; simpl; [constructor|].
    inversion HF as [|? ? Ht HF']; subst. constructor; [simpl; eauto|auto].
Qed.

Lemma sys_end s x n : sys_rep s x n ->
  exists s', sys_step QueryEnd s = Some (ANone, s') /\ sys_rep s' (spec_step QueryEnd x).2 n.
Proof.
  intros (Hh & Hrun & Hr & Hb & Hlt). cbn [sys_step spec_step snd].
  destruct (s_guard s) as [g|] eqn:Eg; simpl in Hrun.
  - destruct (guard_drop_rep g _ n (s_flags s) (cancelled x)
      (fun p => if decide (p ∈ held x) then 1 else 0)%nat Hh) as (cs' & fl' & -> & Hh' & Hb' & Hr').
    { intros p. rewrite (Hr p). unfold owners. by rewrite Hrun. }
    eexists. split; [done|]. split_and!; simpl; [done|done| |congruence|set_solver].
    intros p. rewrite (Hr' p). f_equal. unfold owners. cbn [held running]. unfold occ. simpl. lia.
  - exists s. split; [done|]. split_and!; cbn [held running cancelled next_token]; [|by rewrite Eg| |done|set_solver].
    + by rewrite Eg.
    + intros p. rewrite (Hr p). unfold owners. cbn [held running]. by rewrite Hrun.
Qed.

Lemma sys_step_sim o s x n : sys_rep s x n -> allowed o x = true -> n + op_tokens o < 2 ^ 64 ->
  exists s', sys_step o s = Some ((spec_step o x).1, s') /\
    sys_rep s' (spec_step o x).2 (n + op_tokens o).
Proof.
  intros Hs Ha Hn. destruct o; cbn [allowed op_tokens] in *; rewrite ?Z.add_0_r.
  - by apply sys_new.
  - apply bool_decide_eq_true in Ha. by apply sys_cancel.
  - apply bool_decide_eq_true in Ha. by apply sys_collected.
  - apply andb_true_iff in Ha as [Ha1%bool_decide_eq_true Ha2%bool_decide_eq_true]. by apply sys_begin.
  - exists s. split; [by eapply sys_fires|done].
  - by apply sys_end.
Qed.

Lemma run_sys_sim ops s x n : sys_rep s x n -> all_allowed ops x = true ->
  n + total_tokens ops < 2 ^ 64 ->
  exists s' n', run_sys ops s = Some ((run_spec ops x).1, s') /\ sys_rep s' (run_spec ops x).2 n'.
Proof.
  revert s x n; induction ops as [|o ops IH]; intros s x n Hs Ha Hn; cbn [run_sys run_spec all_allowed] in *.
  - by exists s, n.
  - apply andb_true_iff in Ha as [Ha1 Ha2]. cbn [total_tokens foldr] in Hn.
    fold (total_tokens ops) in Hn.
    assert (0 <= total_tokens ops) by (clear; induction ops as [|[] ops IH]; simpl; lia).
    destruct (sys_step_sim o s x n Hs Ha1) as (s1 & -> & Hs1); [lia|]. cbn [fst snd].
    destruct (spec_step o x) as [a x1]. cbn [fst snd] in *.
    destruct (IH s1 x1 _ Hs1 Ha2) as (s2 & n2 & -> & Hs2); [lia|].
    destruct (run_spec ops x1) as [l x2]. cbn [fst snd] in *. by exists s2, n2.
Qed.

Definition sys_init : cancel_sys := mkSys sl_new empty_heap None.
Definition spec_init : cancel_spec := mkSpec ∅ ∅ None 1.

Lemma sys_init_rep : sys_rep sys_init spec_init 1.
Proof.
  split_and!; simpl; [apply sl_new_holds|done| |done|set_solver].
  intros p. simpl. rewrite lookup_empty. unfold owners. simpl.
  rewrite decide_False by set_solver. done.
Qed.

End CancelSystem.

(** ** Theorems *)

(** SQLite's progress callback interrupts the statement exactly when some
    cancel token registered on the connection is set; it then sends nothing and
    counts nothing.  Otherwise it lets the statement go on. *)
Theorem progress_interrupts_iff_cancelled `{Beam} {LC} `{SubscriberListLaws CancelSubscriber LC}
    {LT} `{SubscriberListLaws TickSubscriber LT} now (d : ProgressDispatch LC LT) w ces m tes n c :
  sl_holds (cancels d) ces m -> sl_holds (ticks d) tes n ->
  Forall (fun e => is_Some (arc_load (flag (HookList.state e)) (flags w))) ces ->
  NoDup (counter_ptrs tes) -> counters_read (counters w) c tes ->
  exists rc w', progress_dispatch_callback now d w = Some (rc, w') /\ (rc = 0 \/ rc = 1) /\
    (rc = 1 <-> exists e, e ∈ ces /\ arc_load (flag (HookList.state e)) (flags w) = Some true) /\
    (rc = 1 -> w' = w).
Proof.
  intros Hc Ht Hf Hnd Hr.
  destruct (callback_spec now d w ces m tes n c Hc Ht Hf Hnd Hr) as (cs' & -> & _).
  assert (existsb (fun e => flag_set (flags w) (flag (HookList.state e))) ces = true
    <-> exists e, e ∈ ces /\ arc_load (flag (HookList.state e)) (flags w) = Some true) as Hx.
  { rewrite existsb_exists. split; intros (e & Hin & He); exists e; rewrite list_elem_of_In in *;
      (split; [done|]); unfold flag_set in *; [|by rewrite He].
    destruct (arc_load _ _) as [[]|]; done. }
  destruct (existsb _ ces).
  - exists 1, w. split_and!; [done|by right| |done]. by rewrite <- Hx.
  - eexists 0, _. split_and!; [done|by left| |done]. rewrite <- Hx. done.
Qed.

Lemma progress_interrupts_iff_cancelled_witness :
  exists rc w', @progress_dispatch_callback demo_beam (hook_list CancelSubscriber) _
    (hook_list TickSubscriber) _ (fun _ => 0) dispatch_new (mkWorld empty_heap empty_heap [])
    = Some (rc, w') /\ (rc = 0 \/ rc = 1).
Proof.
  destruct (@progress_interrupts_iff_cancelled demo_beam _ _ (HookList_laws _) _ _ (HookList_laws _)
    (fun _ => 0) dispatch_new (mkWorld empty_heap empty_heap []) [] 1 [] 1 (fun _ => 0))
    as (rc & w' & H1 & H2 & _).
  - exact sl_new_holds.
  - exact sl_new_holds.
  - constructor.
  - constructor.
  - intros p Hp. inversion Hp.
  - exists rc, w'. split; [exact H1|exact H2].
Defined.

(** C2: cancel tokens work and are memory safe under every interleaving: whatever
    the order of creating, cancelling and collecting tokens, starting and ending
    queries and callback firings, no flag is read after it was freed (a token may
    be collected in the middle of its query), and a firing interrupts exactly when
    a token of the running query was cancelled, never outside a query. *)
Theorem cancellation_refines_spec `{Beam} {LC} `{SubscriberListLaws CancelSubscriber LC} ops :
  all_allowed ops spec_init = true -> total_tokens ops < 2 ^ 64 - 1 ->
  exists s, run_sys ops (sys_init : cancel_sys (LC := LC)) = Some ((run_spec ops spec_init).1, s) /\
    (forall p, cells (s_flags s) !! p = None <->
       p ∉ held (run_spec ops spec_init).2 /\ p ∉ default [] (running (run_spec ops spec_init).2)).
Proof.
  intros Ha Hn. destruct (run_sys_sim ops sys_init spec_init 1 sys_init_rep Ha) as (s & n & Hrun & Hs); [lia|].
  exists s. split; [done|]. destruct Hs as (_ & _ & Hr & _). intros p. rewrite (Hr p).
  unfold owners. set (x := (run_spec ops spec_init).2). destruct (decide (p ∈ held x)); simpl; [naive_solver|].
  destruct (decide (p ∈ default [] (running x))) as [Hin|Hni].
  - pose proof (occ_elem _ _ Hin). destruct (occ p _); [done|]. naive_solver.
  - rewrite occ_not_elem by done. naive_solver.
Qed.

Lemma cancellation_refines_spec_witness :
  exists s, @run_sys (hook_list CancelSubscriber) _
    [TokenNew; QueryBegin [1%positive]; CallbackFires; TokenCancel 1; TokenCollected 1;
     CallbackFires; QueryEnd; CallbackFires] sys_init
  = Some ([AToken 1; ANone; AInterrupt false; ANone; ANone; AInterrupt true; ANone; AInterrupt false], s).
Proof.
  destruct (@cancellation_refines_spec demo_beam (hook_list CancelSubscriber) _ _
    [TokenNew; QueryBegin [1%positive]; CallbackFires; TokenCancel 1; TokenCollected 1;
     CallbackFires; QueryEnd; CallbackFires]) as (s & Hs & _).
  - vm_compute. reflexivity.
  - vm_compute. reflexivity.
  - exists s. exact Hs.
Defined.

(** C12: tick subscribers hear every [every_n]-th firing: as long as no token is
    set, firing number [j] sends to each subscriber whose counter, started at
    [c] and counting modulo 2^64, is then a multiple of its [every_n], and the
    statement is never interrupted. *)
Theorem ticks_are_decimated `{Beam} {LC} `{SubscriberListLaws CancelSubscriber LC}
    {LT} `{SubscriberListLaws TickSubscriber LT} nows (d : ProgressDispatch LC LT) w ces m tes n c :
  sl_holds (cancels d) ces m -> sl_holds (ticks d) tes n ->
  Forall (fun e => arc_load (flag (HookList.state e)) (flags w) = Some false) ces ->
  NoDup (counter_ptrs tes) -> (forall p, 0 <= c p < 2 ^ 64) -> counters_read (counters w) c tes ->
  exists w', fire nows d w = Some (replicate (length nows) 0, w') /\
    sent w' = sent w ++ mjoin (imap (fun j now =>
      tick_msgs (fun p => wrap_unsigned 64 (c p + Z.of_nat j)) now tes) nows).
Proof.
  intros Hc Ht Hf Hnd Hb Hr.
  destruct (fire_ticks nows d w ces m tes n c Hc Ht Hf Hnd Hr) as (w' & Hw & Hs).
  exists w'. split; [done|]. rewrite Hs. f_equal.
  rewrite <- (tick_history_closed c nows tes 0). apply tick_history_ext. intros p. simpl.
  unfold wrap_unsigned. rewrite Z.add_0_r, Z.mod_small; [done|apply Hb].
Qed.

Lemma ticks_are_decimated_witness :
  let d := match @sl_register _ (hook_list TickSubscriber) _ (mkTick 9 2 None 1 0) sl_new with
           | Some r => mkDispatch (sl_new : hook_list CancelSubscriber) r.2
           | None => dispatch_new end in
  exists w', @fire demo_beam _ _ _ _ (replicate 3 (fun _ => 5)) d
      (mkWorld empty_heap (mkHeap {[1%positive := 0]} 2) [])
    = Some ([0; 0; 0], w') /\ map fst (sent w') = [9; 9].
Proof.
  destruct (sl_register_holds (mkTick 9 2 None 1 0) (sl_new : hook_list TickSubscriber) [] 1
    sl_new_holds) as (l & Hl & Hh); [lia|].
  rewrite Hl. cbv zeta beta iota.
  destruct (@ticks_are_decimated demo_beam _ _ (HookList_laws _) _ _ (HookList_laws _)
    (replicate 3 (fun _ => 5)) (mkDispatch (sl_new : hook_list CancelSubscriber) l)
    (mkWorld empty_heap (mkHeap {[1%positive := 0]} 2) []) [] 1 _ 2 (fun _ => 0) sl_new_holds Hh)
    as (w' & Hw & Hs).
  - constructor.
  - vm_compute. repeat constructor. intros Hp. inversion Hp.
  - lia.
  - intros p Hp. simpl in Hp. apply list_elem_of_singleton in Hp. subst p. reflexivity.
  - exists w'. split; [exact Hw|]. rewrite Hs. reflexivity.
Defined.
