(* ===== verification/BusyHandler.v ===== *)
(** * [busy_handler.rs]: the retry policy and the busy observers

    One boxed [BusySlotState] per connection, installed as SQLite's busy handler
    while it has a policy or an observer.  Mutators build a changed copy, install
    it and free the old one, with [hook_util]'s slot operations. *)

From S2P Require Import Prelude Sqlite Terms Heap Error HookList Hooks ProgressDispatch.

Record BusyPolicy := mkPolicy {
  max_retries : Z;                   (* u32 *)
  max_elapsed_ms : Z;                (* u64 *)
  sleep_ms : Z;                      (* u64 *)
}.

Record BusySlotState := mkBusy {
  policy : option BusyPolicy;
  observers : list (Z * Z);          (* handle, pid *)
  next_handle : Z;                   (* u64 *)
  start : Z;                         (* the instant, in milliseconds *)
}.

(** ** What the code uses of SQLite *)

Class BusyApi (Db : Type) := {
  (** [sqlite3_busy_handler]: the argument pointer, null to clear; the result code *)
  sqlite3_busy_handler : option ptr -> Db -> Z * Db;
  (** [sqlite3_errmsg], null or its lossy text *)
  errmsg : Db -> option bytes;
  (** the pointer SQLite will pass to the callback *)
  busy_arg : Db -> option ptr;
}.

(** A registration takes effect exactly when it is reported successful. *)
Class BusyApiLaws (Db : Type) `{BusyApi Db} := {
  busy_handler_sets o db : let '(rc, db') := sqlite3_busy_handler o db in
    busy_arg db' = if rc =? SQLITE_OK then o else busy_arg db;
}.

(** A database that only remembers its handler and always succeeds. *)
Definition demo_busy : BusyApi (option ptr) :=
  {| sqlite3_busy_handler o _ := (SQLITE_OK, o); errmsg _ := None; busy_arg db := db |}.
Definition demo_busy_laws : @BusyApiLaws (option ptr) demo_busy.
Proof. constructor. intros o db. reflexivity. Defined.

(** ** The callback *)

Record busy_effects := mkEffects { busy_sent : outbox; slept : list Z }.

Section Busy.
  Context `{Beam} `{RusqliteText} {Db : Type} `{BusyApiLaws Db}.
  Abbreviation slots := (heap BusySlotState).

Definition send_busy_to_pid (p retries elapsed : Z) (out : outbox) : outbox :=
  enif_send p (TTuple [make_atom (str "xqlite_busy"); TInt (wrap_signed 64 retries);
                       TInt (wrap_signed 64 elapsed)]) out.

(** [now] is the clock when the callback runs, [later] when it reads the elapsed
    time.  The callback writes the state's [start] cell. *)
Definition busy_callback (user_data : ptr) (count now later : Z) (h : slots) (w : busy_effects)
    : option (Z * slots * busy_effects) :=
  let! st := deref user_data h in
  let retries := wrap_unsigned 32 count in
  let st := if retries =? 0 then mkBusy (policy st) (observers st) (next_handle st) now else st in
  let h := mkHeap (<[user_data := st]> (cells h)) (brk h) in
  let elapsed := elapsed_ms later (start st) in
  let out := foldl (fun out o => send_busy_to_pid o.2 retries elapsed out) (busy_sent w) (observers st) in
  match policy st with
  | None => Some (0, h, mkEffects out (slept w))
  | Some p =>
      if (max_retries p <=? retries) || (max_elapsed_ms p <=? elapsed)
      then Some (0, h, mkEffects out (slept w))
      else Some (1, h, mkEffects out (if 0 <? sleep_ms p then slept w ++ [sleep_ms p] else slept w))
  end.

(** ** The mutators *)

Definition ffi_rc_to_error (db : Db) (rc : Z) : XqliteError :=
  let msg := match errmsg db with
             | None => str "sqlite3_busy_handler failed (code " ++ RustStr.show_Z rc ++ str ")"
             | Some m => m
             end in
  from_rusqlite (R_SqliteFailure (ffi_new rc) (Some msg)).

Definition snapshot (slot : option ptr) (now : Z) (h : slots) : option BusySlotState :=
  match slot with
  | None => Some (mkBusy None [] 0 now)
  | Some current =>
      let! st := deref current h in
      Some (mkBusy (policy st) (observers st) (next_handle st) (start st))
  end.

Definition set_handler (o : option ptr) (db : Db) : result unit XqliteError * Db :=
  let '(rc, db) := sqlite3_busy_handler o db in
  if negb (rc =? SQLITE_OK) then (Err (ffi_rc_to_error db rc), db) else (Ok tt, db).

Definition is_none {A} (o : option A) : bool := match o with None => true | Some _ => false end.

Definition swap_in (slot : option ptr) (next : BusySlotState) (h : slots) (db : Db)
    : option (result unit XqliteError * option ptr * slots * Db) :=
  if is_none (policy next) && bool_decide (observers next = [])
  then uninstall_hook slot (set_handler None) h db
  else install_hook slot next (fun new_ptr => set_handler (Some new_ptr)) h db.

Definition set_policy (p : BusyPolicy) (slot : option ptr) (now : Z) (h : slots) (db : Db) :=
  let! next := snapshot slot now h in
  swap_in slot (mkBusy (Some p) (observers next) (next_handle next) (start next)) h db.

Definition remove_policy (slot : option ptr) (now : Z) (h : slots) (db : Db) :=
  let! next := snapshot slot now h in
  swap_in slot (mkBusy None (observers next) (next_handle next) (start next)) h db.

Definition register_observer (p : Z) (slot : option ptr) (now : Z) (h : slots) (db : Db)
    : option (result Z XqliteError * option ptr * slots * Db) :=
  let! next := snapshot slot now h in
  let handle := next_handle next in
  let! r := swap_in slot (mkBusy (policy next) (observers next ++ [(handle, p)])
                            (wrap_unsigned 64 (handle + 1)) (start next)) h db in
  let '(res, slot, h, db) := r in
  Some (result_map (fun _ => handle) res, slot, h, db).

Definition unregister_observer (handle : Z) (slot : option ptr) (now : Z) (h : slots) (db : Db) :=
  let! next := snapshot slot now h in
  swap_in slot (mkBusy (policy next) (filter (fun o => o.1 <> handle) (observers next))
                  (next_handle next) (start next)) h db.

(** ** One busy event

    SQLite calls the handler with 0, 1, 2, ... for as long as it answers non-zero
    and the lock stays taken ([free k]: the lock can be had after [k] retries).
    [clock k] are the two readings of callback [k]. *)
Inductive event_end := Acquired (retries : Z) | GaveUp (retries : Z) | OutOfFuel.

Fixpoint busy_event (fuel : nat) (p : ptr) (free : Z -> bool) (clock : Z -> Z * Z) (count : Z)
    (h : slots) (w : busy_effects) : option (event_end * slots * busy_effects) :=
  match fuel with
  | O => Some (OutOfFuel, h, w)
  | S fuel =>
      let! r := busy_callback p count (clock count).1 (clock count).2 h w in
      let '(rc, h, w) := r in
      if rc =? 0 then Some (GaveUp count, h, w)
      else if free (count + 1) then Some (Acquired (count + 1), h, w)
      else busy_event fuel p free clock (count + 1) h w
  end.

(** ** Invariant of the slot *)

(** Observers have distinct handles below the counter. *)
Definition handles_ok (st : BusySlotState) : Prop :=
  0 <= next_handle st < 2 ^ 64 /\ NoDup (observers st).*1 /\
  Forall (fun o => 0 <= o.1 < next_handle st) (observers st).

Definition empty_state (st : BusySlotState) : bool :=
  is_none (policy st) && bool_decide (observers st = []).

(** SQLite holds exactly the slot's pointer, which is the one live box; the slot
    is null exactly when there is neither policy nor observer. *)
Definition busy_inv (slot : option ptr) (st : BusySlotState) (h : slots) (db : Db) : Prop :=
  slot_ok busy_arg slot st h db /\ handles_ok st /\ (slot = None <-> empty_state st = true).

Lemma set_handler_spec o db :
  match set_handler o db with
  | (Ok _, db') => busy_arg db' = o
  | (Err _, db') => busy_arg db' = busy_arg db
  end.
Proof.
  unfold set_handler. pose proof (busy_handler_sets o db) as Hs.
  destruct (sqlite3_busy_handler o db) as [rc db']. by destruct (rc =? SQLITE_OK).
Qed.

(** The state the mutators start from. *)
Definition current (slot : option ptr) (st : BusySlotState) (now : Z) : BusySlotState :=
  match slot with None => mkBusy None [] 0 now | Some _ => st end.

Lemma snapshot_current slot st now h db : busy_inv slot st h db ->
  snapshot slot now h = Some (current slot st now).
Proof.
  intros ((_ & Hb) & _). destruct slot as [p|]; [|done]. cbn [snapshot].
  rewrite (deref_held _ _ _ Hb). by destruct st.
Qed.

Lemma swap_in_inv slot st next h db : busy_inv slot st h db -> handles_ok next ->
  exists r slot' st' h' db', swap_in slot next h db = Some (r, slot', h', db') /\
    busy_inv slot' st' h' db' /\
    match r with
    | Ok _ => current slot' st' (start next) =
        (if empty_state next then mkBusy None [] 0 (start next) else next)
    | Err _ => slot' = slot /\ st' = st
    end.
Proof.
  intros (Hs & Hh & He) Hn. unfold swap_in. fold (empty_state next).
  destruct (empty_state next) eqn:Ee.
  - destruct (uninstall_hook_ok busy_arg (set_handler None) (set_handler_spec None) slot st h db Hs)
      as (r & slot' & h' & db' & -> & Hr). exists r, slot'.
    destruct r as [[]|e]; destruct Hr as [-> Hr].
    + exists (mkBusy None [] 0 (start next)), h', db'. split_and!; [done| |done].
      split_and!; [|split_and!; simpl; [lia..|constructor|constructor]|done].
      destruct Hr as [Ha Hb]. split; [done|]. exact Hb.
    + by exists st, h', db'.
  - destruct (install_hook_ok busy_arg (fun p => set_handler (Some p))
      (fun p => set_handler_spec (Some p)) slot st next h db Hs) as (r & slot' & h' & db' & -> & Hr).
    exists r, slot'. destruct r as [[]|e].
    + destruct Hr as [Hr Hne]. exists next, h', db'. split_and!; [done| |by destruct slot'].
      split_and!; [done|done|]. rewrite Ee. by destruct slot'.
    + destruct Hr as [-> Hr]. by exists st, h', db'.
Qed.

Lemma current_handles slot st now : handles_ok st -> handles_ok (current slot st now).
Proof.
  intros Hh. destruct slot; [done|]. split_and!; simpl; [lia..|constructor|constructor].
Qed.

Lemma callback_keeps p st count now later h w :
  holds_box (Some p) st h ->
  exists rc st' h' w', busy_callback p count now later h w = Some (rc, h', w') /\
    holds_box (Some p) st' h' /\ policy st' = policy st /\ observers st' = observers st /\
    next_handle st' = next_handle st /\
    start st' = (if wrap_unsigned 32 count =? 0 then now else start st) /\
    rc = match policy st with
         | None => 0
         | Some p => if (max_retries p <=? wrap_unsigned 32 count)
                        || (max_elapsed_ms p <=? elapsed_ms later (start st')) then 0 else 1
         end.
Proof.
  intros Hb. unfold busy_callback. rewrite (deref_held _ _ _ Hb). destruct Hb as [Hc Hp].
  set (st' := if wrap_unsigned 32 count =? 0 then _ else st).
  assert (policy st' = policy st /\ observers st' = observers st /\ next_handle st' = next_handle st /\
    start st' = (if wrap_unsigned 32 count =? 0 then now else start st)) as (H1' & H2' & H3' & H4').
  { unfold st'. by destruct (_ =? 0). }
  cbv zeta. set (h' := mkHeap _ _).
  assert (holds_box (Some p) st' h') as Hb'.
  { split; [|done]. simpl. rewrite Hc. by rewrite insert_singleton, decide_True. }
  destruct (policy st') as [q|] eqn:Eq.
  - destruct (_ || _) eqn:Eo.
    + eexists _, st', h', _. split; [done|]. split_and!; try congruence. rewrite <- H1'. by rewrite Eo.
    + eexists _, st', h', _. split; [done|]. split_and!; try congruence. rewrite <- H1'. by rewrite Eo.
  - eexists _, st', h', _. split; [done|]. split_and!; try congruence. by rewrite <- H1'.
Qed.

(** *** Sequences of operations on the slot *)

Inductive busy_op :=
| SetPolicy (p : BusyPolicy)
| RemovePolicy
| Observe (p : Z)
| Unobserve (handle : Z)
| BusyFires (count later : Z).   (* SQLite calls the handler it holds, if any *)

Record busy_state := mkState { b_slot : option ptr; b_heap : slots; b_db : Db; b_fx : busy_effects }.

Definition is_ok {A} (r : result A XqliteError) : bool := match r with Ok _ => true | Err _ => false end.

Definition busy_step (o : busy_op) (now : Z) (s : busy_state) : option (bool * busy_state) :=
  let unit_op (x : option (result unit XqliteError * option ptr * slots * Db)) :=
    let! r := x in
    let '(res, slot, h, db) := r in Some (is_ok res, mkState slot h db (b_fx s)) in
  match o with
  | SetPolicy p => unit_op (set_policy p (b_slot s) now (b_heap s) (b_db s))
  | RemovePolicy => unit_op (remove_policy (b_slot s) now (b_heap s) (b_db s))
  | Observe p =>
      let! r := register_observer p (b_slot s) now (b_heap s) (b_db s) in
      let '(res, slot, h, db) := r in Some (is_ok res, mkState slot h db (b_fx s))
  | Unobserve i => unit_op (unregister_observer i (b_slot s) now (b_heap s) (b_db s))
  | BusyFires count later =>
      match busy_arg (b_db s) with
      | None => Some (true, s)
      | Some p =>
          let! r := busy_callback p count now later (b_heap s) (b_fx s) in
          let '(_, h, w) := r in Some (true, mkState (b_slot s) h (b_db s) w)
      end
  end.

Fixpoint run_busy (ops : list (busy_op * Z)) (s : busy_state) : option (list bool * busy_state) :=
  match ops with
  | [] => Some ([], s)
  | (o, now) :: ops =>
      let! r := busy_step o now s in
      let! q := run_busy ops r.2 in Some (r.1 :: q.1, q.2)
  end.

(** The specification: a policy, observers with handles, and the next handle,
    which starts over when nothing is left. *)
Record busy_spec := mkBSpec { sp_policy : option BusyPolicy; sp_observers : list (Z * Z); sp_next : Z }.

Definition spec_empty : busy_spec := mkBSpec None [] 0.

Definition renew (a : busy_spec) : busy_spec :=
  if is_none (sp_policy a) && bool_decide (sp_observers a = []) then spec_empty else a.

(** [ok]: whether SQLite accepted the change. *)
Definition busy_spec_step (o : busy_op) (ok : bool) (a : busy_spec) : busy_spec :=
  if ok then
    match o with
    | SetPolicy p => renew (mkBSpec (Some p) (sp_observers a) (sp_next a))
    | RemovePolicy => renew (mkBSpec None (sp_observers a) (sp_next a))
    | Observe p => renew (mkBSpec (sp_policy a) (sp_observers a ++ [(sp_next a, p)]) (sp_next a + 1))
    | Unobserve i => renew (mkBSpec (sp_policy a) (filter (fun x => x.1 <> i) (sp_observers a)) (sp_next a))
    | BusyFires _ _ => a
    end
  else a.

Fixpoint run_busy_spec (ops : list (busy_op * Z)) (oks : list bool) (a : busy_spec) : busy_spec :=
  match ops, oks with
  | (o, _) :: ops, ok :: oks => run_busy_spec ops oks (busy_spec_step o ok a)
  | _, _ => a
  end.

Definition spec_of (slot : option ptr) (st : BusySlotState) : busy_spec :=
  let c := current slot st 0 in mkBSpec (policy c) (observers c) (next_handle c).

(** [busy_inv] with the specification state it stands for. *)
Definition busy_rep (s : busy_state) (a : busy_spec) : Prop :=
  exists st, busy_inv (b_slot s) st (b_heap s) (b_db s) /\ spec_of (b_slot s) st = a.

Lemma spec_of_current slot st now :
  spec_of slot st = let c := current slot st now in mkBSpec (policy c) (observers c) (next_handle c).
Proof. by destruct slot. Qed.

(** Every mutator is [swap_in] of a changed copy. *)
Lemma mutator_step slot st next now h db :
  busy_inv slot st h db -> handles_ok next -> start next = start (current slot st now) ->
  exists r slot' h' db', swap_in slot next h db = Some (r, slot', h', db') /\
    busy_rep (mkState slot' h' db' (mkEffects [] []))
      (if is_ok r then renew (mkBSpec (policy next) (observers next) (next_handle next))
       else spec_of slot st).
Proof.
  intros Hi Hn Hs. destruct (swap_in_inv slot st next h db Hi Hn)
    as (r & slot' & st' & h' & db' & Hsw & Hi' & Hr). exists r, slot', h', db'. split; [done|].
  exists st'. split; [done|]. cbn [b_slot]. destruct r as [[]|e]; cbn [is_ok].
  - rewrite (spec_of_current _ _ (start next)), Hr. unfold renew. cbn [sp_policy sp_observers].
    fold (empty_state next). by destruct (empty_state next).
  - destruct Hr as [-> ->]. done.
Qed.

Lemma handles_ok_subset st obs : handles_ok st -> sublist obs (observers st) ->
  handles_ok (mkBusy (policy st) obs (next_handle st) (start st)).
Proof.
  intros (Hn & Hnd & Hlt) Hsub. split_and!; simpl; [lia..| |].
  - eapply sublist_NoDup; [exact Hnd|]. by apply sublist_map.
  - eapply list.Forall_forall. intros o Ho. rewrite list.Forall_forall in Hlt. apply Hlt.
    by eapply sublist_subseteq.
Qed.

Lemma handles_ok_push st p : handles_ok st -> next_handle st + 1 < 2 ^ 64 ->
  handles_ok (mkBusy (policy st) (observers st ++ [(next_handle st, p)])
                (wrap_unsigned 64 (next_handle st + 1)) (start st)).
Proof.
  intros (Hn & Hnd & Hlt) Hb. assert (wrap_unsigned 64 (next_handle st + 1) = next_handle st + 1) as Hw.
  { apply Z.mod_small. lia. }
  split_and!; cbn [next_handle observers]; rewrite ?Hw; [lia..| |].
  - rewrite fmap_app. apply list.NoDup_app. split_and!; [done| |apply NoDup_singleton].
    intros i (o & -> & Ho)%list_elem_of_fmap Hi%list_elem_of_singleton. simpl in Hi.
    rewrite list.Forall_forall in Hlt. specialize (Hlt o Ho). lia.
  - apply Forall_app. split; [|constructor; simpl; [lia|done]].
    eapply Forall_impl; [|exact Hlt]. simpl. intros; lia.
Qed.

Definition is_observe (o : busy_op) : Z := match o with Observe _ => 1 | _ => 0 end.
Definition observes (ops : list (busy_op * Z)) : Z := foldr (fun o n => is_observe o.1 + n) 0 ops.

Lemma renew_next a : 0 <= sp_next a -> sp_next (renew a) <= sp_next a.
Proof. unfold renew. by case_match. Qed.

Lemma busy_spec_next o ok a : 0 <= sp_next a ->
  sp_next (busy_spec_step o ok a) <= sp_next a + is_observe o.
Proof.
  intros Ha. destruct ok; [|destruct o; simpl; lia].
  destruct o; cbn [busy_spec_step is_observe]; try (etransitivity; [apply renew_next|]; simpl; lia).
  simpl. lia.
Qed.

Lemma handles_ok_any st pol t : handles_ok st ->
  handles_ok (mkBusy pol (observers st) (next_handle st) t).
Proof. done. Qed.

Lemma busy_fires_sim count later now s a : busy_rep s a ->
  exists s', busy_step (BusyFires count later) now s = Some (true, s') /\ busy_rep s' a.
Proof.
  intros (st & ((Harg & Hb) & Hh & He) & <-). cbn [busy_step]. rewrite Harg.
  destruct (b_slot s) as [p|] eqn:Es.
  2: { exists s. split; [done|]. exists st. rewrite Es. done. }
  destruct (callback_keeps p st count now later (b_heap s) (b_fx s) Hb)
    as (rc & st' & h' & w' & -> & Hb' & Hp & Ho & Hn & _ & _).
  eexists. split; [done|]. exists st'. cbn [b_slot b_heap b_db]. unfold spec_of. simpl.
  split; [|by rewrite Hp, Ho, Hn]. split; [by split|]. split.
  - destruct Hh as (? & ? & ?). split_and!; rewrite ?Ho, ?Hn; tauto.
  - unfold empty_state in *. by rewrite Hp, Ho.
Qed.

Lemma busy_step_sim o now s a : busy_rep s a -> sp_next a + is_observe o < 2 ^ 64 ->
  exists ok s', busy_step o now s = Some (ok, s') /\ busy_rep s' (busy_spec_step o ok a).
Proof.
  intros Hrep Hn. destruct o as [p| |p|i|count later].
  5: { destruct (busy_fires_sim count later now s a Hrep) as (s' & Hs & Hr). by exists true, s'. }
  all: destruct Hrep as (st & Hi & <-); cbn [busy_step].
  all: pose proof (current_handles (b_slot s) st now (proj1 (proj2 Hi))) as Hc.
  all: rewrite (spec_of_current _ _ now) in *.
  - unfold set_policy. rewrite (snapshot_current _ _ now _ _ Hi).
    destruct (mutator_step _ _ _ now _ _ Hi (handles_ok_any _ (Some p) (start (current (b_slot s) st now)) Hc))
      as (r & slot' & h' & db' & -> & Hr); [done|].
    eexists _, _. split; [done|]. rewrite (spec_of_current _ _ now) in Hr. by destruct r.
  - unfold remove_policy. rewrite (snapshot_current _ _ now _ _ Hi).
    destruct (mutator_step _ _ _ now _ _ Hi (handles_ok_any _ None (start (current (b_slot s) st now)) Hc))
      as (r & slot' & h' & db' & -> & Hr); [done|].
    eexists _, _. split; [done|]. rewrite (spec_of_current _ _ now) in Hr. by destruct r.
  - unfold register_observer. rewrite (snapshot_current _ _ now _ _ Hi).
    cbn [sp_next is_observe] in Hn.
    assert (wrap_unsigned 64 (next_handle (current (b_slot s) st now) + 1)
      = next_handle (current (b_slot s) st now) + 1) as Hw.
    { apply Z.mod_small. destruct Hc as [? _]. lia. }
    destruct (mutator_step _ _ _ now _ _ Hi (handles_ok_push _ p Hc Hn))
      as (r & slot' & h' & db' & -> & Hr); [done|].
    eexists _, _. split; [done|]. rewrite (spec_of_current _ _ now) in Hr.
    cbn [next_handle observers policy] in Hr. rewrite Hw in Hr. by destruct r.
  - unfold unregister_observer. rewrite (snapshot_current _ _ now _ _ Hi).
    destruct (mutator_step _ _ _ now _ _ Hi
      (handles_ok_subset _ (filter (fun o => o.1 <> i) (observers (current (b_slot s) st now))) Hc
         (sublist_filter _ _))) as (r & slot' & h' & db' & -> & Hr); [done|].
    eexists _, _. split; [done|]. rewrite (spec_of_current _ _ now) in Hr. by destruct r.
Qed.

(** *** When SQLite has dropped the callback

    [PRAGMA busy_timeout] takes the handler away without the slot's knowledge: the slot
    owns its box, and SQLite's pointer is the slot's or none. *)
Definition slot_inv (slot : option ptr) (st : BusySlotState) (h : slots) (db : Db) : Prop :=
  holds_box slot st h /\ (busy_arg db = None \/ busy_arg db = slot) /\
  handles_ok st /\ (slot = None <-> empty_state st = true).

Definition slot_holds (s : busy_state) (a : busy_spec) : Prop :=
  exists st, slot_inv (b_slot s) st (b_heap s) (b_db s) /\ spec_of (b_slot s) st = a.

Lemma busy_rep_holds s a : busy_rep s a -> slot_holds s a.
Proof. intros (st & ((Ha & Hb) & Hh & He) & Hs). exists st. split; [|done]. split_and!; [done|by right|done|done]. Qed.

Lemma snapshot_held slot st now h : holds_box slot st h -> snapshot slot now h = Some (current slot st now).
Proof. intros Hb. destruct slot as [p|]; [|done]. cbn [snapshot]. rewrite (deref_held _ _ _ Hb). by destruct st. Qed.

(** Swapping a state in, from any relation between the slot and SQLite. *)
Lemma swap_in_slot slot st next h db : slot_inv slot st h db -> handles_ok next ->
  exists r slot' st' h' db', swap_in slot next h db = Some (r, slot', h', db') /\ slot_inv slot' st' h' db' /\
    match r with
    | Ok _ => busy_arg db' = slot' /\
        current slot' st' (start next) = (if empty_state next then mkBusy None [] 0 (start next) else next)
    | Err _ => slot' = slot /\ st' = st /\ busy_arg db' = busy_arg db
    end.
Proof.
  intros (Hb & Ha & Hh & He) Hn. unfold swap_in. fold (empty_state next). destruct (empty_state next) eqn:Ee.
  - unfold uninstall_hook. pose proof (set_handler_spec None db) as Hs. destruct (drop_held _ _ _ Hb) as (h1 & Hd & Hc).
    destruct (set_handler None db) as [[[]|e] db']; [rewrite Hd|].
    + eexists _, None, (mkBusy None [] 0 (start next)), h1, db'. split; [done|]. split; [|done].
      split_and!; [exact Hc|by left| |done]. split_and!; simpl; [lia..|constructor|constructor].
    + eexists _, slot, st, h, db'. split; [done|]. split; [|by split_and!]. split_and!; [done|by rewrite Hs|done|done].
  - unfold install_hook. pose proof (swap_box _ _ next _ Hb) as Hsw. pose proof (box_alloc_drop slot st next h Hb) as Hal.
    destruct (box_into_raw next h) as [p h1]. pose proof (set_handler_spec (Some p) db) as Hs.
    destruct (set_handler (Some p) db) as [[[]|e] db'].
    + destruct Hsw as (h2 & -> & Hb2). eexists _, (Some p), next, h2, db'. split; [done|]. split; [|done].
      split_and!; [done|by right|done|by rewrite Ee].
    + destruct Hal as (h2 & -> & Hb2). eexists _, slot, st, h2, db'. split; [done|]. split; [|by split_and!].
      split_and!; [done|by rewrite Hs|done|done].
Qed.

(** A mutator's state: the changed copy and SQLite's pointer when it was accepted. *)
Lemma mutator_slot s a st next now : slot_inv (b_slot s) st (b_heap s) (b_db s) -> spec_of (b_slot s) st = a ->
  handles_ok next -> start next = start (current (b_slot s) st now) ->
  exists r slot' h' db', swap_in (b_slot s) next (b_heap s) (b_db s) = Some (r, slot', h', db') /\
    slot_holds (mkState slot' h' db' (b_fx s))
      (if is_ok r then renew (mkBSpec (policy next) (observers next) (next_handle next)) else a) /\
    busy_arg db' = if is_ok r then slot' else busy_arg (b_db s).
Proof.
  intros Hi Hsp Hn Hst. destruct (swap_in_slot (b_slot s) st next (b_heap s) (b_db s) Hi Hn)
    as (r & slot' & st' & h' & db' & E & Hi' & Hr). exists r, slot', h', db'. split; [done|].
  destruct r as [[]|e]; cbn [is_ok]; (split; [exists st'; split; [done|]|by apply Hr]); cbn [b_slot].
  - rewrite (spec_of_current _ _ (start next)), (proj2 Hr). unfold renew. cbn [sp_policy sp_observers].
    fold (empty_state next). by destruct (empty_state next).
  - by destruct Hr as (-> & -> & _).
Qed.

Lemma busy_fires_holds count later now s a : slot_holds s a ->
  exists s', busy_step (BusyFires count later) now s = Some (true, s') /\ slot_holds s' a /\ b_db s' = b_db s.
Proof.
  intros (st & (Hb & Ha & Hh & He) & Hsp). cbn [busy_step]. destruct (busy_arg (b_db s)) as [p|] eqn:Eb.
  2: { exists s. split; [done|]. split; [|done]. exists st. split; [|done]. split_and!; [done|by left|done|done]. }
  destruct Ha as [Ha|Ha]; [done|]. rewrite <- Ha in Hb, He, Hsp.
  destruct (callback_keeps p st count now later (b_heap s) (b_fx s) Hb)
    as (rc & st' & h' & w' & -> & Hb' & Hp & Ho & Hn & _ & _).
  eexists. split; [done|]. split; [|done]. exists st'. cbn [b_slot b_heap b_db]. rewrite <- Ha.
  split; [|by rewrite <- Hsp; unfold spec_of; cbn; rewrite Hp, Ho, Hn]. split_and!; [done|right; congruence| |].
  - destruct Hh as (? & ? & ?). split_and!; rewrite ?Ho, ?Hn; tauto.
  - unfold empty_state in *. by rewrite Hp, Ho.
Qed.

Definition is_fires (o : busy_op) : bool := match o with BusyFires _ _ => true | _ => false end.

Lemma busy_step_holds o now s a : slot_holds s a -> sp_next a + is_observe o < 2 ^ 64 ->
  exists ok s', busy_step o now s = Some (ok, s') /\ slot_holds s' (busy_spec_step o ok a) /\
    busy_arg (b_db s') = if ok && negb (is_fires o) then b_slot s' else busy_arg (b_db s).
Proof.
  intros Hrep Hn. destruct o as [p| |p|i|count later].
  5: { destruct (busy_fires_holds count later now s a Hrep) as (s' & Hs & Hr & Hd). exists true, s'. by rewrite Hd. }
  all: destruct Hrep as (st & Hi & Hsp); cbn [busy_step is_fires negb]; setoid_rewrite andb_true_r.
  all: pose proof (current_handles (b_slot s) st now (proj1 (proj2 (proj2 Hi)))) as Hc.
  all: pose proof Hsp as Hso; rewrite (spec_of_current _ _ now) in Hsp; cbv zeta in Hsp.
  - unfold set_policy. rewrite (snapshot_held _ _ now _ (proj1 Hi)).
    destruct (mutator_slot s a st _ now Hi Hso (handles_ok_any _ (Some p) (start (current (b_slot s) st now)) Hc))
      as (r & slot' & h' & db' & -> & Hr & Hd); [done|].
    eexists _, _. split; [done|]. split; [|done]. subst a. by destruct r.
  - unfold remove_policy. rewrite (snapshot_held _ _ now _ (proj1 Hi)).
    destruct (mutator_slot s a st _ now Hi Hso (handles_ok_any _ None (start (current (b_slot s) st now)) Hc))
      as (r & slot' & h' & db' & -> & Hr & Hd); [done|].
    eexists _, _. split; [done|]. split; [|done]. subst a. by destruct r.
  - unfold register_observer. rewrite (snapshot_held _ _ now _ (proj1 Hi)). cbn [is_observe] in Hn. rewrite <- Hsp in Hn. cbn in Hn.
    assert (wrap_unsigned 64 (next_handle (current (b_slot s) st now) + 1)
      = next_handle (current (b_slot s) st now) + 1) as Hw by (apply Z.mod_small; destruct Hc as [? _]; lia).
    destruct (mutator_slot s a st _ now Hi Hso (handles_ok_push _ p Hc Hn)) as (r & slot' & h' & db' & -> & Hr & Hd); [done|].
    exists (is_ok r), (mkState slot' h' db' (b_fx s)). split; [by destruct r|]. split; [|done].
    cbn [policy observers next_handle] in Hr. rewrite Hw in Hr. clear Hso. subst a. by destruct r.
  - unfold unregister_observer. rewrite (snapshot_held _ _ now _ (proj1 Hi)).
    destruct (mutator_slot s a st _ now Hi Hso
      (handles_ok_subset _ (filter (fun o => o.1 <> i) (observers (current (b_slot s) st now))) Hc (sublist_filter _ _)))
      as (r & slot' & h' & db' & -> & Hr & Hd); [done|].
    eexists _, _. split; [done|]. split; [|done]. clear Hso. subst a. by destruct r.
Qed.

Lemma slot_holds_next s a : slot_holds s a -> 0 <= sp_next a.
Proof.
  intros (st & (_ & _ & Hh & _) & <-). pose proof (current_handles (b_slot s) st 0 Hh) as (Hn & _). unfold spec_of. cbn. lia.
Qed.

Lemma busy_rep_next s a : busy_rep s a -> 0 <= sp_next a.
Proof.
  intros (st & (_ & Hh & _) & <-). pose proof (current_handles (b_slot s) st 0 Hh) as (Hn & _).
  simpl. lia.
Qed.

Lemma run_busy_sim ops s a : busy_rep s a -> sp_next a + observes ops < 2 ^ 64 ->
  exists oks s', run_busy ops s = Some (oks, s') /\ length oks = length ops /\
    busy_rep s' (run_busy_spec ops oks a).
Proof.
  revert s a; induction ops as [|[o now] ops IH]; intros s a Hr Hn; cbn [run_busy].
  - by exists [], s.
  - cbn [observes foldr fst] in Hn. fold (observes ops) in Hn.
    assert (0 <= observes ops) by (clear; induction ops as [|[[] ?] ops IH]; simpl; lia).
    destruct (busy_step_sim o now s a Hr) as (ok & s1 & -> & Hr1); [lia|]. cbn [fst snd].
    pose proof (busy_spec_next o ok a (busy_rep_next _ _ Hr)).
    destruct (IH s1 _ Hr1) as (oks & s2 & -> & Hl & Hr2); [lia|].
    exists (ok :: oks), s2. split_and!; [done|simpl; by f_equal|done].
Qed.

Definition busy_init (db : Db) : busy_state := mkState None empty_heap db (mkEffects [] []).

Lemma busy_init_rep db : busy_arg db = None -> busy_rep (busy_init db) spec_empty.
Proof.
  intros Hdb. exists (mkBusy None [] 0 0). split; [|done]. split_and!; try done.
  split_and!; simpl; [lia..|constructor|constructor].
Qed.

(** *** Retries are bounded *)

(** Retry [j] was asked for within the event's time budget. *)
Definition in_budget (q : BusyPolicy) (clock : Z -> Z * Z) (j : Z) : Prop :=
  elapsed_ms (clock j).2 (clock 0).1 < max_elapsed_ms q.

Definition event_ok (q : BusyPolicy) (free : Z -> bool) (clock : Z -> Z * Z) (count : Z) (e : event_end) : Prop :=
  match e with
  | Acquired k => count < k <= max_retries q /\ free k = true /\ forall j, count <= j < k -> in_budget q clock j
  | GaveUp k => count <= k <= max_retries q /\ (forall j, count <= j < k -> in_budget q clock j) /\
      (k = max_retries q \/ ~ in_budget q clock k)
  | OutOfFuel => False
  end.

Lemma event_ok_step q free clock count e : in_budget q clock count ->
  event_ok q free clock (count + 1) e -> event_ok q free clock count e.
Proof.
  intros Hb. assert (forall k, (forall j, count + 1 <= j < k -> in_budget q clock j) ->
    forall j, count <= j < k -> in_budget q clock j) as Hstep.
  { intros k Hk j Hj. destruct (decide (j = count)) as [->|]; [done|]. apply Hk. lia. }
  destruct e; simpl; [|..|done]; intros (H1' & H2' & H3'); split_and!; try lia; auto; by eapply Hstep.
Qed.

Lemma busy_event_bounded fuel p st q free clock count h w :
  holds_box (Some p) st h -> policy st = Some q -> 0 <= count <= max_retries q ->
  0 <= max_retries q < 2 ^ 31 -> (count = 0 \/ start st = (clock 0).1) ->
  (Z.to_nat (max_retries q - count) < fuel)%nat ->
  exists e h' w', busy_event fuel p free clock count h w = Some (e, h', w') /\
    event_ok q free clock count e.
Proof.
  revert st count h w; induction fuel as [|fuel IH]; intros st count h w Hb Hp Hc Hm Hst Hf; [lia|].
  cbn [busy_event].
  destruct (callback_keeps p st count (clock count).1 (clock count).2 h w Hb)
    as (rc & st' & h' & w' & -> & Hb' & Hp' & _ & _ & Hs' & Hrc).
  assert (wrap_unsigned 32 count = count) as Hw by (apply Z.mod_small; lia).
  rewrite Hp, Hw in Hrc. rewrite Hw in Hs'.
  assert (start st' = (clock 0).1) as Hs0.
  { rewrite Hs'. destruct (Z.eqb_spec count 0) as [->|]; [done|]. by destruct Hst. }
  rewrite Hs0 in Hrc. fold (in_budget q clock count) in Hrc.
  destruct (Z.leb_spec (max_retries q) count) as [Hge|Hlt]; cbn [orb] in Hrc.
  { subst rc. eexists _, _, _. split; [done|]. simpl. split_and!; [lia..| |left; lia]. intros j Hj. lia. }
  destruct (Z.leb_spec (max_elapsed_ms q) (elapsed_ms (clock count).2 (clock 0).1)) as [Hge|Hin];
    subst rc; simpl (_ =? _); cbv iota.
  { eexists _, _, _. split; [done|]. simpl. split_and!; [lia..| |].
    - intros j Hj. lia.
    - right. unfold in_budget. lia. }
  destruct (free (count + 1)) eqn:Ef.
  { eexists _, _, _. split; [done|]. simpl. split_and!; [lia..|done|].
    intros j Hj. by replace j with count by lia. }
  destruct (IH st' (count + 1) h' w' Hb') as (e & h2 & w2 & -> & He); try lia; [congruence|].
  eexists _, _, _. split; [done|]. by apply event_ok_step.
Qed.

End Busy.
Arguments busy_state : clear implicits.

(** ** Theorems *)

(** On every sequence of policy changes, observer registrations and busy
    callbacks, SQLite accepting or refusing each registration as it likes, the
    busy slot stays memory safe and means what the specification says: the
    pointer SQLite holds is the slot's and is live, nothing leaks, and the state
    behind it has exactly the specified policy, observers and next handle. *)
Theorem busy_slot_refines_spec `{Beam} `{RusqliteText} {Db} `{BusyApiLaws Db} ops (db : Db) :
  busy_arg db = None -> observes ops < 2 ^ 64 ->
  exists oks s, run_busy ops (busy_init db) = Some (oks, s) /\ length oks = length ops /\
    busy_arg (b_db s) = b_slot s /\
    let a := run_busy_spec ops oks spec_empty in
    match b_slot s with
    | None => a = spec_empty /\ cells (b_heap s) = ∅
    | Some p => exists st, cells (b_heap s) = {[p := st]} /\
        a = mkBSpec (policy st) (observers st) (next_handle st)
    end.
Proof.
  intros Hdb Hn. destruct (run_busy_sim ops _ _ (busy_init_rep db Hdb)) as (oks & s & Hrun & Hl & Hr).
  { simpl. lia. }
  exists oks, s. split_and!; [done|done|..].
  - by destruct Hr as (st & ((Ha & _) & _) & _).
  - destruct Hr as (st & ((_ & Hb) & _) & Hspec). cbv zeta. rewrite <- Hspec.
    destruct (b_slot s) as [p|]; simpl in Hb; [|done]. exists st. by destruct Hb.
Qed.

Lemma busy_slot_refines_spec_witness :
  exists oks s, @run_busy demo_beam demo_text (option ptr) demo_busy
    [(Observe 7, 0); (BusyFires 0 5, 5); (Unobserve 0, 9)] (busy_init None) = Some (oks, s) /\
    @busy_arg _ demo_busy (b_db s) = b_slot s.
Proof.
  destruct (@busy_slot_refines_spec demo_beam demo_text (option ptr) demo_busy demo_busy_laws
    [(Observe 7, 0); (BusyFires 0 5, 5); (Unobserve 0, 9)] None) as (oks & s & H1 & _ & H2 & _).
  - reflexivity.
  - vm_compute. reflexivity.
  - exists oks, s. split; [exact H1|exact H2].
Defined.

(** C8: a busy event always ends: with a policy installed, SQLite gives up or gets
    the lock after at most [max_retries] retries; every retry was asked for while
    the time since the event's own first callback was below [max_elapsed_ms], and
    giving up means that one of the two budgets was spent.  A stale clock from an
    earlier event plays no part. *)
Theorem busy_event_ends `{Beam} p st q free clock h w :
  holds_box (Some p) st h -> policy st = Some q -> 0 <= max_retries q < 2 ^ 31 ->
  exists e h' w', busy_event (S (Z.to_nat (max_retries q))) p free clock 0 h w = Some (e, h', w') /\
    event_ok q free clock 0 e.
Proof. intros Hb Hp Hm. apply (busy_event_bounded _ _ st); auto; lia. Qed.

Lemma busy_event_ends_witness :
  let st := mkBusy (Some (mkPolicy 3 100 0)) [] 0 (-50) in
  exists e h' w', @busy_event demo_beam (S (Z.to_nat 3)) 1 (fun k => k =? 2) (fun k => (k * 10, k * 10)) 0
    (mkHeap {[1%positive := st]} 2) (mkEffects [] []) = Some (e, h', w') /\
    event_ok (mkPolicy 3 100 0) (fun k => k =? 2) (fun k => (k * 10, k * 10)) 0 e.
Proof.
  intros st. apply (@busy_event_ends demo_beam 1 st (mkPolicy 3 100 0)).
  - split; [reflexivity|simpl; lia].
  - reflexivity.
  - simpl. lia.
Defined.

(** Handles start over when the slot empties: a handle kept from an observer that
    is gone removes the observer that was given the same number afterwards. *)
Theorem stale_busy_handle_removes_another_observer :
  exists oks s, @run_busy demo_beam demo_text (option ptr) demo_busy
      [(Observe 7, 0); (Unobserve 0, 0); (Observe 8, 0)] (busy_init None) = Some (oks, s) /\
    run_busy_spec [(Observe 7, 0); (Unobserve 0, 0); (Observe 8, 0)] oks spec_empty
      = mkBSpec None [(0, 8)] 1 /\
    busy_spec_step (Unobserve 0) true (mkBSpec None [(0, 8)] 1) = spec_empty.
Proof. eexists _, _. split; [vm_compute; reflexivity|]. split; reflexivity. Qed.
