(* ===== verification/Lifecycle.v ===== *)
(** * Threads, the connection lock and raw handles

    The concurrency protocol of [connection.rs], [statement.rs], [stream.rs],
    [blob.rs] and [session.rs]: every NIF runs on some scheduler thread; raw
    [sqlite3_stmt] and [sqlite3_blob] pointers live in [AtomicPtr] cells of
    resources, sessions in an [Option] under the lock; finalizers take the
    pointer out of its cell first and call SQLite only under the connection lock.

    A state is everything threads share plus where each thread is; [exec] runs one
    atomic step of one thread.  Each constructor of [pc] is a program point of the
    function named beside it.  A session's own mutex is only ever taken by a
    thread that already holds the connection lock, so it adds no interleaving. *)

From stdpp Require Import functions.
From S2P Require Import Prelude Heap.

Abbreviation tid := nat.
Abbreviation rid := nat.

Inductive pc :=
| Idle
(* connection::close_connection *)
| CloseLock | CloseTake
(* stream::take_and_finalize_raw and blob::close, after a non-null swap *)
| FinLock (p : ptr) | FinCall (p : ptr)
(* XqliteStatement::with_live_stmt and blob::with_live_blob *)
| UseLock (r : rid) | UseCheck (r : rid) | UseLoad (r : rid) | UseCall (p : ptr)
(* stream_fetch *)
| FetchLock (r : rid) | FetchCheck (r : rid) | FetchLoad (r : rid)
| FetchStep (r : rid) (p : ptr) | FetchSwap (r : rid) | FetchFin (p : ptr)
(* with_conn around sqlite3_prepare_v2 / sqlite3_blob_open (stmt_prepare, stream_open, blob::open) *)
| OpenLock | OpenCheck | OpenCall
(* with_conn around Session::new (session_new) *)
| SessNewLock | SessNewCheck | SessNewCall
(* session::with_session, with_session_mut *)
| SessUseLock (k : rid) | SessUseCheck (k : rid) | SessUseLoad (k : rid) | SessUseCall (x : ptr)
(* session::close *)
| SessCloseLock (k : rid) | SessCloseTake (k : rid) | SessDelete (x : ptr)
(* dropping the guard *)
| Unlock.

Inductive db_status := DbOpen | DbLeaked | DbFreed.

#[export] Instance pc_eq_dec : EqDecision pc.
Proof. solve_decision. Defined.
#[export] Instance db_status_eq_dec : EqDecision db_status.
Proof. solve_decision. Defined.

Record conn_state := mkConn {
  lock : option tid;                 (* the holder of the connection Mutex *)
  poisoned : bool;
  conn : bool;                       (* the Option<Connection> is Some *)
  db : db_status;                    (* the sqlite3 object *)
  cell : rid -> option ptr;          (* the AtomicPtr of each statement, stream or blob *)
  sess : rid -> option ptr;          (* the Option<Session> of each session *)
  live : gset ptr;                   (* statements and blobs alive inside SQLite *)
  sess_live : gset ptr;              (* sessions alive inside SQLite *)
  lost : gset ptr;                   (* statements and blobs nobody will finalize any more *)
  next : ptr;                        (* next address *)
  nres : rid;                        (* next resource *)
  pcs : tid -> pc;
}.

(** What NIF a thread starts; garbage collection of a resource runs the finalizer
    of its kind. *)
Inductive nif := NClose | NFinalize (r : rid) | NUse (r : rid) | NFetch (r : rid) | NOpen
| NSessNew | NSessUse (k : rid) | NSessClose (k : rid).

(** How a step turns out, where SQLite or the arguments decide: [Go] on (a row, a
    statement prepared, the last call), [Other] (done, failed, one more call),
    [Lose] (the prepared statement is dropped unfinalized), or a panic. *)
Inductive outcome := Go | Other | Lose | Panic.

Definition set_pc (s : conn_state) (t : tid) (c : pc) : conn_state :=
  mkConn (lock s) (poisoned s) (conn s) (db s) (cell s) (sess s) (live s) (sess_live s) (lost s)
    (next s) (nres s) (<[t := c]> (pcs s)).
Definition set_lock (s : conn_state) (l : option tid) (po : bool) : conn_state :=
  mkConn l po (conn s) (db s) (cell s) (sess s) (live s) (sess_live s) (lost s)
    (next s) (nres s) (pcs s).
Definition set_cell (s : conn_state) (r : rid) (v : option ptr) : conn_state :=
  mkConn (lock s) (poisoned s) (conn s) (db s) (<[r := v]> (cell s)) (sess s) (live s) (sess_live s)
    (lost s) (next s) (nres s) (pcs s).
Definition set_sess (s : conn_state) (k : rid) (v : option ptr) : conn_state :=
  mkConn (lock s) (poisoned s) (conn s) (db s) (cell s) (<[k := v]> (sess s)) (live s) (sess_live s)
    (lost s) (next s) (nres s) (pcs s).
Definition set_lost (s : conn_state) (p : ptr) : conn_state :=
  mkConn (lock s) (poisoned s) (conn s) (db s) (cell s) (sess s) (live s) (sess_live s)
    ({[p]} ∪ lost s) (next s) (nres s) (pcs s).

(** [sqlite3_finalize], [sqlite3_blob_close] *)
Definition finalize (s : conn_state) (p : ptr) : conn_state :=
  mkConn (lock s) (poisoned s) (conn s) (db s) (cell s) (sess s) (live s ∖ {[p]}) (sess_live s)
    (lost s) (next s) (nres s) (pcs s).
(** [sqlite3session_delete] *)
Definition delete_session (s : conn_state) (x : ptr) : conn_state :=
  mkConn (lock s) (poisoned s) (conn s) (db s) (cell s) (sess s) (live s) (sess_live s ∖ {[x]})
    (lost s) (next s) (nres s) (pcs s).
(** A new statement or blob, in the cell of a new resource. *)
Definition create (s : conn_state) : conn_state :=
  mkConn (lock s) (poisoned s) (conn s) (db s) (<[nres s := Some (next s)]> (cell s)) (sess s)
    ({[next s]} ∪ live s) (sess_live s) (lost s) (Pos.succ (next s)) (S (nres s)) (pcs s).
(** A prepared statement that no resource owns. *)
Definition create_lost (s : conn_state) : conn_state :=
  mkConn (lock s) (poisoned s) (conn s) (db s) (cell s) (sess s)
    ({[next s]} ∪ live s) (sess_live s) ({[next s]} ∪ lost s) (Pos.succ (next s)) (nres s) (pcs s).
Definition create_session (s : conn_state) : conn_state :=
  mkConn (lock s) (poisoned s) (conn s) (db s) (cell s) (<[nres s := Some (next s)]> (sess s))
    (live s) ({[next s]} ∪ sess_live s) (lost s) (Pos.succ (next s)) (S (nres s)) (pcs s).

(** Acquiring waits for the lock to be free; a poisoned lock is acquired too. *)
Definition acquire (s : conn_state) (t : tid) (ok bad : pc) : option conn_state :=
  match lock s with
  | Some _ => None
  | None => Some (set_pc (set_lock s (Some t) (poisoned s)) t (if poisoned s then bad else ok))
  end.

(** [conn_guard.as_ref()]: go on, or drop the guard with [ConnectionClosed]. *)
Definition check_conn (s : conn_state) (t : tid) (ok : pc) : option conn_state :=
  Some (set_pc s t (if conn s then ok else Unlock)).

(** A panic inside the call unwinds through the guard, poisoning the lock. *)
Definition panic (s : conn_state) (t : tid) : option conn_state :=
  Some (set_pc (set_lock s None true) t Idle).

Section Exec.
  (** Does [sqlite3_close] free the database, given its live statements and blobs? *)
  Context (close_frees : gset ptr -> bool).

(** [conn_guard.take()] drops the Connection, which calls [sqlite3_close]; rusqlite
    ignores its result. *)
Definition take_conn (s : conn_state) : conn_state :=
  if conn s then
    mkConn (lock s) (poisoned s) false (if close_frees (live s) then DbFreed else DbLeaked)
      (cell s) (sess s) (live s) (sess_live s) (lost s) (next s) (nres s) (pcs s)
  else s.

(** The first step of a NIF, up to the lock. *)
Definition begin (s : conn_state) (t : tid) (n : nif) : option conn_state :=
  match pcs s t with
  | Idle =>
      Some match n with
      | NClose => set_pc s t CloseLock
      | NFinalize r =>                  (* swap with null *)
          match cell s r with
          | Some p => set_pc (set_cell s r None) t (FinLock p)
          | None => s
          end
      | NUse r => set_pc s t (UseLock r)
      | NFetch r =>                     (* load: null means done *)
          match cell s r with Some _ => set_pc s t (FetchLock r) | None => s end
      | NOpen => set_pc s t OpenLock
      | NSessNew => set_pc s t SessNewLock
      | NSessUse k => set_pc s t (SessUseLock k)
      | NSessClose k => set_pc s t (SessCloseLock k)
      end
  | _ => None
  end.

(** [connection::close_connection] *)
Definition close_step (s : conn_state) (t : tid) (c : pc) : option conn_state :=
  match c with
  | CloseLock => acquire s t CloseTake Unlock
  | CloseTake => Some (set_pc (take_conn s) t Unlock)
  | _ => None
  end.

(** [stream::take_and_finalize_raw] after its swap; [blob::close] is the same with
    [sqlite3_blob_close].  A poisoned lock returns [LockError], and the pointer is
    gone. *)
Definition finalize_step (s : conn_state) (t : tid) (c : pc) : option conn_state :=
  match c with
  | FinLock p => acquire (if poisoned s then set_lost s p else s) t (FinCall p) Unlock
  | FinCall p => Some (set_pc (finalize s p) t Unlock)
  | _ => None
  end.

(** [XqliteStatement::with_live_stmt] and [blob::with_live_blob]: lock, check, load,
    then any number of calls on the pointer. *)
Definition use_step (s : conn_state) (t : tid) (c : pc) (o : outcome) : option conn_state :=
  match c with
  | UseLock r => acquire s t (UseCheck r) Unlock
  | UseCheck r => check_conn s t (UseLoad r)
  | UseLoad r => Some (set_pc s t match cell s r with Some p => UseCall p | None => Unlock end)
  | UseCall p =>
      match o with
      | Other => Some s
      | Panic => panic s t
      | _ => Some (set_pc s t Unlock)
      end
  | _ => None
  end.

(** [stream_fetch] after its first load: the poisoned path finalizes while the
    poison error still holds the guard. *)
Definition fetch_step (s : conn_state) (t : tid) (c : pc) (o : outcome) : option conn_state :=
  match c with
  | FetchLock r => acquire s t (FetchCheck r) (FetchSwap r)
  | FetchCheck r => check_conn s t (FetchLoad r)
  | FetchLoad r =>
      match o with
      | Go => Some (set_pc s t match cell s r with Some p => FetchStep r p | None => Unlock end)
      | _ => Some (set_pc s t Unlock)      (* the batch is full *)
      end
  | FetchStep r p =>
      match o with
      | Go => Some (set_pc s t (FetchLoad r))
      | Panic => panic s t
      | _ => Some (set_pc s t (FetchSwap r))
      end
  | FetchSwap r =>
      Some match cell s r with
      | Some q => set_pc (set_cell s r None) t (FetchFin q)
      | None => set_pc s t Unlock
      end
  | FetchFin q => Some (set_pc (finalize s q) t Unlock)
  | _ => None
  end.

(** [with_conn] around preparing a statement or opening a blob. *)
Definition open_step (s : conn_state) (t : tid) (c : pc) (o : outcome) : option conn_state :=
  match c with
  | OpenLock => acquire s t OpenCheck Unlock
  | OpenCheck => check_conn s t OpenCall
  | OpenCall =>
      match o with
      | Go => Some (set_pc (create s) t Unlock)
      | Other => Some (set_pc s t Unlock)
      | Lose => Some (set_pc (create_lost s) t Unlock)
      | Panic => panic s t
      end
  | _ => None
  end.

(** [session_new] *)
Definition session_new_step (s : conn_state) (t : tid) (c : pc) (o : outcome) : option conn_state :=
  match c with
  | SessNewLock => acquire s t SessNewCheck Unlock
  | SessNewCheck => check_conn s t SessNewCall
  | SessNewCall =>
      match o with
      | Go => Some (set_pc (create_session s) t Unlock)
      | Panic => panic s t
      | _ => Some (set_pc s t Unlock)
      end
  | _ => None
  end.

(** [session::with_session] and [with_session_mut] *)
Definition session_use_step (s : conn_state) (t : tid) (c : pc) (o : outcome) : option conn_state :=
  match c with
  | SessUseLock k => acquire s t (SessUseCheck k) Unlock
  | SessUseCheck k => check_conn s t (SessUseLoad k)
  | SessUseLoad k => Some (set_pc s t match sess s k with Some x => SessUseCall x | None => Unlock end)
  | SessUseCall x =>
      match o with
      | Other => Some s
      | Panic => panic s t
      | _ => Some (set_pc s t Unlock)
      end
  | _ => None
  end.

(** [session::close]: deletes only while the connection is open and the lock is
    sound, otherwise leaks the session. *)
Definition session_close_step (s : conn_state) (t : tid) (c : pc) : option conn_state :=
  match c with
  | SessCloseLock k => acquire s t (SessCloseTake k) (SessCloseTake k)
  | SessCloseTake k =>
      Some match sess s k with
      | None => set_pc s t Unlock
      | Some x =>
          set_pc (set_sess s k None) t
            (if negb (poisoned s) && conn s then SessDelete x else Unlock)
      end
  | SessDelete x => Some (set_pc (delete_session s x) t Unlock)
  | _ => None
  end.

(** One step of the NIF thread [t] is running. *)
Definition advance (s : conn_state) (t : tid) (o : outcome) : option conn_state :=
  let c := pcs s t in
  match c with
  | Idle => None
  | Unlock => Some (set_pc (set_lock s None (poisoned s)) t Idle)
  | CloseLock | CloseTake => close_step s t c
  | FinLock _ | FinCall _ => finalize_step s t c
  | UseLock _ | UseCheck _ | UseLoad _ | UseCall _ => use_step s t c o
  | FetchLock _ | FetchCheck _ | FetchLoad _ | FetchStep _ _ | FetchSwap _ | FetchFin _ => fetch_step s t c o
  | OpenLock | OpenCheck | OpenCall => open_step s t c o
  | SessNewLock | SessNewCheck | SessNewCall => session_new_step s t c o
  | SessUseLock _ | SessUseCheck _ | SessUseLoad _ | SessUseCall _ => session_use_step s t c o
  | SessCloseLock _ | SessCloseTake _ | SessDelete _ => session_close_step s t c
  end.

Inductive action := Begin (t : tid) (n : nif) | Advance (t : tid) (o : outcome).

Definition exec (s : conn_state) (a : action) : option conn_state :=
  match a with Begin t n => begin s t n | Advance t o => advance s t o end.

Inductive step (s s' : conn_state) : Prop :=
| step_exec a (E : exec s a = Some s').

(** A freshly opened connection. *)
Definition opened : conn_state :=
  mkConn None false true DbOpen (fun _ => None) (fun _ => None) ∅ ∅ ∅ 1 0 (fun _ => Idle).

Definition reachable (s : conn_state) : Prop := rtc step opened s.

Fixpoint run (s : conn_state) (l : list action) : option conn_state :=
  match l with [] => Some s | a :: l => let! s := exec s a in run s l end.

(** ** What must never happen *)

(** The program points at which the thread is inside a SQLite call. *)
Definition in_sqlite (c : pc) : bool :=
  match c with
  | CloseTake | FinCall _ | UseCall _ | FetchStep _ _ | FetchFin _ | OpenCall | SessNewCall
  | SessUseCall _ | SessDelete _ => true
  | _ => false
  end.

(** A call on a freed database, or on a statement, blob or session that is not
    alive any more (use after finalize, double finalize). *)
Definition faulty (s : conn_state) (t : tid) : Prop :=
  match pcs s t with
  | FinCall p | UseCall p | FetchStep _ p | FetchFin p => p ∉ live s \/ db s = DbFreed
  | SessUseCall x | SessDelete x => x ∉ sess_live s \/ db s = DbFreed
  | OpenCall | SessNewCall => db s <> DbOpen
  | _ => False
  end.

End Exec.

(** ** The invariant *)

(** The program points at which the thread holds the lock. *)
Definition holding (c : pc) : bool :=
  match c with
  | Idle | CloseLock | FinLock _ | UseLock _ | FetchLock _ | OpenLock | SessNewLock | SessUseLock _
  | SessCloseLock _ => false
  | _ => true
  end.

(** The pointer a thread has taken out of a cell and not yet handed to SQLite. *)
Definition owned (c : pc) : option ptr :=
  match c with FinLock p | FinCall p | FetchFin p => Some p | _ => None end.
Definition sess_owned (c : pc) : option ptr :=
  match c with SessDelete x => Some x | _ => None end.

(** What a thread has established before the program point. *)
Definition thread_ok (s : conn_state) (c : pc) : Prop :=
  match c with
  | UseLoad _ | FetchLoad _ | OpenCall | SessNewCall | SessUseLoad _ => conn s = true
  | UseCall p | FetchStep _ p => conn s = true /\ p ∈ live s
  | SessUseCall x | SessDelete x => conn s = true /\ x ∈ sess_live s
  | _ => True
  end.

Inductive owner := ByCell (r : rid) | ByThread (t : tid).

Definition owns (s : conn_state) (o : owner) : option ptr :=
  match o with ByCell r => cell s r | ByThread t => owned (pcs s t) end.
Definition sess_owns (s : conn_state) (o : owner) : option ptr :=
  match o with ByCell r => sess s r | ByThread t => sess_owned (pcs s t) end.

Definition LockInv (s : conn_state) : Prop := forall t, holding (pcs s t) = true <-> lock s = Some t.

Record DataInv (s : conn_state) : Prop := {
  di_thread t : thread_ok s (pcs s t);
  di_owned o p : owns s o = Some p -> p ∈ live s /\ p ∉ lost s;
  di_unique o1 o2 p : owns s o1 = Some p -> owns s o2 = Some p -> o1 = o2;
  di_account p : p ∈ live s -> p ∈ lost s \/ exists o, owns s o = Some p;
  di_lost p : p ∈ lost s -> p ∈ live s;
  di_conn : conn s = true -> db s = DbOpen;
  di_freed : db s = DbFreed -> live s = ∅;
  di_sess o x : sess_owns s o = Some x -> conn s = true -> x ∈ sess_live s;
  di_sess_unique o1 o2 x : sess_owns s o1 = Some x -> sess_owns s o2 = Some x -> o1 = o2;
  di_fresh p : p ∈ live s \/ (exists o, sess_owns s o = Some p) -> (p < next s)%positive;
  di_cells r : (nres s <= r)%nat -> cell s r = None /\ sess s r = None;
}.

Lemma thread_ok_idle s c : holding c = false -> thread_ok s c.
Proof. by destruct c. Qed.

#[export] Instance owner_eq_dec : EqDecision owner.
Proof. solve_decision. Defined.

(** Who owns what after each kind of update. *)
Lemma owns_set_pc s t c o : owns (set_pc s t c) o = if decide (o = ByThread t) then owned c else owns s o.
Proof.
  destruct o as [r|t']; [done|]. simpl. unfold insert, fn_insert.
  destruct (decide (t = t')), (decide (ByThread t' = ByThread t)); congruence.
Qed.
Lemma sess_owns_set_pc s t c o :
  sess_owns (set_pc s t c) o = if decide (o = ByThread t) then sess_owned c else sess_owns s o.
Proof.
  destruct o as [r|t']; [done|]. simpl. unfold insert, fn_insert.
  destruct (decide (t = t')), (decide (ByThread t' = ByThread t)); congruence.
Qed.
Lemma owns_set_cell s r v o : owns (set_cell s r v) o = if decide (o = ByCell r) then v else owns s o.
Proof.
  destruct o as [r'|t]; [|done]. simpl. unfold insert, fn_insert.
  destruct (decide (r = r')), (decide (ByCell r' = ByCell r)); congruence.
Qed.
Lemma sess_owns_set_sess s k v o :
  sess_owns (set_sess s k v) o = if decide (o = ByCell k) then v else sess_owns s o.
Proof.
  destruct o as [r'|t]; [|done]. simpl. unfold insert, fn_insert.
  destruct (decide (k = r')), (decide (ByCell r' = ByCell k)); congruence.
Qed.
Lemma owns_create s o : owns (create s) o = if decide (o = ByCell (nres s)) then Some (next s) else owns s o.
Proof. exact (owns_set_cell s (nres s) (Some (next s)) o). Qed.
Lemma sess_owns_create_session s o :
  sess_owns (create_session s) o = if decide (o = ByCell (nres s)) then Some (next s) else sess_owns s o.
Proof. exact (sess_owns_set_sess s (nres s) (Some (next s)) o). Qed.
Lemma pcs_set_pc s t c t' : pcs (set_pc s t c) t' = if decide (t = t') then c else pcs s t'.
Proof. done. Qed.

(** Ownership as seen by every owner is unchanged by a move that keeps what the
    thread owns. *)
Lemma owns_same_pc s t c o : owned c = owned (pcs s t) -> owns (set_pc s t c) o = owns s o.
Proof. intros E. rewrite owns_set_pc. case_decide; [by subst|done]. Qed.
Lemma sess_owns_same_pc s t c o : sess_owned c = sess_owned (pcs s t) ->
  sess_owns (set_pc s t c) o = sess_owns s o.
Proof. intros E. rewrite sess_owns_set_pc. case_decide; [by subst|done]. Qed.

Lemma data_pc s t c : DataInv s -> owned c = owned (pcs s t) -> sess_owned c = sess_owned (pcs s t) ->
  thread_ok s c -> DataInv (set_pc s t c).
Proof.
  intros [] Ho Hs Ht. constructor; try done.
  - intros t'. rewrite pcs_set_pc. case_decide; [done|]. apply di_thread0.
  - intros o p. rewrite owns_same_pc by done. apply di_owned0.
  - intros o1 o2 p. rewrite !owns_same_pc by done. apply di_unique0.
  - intros p Hp. destruct (di_account0 p Hp) as [|[o E]]; [by left|right; exists o].
    by rewrite owns_same_pc.
  - intros o x. rewrite sess_owns_same_pc by done. apply di_sess0.
  - intros o1 o2 x. rewrite !sess_owns_same_pc by done. apply di_sess_unique0.
  - intros p [|[o E]]; apply di_fresh0; [by left|right; exists o]. by rewrite sess_owns_same_pc in E.
Qed.

Lemma data_lock s l po : DataInv s -> DataInv (set_lock s l po).
Proof. intros []. by constructor. Qed.

(** Only the lock holder can be past its checks. *)
Lemma others_idle s t t' : LockInv s -> lock s = Some t -> t' <> t -> holding (pcs s t') = false.
Proof.
  intros HL Hl Hne. destruct (holding (pcs s t')) eqn:E; [|done]. apply HL in E. congruence.
Qed.

Lemma lock_pc s t c : LockInv s -> holding c = holding (pcs s t) -> LockInv (set_pc s t c).
Proof.
  intros HL Hc t'. rewrite pcs_set_pc. case_decide; [subst t'; rewrite Hc; apply HL|apply HL].
Qed.
Lemma lock_acquire s t c po : LockInv s -> lock s = None -> holding c = true ->
  LockInv (set_pc (set_lock s (Some t) po) t c).
Proof.
  intros HL Hl Hc t'. rewrite pcs_set_pc. simpl. case_decide; [subst; naive_solver|].
  specialize (HL t'). rewrite Hl in HL. split; [intros E%HL; done|congruence].
Qed.
Lemma lock_release s t c po : LockInv s -> lock s = Some t -> holding c = false ->
  LockInv (set_pc (set_lock s None po) t c).
Proof.
  intros HL Hl Hc t'. rewrite pcs_set_pc. simpl. case_decide; [split; congruence|].
  split; [|done]. intros E%HL. congruence.
Qed.

Lemma thread_ok_mono s s' c : conn s' = conn s -> live s ⊆ live s' -> sess_live s ⊆ sess_live s' ->
  thread_ok s c -> thread_ok s' c.
Proof. intros Hc Hl Hs. destruct c; simpl; rewrite ?Hc; set_solver. Qed.

(** The thread invariant after a step of [t]: other threads either saw nothing
    that they rely on change, or do not hold the lock. *)
Lemma threads_mono s s' t c : (forall t', thread_ok s (pcs s t')) ->
  pcs s' = <[t := c]> (pcs s) -> conn s' = conn s -> live s ⊆ live s' -> sess_live s ⊆ sess_live s' ->
  thread_ok s' c -> forall t', thread_ok s' (pcs s' t').
Proof.
  intros Ht Hp Hc Hl Hs Hok t'. rewrite Hp. unfold insert, fn_insert. case_decide; [done|].
  by eapply thread_ok_mono.
Qed.
Lemma threads_locked s s' t c : LockInv s -> lock s = Some t -> pcs s' = <[t := c]> (pcs s) ->
  thread_ok s' c -> forall t', thread_ok s' (pcs s' t').
Proof.
  intros HL Hl Hp Hok t'. rewrite Hp. unfold insert, fn_insert. case_decide; [done|].
  apply thread_ok_idle. by eapply others_idle.
Qed.

(** Taking a pointer out of its cell moves its ownership to the thread. *)
Lemma data_swap s t r p c : DataInv s -> cell s r = Some p ->
  owned (pcs s t) = None -> owned c = Some p -> sess_owned c = sess_owned (pcs s t) ->
  thread_ok s c -> DataInv (set_pc (set_cell s r None) t c).
Proof.
  intros HD Hr Ho Hc Hs Ht. pose proof (di_owned _ HD (ByCell r) p Hr) as Hp.
  assert (forall o, owns s o = Some p -> o = ByCell r) as Hu.
  { intros o E. by eapply (di_unique _ HD). }
  constructor; try (apply HD).
  - apply (threads_mono s _ t c); [apply HD|done..].
  - intros o q. rewrite owns_set_pc, owns_set_cell. repeat case_decide; [rewrite Hc; intros [= <-]; exact Hp|done|apply HD].
  - intros o1 o2 q. rewrite !owns_set_pc, !owns_set_cell. repeat case_decide; try congruence.
    + intros E1 E2. assert (o2 = ByCell r) by (apply Hu; congruence). congruence.
    + intros E1 E2. assert (o1 = ByCell r) by (apply Hu; congruence). congruence.
    + apply HD.
  - intros q Hq. destruct (di_account _ HD q Hq) as [|[o E]]; [by left|right].
    destruct (decide (q = p)) as [->|Hne].
    + exists (ByThread t). by rewrite owns_set_pc, decide_True.
    + exists o. rewrite owns_set_pc, owns_set_cell. repeat case_decide; try done; subst.
      * simpl in E. congruence.
      * simpl in E. congruence.
  - intros o x. rewrite sess_owns_same_pc by done. apply HD.
  - intros o1 o2 x. rewrite !sess_owns_same_pc by done. apply HD.
  - intros q [|[o E]]; apply (di_fresh _ HD); [by left|right; exists o].
    by rewrite sess_owns_same_pc in E by done.
  - intros r' Hr'. destruct (di_cells _ HD r' Hr'). simpl. unfold insert, fn_insert. by case_decide.
Qed.

(** Finalizing the pointer the thread owns. *)
Lemma data_finalize s t p c : DataInv s -> LockInv s -> lock s = Some t ->
  owned (pcs s t) = Some p -> owned c = None -> sess_owned c = sess_owned (pcs s t) ->
  thread_ok (finalize s p) c -> DataInv (set_pc (finalize s p) t c).
Proof.
  intros HD HL Hl Ho Hc Hs Ht.
  assert (forall o, owns s o = Some p -> o = ByThread t) as Hu.
  { intros o E. by eapply (di_unique _ HD). }
  pose proof (di_owned _ HD (ByThread t) p Ho) as [Hp1 Hp2].
  constructor; try (apply HD).
  - by eapply (threads_locked s _ t c).
  - intros o q. rewrite owns_set_pc. case_decide; [congruence|]. intros E.
    destruct (di_owned _ HD o q E) as [Hq Hnl]. split; [|done]. simpl.
    assert (q <> p) by (intros ->; by apply Hu in E). set_solver.
  - intros o1 o2 q. rewrite !owns_set_pc. repeat case_decide; try congruence. apply HD.
  - intros q Hq. simpl in Hq. destruct (di_account _ HD q) as [|[o E]]; [set_solver|by left|right].
    exists o. rewrite owns_set_pc, decide_False; [done|]. intros ->. simpl in E. set_solver.
  - intros q Hq. pose proof (di_lost _ HD q Hq). simpl. assert (q <> p) by (intros ->; done). set_solver.
  - intros Hf. apply (di_freed _ HD) in Hf. simpl. set_solver.
  - intros o x. rewrite sess_owns_same_pc by done. apply HD.
  - intros o1 o2 x. rewrite !sess_owns_same_pc by done. apply HD.
  - intros q [Hq|[o E]]; apply (di_fresh _ HD); [left; simpl in Hq; set_solver|right; exists o].
    by rewrite sess_owns_same_pc in E by done.
Qed.

(** A pointer given up without finalizing is lost. *)
Lemma data_lose s t p c l po : DataInv s -> owned (pcs s t) = Some p -> owned c = None ->
  sess_owned c = sess_owned (pcs s t) -> thread_ok s c ->
  DataInv (set_pc (set_lock (set_lost s p) l po) t c).
Proof.
  intros HD Ho Hc Hs Ht.
  assert (forall o, owns s o = Some p -> o = ByThread t) as Hu.
  { intros o E. by eapply (di_unique _ HD). }
  pose proof (di_owned _ HD (ByThread t) p Ho) as [Hp1 Hp2].
  constructor; try (apply HD).
  - apply (threads_mono s _ t c); [apply HD|done..].
  - intros o q. rewrite owns_set_pc. case_decide; [congruence|]. intros E.
    destruct (di_owned _ HD o q E) as [Hq Hnl]. split; [done|]. simpl.
    assert (q <> p) by (intros ->; by apply Hu in E). set_solver.
  - intros o1 o2 q. rewrite !owns_set_pc. repeat case_decide; try congruence. apply HD.
  - intros q Hq. simpl in Hq |- *. destruct (di_account _ HD q Hq) as [|[o E]]; [set_solver|].
    destruct (decide (q = p)) as [->|Hne]; [set_solver|right].
    exists o. rewrite owns_set_pc, decide_False; [done|]. intros ->. simpl in E. congruence.
  - intros q Hq. simpl in *. pose proof (di_lost _ HD q). set_solver.
  - intros o x. rewrite sess_owns_same_pc by done. apply HD.
  - intros o1 o2 x. rewrite !sess_owns_same_pc by done. apply HD.
  - intros q [|[o E]]; apply (di_fresh _ HD); [by left|right; exists o].
    by rewrite sess_owns_same_pc in E by done.
Qed.

Lemma fresh_unowned s : DataInv s -> next s ∉ live s /\ next s ∉ lost s /\
  (forall o, owns s o <> Some (next s)) /\ (forall o, sess_owns s o <> Some (next s)).
Proof.
  intros HD. assert (next s ∉ live s) as Hl.
  { intros Hin. pose proof (di_fresh _ HD (next s) (or_introl Hin)). lia. }
  split_and!; [done| | |].
  - intros Hin%(di_lost _ HD). done.
  - intros o E. by apply (di_owned _ HD) in E as [? _].
  - intros o E. pose proof (di_fresh _ HD (next s) (or_intror (ex_intro _ o E))). lia.
Qed.

Lemma data_create s t c : DataInv s -> conn s = true -> owned c = owned (pcs s t) ->
  sess_owned c = sess_owned (pcs s t) -> thread_ok s c -> DataInv (set_pc (create s) t c).
Proof.
  intros HD Hconn Ho Hs Ht. destruct (fresh_unowned s HD) as (Hf1 & Hf2 & Hf3 & _).
  assert (forall o, owns (set_pc (create s) t c) o = owns (create s) o) as Hown.
  { intros o. by apply owns_same_pc. }
  constructor; try (apply HD).
  - eapply (threads_mono s _ t c); [apply HD|done|done|simpl; set_solver|done|].
    eapply thread_ok_mono; [| | |exact Ht]; simpl; set_solver.
  - intros o q. rewrite Hown, owns_create. case_decide; [intros [= <-]; simpl; set_solver|].
    intros E%(di_owned _ HD). simpl. set_solver.
  - intros o1 o2 q. rewrite !Hown, !owns_create. intros E1 E2.
    repeat case_decide; simplify_eq; try done; try (exfalso; by eapply Hf3).
    by eapply (di_unique _ HD).
  - intros q [Hq%elem_of_singleton|Hq]%elem_of_union; [right|].
    + exists (ByCell (nres s)). by rewrite Hown, owns_create, decide_True, Hq.
    + destruct (di_account _ HD q Hq) as [|[o E]]; [by left|right]. exists o.
      rewrite Hown, owns_create. case_decide; [|done]. subst o. simpl in E.
      by rewrite (proj1 (di_cells _ HD _ (le_n _))) in E.
  - intros q Hq%(di_lost _ HD). simpl. set_solver.
  - intros Hfr. simpl in Hfr. by rewrite (di_conn _ HD Hconn) in Hfr.
  - intros o x. rewrite sess_owns_same_pc by done. apply HD.
  - intros o1 o2 x. rewrite !sess_owns_same_pc by done. apply HD.
  - intros q Hq. cbn [next create set_pc]. enough (q = next s \/ (q < next s)%positive) by lia.
    destruct Hq as [Hq|[o E]].
    + apply elem_of_union in Hq as [Hq%elem_of_singleton|Hq]; [by left|right]. apply (di_fresh _ HD). by left.
    + right. apply (di_fresh _ HD). right. exists o. by rewrite sess_owns_same_pc in E by done.
  - intros r Hr. simpl in Hr. destruct (di_cells _ HD r) as [Hc Hs']; [lia|]. simpl. split; [|done].
    rewrite fn_lookup_insert_ne by lia. done.
Qed.

Lemma data_create_lost s t c : DataInv s -> conn s = true -> owned c = owned (pcs s t) ->
  sess_owned c = sess_owned (pcs s t) -> thread_ok s c -> DataInv (set_pc (create_lost s) t c).
Proof.
  intros HD Hconn Ho Hs Ht. destruct (fresh_unowned s HD) as (Hf1 & Hf2 & Hf3 & _).
  assert (forall o, owns (set_pc (create_lost s) t c) o = owns s o) as Hown.
  { intros o. rewrite owns_same_pc by done. by destruct o. }
  assert (forall o, sess_owns (set_pc (create_lost s) t c) o = sess_owns s o) as Hsown.
  { intros o. rewrite sess_owns_same_pc by done. by destruct o. }
  constructor; try (apply HD).
  - eapply (threads_mono s _ t c); [apply HD|done|done|simpl; set_solver|done|].
    eapply thread_ok_mono; [| | |exact Ht]; simpl; set_solver.
  - intros o q. rewrite Hown. intros E. pose proof (di_owned _ HD _ _ E). simpl.
    assert (q <> next s) by (intros ->; by apply Hf3 in E). set_solver.
  - intros o1 o2 q. rewrite !Hown. apply HD.
  - intros q [Hq|Hq]%elem_of_union; [left; simpl; set_solver|].
    destruct (di_account _ HD q Hq) as [|[o E]]; [left; simpl; set_solver|right]. exists o. by rewrite Hown.
  - intros q Hq. simpl in *. pose proof (di_lost _ HD q). set_solver.
  - intros Hfr. simpl in Hfr. by rewrite (di_conn _ HD Hconn) in Hfr.
  - intros o x. rewrite Hsown. apply HD.
  - intros o1 o2 x. rewrite !Hsown. apply HD.
  - intros q Hq. cbn [next create_lost set_pc]. enough (q = next s \/ (q < next s)%positive) by lia.
    destruct Hq as [Hq|[o E]].
    + apply elem_of_union in Hq as [Hq%elem_of_singleton|Hq]; [by left|right]. apply (di_fresh _ HD). by left.
    + right. apply (di_fresh _ HD). right. exists o. by rewrite Hsown in E.
Qed.

Lemma data_create_session s t c : DataInv s -> conn s = true -> owned c = owned (pcs s t) ->
  sess_owned c = sess_owned (pcs s t) -> thread_ok s c -> DataInv (set_pc (create_session s) t c).
Proof.
  intros HD Hconn Ho Hs Ht. destruct (fresh_unowned s HD) as (Hf1 & Hf2 & _ & Hf4).
  assert (forall o, owns (set_pc (create_session s) t c) o = owns s o) as Hown.
  { intros o. rewrite owns_same_pc by done. by destruct o. }
  assert (forall o, sess_owns (set_pc (create_session s) t c) o = sess_owns (create_session s) o) as Hsown.
  { intros o. by apply sess_owns_same_pc. }
  constructor; try (apply HD).
  - eapply (threads_mono s _ t c); [apply HD|done|done|done|simpl; set_solver|].
    eapply thread_ok_mono; [| | |exact Ht]; simpl; set_solver.
  - intros o q. rewrite Hown. apply HD.
  - intros o1 o2 q. rewrite !Hown. apply HD.
  - intros q Hq. destruct (di_account _ HD q Hq) as [|[o E]]; [by left|right]. exists o. by rewrite Hown.
  - intros o x. rewrite Hsown, sess_owns_create_session. case_decide; [intros [= <-]; simpl; set_solver|].
    intros E Hc. pose proof (di_sess _ HD _ _ E Hc). simpl. set_solver.
  - intros o1 o2 x. rewrite !Hsown, !sess_owns_create_session. intros E1 E2.
    repeat case_decide; simplify_eq; try done; try (exfalso; by eapply Hf4).
    by eapply (di_sess_unique _ HD).
  - intros q Hq. cbn [next create_session set_pc]. enough (q = next s \/ (q < next s)%positive) by lia.
    destruct Hq as [Hq|[o E]]; [right; apply (di_fresh _ HD); by left|].
    rewrite Hsown, sess_owns_create_session in E. case_decide; [left; congruence|right].
    apply (di_fresh _ HD). right. by exists o.
  - intros r Hr. simpl in Hr. destruct (di_cells _ HD r) as [Hc Hs']; [lia|]. simpl. split; [done|].
    rewrite fn_lookup_insert_ne by lia. done.
Qed.

(** Taking the session out under the lock; a live connection lets the thread delete it. *)
Lemma data_sess_take s t k x c : DataInv s -> sess s k = Some x ->
  owned c = owned (pcs s t) -> sess_owned (pcs s t) = None ->
  (sess_owned c = Some x \/ sess_owned c = None) -> thread_ok s c ->
  DataInv (set_pc (set_sess s k None) t c).
Proof.
  intros HD Hk Ho Hs Hc Ht.
  assert (forall o, sess_owns s o = Some x -> o = ByCell k) as Hu.
  { intros o E. by eapply (di_sess_unique _ HD). }
  assert (forall o, owns (set_pc (set_sess s k None) t c) o = owns s o) as Hown.
  { intros o. rewrite owns_same_pc by done. by destruct o. }
  constructor; try (apply HD).
  - by eapply (threads_mono s _ t c); [apply HD|..].
  - intros o q. rewrite Hown. apply HD.
  - intros o1 o2 q. rewrite !Hown. apply HD.
  - intros q Hq. destruct (di_account _ HD q Hq) as [|[o E]]; [by left|right]. exists o. by rewrite Hown.
  - intros o y. rewrite sess_owns_set_pc, sess_owns_set_sess. repeat case_decide; [|done|apply HD].
    intros E. assert (y = x) as -> by (destruct Hc; congruence). by apply (di_sess _ HD (ByCell k)).
  - intros o1 o2 y. rewrite !sess_owns_set_pc, !sess_owns_set_sess. repeat case_decide; try congruence.
    + intros E1 E2. assert (o2 = ByCell k) by (apply Hu; destruct Hc; congruence). congruence.
    + intros E1 E2. assert (o1 = ByCell k) by (apply Hu; destruct Hc; congruence). congruence.
    + apply HD.
  - intros q [|[o E]]; apply (di_fresh _ HD); [by left|right].
    rewrite sess_owns_set_pc, sess_owns_set_sess in E. repeat case_decide; [|done|by exists o].
    exists (ByCell k). simpl. destruct Hc; congruence.
  - intros r' Hr'. destruct (di_cells _ HD r' Hr'). simpl. unfold insert, fn_insert. by case_decide.
Qed.

Lemma data_sess_delete s t x c : DataInv s -> LockInv s -> lock s = Some t ->
  sess_owned (pcs s t) = Some x -> sess_owned c = None -> owned c = owned (pcs s t) ->
  thread_ok (delete_session s x) c -> DataInv (set_pc (delete_session s x) t c).
Proof.
  intros HD HL Hl Hs Hc Ho Ht.
  assert (forall o, sess_owns s o = Some x -> o = ByThread t) as Hu.
  { intros o E. by eapply (di_sess_unique _ HD). }
  assert (forall o, owns (set_pc (delete_session s x) t c) o = owns s o) as Hown.
  { intros o. rewrite owns_same_pc by done. by destruct o. }
  constructor; try (apply HD).
  - by eapply (threads_locked s _ t c).
  - intros o q. rewrite Hown. apply HD.
  - intros o1 o2 q. rewrite !Hown. apply HD.
  - intros q Hq. destruct (di_account _ HD q Hq) as [|[o E]]; [by left|right]. exists o. by rewrite Hown.
  - intros o y. rewrite sess_owns_set_pc. case_decide; [congruence|]. intros E Hcn.
    pose proof (di_sess _ HD o y E Hcn). simpl.
    assert (y <> x) by (intros ->; by apply Hu in E). set_solver.
  - intros o1 o2 y. rewrite !sess_owns_set_pc. repeat case_decide; try congruence. apply HD.
  - intros q [|[o E]]; apply (di_fresh _ HD); [by left|right].
    rewrite sess_owns_set_pc in E. case_decide; [congruence|by exists o].
Qed.

Section Preservation.
  Context (close_frees : gset ptr -> bool).
  (** SQLite documents that closing a connection with unfinalized statements or open
      blobs leaves it open. *)
  Context (close_busy : forall l, l <> ∅ -> close_frees l = false).

Lemma data_take s t c : DataInv s -> LockInv s -> lock s = Some t ->
  owned c = owned (pcs s t) -> sess_owned c = sess_owned (pcs s t) ->
  thread_ok (take_conn close_frees s) c ->
  DataInv (set_pc (take_conn close_frees s) t c).
Proof.
  intros HD HL Hl Ho Hs Ht. unfold take_conn in *. destruct (conn s) eqn:Ec.
  2: { by apply data_pc. }
  set (s' := mkConn _ _ _ _ _ _ _ _ _ _ _ _) in *.
  assert (forall o, owns (set_pc s' t c) o = owns s o) as Hown.
  { intros o. rewrite owns_same_pc by done. by destruct o. }
  assert (forall o, sess_owns (set_pc s' t c) o = sess_owns s o) as Hsown.
  { intros o. rewrite sess_owns_same_pc by done. by destruct o. }
  constructor; try (apply HD); try done.
  - by eapply (threads_locked s _ t c).
  - intros o q. rewrite Hown. apply HD.
  - intros o1 o2 q. rewrite !Hown. apply HD.
  - intros q Hq. destruct (di_account _ HD q Hq) as [|[o E]]; [by left|right]. exists o. by rewrite Hown.
  - simpl. intros Hf. destruct (decide (live s = ∅)) as [|Hne]; [done|].
    by rewrite (close_busy _ Hne) in Hf.
  - intros o1 o2 x. rewrite !Hsown. apply HD.
  - intros q [|[o E]]; apply (di_fresh _ HD); [by left|right]. exists o. by rewrite Hsown in E.
Qed.

Definition Inv (s : conn_state) : Prop := LockInv s /\ DataInv s.

Lemma inv_pc s t c : Inv s -> holding c = holding (pcs s t) -> owned c = owned (pcs s t) ->
  sess_owned c = sess_owned (pcs s t) -> thread_ok s c -> Inv (set_pc s t c).
Proof. intros [HL HD]. split; [by apply lock_pc|by apply data_pc]. Qed.

Lemma inv_acquire s t ok bad s' : Inv s -> acquire s t ok bad = Some s' ->
  holding ok = true -> holding bad = true ->
  owned ok = owned (pcs s t) -> owned bad = owned (pcs s t) ->
  sess_owned ok = sess_owned (pcs s t) -> sess_owned bad = sess_owned (pcs s t) ->
  thread_ok s ok -> thread_ok s bad -> Inv s'.
Proof.
  intros [HL HD]. unfold acquire. destruct (lock s) eqn:El; [done|]. intros [= <-] **.
  split; [apply lock_acquire; by destruct (poisoned s)|].
  apply data_pc; [by apply data_lock|..]; destruct (poisoned s); try done; by eapply thread_ok_mono.
Qed.

Lemma inv_panic s t s' : Inv s -> lock s = Some t -> owned (pcs s t) = None -> sess_owned (pcs s t) = None ->
  panic s t = Some s' -> Inv s'.
Proof.
  intros [HL HD] Hl Ho Hs [= <-]. split; [by apply lock_release|].
  by apply data_pc; [apply data_lock|..].
Qed.

(** [inv_pc] with the thread's point known. *)
Lemma inv_move s t c0 c : Inv s -> pcs s t = c0 -> holding c = holding c0 -> owned c = owned c0 ->
  sess_owned c = sess_owned c0 -> thread_ok s c -> Inv (set_pc s t c).
Proof. intros HI <-. by apply inv_pc. Qed.

Lemma inv_lock_step s t c0 ok bad s' : Inv s -> pcs s t = c0 -> acquire s t ok bad = Some s' ->
  holding ok = true -> holding bad = true -> owned ok = owned c0 -> owned bad = owned c0 ->
  sess_owned ok = sess_owned c0 -> sess_owned bad = sess_owned c0 ->
  thread_ok s ok -> thread_ok s bad -> Inv s'.
Proof. intros HI <- HA **. by eapply inv_acquire. Qed.

Lemma inv_holder s t c : Inv s -> pcs s t = c -> holding c = true -> lock s = Some t.
Proof. intros [HL _] <- Hh. by apply HL. Qed.

Lemma inv_panic_at s t c s' : Inv s -> pcs s t = c -> holding c = true -> owned c = None ->
  sess_owned c = None -> panic s t = Some s' -> Inv s'.
Proof. intros HI Hc Hh Ho Hs. eapply inv_panic; [done|by eapply inv_holder|congruence..]. Qed.

Lemma inv_check s t c0 ok s' : Inv s -> pcs s t = c0 -> holding c0 = true -> owned c0 = None ->
  sess_owned c0 = None -> check_conn s t ok = Some s' -> holding ok = true -> owned ok = None ->
  sess_owned ok = None -> (conn s = true -> thread_ok s ok) -> Inv s'.
Proof.
  intros HI Hc Hh Ho Hs [= <-] Hh' Ho' Hs' Ht. eapply inv_move; [done|done|..];
    destruct (conn s); try done; try congruence. by apply Ht.
Qed.

Lemma begin_inv s t n s' : Inv s -> begin s t n = Some s' -> Inv s'.
Proof.
  intros HI. unfold begin. destruct (pcs s t) eqn:Ec; try discriminate. intros [= <-].
  destruct n; try (by eapply inv_move).
  - destruct (cell s r) as [p|] eqn:Er; [|done]. destruct HI as [HL HD]. split.
    + intros t'. rewrite pcs_set_pc. case_decide; [subst t'|apply HL].
      specialize (HL t). rewrite Ec in HL. exact HL.
    + by eapply data_swap; rewrite ?Ec.
  - destruct (cell s r); [by eapply inv_move|done].
Qed.

Lemma release_inv s t c : Inv s -> pcs s t = c -> holding c = true -> owned c = None ->
  sess_owned c = None -> Inv (set_pc (set_lock s None (poisoned s)) t Idle).
Proof.
  intros HI Hc Hh Ho Hs. pose proof (inv_holder _ _ _ HI Hc Hh) as Hl. destruct HI as [HL HD].
  split; [by apply lock_release|]. apply data_pc; [by apply data_lock|..]; simpl; rewrite ?Hc; done.
Qed.

(** Moves of the lock holder that touch the shared data. *)
Lemma inv_locked s s' t c0 c : Inv s -> pcs s t = c0 -> holding c0 = true -> holding c = true ->
  lock s' = lock s -> pcs s' = pcs s -> DataInv (set_pc s' t c) -> Inv (set_pc s' t c).
Proof.
  intros [HL HD] Hc Hh Hh' Hl Hp HD'. split; [|done]. intros t'. rewrite pcs_set_pc, Hp. simpl.
  rewrite Hl. case_decide; [subst t'|apply HL]. rewrite Hh'. rewrite <- (HL t), Hc, Hh. done.
Qed.

Lemma fin_lock_inv s t p s' : Inv s -> pcs s t = FinLock p ->
  acquire (if poisoned s then set_lost s p else s) t (FinCall p) Unlock = Some s' -> Inv s'.
Proof.
  intros [HL HD] Ec. unfold acquire. destruct (poisoned s) eqn:Ep; simpl.
  - destruct (lock s) eqn:El; [done|]. rewrite Ep. intros [= <-]. split.
    + by apply (lock_acquire (set_lost s p)).
    + apply (data_lose s t p Unlock (Some t) true); rewrite ?Ec; done.
  - destruct (lock s) eqn:El; [done|]. rewrite Ep. intros [= <-]. split; [by apply lock_acquire|].
    apply data_pc; [by apply data_lock|..]; simpl; rewrite ?Ec; done.
Qed.

Lemma advance_inv s t o s' : Inv s -> advance close_frees s t o = Some s' -> Inv s'.
Proof.
  intros HI. pose proof HI as [HL HD]. unfold advance.
  pose proof (di_thread _ HD t) as Hok. destruct (pcs s t) eqn:Ec; simpl in Hok;
    cbn [close_step finalize_step use_step fetch_step open_step session_new_step session_use_step session_close_step]; intros Hs.
  all: try (by eapply inv_lock_step).
  all: try (by eapply inv_check; eauto).
  - injection Hs as <-. eapply (inv_locked s); try done; try (unfold take_conn; by destruct (conn s)).
    apply data_take; rewrite ?Ec; try done. by eapply inv_holder.
  - by eapply fin_lock_inv.
  - injection Hs as <-. eapply (inv_locked s); try done.
    apply data_finalize; rewrite ?Ec; try done. by eapply inv_holder.
  - injection Hs as <-. destruct (cell s r) as [p|] eqn:Er; eapply inv_move; try done.
    split; [done|]. by apply (di_owned _ HD (ByCell r)).
  - destruct o; try (injection Hs as <-); try done; try (by eapply inv_move). by eapply inv_panic_at.
  - destruct o; injection Hs as <-; try (by eapply inv_move).
    destruct (cell s r) as [p|] eqn:Er; eapply inv_move; try done.
    split; [done|]. by apply (di_owned _ HD (ByCell r)).
  - destruct o; try (injection Hs as <-); try (by eapply inv_panic_at); eapply inv_move; try done. apply Hok.
  - injection Hs as <-. destruct (cell s r) as [p|] eqn:Er; [|by eapply inv_move].
    eapply (inv_locked s); try done. by eapply data_swap; rewrite ?Ec.
  - injection Hs as <-. eapply (inv_locked s); try done.
    apply data_finalize; rewrite ?Ec; try done. by eapply inv_holder.
  - destruct o; try (injection Hs as <-); try (by eapply inv_panic_at); try (by eapply inv_move).
    + eapply (inv_locked s); try done. by apply data_create; rewrite ?Ec.
    + eapply (inv_locked s); try done. by apply data_create_lost; rewrite ?Ec.
  - destruct o; try (injection Hs as <-); try (by eapply inv_panic_at); try (by eapply inv_move).
    eapply (inv_locked s); try done. by apply data_create_session; rewrite ?Ec.
  - injection Hs as <-. destruct (sess s k) as [x|] eqn:Er; eapply inv_move; try done.
    split; [done|]. by apply (di_sess _ HD (ByCell k)).
  - destruct o; try (injection Hs as <-); try done; try (by eapply inv_move). by eapply inv_panic_at.
  - injection Hs as <-. destruct (sess s k) as [x|] eqn:Er; [|by eapply inv_move].
    eapply (inv_locked s); try done; try (by destruct (_ && _)).
    eapply (data_sess_take _ _ _ x); rewrite ?Ec; try done; destruct (_ && _) eqn:Ep; try done; try (by left); try (by right).
    apply andb_true_iff in Ep as [_ Ep]. split; [done|]. by apply (di_sess _ HD (ByCell k)).
  - injection Hs as <-. eapply (inv_locked s); try done.
    apply data_sess_delete; rewrite ?Ec; try done. by eapply inv_holder.
  - injection Hs as <-. by eapply release_inv.
Qed.

Lemma opened_inv : Inv opened.
Proof.
  split; [intros t; done|]. constructor; simpl; try set_solver; try done.
  - by intros [].
  - by intros [].
  - by intros [].
  - by intros [].
  - intros p [|[[] ?]]; set_solver.
Qed.

Lemma reachable_inv s : reachable close_frees s -> Inv s.
Proof.
  intros Hr. assert (forall s0 s1, rtc (step close_frees) s0 s1 -> Inv s0 -> Inv s1) as Hrtc.
  { induction 1 as [|x y z [a E] _ IH]; [done|]. intros HI. apply IH.
    destruct a; [by eapply begin_inv|by eapply advance_inv]. }
  by eapply Hrtc, opened_inv.
Qed.

Lemma advance_holding s t o : holding (pcs s t) = true -> o = Go ->
  exists s', advance close_frees s t o = Some s'.
Proof. intros Hh ->. unfold advance. destruct (pcs s t); try discriminate; by eexists. Qed.

Lemma advance_waiting s t : holding (pcs s t) = false -> pcs s t <> Idle -> lock s = None ->
  exists s', advance close_frees s t Go = Some s'.
Proof.
  intros Hh Hi Hl. unfold advance. destruct (pcs s t); try discriminate; try done;
    cbn [close_step finalize_step use_step fetch_step open_step session_new_step session_use_step session_close_step]; unfold acquire; rewrite ?Hl; eauto. destruct (poisoned s); simpl; rewrite Hl; eauto.
Qed.

(** Runs in which nothing panics and no prepared statement is dropped. *)
Definition clean (a : action) : bool :=
  match a with Advance _ Lose | Advance _ Panic => false | _ => true end.

Definition Clean (s : conn_state) : Prop := poisoned s = false /\ lost s = ∅.

Lemma exec_clean s a s' : Clean s -> clean a = true -> exec close_frees s a = Some s' -> Clean s'.
Proof.
  intros [Hp Hl] Hc. destruct a as [t n|t o]; simpl.
  - unfold begin. destruct (pcs s t); try discriminate. intros [= <-].
    destruct n; try done; by destruct (cell s r).
  - unfold advance.
    destruct (pcs s t), o; try discriminate; cbn [close_step finalize_step use_step fetch_step open_step session_new_step session_use_step session_close_step];
      unfold acquire, check_conn, take_conn, panic; rewrite ?Hp; intros Hs; repeat case_match; simplify_eq; done.
Qed.

Lemma run_clean l s s' : Clean s -> forallb clean l = true -> run close_frees s l = Some s' -> Clean s'.
Proof.
  revert s; induction l as [|a l IH]; intros s HC Hf; cbn [run]; [by intros [= <-]|].
  simpl in Hf. apply andb_true_iff in Hf as [Ha Hf].
  destruct (exec close_frees s a) as [s1|] eqn:E; [|done]. apply IH; [|done]. by eapply exec_clean.
Qed.

Lemma run_reachable l s s' : run close_frees s l = Some s' -> rtc (step close_frees) s s'.
Proof.
  revert s; induction l as [|a l IH]; intros s; cbn [run]; [by intros [= <-]|].
  destruct (exec close_frees s a) as [s1|] eqn:E; [|done]. intros Hr.
  eapply rtc_l; [by econstructor|by apply IH].
Qed.

End Preservation.

(** [sqlite3_close] as documented: for the witnesses. *)
Definition demo_close (l : gset ptr) : bool := bool_decide (l = ∅).
Lemma demo_close_busy l : l <> ∅ -> demo_close l = false.
Proof. intros. by apply bool_decide_eq_false. Qed.

(** ** Theorems *)

(** C1: no interleaving of preparing, using, streaming, finalizing (explicitly or
    by garbage collection), opening and deleting sessions, closing the connection,
    panics and lock poisoning lets a thread touch a statement, blob or session that
    is already gone or a database that was freed; in particular nothing is ever
    finalized twice. *)
Theorem no_use_after_free close_frees s t :
  (forall l, l <> ∅ -> close_frees l = false) -> reachable close_frees s -> ~ faulty s t.
Proof.
  intros Hcb Hr. destruct (reachable_inv _ Hcb s Hr) as [HL HD]. unfold faulty.
  pose proof (di_thread _ HD t) as Hok. pose proof (di_owned _ HD (ByThread t)) as Hown. simpl in Hown.
  pose proof (di_conn _ HD) as Hconn. pose proof (di_freed _ HD) as Hfreed.
  destruct (pcs s t); simpl in *; try tauto.
  - intros [|Hf]; specialize (Hown p eq_refl) as [? _]; [done|]. specialize (Hfreed Hf). set_solver.
  - intros [|Hf]; [tauto|]. specialize (Hfreed Hf). set_solver.
  - intros [|Hf]; [tauto|]. specialize (Hfreed Hf). set_solver.
  - intros [|Hf]; specialize (Hown p eq_refl) as [? _]; [done|]. specialize (Hfreed Hf). set_solver.
  - intros [|Hf]; [tauto|]. specialize (Hconn (proj1 Hok)). congruence.
  - intros [|Hf]; [tauto|]. specialize (Hconn (proj1 Hok)). congruence.
Qed.

(** A statement is opened and its connection closed while another thread is about
    to finalize it. *)
Definition demo_run : list action :=
  [Begin 0 NOpen; Advance 0 Go; Advance 0 Go; Advance 0 Go; Advance 0 Go;
   Begin 1 (NFinalize 0); Begin 0 NClose; Advance 0 Go; Advance 0 Go; Advance 0 Go; Advance 1 Go].

Definition demo_state : conn_state := default opened (run demo_close opened demo_run).

Lemma no_use_after_free_witness : ~ faulty demo_state 1 /\ pcs demo_state 1 = FinCall 1 /\ db demo_state = DbLeaked.
Proof.
  split; [|split; vm_compute; reflexivity].
  apply (no_use_after_free demo_close); [exact demo_close_busy|].
  apply (run_reachable demo_close demo_run). vm_compute. reflexivity.
Defined.

(** C6: SQLite is called by one thread at a time, always the holder of the
    connection lock, also on the poisoned path. *)
Theorem sqlite_calls_serialised close_frees s t1 t2 :
  (forall l, l <> ∅ -> close_frees l = false) -> reachable close_frees s ->
  in_sqlite (pcs s t1) = true -> lock s = Some t1 /\ (in_sqlite (pcs s t2) = true -> t1 = t2).
Proof.
  intros Hcb Hr. destruct (reachable_inv _ Hcb s Hr) as [HL _].
  assert (forall t, in_sqlite (pcs s t) = true -> lock s = Some t) as Hin.
  { intros t Ht. apply HL. by destruct (pcs s t). }
  intros H1%Hin. split; [done|]. intros H2%Hin. congruence.
Qed.

Lemma sqlite_calls_serialised_witness : lock demo_state = Some 1%nat.
Proof.
  apply (sqlite_calls_serialised demo_close demo_state 1 1).
  - exact demo_close_busy.
  - apply (run_reachable demo_close demo_run). vm_compute. reflexivity.
  - vm_compute. reflexivity.
Defined.

(** C7: no deadlock: while some NIF is running, some thread can take its next step. *)
Theorem lifecycle_no_deadlock close_frees s :
  (forall l, l <> ∅ -> close_frees l = false) -> reachable close_frees s ->
  (exists t, pcs s t <> Idle) -> exists t s', advance close_frees s t Go = Some s'.
Proof.
  intros Hcb Hr [t Ht]. destruct (reachable_inv _ Hcb s Hr) as [HL _].
  destruct (lock s) as [h|] eqn:El.
  - exists h. apply advance_holding; [|done]. by apply HL.
  - exists t. apply advance_waiting; [|done|done]. specialize (HL t). rewrite El in HL.
    destruct (holding (pcs s t)); [|done]. by destruct HL as [HL _]; specialize (HL eq_refl).
Qed.

Lemma lifecycle_no_deadlock_witness : exists t s', advance demo_close demo_state t Go = Some s'.
Proof.
  apply (lifecycle_no_deadlock demo_close).
  - exact demo_close_busy.
  - apply (run_reachable demo_close demo_run). vm_compute. reflexivity.
  - exists 1%nat. vm_compute. discriminate.
Defined.

(** C5: nothing leaks in a run without panics and without a dropped prepared
    statement: once every NIF has returned and every resource is finalized or
    collected, no statement or blob is left in SQLite. *)
Theorem statements_do_not_leak close_frees l s :
  (forall l, l <> ∅ -> close_frees l = false) -> run close_frees opened l = Some s ->
  forallb clean l = true -> (forall t, pcs s t = Idle) -> (forall r, cell s r = None) -> live s = ∅.
Proof.
  intros Hcb Hrun Hf Hidle Hcell.
  destruct (run_clean close_frees l opened s) as [_ Hlost]; [by split|done|done|].
  destruct (reachable_inv _ Hcb s (run_reachable _ _ _ _ Hrun)) as [_ HD].
  apply set_eq. intros p. split; [|set_solver]. intros Hp.
  destruct (di_account _ HD p Hp) as [|[[r|t] E]]; [set_solver| |].
  - simpl in E. by rewrite Hcell in E.
  - simpl in E. by rewrite Hidle in E.
Qed.

Lemma statements_do_not_leak_witness :
  exists s, run demo_close opened (demo_run ++ [Advance 1 Go; Advance 1 Go]) = Some s /\ live s = ∅.
Proof.
  eexists. split; [vm_compute; reflexivity|].
  apply (statements_do_not_leak demo_close (demo_run ++ [Advance 1 Go; Advance 1 Go])).
  - exact demo_close_busy.
  - vm_compute. reflexivity.
  - reflexivity.
  - intros t. vm_compute. repeat (destruct t as [|t]; [reflexivity|]). reflexivity.
  - intros r. vm_compute. repeat (destruct r as [|r]; [reflexivity|]). reflexivity.
Defined.
