(* ===== verification/Connection.v ===== *)
(** * [connection.rs]: the connection handle

    [XqliteConn] holds the connection behind a Mutex; [with_conn] runs a body on
    it.  Bodies are programs of the state and error monad [M]: they read and change
    the SQLite connection [Db] and return a [Result].  (Interleavings of threads on
    the lock are the subject of [Lifecycle]; here each NIF runs alone.) *)

From S2P Require Import Prelude RustStr Sqlite Terms Heap ConstraintParse Error Util HookList Hooks ProgressDispatch.

(** ** The monad of connection bodies *)

Definition M (Db A : Type) : Type := Db -> result A XqliteError * Db.

Definition ret {Db A} (a : A) : M Db A := fun db => (Ok a, db).
Definition fail {Db A} (e : XqliteError) : M Db A := fun db => (Err e, db).
Definition bind {Db A B} (m : M Db A) (k : A -> M Db B) : M Db B :=
  fun db => match m db with (Ok a, db) => k a db | (Err e, db) => (Err e, db) end.
(** A pure [Result] as a body. *)
Definition lift {Db A} (r : result A XqliteError) : M Db A := fun db => (r, db).
(** A read of the connection. *)
Definition reads {Db A} (f : Db -> A) : M Db A := fun db => (Ok (f db), db).
(** A C call: it returns a value and changes the connection. *)
Definition ffi_call {Db A} (f : Db -> A * Db) : M Db A := fun db => let '(a, db) := f db in (Ok a, db).
(** A rusqlite call: its error goes through [XqliteError::from] ([?]). *)
Definition rq {Db A} `{RusqliteText} (f : Db -> result A RusqliteError * Db) : M Db A :=
  fun db => let '(r, db) := f db in (map_err from_rusqlite r, db).

Notation "'let*' x ':=' m 'in' k" := (bind m (fun x => k))
  (at level 10, x pattern, m at level 100, k at level 200) : rust_scope.

(** ** The handle *)

(** [poison]: the text of the lock error once the Mutex is poisoned. *)
Record XqliteConn (Db : Type) := mkXConn {
  poison : option bytes;
  conn_opt : option Db;
  extensions_enabled : bool;
}.
Arguments mkXConn {Db}. Arguments poison {Db}. Arguments conn_opt {Db}. Arguments extensions_enabled {Db}.

Definition set_conn {Db} (h : XqliteConn Db) (c : option Db) : XqliteConn Db :=
  mkXConn (poison h) c (extensions_enabled h).

Definition with_conn {Db R} (h : XqliteConn Db) (func : M Db R) : result R XqliteError * XqliteConn Db :=
  match poison h with
  | Some e => (Err (LockError e), h)
  | None =>
      match conn_opt h with
      | Some conn => let '(r, conn) := func conn in (r, set_conn h (Some conn))
      | None => (Err ConnectionClosed, h)
      end
  end.

(** [&mut Connection]: the same protocol. *)
Definition with_conn_mut {Db R} (h : XqliteConn Db) (func : M Db R) : result R XqliteError * XqliteConn Db :=
  match poison h with
  | Some e => (Err (LockError e), h)
  | None =>
      match conn_opt h with
      | Some conn => let '(r, conn) := func conn in (r, set_conn h (Some conn))
      | None => (Err ConnectionClosed, h)
      end
  end.

Definition close_connection {Db} (h : XqliteConn Db) : result unit XqliteError * XqliteConn Db :=
  match poison h with
  | Some e => (Err (LockError e), h)
  | None => (Ok tt, set_conn h None)
  end.

(** ** Opening *)

(** The hook registrations of [handle_open_result]: the C ones cannot fail, the
    rusqlite ones can. *)
Class HookInstall (Db : Type) := {
  install_progress : Db -> Db;
  install_wal : Db -> Db;
  install_update : Db -> result unit RusqliteError * Db;
  install_commit : Db -> result unit RusqliteError * Db;
  install_rollback : Db -> result unit RusqliteError * Db;
}.

Section Open.
  Context {Db : Type} `{HookInstall Db} `{RusqliteText}.

(** The body run on the new handle; a failure drops the handle. *)
Definition install_callbacks : M Db unit :=
  let* _ := ffi_call (fun db => (tt, install_wal (install_progress db))) in
  let* _ := rq install_update in
  let* _ := rq install_commit in
  rq install_rollback.

Definition handle_open_result (open_result : result Db RusqliteError) (path : bytes)
    : result (XqliteConn Db) XqliteError :=
  match open_result with
  | Ok conn =>
      let '(r, conn) := install_callbacks conn in
      let? _ := r in
      Ok (mkXConn None (Some conn) false)
  | Err (R_SqliteFailure ffi_err msg_opt) =>
      Err (CannotOpenDatabase path (extended_code ffi_err)
             match msg_opt with Some m => m | None => ffi_display ffi_err end)
  | Err other => Err (CannotOpenDatabase path (-1) (rusqlite_display other))
  end.

End Open.

(** ** Query results *)

Record XqliteQueryResult := mkQueryResult {
  columns : list bytes;
  rows : list (list term);
  num_rows : Z;
}.

Section Encode.
  Context `{Beam}.

Definition encode_column_names (cols : list bytes) : result term XqliteError :=
  let? terms := collect_map encode_text cols in Ok (TList terms).

(** [format!("{e:?}")] of an [XqliteError] *)
Context (error_debug : XqliteError -> bytes).

Definition query_result_map (q : XqliteQueryResult) : result term bytes :=
  let? cols := map_err error_debug (encode_column_names (columns q)) in
  let? m := map_err (fun _ => str "Failed to insert :columns key") (map_put map_new "columns" cols) in
  let? m := map_err (fun _ => str "Failed to insert :rows key")
              (map_put m "rows" (TList (map TList (rows q)))) in
  map_err (fun _ => str "Failed to insert :num_rows key") (map_put m "num_rows" (TInt (num_rows q))).

Definition encode_query_result (q : XqliteQueryResult) : term :=
  match query_result_map q with
  | Ok final_map => final_map
  | Err context => encode (InternalEncodingError context)
  end.

End Encode.

(** ** Lemmas *)

Lemma with_conn_closed {Db R} (h : XqliteConn Db) (f : M Db R) :
  poison h = None -> conn_opt h = None -> with_conn h f = (Err ConnectionClosed, h).
Proof. intros Hp Hc. unfold with_conn. by rewrite Hp, Hc. Qed.

Lemma with_conn_open {Db R} (h : XqliteConn Db) (f : M Db R) db :
  poison h = None -> conn_opt h = Some db ->
  with_conn h f = ((f db).1, set_conn h (Some (f db).2)).
Proof. intros Hp Hc. unfold with_conn. rewrite Hp, Hc. by destruct (f db). Qed.

Lemma bind_ok {Db A B} (m : M Db A) (k : A -> M Db B) db a db' :
  m db = (Ok a, db') -> bind m k db = k a db'.
Proof. intros E. unfold bind. by rewrite E. Qed.

Lemma bind_err {Db A B} (m : M Db A) (k : A -> M Db B) db e db' :
  m db = (Err e, db') -> bind m k db = (Err e, db').
Proof. intros E. unfold bind. by rewrite E. Qed.
