(* ===== verification/Query.v ===== *)
(** * [query.rs], [pragma.rs], [transaction.rs] and their NIFs

    Bodies over a rusqlite connection, which is the class [RusqliteConn]: what the
    code calls of it. *)

From S2P Require Import Prelude RustStr Sqlite Terms Heap ConstraintParse Error Util HookList Hooks ProgressDispatch Connection.

Inductive params := PNone | PNamed (l : list (bytes * Value)) | PPositional (l : list Value).

Class RusqliteConn (Db : Type) := {
  (** [conn.prepare(sql)]: the column names of the statement *)
  conn_prepare : bytes -> Db -> result (list bytes) RusqliteError * Db;
  (** [stmt.query(params)] and stepping its rows to the end *)
  stmt_query : bytes -> params -> Db -> result (list (result row RusqliteError)) RusqliteError * Db;
  (** [stmt.execute(params)]: rows changed *)
  stmt_execute : bytes -> params -> Db -> result Z RusqliteError * Db;
  (** [conn.execute(sql, [])] *)
  conn_execute : bytes -> Db -> result Z RusqliteError * Db;
  conn_execute_batch : bytes -> Db -> result unit RusqliteError * Db;
  (** [conn.query_row(sql, [], |row| row.get(0))] *)
  conn_query_value : bytes -> Db -> result Value RusqliteError * Db;
  total_changes : Db -> Z;
  changes : Db -> Z;
}.

Section Query.
  Context `{Beam} `{RusqliteText} `{FloatText} {Db : Type} `{RusqliteConn Db}.

Definition NUL : Z := 0.

Definition reject_interior_nul (sql : bytes) : result unit XqliteError :=
  if bool_decide (NUL ∈ sql) then Err NulErrorInString else Ok tt.

(** The parameter dispatch both [core_query] and [core_execute] write out. *)
Definition decode_params (params_term : term) : result params XqliteError :=
  match get_type params_term with
  | TyList =>
      if is_empty_list params_term then Ok PNone
      else if is_keyword params_term then
        let? named := decode_exec_keyword_params params_term in Ok (PNamed named)
      else
        let? positional := decode_plain_list_params params_term in Ok (PPositional positional)
  | _ =>
      if is_nil params_term then Ok PNone else Err (ExpectedList (term_debug params_term))
  end.

Definition core_query (sql : bytes) (params_term : term) : M Db XqliteQueryResult :=
  let* _ := lift (reject_interior_nul sql) in
  let* column_names := rq (conn_prepare sql) in
  let column_count := length column_names in
  let* ps := lift (decode_params params_term) in
  let* rows := rq (stmt_query sql ps) in
  let* results_vec := lift (process_rows rows column_count []) in
  ret (mkQueryResult column_names results_vec (Z.of_nat (length results_vec))).

Definition core_query_with_changes (sql : bytes) (params_term : term) : M Db (XqliteQueryResult * Z) :=
  let* before := reads total_changes in
  let* qr := core_query sql params_term in
  let* now := reads total_changes in
  let* n := reads changes in
  ret (qr, if now =? before then 0 else n).

Definition core_execute (sql : bytes) (params_term : term) : M Db Z :=
  let* _ := lift (reject_interior_nul sql) in
  let* _ := rq (conn_prepare sql) in
  let* ps := lift (decode_params params_term) in
  rq (stmt_execute sql ps).

Definition core_execute_batch (sql_batch : bytes) : M Db unit :=
  let* _ := lift (reject_interior_nul sql_batch) in
  rq (conn_execute_batch sql_batch).

(** ** [pragma.rs] *)

Definition UNDERSCORE : Z := 95.

Definition validate_name (name : bytes) : result unit XqliteError :=
  if bool_decide (name = []) || negb (forallb (fun b => is_ascii_alphanumeric b || (b =? UNDERSCORE)) name)
  then Err (InvalidPragmaName name) else Ok tt.

Definition pragma_exec_error (pragma : bytes) (err : RusqliteError) : XqliteError :=
  if is_sqlite_auth err then from_rusqlite err
  else CannotExecutePragma pragma (rusqlite_display err).

Definition pragma_get (pragma_name : bytes) : M Db term :=
  let* _ := lift (validate_name pragma_name) in
  let read_sql := str "PRAGMA " ++ pragma_name ++ str ";" in
  fun db =>
    match conn_query_value read_sql db with
    | (Ok value, db) => (encode_val value, db)
    | (Err R_QueryReturnedNoRows, db) => (Ok (TAtom "no_value"), db)
    | (Err e, db) => (Err (pragma_exec_error read_sql e), db)
    end.

Definition pragma_set (pragma_name : bytes) (value_term : term) : M Db term :=
  let* _ := lift (validate_name pragma_name) in
  let* value_literal := lift (format_term_for_pragma value_term) in
  let write_sql := str "PRAGMA " ++ pragma_name ++ str " = " ++ value_literal ++ str ";" in
  let* _ := (fun db => let '(r, db) := conn_prepare write_sql db in
                       (map_err (pragma_exec_error write_sql) r, db)) in
  let* rows := rq (stmt_query write_sql PNone) in
  match rows with
  | [] => ret nil_term                           (* [rows.next()] is None *)
  | r :: _ =>
      let* row := lift (map_err from_rusqlite r) in
      let* value := lift (map_err from_rusqlite (row 0%nat)) in
      lift (encode_val value)
  end.

(** ** The PRAGMA NIFs, which look after the WAL hook slot *)

Context {L : Type}.
Context (reinstall_wal : Db -> Db).     (* [wal_hook::install_callback] *)

Definition WAL_AUTOCHECKPOINT : bytes := str "wal_autocheckpoint".

Definition get_pragma (h : XqliteConn Db) (d : WalDispatch L) (pragma_name : bytes)
    : result term XqliteError * XqliteConn Db :=
  with_conn h
    (if bool_decide (pragma_name = WAL_AUTOCHECKPOINT) then ret (TInt (autocheckpoint_pages d))
     else pragma_get pragma_name).

(** [i64::clamp(i32::MIN, i32::MAX) as i32] *)
Definition clamp_i32 (z : Z) : Z := Z.min i32_max (Z.max i32_min z).

(** The threshold is an atomic of the handle: the body also returns its new value. *)
Definition set_pragma (h : XqliteConn Db) (d : WalDispatch L) (pragma_name : bytes) (value_term : term)
    : result term XqliteError * XqliteConn Db * WalDispatch L :=
  let body : M Db (term * Z) :=
    let* result := pragma_set pragma_name value_term in
    if bool_decide (pragma_name = WAL_AUTOCHECKPOINT) then
      let threshold := match decode_i64 result with
                       | Some pages => clamp_i32 pages
                       | None => autocheckpoint_pages d
                       end in
      let* _ := ffi_call (fun db => (tt, reinstall_wal db)) in
      ret (result, threshold)
    else ret (result, autocheckpoint_pages d) in
  match with_conn h body with
  | (Ok (t, threshold), h) => (Ok t, h, mkWal (wal_list d) threshold)
  | (Err e, h) => (Err e, h, d)
  end.

(** ** [transaction.rs] *)

Inductive TransactionMode := Deferred | Immediate | Exclusive.

Definition mode_from_atom (atom : string) : result TransactionMode XqliteError :=
  if String.eqb atom "deferred" then Ok Deferred
  else if String.eqb atom "immediate" then Ok Immediate
  else if String.eqb atom "exclusive" then Ok Exclusive
  else Err InvalidTransactionMode.

Definition as_sql (m : TransactionMode) : bytes :=
  match m with
  | Deferred => str "BEGIN DEFERRED;"
  | Immediate => str "BEGIN IMMEDIATE;"
  | Exclusive => str "BEGIN EXCLUSIVE;"
  end.

Definition execute_unit (sql : bytes) : M Db unit := let* _ := rq (conn_execute sql) in ret tt.

Definition begin_tx (mode : TransactionMode) : M Db unit := execute_unit (as_sql mode).
Definition commit : M Db unit := execute_unit (str "COMMIT;").
Definition rollback : M Db unit := execute_unit (str "ROLLBACK;").
Definition savepoint (name : bytes) : M Db unit :=
  execute_unit (str "SAVEPOINT " ++ quote_identifier name ++ str ";").
Definition rollback_to_savepoint (name : bytes) : M Db unit :=
  execute_unit (str "ROLLBACK TO SAVEPOINT " ++ quote_identifier name ++ str ";").
Definition release_savepoint (name : bytes) : M Db unit :=
  execute_unit (str "RELEASE SAVEPOINT " ++ quote_identifier name ++ str ";").

End Query.

(** ** A small database for the witnesses

    It keeps whether the crate's WAL hook is installed and, as SQLite documents,
    loses it to any [wal_autocheckpoint] PRAGMA, whose name SQLite reads without
    regard to case; it answers every statement with the row [17]. *)

Definition is_autocheckpoint_sql (sql : bytes) : bool :=
  match strip_prefix (str "pragma wal_autocheckpoint =") (map to_ascii_lowercase sql) with
  | Some _ => true
  | None => false
  end.

Definition demo_conn : RusqliteConn bool := {|
  conn_prepare _ db := (Ok [str "c"], db);
  stmt_query sql _ db := (Ok [Ok (fun _ => Ok (VInteger 17))], if is_autocheckpoint_sql sql then false else db);
  stmt_execute _ _ db := (Ok 0, db);
  conn_execute _ db := (Ok 0, db);
  conn_execute_batch _ db := (Ok tt, db);
  conn_query_value _ db := (Ok (VInteger 0), db);
  total_changes _ := 0;
  changes _ := 3;
|}.

Definition demo_floats : FloatText := {| f64_display := fun _ => [] |}.

(** ** Lemmas *)

Section Facts.
  Context `{Beam} `{RusqliteText} `{FloatText} {Db : Type} `{RusqliteConn Db}.

Lemma reject_nul sql : NUL ∈ sql -> reject_interior_nul sql = Err NulErrorInString.
Proof. intros Hn. unfold reject_interior_nul. by rewrite bool_decide_eq_true_2. Qed.

Lemma validate_name_ok name : validate_name name = Ok tt ->
  name <> [] /\ Forall (fun b => is_ascii_alphanumeric b = true \/ b = UNDERSCORE) name.
Proof.
  unfold validate_name. destruct (_ || _) eqn:E; [done|]. intros _.
  apply orb_false_iff in E as [E1 E2]. apply bool_decide_eq_false in E1. split; [done|].
  apply negb_false_iff in E2. rewrite forallb_forall in E2. apply list.Forall_forall.
  intros b Hb%list_elem_of_In%E2. apply orb_true_iff in Hb as [|Hb%Z.eqb_eq]; auto.
Qed.

(** What [core_query] leaves in the connection when it succeeds. *)
Lemma core_query_db sql t db q db' : core_query sql t db = (Ok q, db') ->
  exists ps rows db1 cols, conn_prepare sql db = (Ok cols, db1) /\ stmt_query sql ps db1 = (Ok rows, db').
Proof.
  unfold core_query, bind, lift, rq, ret. destruct (reject_interior_nul sql); [|done].
  destruct (conn_prepare sql db) as [[cols|] db1]; simpl; [|done].
  destruct (decode_params t) as [ps|]; [|done].
  destruct (stmt_query sql ps db1) as [[rs|] db2] eqn:Eq; simpl; [|done].
  destruct (process_rows rs _ []); [|done]. intros [= _ <-]. by exists ps, rs, db1, cols.
Qed.

End Facts.

(** ** Theorems *)

(** SQL holding a NUL byte never reaches SQLite: query, execute and batch all
    refuse it and leave the connection as it was; and parameters that cannot be
    decoded are refused before the statement runs. *)
Theorem rejected_input_runs_nothing `{Beam} `{RusqliteText} {Db} `{RusqliteConn Db} sql t (db : Db) :
  (NUL ∈ sql ->
     core_query sql t db = (Err NulErrorInString, db) /\
     core_execute sql t db = (Err NulErrorInString, db) /\
     core_execute_batch sql db = (Err NulErrorInString, db)) /\
  (forall cols db1 e, NUL ∉ sql -> conn_prepare sql db = (Ok cols, db1) -> decode_params t = Err e ->
     core_query sql t db = (Err e, db1) /\ core_execute sql t db = (Err e, db1)).
Proof.
  split.
  - intros Hn. unfold core_query, core_execute, core_execute_batch, bind, lift. by rewrite reject_nul.
  - intros cols db1 e Hn Hp Hd. unfold core_query, core_execute, bind, lift, rq, reject_interior_nul.
    rewrite bool_decide_eq_false_2 by done. rewrite Hp. simpl. by rewrite Hd.
Qed.

(** [query_with_changes] reports exactly the rows its own statement changed:
    with SQLite's counters behaving as documented (a statement that changes [k]
    rows and fires [j] changes in triggers advances the total by [k + j] and sets
    [changes] to [k]; any other statement leaves both, so [changes] is sticky), the
    answer is [k], and 0 for a statement that changes nothing whatever the sticky
    counter says. *)
Theorem changes_are_this_statements `{Beam} `{RusqliteText} {Db} `{RusqliteConn Db} sql t (db : Db) q n db' k j :
  (forall s (d : Db), total_changes (conn_prepare s d).2 = total_changes d) ->
  (forall ps d, let d' := (stmt_query sql ps d).2 in
     total_changes d' = total_changes d + k + j /\ (0 < k + j -> changes d' = k)) ->
  0 <= k -> 0 <= j ->
  core_query_with_changes sql t db = (Ok (q, n), db') -> n = k.
Proof.
  intros Hp Hq Hk Hj. unfold core_query_with_changes, bind, reads, ret.
  destruct (core_query sql t db) as [[q'|] db1] eqn:E; [|done]. intros [= _ <- _].
  destruct (core_query_db _ _ _ _ _ E) as (ps & rs & d1 & cols & E1 & E2).
  specialize (Hp sql db). rewrite E1 in Hp. simpl in Hp.
  specialize (Hq ps d1). rewrite E2 in Hq. simpl in Hq. destruct Hq as [Ht Hc].
  destruct (Z.eqb_spec (total_changes db1) (total_changes db)); [lia|]. apply Hc. lia.
Qed.

Lemma changes_are_this_statements_witness :
  exists q n db', @core_query_with_changes demo_beam demo_text bool demo_conn (str "SELECT 17") nil_term true
    = (Ok (q, n), db') /\ n = 0.
Proof.
  eexists _, _, _. split; [vm_compute; reflexivity|].
  eapply (@changes_are_this_statements demo_beam demo_text bool demo_conn (str "SELECT 17") nil_term true _ _ _ 0 0).
  - reflexivity.
  - intros ps d. split; [reflexivity|lia].
  - lia.
  - lia.
  - vm_compute. reflexivity.
Defined.

(** Caller text cannot escape into SQL: a savepoint name is read back by SQL as
    exactly that name, up to the statement's final semicolon, and an accepted
    PRAGMA name holds nothing but letters, digits and underscores, its text value
    being read back as exactly that text. *)
Theorem statement_text_is_contained `{Beam} `{RusqliteText} `{FloatText} {Db} `{RusqliteConn Db} name value (db : Db) :
  (exists q, savepoint name = execute_unit (Db := Db) (str "SAVEPOINT " ++ q ++ str ";") /\
     rollback_to_savepoint name = execute_unit (Db := Db) (str "ROLLBACK TO SAVEPOINT " ++ q ++ str ";") /\
     release_savepoint name = execute_unit (Db := Db) (str "RELEASE SAVEPOINT " ++ q ++ str ";") /\
     sql_quoted_token DQUOTE (q ++ str ";") = Some (name, str ";")) /\
  (forall r db', pragma_set name (TBin value) db = (Ok r, db') ->
     Forall (fun b => is_ascii_alphanumeric b = true \/ b = UNDERSCORE) name /\
     exists lit rows, sql_quoted_token QUOTE (lit ++ str ";") = Some (value, str ";") /\
       stmt_query (str "PRAGMA " ++ name ++ str " = " ++ lit ++ str ";") PNone
         (conn_prepare (str "PRAGMA " ++ name ++ str " = " ++ lit ++ str ";") db).2 = (Ok rows, db')).
Proof.
  split.
  - exists (quote_identifier name). split_and!; try done.
    unfold sql_quoted_token, quote_identifier. rewrite <- !app_assoc. cbn [app].
    rewrite Z.eqb_refl. by apply read_quoted_replace.
  - intros r db'. unfold pragma_set, bind, lift, rq, ret. destruct (validate_name name) as [[]|] eqn:Ev; [|done].
    unfold format_term_for_pragma. cbn [get_type decode_string]. destruct (utf8_valid value) eqn:Eu; [|done].
    set (lit := [QUOTE] ++ replace_char QUOTE [QUOTE; QUOTE] value ++ [QUOTE]).
    destruct (conn_prepare _ db) as [[cols|] db1] eqn:Ep; cbn [map_err]; [|done].
    destruct (stmt_query _ PNone db1) as [[rows|] db2] eqn:Eq; cbn [map_err]; [|done]. intros Hr.
    split; [by apply validate_name_ok in Ev as [_ ?]|]. exists lit, rows. split.
    + unfold lit, sql_quoted_token. rewrite <- !app_assoc. cbn [app]. rewrite Z.eqb_refl. by apply read_quoted_replace.
    + rewrite Ep. cbn [snd]. rewrite Eq. f_equal. destruct rows as [|[row|] rows]; cbn [map_err] in Hr.
      * congruence.
      * destruct (row 0%nat); cbn [map_err] in Hr; [|done]. congruence.
      * done.
Qed.

(** After a successful [set_pragma] of the WAL autocheckpoint threshold, the
    crate's own WAL callback is installed again, its threshold is what SQLite
    reported (brought into 32 bits), and [get_pragma] reports that threshold. *)
Theorem autocheckpoint_set_get `{Beam} `{RusqliteText} `{FloatText} {Db} `{RusqliteConn Db} {L}
    (wal_ours : Db -> bool) (reinstall_wal : Db -> Db) (h : XqliteConn Db) (d : WalDispatch L) v n h' d' :
  (forall db, wal_ours (reinstall_wal db) = true) ->
  set_pragma reinstall_wal h d WAL_AUTOCHECKPOINT v = (Ok (TInt n), h', d') ->
  (exists db, conn_opt h' = Some db /\ wal_ours db = true) /\
  autocheckpoint_pages d' = (if in_i 64 n then clamp_i32 n else autocheckpoint_pages d) /\
  wal_list d' = wal_list d /\
  get_pragma h' d' WAL_AUTOCHECKPOINT = (Ok (TInt (autocheckpoint_pages d')), h').
Proof.
  intros Hw. unfold set_pragma, with_conn. destruct (poison h) as [|] eqn:Ep; [done|].
  destruct (conn_opt h) as [db|] eqn:Ec; [|done]. unfold bind.
  destruct (pragma_set WAL_AUTOCHECKPOINT v db) as [[r|] db1]; [|done].
  rewrite bool_decide_eq_true_2 by done. unfold ffi_call, ret. intros [= -> <- <-]. split_and!.
  - simpl. eauto.
  - cbn [autocheckpoint_pages decode_i64]. by destruct (in_i 64 n).
  - done.
  - unfold get_pragma, with_conn. cbn [set_conn poison conn_opt]. rewrite Ep.
    rewrite bool_decide_eq_true_2 by done. unfold ret. by destruct h.
Qed.

Lemma autocheckpoint_set_get_witness :
  @get_pragma demo_beam demo_text bool demo_conn unit (mkXConn None (Some true) false) (mkWal tt 17)
    WAL_AUTOCHECKPOINT
  = (Ok (TInt 17), mkXConn None (Some true) false).
Proof.
  destruct (@autocheckpoint_set_get demo_beam demo_text demo_floats bool demo_conn unit
    (fun db => db) (fun _ => true) (mkXConn None (Some true) false) (mkWal tt 1000) (TInt 17) 17
    (mkXConn None (Some true) false) (mkWal tt 17)) as (_ & _ & _ & Hg).
  - reflexivity.
  - vm_compute. reflexivity.
  - exact Hg.
Defined.

(** The name is compared with case: written in capitals, the same PRAGMA leaves
    SQLite's own hook in the slot, and the crate's WAL callback is gone. *)
Theorem capital_autocheckpoint_loses_wal_hook :
  let '(r, h, d) := @set_pragma demo_beam demo_text demo_floats bool demo_conn unit
    (fun _ => true) (mkXConn None (Some true) false) (mkWal tt 1000) (str "WAL_AUTOCHECKPOINT") (TInt 17) in
  r = Ok (TInt 17) /\ conn_opt h = Some false /\ autocheckpoint_pages d = 1000.
Proof. vm_compute. auto. Qed.
