(* ===== verification/Schema.v ===== *)
(** * [schema.rs]: schema introspection

    Each function runs one PRAGMA, reads its rows into a [Temp*] structure with
    rusqlite's typed [row.get], and turns each one into the structure handed to
    Elixir, or fails with the first value it does not know.  Atoms are their names. *)

From S2P Require Import Prelude RustStr Sqlite Terms Heap ConstraintParse Error Util RustFloat SchemaDefault HookList Hooks ProgressDispatch Connection Query.

(** ** The structures handed to Elixir *)

Record DatabaseInfo := mkDatabaseInfo { di_name : bytes; di_file : option bytes }.

Record SchemaObjectInfo := mkSchemaObjectInfo {
  so_schema : bytes; so_name : bytes; object_type : string; column_count : Z;
  is_without_rowid : bool; so_strict : bool }.

Record ColumnInfo := mkColumnInfo {
  column_id : Z; ci_name : bytes; type_affinity : string; declared_type : bytes;
  nullable : bool; default_value : DefaultValue; primary_key_index : Z; hidden_kind : string }.

Record ForeignKeyInfo := mkForeignKeyInfo {
  fk_id : Z; column_sequence : Z; target_table : bytes; from_column : bytes; to_column : bytes;
  on_update : string; on_delete : string; match_clause : string }.

Record IndexInfo := mkIndexInfo { ii_name : bytes; ii_unique : bool; ii_origin : string; ii_partial : bool }.

Record IndexColumnInfo := mkIndexColumnInfo {
  index_column_sequence : Z; table_column_id : Z; ic_name : option bytes; sort_order : string;
  collation : bytes; is_key_column : bool }.

(** ** Values of PRAGMA columns *)

Fixpoint lookup_text (s : bytes) (l : list (string * string)) : result string bytes :=
  match l with
  | [] => Err s
  | (k, a) :: l => if bytes_eqb s (str k) then Ok a else lookup_text s l
  end.

Definition object_type_to_atom (s : bytes) : result string bytes :=
  lookup_text s [("table", "table"); ("view", "view"); ("shadow", "shadow"); ("virtual", "virtual");
                 ("sequence", "sequence")]%string.

Definition type_affinity_to_atom (upper_table : case_table) (declared_type_str : bytes) : string :=
  let upper := to_uppercase upper_table declared_type_str in
  if contains (str "INT") upper then "integer"
  else if contains (str "CHAR") upper || contains (str "CLOB") upper || contains (str "TEXT") upper then "text"
  else if contains (str "BLOB") upper || bool_decide (upper = []) || bytes_eqb upper (str "ANY") then "binary"
  else if contains (str "REAL") upper || contains (str "FLOA") upper || contains (str "DOUB") upper then "float"
  else "numeric".

Definition hidden_int_to_atom (hidden_val : Z) : result string bytes :=
  match hidden_val with
  | 0 => Ok "normal"%string
  | 1 => Ok "hidden_alias"%string
  | 2 => Ok "virtual_generated"%string
  | 3 => Ok "stored_generated"%string
  | _ => Err (show_Z hidden_val)
  end.

Definition fk_action_to_atom (s : bytes) : result string bytes :=
  lookup_text s [("NO ACTION", "no_action"); ("RESTRICT", "restrict"); ("SET NULL", "set_null");
                 ("SET DEFAULT", "set_default"); ("CASCADE", "cascade")]%string.

Definition fk_match_to_atom (s : bytes) : result string bytes :=
  lookup_text s [("NONE", "none"); ("SIMPLE", "simple"); ("PARTIAL", "partial"); ("FULL", "full")]%string.

Definition index_origin_to_atom (s : bytes) : result string bytes :=
  lookup_text s [("c", "create_index"); ("u", "unique_constraint"); ("pk", "primary_key_constraint")]%string.

Definition sort_order_to_atom (val : Z) : result string bytes :=
  match val with
  | 0 => Ok "asc"%string
  | 1 => Ok "desc"%string
  | _ => Err (show_Z val)
  end.

Definition notnull_to_nullable (notnull_flag : Z) : result bool bytes :=
  match notnull_flag with
  | 0 => Ok true
  | 1 => Ok false
  | _ => Err (show_Z notnull_flag)
  end.

(** [u8::try_from] *)
Definition pk_value_to_index (pk_flag : Z) : result Z bytes :=
  if in_u 8 pk_flag then Ok pk_flag else Err (show_Z pk_flag).

Definition int_flag_to_bool (val : Z) (context name : bytes) : result bool XqliteError :=
  match val with
  | 0 => Ok false
  | 1 => Ok true
  | _ => Err (SchemaParsingError (str "Parsing '" ++ context ++ str "' flag for " ++ name) (show_Z val))
  end.

(** ** Rows as rusqlite reads them: [row.get::<_, T>(i)] *)

Definition data_type (v : Value) : Type_ :=
  match v with
  | VNull => TNull | VInteger _ => TInteger | VReal _ => TReal | VText _ => TText | VBlob _ => TBlob
  end.

(** [names] are the statement's column names, which the error carries. *)
Definition wrong_type (names : list bytes) (i : nat) (v : Value) : RusqliteError :=
  R_InvalidColumnType (Z.of_nat i) (default [] (names !! i)) (data_type v).

Definition get_i64 (names : list bytes) (r : row) (i : nat) : result Z RusqliteError :=
  let? v := r i in
  match v with VInteger z => Ok z | _ => Err (wrong_type names i v) end.

Definition get_string (names : list bytes) (r : row) (i : nat) : result bytes RusqliteError :=
  let? v := r i in
  match v with VText s => Ok s | _ => Err (wrong_type names i v) end.

Definition get_opt_string (names : list bytes) (r : row) (i : nat) : result (option bytes) RusqliteError :=
  let? v := r i in
  match v with VNull => Ok None | VText s => Ok (Some s) | _ => Err (wrong_type names i v) end.

(** ** Intermediate rows *)

Record TempObjectInfo := mkTempObject {
  to_schema : bytes; to_name : bytes; obj_type_atom : result string bytes; to_column_count : Z;
  wr_flag : Z; strict_flag : Z }.
Record TempColumnData := mkTempColumn {
  tc_cid : Z; tc_name : bytes; type_str : bytes; notnull_flag : Z; dflt_value : option bytes;
  pk_flag : Z; hidden : Z }.
Record TempForeignKeyData := mkTempForeignKey {
  tf_id : Z; tf_seq : Z; tf_table : bytes; tf_from : bytes; tf_to : bytes; on_update_str : bytes;
  on_delete_str : bytes; match_str : bytes }.
Record TempIndexData := mkTempIndex { ti_name : bytes; unique : Z; origin_str : bytes; partial : Z }.
Record TempIndexColumnData := mkTempIndexColumn {
  seqno : Z; tic_cid : Z; tic_name : option bytes; desc : Z; coll : bytes; key : Z }.

Definition temp_object (n : list bytes) (r : row) : result TempObjectInfo RusqliteError :=
  let? schema := get_string n r 0 in
  let? name := get_string n r 1 in
  let? ty := get_string n r 2 in
  let? column_count := get_i64 n r 3 in
  let? wr_flag := get_i64 n r 4 in
  let? strict_flag := get_i64 n r 5 in
  Ok (mkTempObject schema name (object_type_to_atom ty) column_count wr_flag strict_flag).

Definition temp_column (n : list bytes) (r : row) : result TempColumnData RusqliteError :=
  let? cid := get_i64 n r 0 in
  let? name := get_string n r 1 in
  let? type_str := get_string n r 2 in
  let? notnull_flag := get_i64 n r 3 in
  let? dflt_value := get_opt_string n r 4 in
  let? pk_flag := get_i64 n r 5 in
  let? hidden := get_i64 n r 6 in
  Ok (mkTempColumn cid name type_str notnull_flag dflt_value pk_flag hidden).

Definition temp_foreign_key (n : list bytes) (r : row) : result TempForeignKeyData RusqliteError :=
  let? id := get_i64 n r 0 in
  let? seq := get_i64 n r 1 in
  let? table := get_string n r 2 in
  let? from := get_string n r 3 in
  let? to := get_string n r 4 in
  let? on_update_str := get_string n r 5 in
  let? on_delete_str := get_string n r 6 in
  let? match_str := get_string n r 7 in
  Ok (mkTempForeignKey id seq table from to on_update_str on_delete_str match_str).

Definition temp_index (n : list bytes) (r : row) : result TempIndexData RusqliteError :=
  let? name := get_string n r 1 in
  let? unique := get_i64 n r 2 in
  let? origin_str := get_string n r 3 in
  let? partial := get_i64 n r 4 in
  Ok (mkTempIndex name unique origin_str partial).

Definition temp_index_column (n : list bytes) (r : row) : result TempIndexColumnData RusqliteError :=
  let? seqno := get_i64 n r 0 in
  let? cid := get_i64 n r 1 in
  let? name := get_opt_string n r 2 in
  let? desc := get_i64 n r 3 in
  let? coll := get_string n r 4 in
  let? key := get_i64 n r 5 in
  Ok (mkTempIndexColumn seqno cid name desc coll key).

Definition quoted (s : bytes) : bytes := str "'" ++ s ++ str "'".
Definition parsing_error (context : bytes) : bytes -> XqliteError := SchemaParsingError context.

(** The bodies of the [for temp_result in temp_results] loops. *)
Definition final_object (schema : option bytes) (t : TempObjectInfo) : result (option SchemaObjectInfo) XqliteError :=
  if match schema with Some filter_schema => negb (bytes_eqb (to_schema t) filter_schema) | None => false end
  then Ok None                                                                       (* [continue] *)
  else
    let full := quoted (to_schema t) ++ str "." ++ quoted (to_name t) in
    let? atom := map_err (parsing_error (str "Parsing object type for " ++ full)) (obj_type_atom t) in
    let obj_desc := str "object " ++ full in
    let? is_without_rowid := int_flag_to_bool (wr_flag t) (str "wr") obj_desc in
    let? is_strict := int_flag_to_bool (strict_flag t) (str "strict") obj_desc in
    Ok (Some (mkSchemaObjectInfo (to_schema t) (to_name t) atom (to_column_count t) is_without_rowid is_strict)).

Definition final_column (upper_table : case_table) (table_name : bytes) (t : TempColumnData)
    : result (option ColumnInfo) XqliteError :=
  let where_ := str " for column " ++ quoted (tc_name t) ++ str " in table " ++ quoted table_name in
  let? nullable := map_err (parsing_error (str "Parsing 'notnull' flag" ++ where_)) (notnull_to_nullable (notnull_flag t)) in
  let? primary_key_index := map_err (parsing_error (str "Parsing 'pk' flag" ++ where_)) (pk_value_to_index (pk_flag t)) in
  let? hidden_kind_atom := map_err (parsing_error (str "Parsing 'hidden' kind" ++ where_)) (hidden_int_to_atom (hidden t)) in
  Ok (Some (mkColumnInfo (tc_cid t) (tc_name t) (type_affinity_to_atom upper_table (type_str t)) (type_str t)
              nullable (classify_default (dflt_value t)) primary_key_index hidden_kind_atom)).

Definition final_foreign_key (table_name : bytes) (t : TempForeignKeyData) : result (option ForeignKeyInfo) XqliteError :=
  let where_ := str " for FK id " ++ show_Z (tf_id t) ++ str " on table " ++ quoted table_name in
  let? on_update_atom := map_err (parsing_error (str "Parsing 'on_update' action" ++ where_)) (fk_action_to_atom (on_update_str t)) in
  let? on_delete_atom := map_err (parsing_error (str "Parsing 'on_delete' action" ++ where_)) (fk_action_to_atom (on_delete_str t)) in
  let? match_clause_atom := map_err (parsing_error (str "Parsing 'match' clause" ++ where_)) (fk_match_to_atom (match_str t)) in
  Ok (Some (mkForeignKeyInfo (tf_id t) (tf_seq t) (tf_table t) (tf_from t) (tf_to t)
              on_update_atom on_delete_atom match_clause_atom)).

Definition final_index (table_name : bytes) (t : TempIndexData) : result (option IndexInfo) XqliteError :=
  let idx_desc := str "index " ++ quoted (ti_name t) ++ str " on table " ++ quoted table_name in
  let? origin_atom := map_err (parsing_error (str "Parsing 'origin' for " ++ idx_desc)) (index_origin_to_atom (origin_str t)) in
  let? unique_bool := int_flag_to_bool (unique t) (str "unique") idx_desc in
  let? partial_bool := int_flag_to_bool (partial t) (str "partial") idx_desc in
  Ok (Some (mkIndexInfo (ti_name t) unique_bool origin_atom partial_bool)).

Definition final_index_column (index_name : bytes) (t : TempIndexColumnData) : result (option IndexColumnInfo) XqliteError :=
  let col_desc := str "column seq " ++ show_Z (seqno t) ++ str " in index " ++ quoted index_name in
  let? sort_order_atom := map_err (parsing_error (str "Parsing sort order ('desc') for " ++ col_desc)) (sort_order_to_atom (desc t)) in
  let? is_key_bool := int_flag_to_bool (key t) (str "key") col_desc in
  Ok (Some (mkIndexColumnInfo (seqno t) (tic_cid t) (tic_name t) sort_order_atom (coll t) is_key_bool)).

Section Schema.
  Context `{RusqliteText} (upper_table : case_table) {Db : Type} `{RusqliteConn Db}.

(** [stmt.query_map([], f)?.collect::<Vec<Result<_, _>>>()] on [conn.prepare(sql)?] *)
Definition query_map {T} (sql : bytes) (f : list bytes -> row -> result T RusqliteError)
    : M Db (list (result T RusqliteError)) :=
  let* names := rq (conn_prepare sql) in
  let* rows := rq (stmt_query sql PNone) in
  ret (map (fun r => let? r := r in f names r) rows).

(** [for temp_result in temp_results { match temp_result { Ok(t) => .., Err(e) => return Err(e.into()) } }] *)
Fixpoint final_loop {T U} (body : T -> result (option U) XqliteError) (temp_results : list (result T RusqliteError))
    (final : list U) : result (list U) XqliteError :=
  match temp_results with
  | [] => Ok final
  | Ok t :: rest =>
      let? o := body t in
      final_loop body rest (match o with Some u => final ++ [u] | None => final end)
  | Err e :: _ => Err (from_rusqlite e)
  end.

Definition databases : M Db (list DatabaseInfo) :=
  let* infos := query_map (str "PRAGMA database_list;")
                  (fun n r => let? name := get_string n r 1 in
                              let? file := get_opt_string n r 2 in Ok (mkDatabaseInfo name file)) in
  lift (map_err from_rusqlite (collect_map (fun i => i) infos)).

Definition list_objects (schema : option bytes) : M Db (list SchemaObjectInfo) :=
  let* temp_results := query_map (str "PRAGMA table_list;") temp_object in
  lift (final_loop (final_object schema) temp_results []).

Definition columns (table_name : bytes) : M Db (list ColumnInfo) :=
  let* temp_results := query_map (str "PRAGMA table_xinfo(" ++ quote_identifier table_name ++ str ");") temp_column in
  lift (final_loop (final_column upper_table table_name) temp_results []).

Definition foreign_keys (table_name : bytes) : M Db (list ForeignKeyInfo) :=
  let* temp_results :=
    query_map (str "PRAGMA foreign_key_list(" ++ quote_identifier table_name ++ str ");") temp_foreign_key in
  lift (final_loop (final_foreign_key table_name) temp_results []).

Definition indexes (table_name : bytes) : M Db (list IndexInfo) :=
  let* temp_results := query_map (str "PRAGMA index_list(" ++ quote_identifier table_name ++ str ");") temp_index in
  lift (final_loop (final_index table_name) temp_results []).

Definition index_columns (index_name : bytes) : M Db (list IndexColumnInfo) :=
  let* temp_results :=
    query_map (str "PRAGMA index_xinfo(" ++ quote_identifier index_name ++ str ");") temp_index_column in
  lift (final_loop (final_index_column index_name) temp_results []).

(** [stmt.query_row([object_name], ..)] *)
Definition create_sql (object_name : bytes) : M Db (option bytes) :=
  let sql := str "SELECT sql FROM sqlite_schema WHERE name = ?1 LIMIT 1;" in
  let* names := rq (conn_prepare sql) in
  fun db =>
    let '(rows, db) := stmt_query sql (PPositional [VText object_name]) db in
    let result := let? rows := rows in
                  match rows with
                  | [] => Err R_QueryReturnedNoRows
                  | r :: _ => let? r := r in get_opt_string names r 0
                  end in
    (match result with
     | Ok sql_string_option => Ok sql_string_option
     | Err R_QueryReturnedNoRows => Ok None
     | Err e => Err (from_rusqlite e)
     end, db).

End Schema.

(** ** What SQLite documents of these PRAGMAs

    The kinds of each column, the text or number SQLite writes for each and the
    atom the Elixir side is promised for it, as one row per kind. *)

Inductive object_kind := KTable | KView | KShadow | KVirtual.
Definition object_kind_row (k : object_kind) : bytes * string :=
  match k with
  | KTable => (str "table", "table") | KView => (str "view", "view")
  | KShadow => (str "shadow", "shadow") | KVirtual => (str "virtual", "virtual")
  end%string.

Inductive column_kind := KNormal | KHidden | KVirtualGenerated | KStoredGenerated.
Definition column_kind_row (k : column_kind) : Z * string :=
  match k with
  | KNormal => (0, "normal") | KHidden => (1, "hidden_alias")
  | KVirtualGenerated => (2, "virtual_generated") | KStoredGenerated => (3, "stored_generated")
  end%string.

Inductive fk_action := NoAction | Restrict | SetNull | SetDefault | Cascade.
Definition fk_action_row (a : fk_action) : bytes * string :=
  match a with
  | NoAction => (str "NO ACTION", "no_action") | Restrict => (str "RESTRICT", "restrict")
  | SetNull => (str "SET NULL", "set_null") | SetDefault => (str "SET DEFAULT", "set_default")
  | Cascade => (str "CASCADE", "cascade")
  end%string.

Inductive index_origin := CreateIndex | UniqueConstraint | PrimaryKey.
Definition index_origin_row (o : index_origin) : bytes * string :=
  match o with
  | CreateIndex => (str "c", "create_index") | UniqueConstraint => (str "u", "unique_constraint")
  | PrimaryKey => (str "pk", "primary_key_constraint")
  end%string.

(** A row of values. *)
Definition cells (l : list Value) : row :=
  fun i => match l !! i with Some v => Ok v | None => Err (R_InvalidColumnIndex (Z.of_nat i)) end.
Definition flag (b : bool) : Value := VInteger (Z.b2z b).
Definition text_or_null (o : option bytes) : Value := match o with Some s => VText s | None => VNull end.

Record object := mkObject {
  ob_schema : bytes; ob_name : bytes; ob_kind : object_kind; ob_ncol : Z; ob_wr : bool; ob_strict : bool }.
Definition object_row (o : object) : row :=
  cells [VText (ob_schema o); VText (ob_name o); VText (object_kind_row (ob_kind o)).1;
         VInteger (ob_ncol o); flag (ob_wr o); flag (ob_strict o)].
Definition object_info (o : object) : SchemaObjectInfo :=
  mkSchemaObjectInfo (ob_schema o) (ob_name o) (object_kind_row (ob_kind o)).2 (ob_ncol o) (ob_wr o) (ob_strict o).

Record table_column := mkTableColumn {
  co_cid : Z; co_name : bytes; co_type : bytes; co_notnull : bool; co_dflt : option bytes; co_pk : Z;
  co_kind : column_kind }.
Definition column_row (c : table_column) : row :=
  cells [VInteger (co_cid c); VText (co_name c); VText (co_type c); flag (co_notnull c);
         text_or_null (co_dflt c); VInteger (co_pk c); VInteger (column_kind_row (co_kind c)).1].
Definition column_info (upper_table : case_table) (c : table_column) : ColumnInfo :=
  mkColumnInfo (co_cid c) (co_name c) (type_affinity_to_atom upper_table (co_type c)) (co_type c)
    (negb (co_notnull c)) (classify_default (co_dflt c)) (co_pk c) (column_kind_row (co_kind c)).2.

(** [fk_to] is NULL for a foreign key that names no column of its target. *)
Record foreign_key := mkForeignKey {
  fk_num : Z; fk_seq : Z; fk_table : bytes; fk_from : bytes; fk_to : option bytes;
  fk_update : fk_action; fk_delete : fk_action }.
Definition foreign_key_row (f : foreign_key) : row :=
  cells [VInteger (fk_num f); VInteger (fk_seq f); VText (fk_table f); VText (fk_from f); text_or_null (fk_to f);
         VText (fk_action_row (fk_update f)).1; VText (fk_action_row (fk_delete f)).1; VText (str "NONE")].
Definition foreign_key_info (f : foreign_key) (to : bytes) : ForeignKeyInfo :=
  mkForeignKeyInfo (fk_num f) (fk_seq f) (fk_table f) (fk_from f) to
    (fk_action_row (fk_update f)).2 (fk_action_row (fk_delete f)).2 "none".

Record index := mkIndex { ix_seq : Z; ix_name : bytes; ix_unique : bool; ix_origin : index_origin; ix_partial : bool }.
Definition index_row (i : index) : row :=
  cells [VInteger (ix_seq i); VText (ix_name i); flag (ix_unique i); VText (index_origin_row (ix_origin i)).1;
         flag (ix_partial i)].
Definition index_info (i : index) : IndexInfo :=
  mkIndexInfo (ix_name i) (ix_unique i) (index_origin_row (ix_origin i)).2 (ix_partial i).

(** [ixc_name] is NULL for the rowid and for an expression. *)
Record index_column := mkIndexColumn {
  ixc_seq : Z; ixc_cid : Z; ixc_name : option bytes; ixc_desc : bool; ixc_coll : bytes; ixc_key : bool }.
Definition index_column_row (c : index_column) : row :=
  cells [VInteger (ixc_seq c); VInteger (ixc_cid c); text_or_null (ixc_name c); flag (ixc_desc c);
         VText (ixc_coll c); flag (ixc_key c)].
Definition index_column_info (c : index_column) : IndexColumnInfo :=
  mkIndexColumnInfo (ixc_seq c) (ixc_cid c) (ixc_name c) (if ixc_desc c then "desc" else "asc")%string
    (ixc_coll c) (ixc_key c).

(** The objects a schema filter keeps. *)
Definition in_schema (schema : option bytes) (o : object) : Prop := from_option (eq (ob_schema o)) True schema.
#[export] Instance in_schema_dec schema o : Decision (in_schema schema o).
Proof. unfold in_schema. destruct schema; simpl; apply _. Defined.

(** The connection prepares [sql] and its rows are [rows]. *)
Definition answers {Db} `{RusqliteConn Db} (db db' : Db) (sql : bytes) (names : list bytes) (rows : list row) : Prop :=
  exists db1, conn_prepare sql db = (Ok names, db1) /\ stmt_query sql PNone db1 = (Ok (map Ok rows), db').

(** A connection whose every statement produces [rows]: for the witnesses. *)
Definition script_conn (names : list bytes) (rows : list row) : RusqliteConn unit := {|
  conn_prepare _ db := (Ok names, db);
  stmt_query _ _ db := (Ok (map Ok rows), db);
  stmt_execute _ _ db := (Ok 0, db);
  conn_execute _ db := (Ok 0, db);
  conn_execute_batch _ db := (Ok tt, db);
  conn_query_value _ db := (Ok VNull, db);
  total_changes _ := 0;
  changes _ := 0;
|}.

(** ** Lemmas *)

Section SchemaFacts.
  Context `{RusqliteText} (upper_table : case_table) {Db : Type} `{RusqliteConn Db}.

Lemma query_map_answers {T} (db db' : Db) sql names rows (f : list bytes -> row -> result T RusqliteError) :
  answers db db' sql names rows -> query_map sql f db = (Ok (map (f names) rows), db').
Proof.
  intros (db1 & E1 & E2). unfold query_map, bind, rq, ret. rewrite E1. cbn [map_err]. rewrite E2. cbn [map_err].
  by rewrite map_map.
Qed.

(** The loops, on rows that are read and converted one by one. *)
Lemma final_loop_all {T U A} (body : T -> result (option U) XqliteError) (rd : A -> result T RusqliteError)
    (g : A -> option U) l acc :
  (forall a, a ∈ l -> exists t, rd a = Ok t /\ body t = Ok (g a)) ->
  final_loop body (map rd l) acc = Ok (acc ++ omap g l).
Proof.
  revert acc. induction l as [|a l IH]; intros acc Hl; simpl; [by rewrite app_nil_r|].
  destruct (Hl a) as (t & -> & ->); [left|]. rewrite IH by (intros; apply Hl; by right).
  f_equal. destruct (g a); [|done]. by rewrite <- app_assoc.
Qed.

(** The first row that cannot be read ends the loop. *)
Lemma final_loop_err {T U A} (body : T -> result (option U) XqliteError) (rd : A -> result T RusqliteError)
    (g : A -> option U) l a l' e acc :
  (forall a, a ∈ l -> exists t, rd a = Ok t /\ body t = Ok (g a)) -> rd a = Err e ->
  final_loop body (map rd (l ++ a :: l')) acc = Err (from_rusqlite e).
Proof.
  intros Hl Ha. revert acc. induction l as [|b l IH]; intros acc; simpl; [by rewrite Ha|].
  destruct (Hl b) as (t & -> & ->); [left|]. apply IH. intros; apply Hl; by right.
Qed.

Lemma int_flag_b2z b c n : int_flag_to_bool (Z.b2z b) c n = Ok b.
Proof. by destruct b. Qed.

Lemma object_row_reads schema n o :
  exists t, temp_object n (object_row o) = Ok t /\
    final_object schema t = Ok (if match schema with Some s => bytes_eqb (ob_schema o) s | None => true end
                                then Some (object_info o) else None).
Proof.
  destruct o as [sc nm k nc wr st].
  exists (mkTempObject sc nm (Ok (object_kind_row k).2) nc (Z.b2z wr) (Z.b2z st)). split; [by destruct k|].
  unfold final_object. cbn [to_schema wr_flag strict_flag obj_type_atom to_name]. rewrite !int_flag_b2z.
  destruct schema as [s|]; cbn [ob_schema]; [destruct (bytes_eqb sc s)|]; cbn [negb]; by destruct k.
Qed.

Lemma column_row_reads table n c : in_u 8 (co_pk c) = true ->
  exists t, temp_column n (column_row c) = Ok t /\
    final_column upper_table table t = Ok (Some (column_info upper_table c)).
Proof.
  destruct c as [cid nm ty nn df pk k]. cbn [co_pk]. intros Hpk.
  exists (mkTempColumn cid nm ty (Z.b2z nn) df pk (column_kind_row k).1). split; [by destruct df|].
  unfold final_column, pk_value_to_index. cbn [pk_flag notnull_flag hidden]. rewrite Hpk. by destruct nn, k.
Qed.

Lemma foreign_key_row_reads table n f to : fk_to f = Some to ->
  exists t, temp_foreign_key n (foreign_key_row f) = Ok t /\
    final_foreign_key table t = Ok (Some (foreign_key_info f to)).
Proof.
  destruct f as [id sq tb fr to' up de]. cbn [fk_to]. intros ->. eexists. split; [reflexivity|].
  by destruct up, de.
Qed.

Lemma index_row_reads table n i :
  exists t, temp_index n (index_row i) = Ok t /\ final_index table t = Ok (Some (index_info i)).
Proof.
  destruct i as [sq nm u o p]. eexists. split; [reflexivity|].
  unfold final_index. cbn [unique partial]. rewrite !int_flag_b2z. by destruct o.
Qed.

Lemma index_column_row_reads ix n c :
  exists t, temp_index_column n (index_column_row c) = Ok t /\
    final_index_column ix t = Ok (Some (index_column_info c)).
Proof.
  destruct c as [sq cid nm d co k]. exists (mkTempIndexColumn sq cid nm (Z.b2z d) co (Z.b2z k)).
  split; [by destruct nm|].
  unfold final_index_column. cbn [key desc]. rewrite int_flag_b2z. by destruct d.
Qed.

(** The first element that fails a decidable test. *)
Lemma first_failure {A} (P : A -> Prop) `{forall a, Decision (P a)} l : ~ Forall P l ->
  exists l1 a l2, l = l1 ++ a :: l2 /\ Forall P l1 /\ ~ P a.
Proof.
  induction l as [|a l IH]; intros Hn; [by destruct Hn|]. destruct (decide (P a)) as [Ha|Ha].
  - destruct IH as (l1 & b & l2 & -> & Hpre & Hb); [by intros ?; apply Hn; constructor|].
    exists (a :: l1), b, l2. split_and!; [done|by constructor|done].
  - exists [], a, l. split_and!; [done|constructor|done].
Qed.

Lemma omap_some {A B} (f : A -> B) l : omap (fun a => Some (f a)) l = map f l.
Proof. induction l; csimpl; congruence. Qed.

End SchemaFacts.

(** ** Theorems *)

(** [list_objects] reports exactly the tables, views, shadow and virtual tables
    SQLite lists, in SQLite's order, and with a schema given exactly those of that
    schema. *)
Lemma list_objects_reads `{RusqliteText} {Db} `{RusqliteConn Db} (db db' : Db) names schema os :
  answers db db' (str "PRAGMA table_list;") names (map object_row os) ->
  list_objects schema db =
    (Ok (map object_info
           (filter (in_schema schema) os)), db').
Proof.
  intros Ha. unfold list_objects, bind, lift. rewrite (query_map_answers _ _ _ _ _ _ Ha), map_map. f_equal.
  rewrite (final_loop_all _ _ (fun o => if match schema with Some s => bytes_eqb (ob_schema o) s | None => true end
                                        then Some (object_info o) else None)).
  2:{ intros o _. apply object_row_reads. }
  f_equal. clear. induction os as [|o os IH]; [done|]. csimpl. rewrite filter_cons.
  destruct schema as [s|]; [|rewrite decide_True by done; csimpl; by f_equal].
  destruct (bytes_eqb (ob_schema o) s) eqn:E.
  - apply bytes_eqb_eq in E. rewrite decide_True by done. csimpl. by f_equal.
  - rewrite decide_False; [done|]. intros Hs%bytes_eqb_eq. congruence.
Qed.

(** C33: schema introspection is exact: [list_objects] reports the tables, views,
    shadow and virtual tables SQLite lists, those of one schema when it is given;
    [columns], [indexes] and [index_columns] report every row of SQLite's PRAGMA;
    all in SQLite's order, each flag and kind as the documented atom or boolean,
    the default classified, an unnamed index column (rowid, expression) as nil. *)
Theorem introspection_exact `{RusqliteText} upper_table {Db} `{RusqliteConn Db} (db db' : Db) names name :
  (forall schema os, answers db db' (str "PRAGMA table_list;") names (map object_row os) ->
     list_objects schema db = (Ok (map object_info (filter (in_schema schema) os)), db')) /\
  (forall cs, answers db db' (str "PRAGMA table_xinfo(" ++ quote_identifier name ++ str ");") names (map column_row cs) ->
     Forall (fun c => in_u 8 (co_pk c) = true) cs ->
     columns upper_table name db = (Ok (map (column_info upper_table) cs), db')) /\
  (forall is_, answers db db' (str "PRAGMA index_list(" ++ quote_identifier name ++ str ");") names (map index_row is_) ->
     indexes name db = (Ok (map index_info is_), db')) /\
  (forall ics, answers db db' (str "PRAGMA index_xinfo(" ++ quote_identifier name ++ str ");") names
       (map index_column_row ics) ->
     index_columns name db = (Ok (map index_column_info ics), db')).
Proof.
  split_and!.
  - intros schema os. apply list_objects_reads.
  - intros cs Ha Hpk. unfold columns, bind, lift. rewrite (query_map_answers _ _ _ _ _ _ Ha), map_map. f_equal.
    rewrite (final_loop_all _ _ (fun c => Some (column_info upper_table c))), omap_some; [done|].
    intros c Hc. apply column_row_reads. by eapply list.Forall_forall in Hpk.
  - intros is_ Ha. unfold indexes, bind, lift. rewrite (query_map_answers _ _ _ _ _ _ Ha), map_map. f_equal.
    rewrite (final_loop_all _ _ (fun c => Some (index_info c))), omap_some; [done|].
    intros c _. apply index_row_reads.
  - intros ics Ha. unfold index_columns, bind, lift. rewrite (query_map_answers _ _ _ _ _ _ Ha), map_map. f_equal.
    rewrite (final_loop_all _ _ (fun c => Some (index_column_info c))), omap_some; [done|].
    intros c _. apply index_column_row_reads.
Qed.

Lemma introspection_exact_witness :
  let c := mkTableColumn 0 (str "id") (str "INTEGER") true None 1 KNormal in
  let tbl := fun _ _ => [] in
  @columns demo_text tbl unit (script_conn [] [column_row c]) (str "t") tt = (Ok [column_info tbl c], tt).
Proof.
  intros c tbl.
  destruct (@introspection_exact demo_text tbl unit (script_conn [] [column_row c]) tt tt [] (str "t"))
    as (_ & Hc & _).
  apply (Hc [c]); [by exists tt|]. repeat constructor.
Defined.

(** [foreign_keys] reports every foreign key of the table when each names the
    column it refers to; when one does not (SQLite then reports NULL: the target is
    the primary key), the call fails for the whole table. *)
Theorem foreign_keys_need_target_column `{RusqliteText} {Db} `{RusqliteConn Db} (db db' : Db) names table fks :
  answers db db' (str "PRAGMA foreign_key_list(" ++ quote_identifier table ++ str ");") names
    (map foreign_key_row fks) ->
  foreign_keys table db =
    (if decide (Forall (fun f => is_Some (fk_to f)) fks)
     then Ok (omap (fun f => foreign_key_info f <$> fk_to f) fks)
     else Err (InvalidColumnType 4 (default [] (names !! 4%nat)) "nil"), db').
Proof.
  intros Ha. unfold foreign_keys, bind, lift. rewrite (query_map_answers _ _ _ _ _ _ Ha), map_map. f_equal.
  assert (Hread : forall l, Forall (fun f => is_Some (fk_to f)) l -> forall f, f ∈ l ->
    exists t, temp_foreign_key names (foreign_key_row f) = Ok t /\
      final_foreign_key table t = Ok (foreign_key_info f <$> fk_to f)).
  { intros l Hl f Hf. eapply list.Forall_forall in Hl as [to Hto]; [|exact Hf].
    rewrite Hto. by apply foreign_key_row_reads. }
  case_decide as Hall; [by rewrite (final_loop_all _ _ _ _ _ (Hread _ Hall))|].
  clear Ha.
  destruct (first_failure _ _ Hall) as (l & f & l' & -> & Hl & Hf).
  apply eq_None_not_Some in Hf.
  assert (Herr : temp_foreign_key names (foreign_key_row f) = Err (wrong_type names 4 VNull)).
  { unfold temp_foreign_key, foreign_key_row. rewrite Hf. reflexivity. }
  by rewrite (final_loop_err _ _ _ _ _ _ _ _ (Hread _ Hl) Herr).
Qed.

Lemma foreign_keys_need_target_column_witness :
  let f1 := mkForeignKey 0 0 (str "p") (str "a") (Some (str "id")) Cascade NoAction in
  let f2 := mkForeignKey 1 0 (str "q") (str "b") None NoAction NoAction in
  @foreign_keys demo_text unit (script_conn [] [foreign_key_row f1]) (str "t") tt
    = (Ok [foreign_key_info f1 (str "id")], tt) /\
  @foreign_keys demo_text unit (script_conn [] [foreign_key_row f1; foreign_key_row f2]) (str "t") tt
    = (Err (InvalidColumnType 4 [] "nil"), tt).
Proof.
  intros f1 f2. split; etransitivity.
  - apply (@foreign_keys_need_target_column demo_text unit (script_conn [] [foreign_key_row f1]) tt tt [] _ [f1]).
    by exists tt.
  - vm_compute. reflexivity.
  - apply (@foreign_keys_need_target_column demo_text unit
      (script_conn [] [foreign_key_row f1; foreign_key_row f2]) tt tt [] _ [f1; f2]).
    by exists tt.
  - vm_compute. reflexivity.
Defined.
