(* ===== verification/Statements.v ===== *)
(** * [stream.rs], [statement.rs] and the statement and stream NIFs of [nif.rs]

    Raw prepared statements: prepare, bind, step, reset, finalize, and the batched
    readers.  SQLite's C interface is the class [SqliteApi]; [SqliteApiLaws] states
    what its documentation says of which statements exist. *)

From S2P Require Import Prelude RustStr Sqlite Terms Heap ConstraintParse Error Util HookList Hooks ProgressDispatch Connection Query.

Class SqliteApi (Db : Type) := {
  sqlite3_errmsg : Db -> option bytes;           (* null, or its lossy text *)
  (** result code, statement (or null), the SQL after the first statement *)
  sqlite3_prepare_v2 : bytes -> Db -> Z * option ptr * option bytes * Db;
  sqlite3_finalize : ptr -> Db -> Db;
  sqlite3_step : ptr -> Db -> Z * Db;
  sqlite3_reset : ptr -> Db -> Db;
  sqlite3_clear_bindings : ptr -> Db -> Db;
  sqlite3_column_count : ptr -> Db -> Z;
  sqlite3_column_name : ptr -> nat -> Db -> option bytes;
  sqlite3_column : ptr -> Db -> nat -> column;
  sqlite3_bind_parameter_count : ptr -> Db -> Z;
  sqlite3_bind_parameter_index : ptr -> bytes -> Db -> Z;
  (** the [sqlite3_bind_*] function of the value's type *)
  sqlite3_bind : ptr -> Z -> Value -> Db -> Z * Db;
  (** the statements that exist *)
  stmts : Db -> gset ptr;
}.

Class SqliteApiLaws (Db : Type) `{SqliteApi Db} := {
  (** a successful prepare creates a new statement (none for empty SQL), a failed one nothing *)
  prepare_stmts sql db : let '(rc, p, _, db') := sqlite3_prepare_v2 sql db in
    match p with
    | Some p => rc = SQLITE_OK /\ p ∉ stmts db /\ stmts db' = {[p]} ∪ stmts db
    | None => stmts db' = stmts db
    end;
  finalize_stmts p db : stmts (sqlite3_finalize p db) = stmts db ∖ {[p]};
  step_stmts p db : stmts (sqlite3_step p db).2 = stmts db;
  reset_stmts p db : stmts (sqlite3_reset p db) = stmts db;
  clear_stmts p db : stmts (sqlite3_clear_bindings p db) = stmts db;
  bind_stmts p i v db : stmts (sqlite3_bind p i v db).2 = stmts db;
}.

(** [XqliteStatement] and [XqliteStream]: the pointer cell (null once finalized) and
    the column names read when it was prepared. *)
Record XqliteStatement := mkStmt { raw_stmt : option ptr; column_names : list bytes }.

Section Statements.
  Context `{Beam} `{RusqliteText} {Db : Type} `{SqliteApiLaws Db}.

(** The error for a non-OK code, with SQLite's message or a fallback. *)
Definition sqlite_error (rc : Z) (fallback : bytes) : Db -> XqliteError := fun db =>
  from_rusqlite (R_SqliteFailure (ffi_new rc)
    (Some match sqlite3_errmsg db with Some m => m | None => fallback end)).

(** ** Stepping *)

Definition process_single_step (p : ptr) : M Db (option (list term)) := fun db =>
  let '(rc, db) := sqlite3_step p db in
  if rc =? SQLITE_ROW then
    let column_count := Z.to_nat (wrap_unsigned 64 (sqlite3_column_count p db)) in
    (result_map Some (sqlite_row_to_elixir_terms (sqlite3_column p db) column_count), db)
  else if rc =? SQLITE_DONE then (Ok None, db)
  else (Err (sqlite_error rc (str "SQLite error " ++ show_Z rc
                              ++ str " during step; no specific message.") db), db).

(** ** Binding *)

Definition too_long (kind : bytes) (n : Z) : XqliteError :=
  CannotConvertToSqliteValue (str "<" ++ kind ++ str " len " ++ show_Z n ++ str ">")
    (kind ++ str " length exceeds c_int range").

Definition bind_value_to_raw_stmt (p : ptr) (bind_idx : Z) (value : Value) : M Db unit :=
  let* _ := lift match value with
            | VText s => if Z.of_nat (length s) <=? i32_max then Ok tt
                         else Err (too_long (str "text") (Z.of_nat (length s)))
            | VBlob b => if Z.of_nat (length b) <=? i32_max then Ok tt
                         else Err (too_long (str "blob") (Z.of_nat (length b)))
            | _ => Ok tt
            end in
  fun db =>
    let '(rc, db) := sqlite3_bind p bind_idx value db in
    if negb (rc =? SQLITE_OK) then
      (Err (sqlite_error rc (str "Parameter binding failed at index " ++ show_Z bind_idx
                             ++ str " (code " ++ show_Z rc ++ str ")") db), db)
    else (Ok tt, db).

(** SQLite's indices count from 1; [(i + 1) as c_int]. *)
Fixpoint bind_from (p : ptr) (i : Z) (vs : list Value) : M Db unit :=
  match vs with
  | [] => ret tt
  | v :: vs => let* _ := bind_value_to_raw_stmt p (wrap_signed 32 (i + 1)) v in bind_from p (i + 1) vs
  end.
Definition bind_positional_params_ffi (p : ptr) (vs : list Value) : M Db unit := bind_from p 0 vs.

Fixpoint bind_named_params_ffi (p : ptr) (ps : list (bytes * Value)) : M Db unit :=
  match ps with
  | [] => ret tt
  | (name, value) :: ps =>
      if bool_decide (NUL ∈ name) then fail (InvalidParameterName name)
      else
        let* bind_idx := reads (sqlite3_bind_parameter_index p name) in
        if bind_idx =? 0 then fail (InvalidParameterName name)
        else let* _ := bind_value_to_raw_stmt p bind_idx value in bind_named_params_ffi p ps
  end.

(** ** Preparing *)

(** [CString::new] and the length conversion, then the call; [fallback] is the
    message when SQLite has none. *)
Definition prepare (sql : bytes) : M Db (option ptr * option bytes) :=
  if bool_decide (NUL ∈ sql) then fail NulErrorInString
  else if i32_max <? Z.of_nat (length sql)
  then fail (CannotExecute (str "SQL string length exceeds c_int range"))
  else fun db =>
    let '(rc, p, tail, db) := sqlite3_prepare_v2 sql db in
    if negb (rc =? SQLITE_OK) then
      (Err (sqlite_error rc (str "SQLite preparation error (code " ++ show_Z rc
              ++ str ") but no message available. SQL: " ++ sql) db), db)
    else (Ok (p, tail), db).

(** The column-name loop: the index of the first null name is an error. *)
Fixpoint read_names (p : ptr) (i n : nat) (db : Db) : result (list bytes) nat :=
  match n with
  | O => Ok []
  | S n =>
      match sqlite3_column_name p i db with
      | None => Err i
      | Some name => let? names := read_names p (S i) n db in Ok (name :: names)
      end
  end.

Definition column_names_of (p : ptr) (db : Db) : result (list bytes) nat :=
  read_names p 0 (Z.to_nat (wrap_unsigned 64 (sqlite3_column_count p db))) db.

Definition null_name (i : nat) (where_ : bytes) : XqliteError :=
  InternalEncodingError (str "SQLite returned null column name for index " ++ show_Z (Z.of_nat i) ++ where_).

Definition finalize_with {A} (p : ptr) (e : XqliteError) : M Db A :=
  fun db => (Err e, sqlite3_finalize p db).

Definition stmt_prepare_body (sql : bytes) : M Db XqliteStatement :=
  let* r := prepare sql in
  match r.1 with
  | None => fail (CannotExecute (str "SQL contains no statement"))
  | Some p =>
      let trailing := match r.2 with Some tail => negb (bool_decide (trim tail = [])) | None => false end in
      if (trailing : bool) then finalize_with p MultipleStatements
      else fun db =>
        match column_names_of p db with
        | Err i => finalize_with p (null_name i (str " during statement prepare")) db
        | Ok names => (Ok (mkStmt (Some p) names), db)
        end
  end.

Definition stmt_prepare (h : XqliteConn Db) (sql : bytes) : result XqliteStatement XqliteError * XqliteConn Db :=
  with_conn h (stmt_prepare_body sql).

(** ** [stream_open]

    The parameter list is decoded after the statement exists: the [?] on the
    decoders returns at once. *)

Definition bind_params_result (p : ptr) (params_term : term) : M Db (result unit XqliteError) :=
  match get_type params_term with
  | TyList =>
      if is_empty_list params_term then ret (Ok tt)
      else if is_keyword params_term then
        let* named := lift (decode_exec_keyword_params params_term) in
        fun db => let '(r, db) := bind_named_params_ffi p named db in (Ok r, db)
      else
        let* positional := lift (decode_plain_list_params params_term) in
        fun db => let '(r, db) := bind_positional_params_ffi p positional db in (Ok r, db)
  | _ =>
      if is_nil params_term then ret (Ok tt)
      else ret (Err (ExpectedList (str "Parameters term was not a list: " ++ term_debug params_term)))
  end.

Definition stream_open_body (sql : bytes) (params_term : term) : M Db XqliteStatement :=
  let* r := prepare sql in
  match r.1 with
  | None => ret (mkStmt None [])
  | Some p =>
      let* bind_result := bind_params_result p params_term in
      match bind_result with
      | Err e => finalize_with p e
      | Ok _ => fun db =>
          match column_names_of p db with
          | Err i => finalize_with p (null_name i (str " during stream open")) db
          | Ok names => (Ok (mkStmt (Some p) names), db)
          end
      end
  end.

Definition stream_open (h : XqliteConn Db) (sql : bytes) (params_term : term)
    : result XqliteStatement XqliteError * XqliteConn Db :=
  with_conn h (stream_open_body sql params_term).

(** ** Manual statements *)

Definition with_live_stmt {R} (h : XqliteConn Db) (st : XqliteStatement) (f : ptr -> M Db R)
    : result R XqliteError * XqliteConn Db :=
  with_conn h match raw_stmt st with
              | None => fail StatementFinalized
              | Some p => f p
              end.

(** [take_and_finalize_raw]: after a close the statement lives in the leaked
    database, which the handle does not reach any more. *)
Definition take_and_finalize_raw (h : XqliteConn Db) (st : XqliteStatement)
    : result unit XqliteError * XqliteStatement * XqliteConn Db :=
  let st' := mkStmt None (column_names st) in
  match raw_stmt st with
  | None => (Ok tt, st', h)
  | Some p =>
      match poison h with
      | Some e => (Err (LockError e), st', h)
      | None =>
          match conn_opt h with
          | Some db => (Ok tt, st', set_conn h (Some (sqlite3_finalize p db)))
          | None => (Ok tt, st', h)
          end
      end
  end.

Definition stmt_finalize (h : XqliteConn Db) (st : XqliteStatement) : term * XqliteStatement * XqliteConn Db :=
  let '(r, st, h) := take_and_finalize_raw h st in (singular_ok_or_error_tuple r, st, h).

(** [Drop]: the error is only logged. *)
Definition statement_drop (h : XqliteConn Db) (st : XqliteStatement) : XqliteConn Db :=
  let '(_, _, h) := take_and_finalize_raw h st in h.

Definition stmt_bind_body (params_term : term) (p : ptr) : M Db unit :=
  match get_type params_term with
  | TyList =>
      if is_empty_list params_term then ret tt
      else if is_keyword params_term then
        let* named := lift (decode_exec_keyword_params params_term) in
        bind_named_params_ffi p named
      else
        let* positional := lift (decode_plain_list_params params_term) in
        let* expected := reads (fun db => wrap_unsigned 64 (sqlite3_bind_parameter_count p db)) in
        if negb (Z.of_nat (length positional) =? expected)
        then fail (InvalidParameterCount (Z.of_nat (length positional)) expected)
        else bind_positional_params_ffi p positional
  | _ => fail (ExpectedList (str "Parameters term was not a list: " ++ term_debug params_term))
  end.

Definition stmt_bind (h : XqliteConn Db) (st : XqliteStatement) (params_term : term) : term * XqliteConn Db :=
  let '(r, h) := with_live_stmt h st (stmt_bind_body params_term) in (singular_ok_or_error_tuple r, h).

Definition row_term (row : list term) : term := TTuple [TAtom "row"; TList row].

Definition stmt_step (h : XqliteConn Db) (st : XqliteStatement) : term * XqliteConn Db :=
  let '(r, h) := with_live_stmt h st process_single_step in
  (match r with
   | Ok (Some row) => row_term row
   | Ok None => TAtom "done"
   | Err e => error_tuple (encode e)
   end, h).

Definition stmt_reset (h : XqliteConn Db) (st : XqliteStatement) : term * XqliteConn Db :=
  let '(r, h) := with_live_stmt h st (fun p => ffi_call (fun db => (tt, sqlite3_reset p db))) in
  (singular_ok_or_error_tuple r, h).

Definition stmt_clear_bindings (h : XqliteConn Db) (st : XqliteStatement) : term * XqliteConn Db :=
  let '(r, h) := with_live_stmt h st (fun p => ffi_call (fun db => (tt, sqlite3_clear_bindings p db))) in
  (singular_ok_or_error_tuple r, h).

Definition stmt_column_names (h : XqliteConn Db) (st : XqliteStatement)
    : result (list bytes) XqliteError * XqliteConn Db :=
  let '(live, h) := with_live_stmt h st (fun p db =>
    (match column_names_of p db with Ok names => Ok names | Err i => Err (null_name i []) end, db)) in
  (match live with
   | Err StatementFinalized | Err ConnectionClosed => Ok (column_names st)
   | r => r
   end, h).

(** The step loop of [stmt_multi_step_impl]: rows pushed, and whether DONE came. *)
Fixpoint multi_step_loop (n : nat) (p : ptr) (acc : list (list term)) : M Db (list (list term) * bool) :=
  match n with
  | O => ret (acc, false)
  | S n =>
      let* r := process_single_step p in
      match r with
      | Some row => multi_step_loop n p (acc ++ [row])
      | None => ret (acc, true)
      end
  end.

(** A map built with [map_put], or the encoding error in an error tuple. *)
Definition map_or_error (built : result term unit) (k : term -> term) (context : string) : term :=
  match built with Ok m => k m | Err _ => error_tuple (encode (InternalEncodingError (str context))) end.

Definition invalid_batch_size (provided : term) : term :=
  map_or_error (let? m := map_put map_new "provided" provided in map_put m "minimum" (TInt 1))
    (fun m => error_tuple (TTuple [TAtom "invalid_batch_size"; m]))
    "Failed to create details map for InvalidBatchSize".

Context {LC : Type} `{SubscriberListLaws CancelSubscriber LC}.

(** [Vec<Arc<AtomicBool>>] dropped. *)
Fixpoint drop_arcs (tokens : list ptr) (fl : heap (bool * nat)) : option (heap (bool * nat)) :=
  match tokens with [] => Some fl | t :: tokens => let! fl := arc_drop t fl in drop_arcs tokens fl end.

(** The tokens' [Arc]s are owned by the call: moved into the guard when the loop
    runs, dropped with the closure when it does not. *)
Definition stmt_multi_step_impl (h : XqliteConn Db) (st : XqliteStatement) (batch_size : Z)
    (token_bools : list ptr) (cs : LC) (fl : heap (bool * nat))
    : option (term * XqliteConn Db * LC * heap (bool * nat)) :=
  if batch_size <? 1 then
    let! fl := drop_arcs token_bools fl in
    Some (invalid_batch_size (TInt batch_size), h, cs, fl)
  else
    match poison h, conn_opt h, raw_stmt st with
    | None, Some db, Some p =>
        let! r := guard_new token_bools cs in
        let '(guard, cs) := r in
        let '(result, db) := multi_step_loop (Z.to_nat batch_size) p [] db in
        let! r := guard_drop guard cs fl in
        let '(cs, fl) := r in
        Some (match result with
              | Ok (rows, done) =>
                  map_or_error (let? m := map_put map_new "rows" (TList (map TList rows)) in
                                map_put m "done" (encode_bool done))
                    ok_tuple "Failed to create result map for stmt_multi_step"
              | Err e => error_tuple (encode e)
              end, set_conn h (Some db), cs, fl)
    | Some e, _, _ => let! fl := drop_arcs token_bools fl in Some (error_tuple (encode (LockError e)), h, cs, fl)
    | None, None, _ => let! fl := drop_arcs token_bools fl in Some (error_tuple (encode ConnectionClosed), h, cs, fl)
    | None, Some _, None => let! fl := drop_arcs token_bools fl in Some (error_tuple (encode StatementFinalized), h, cs, fl)
    end.

(** ** [stream_fetch] *)

(** The batch loop: rows, the error, whether the stream is exhausted, and the cell. *)
Fixpoint fetch_loop (n : nat) (st : XqliteStatement) (acc : list (list term)) (db : Db)
    : list (list term) * option XqliteError * bool * XqliteStatement * Db :=
  match n with
  | O => (acc, None, false, st, db)
  | S n =>
      match raw_stmt st with
      | None => (acc, None, true, st, db)
      | Some p =>
          match process_single_step p db with
          | (Ok (Some row), db) => fetch_loop n st (acc ++ [row]) db
          | (Ok None, db) => (acc, None, true, mkStmt None (column_names st), sqlite3_finalize p db)
          | (Err e, db) => (acc, Some e, true, mkStmt None (column_names st), sqlite3_finalize p db)
          end
      end
  end.

Definition rows_map (rows : list (list term)) (context : string) : term :=
  map_or_error (map_put map_new "rows" (TList (map TList rows))) ok_tuple context.

Definition stream_fetch (poison_debug : bytes) (h : XqliteConn Db) (st : XqliteStatement) (batch_size_term : term)
    : term * XqliteStatement * XqliteConn Db :=
  match decode_i64 batch_size_term with
  | None => (invalid_batch_size (term_to_tagged_elixir_value batch_size_term), st, h)
  | Some val =>
      if negb (1 <=? val) then (invalid_batch_size (term_to_tagged_elixir_value (TInt val)), st, h)
      else
        match raw_stmt st with
        | None => (TAtom "done", st, h)
        | Some p =>
            match poison h with
            | Some _ =>
                (* finalized under the poisoned guard *)
                (error_tuple (encode (LockError
                   (str "XqliteConn Mutex poisoned for db_handle: " ++ poison_debug))),
                 mkStmt None (column_names st),
                 set_conn h (option_map (sqlite3_finalize p) (conn_opt h)))
            | None =>
                match conn_opt h with
                | None => (error_tuple (encode ConnectionClosed), st, h)
                | Some db =>
                    let '(fetched, err, exhausted, st, db) := fetch_loop (Z.to_nat val) st [] db in
                    let h := set_conn h (Some db) in
                    match err with
                    | Some e => (error_tuple (encode e), st, h)
                    | None =>
                        if negb (bool_decide (fetched = []))
                        then (rows_map fetched "map_new fail for fetched rows", st, h)
                        else if (exhausted : bool) then (TAtom "done", st, h)
                        else (rows_map [] "map_new fail for empty non-done", st, h)
                    end
                end
            end
        end
  end.

Definition stream_close (h : XqliteConn Db) (st : XqliteStatement) : term * XqliteStatement * XqliteConn Db :=
  let '(r, st, h) := take_and_finalize_raw h st in (singular_ok_or_error_tuple r, st, h).

Definition stream_drop (h : XqliteConn Db) (st : XqliteStatement) : XqliteConn Db :=
  let '(_, _, h) := take_and_finalize_raw h st in h.

(** ** Lemmas: which statements exist *)

Lemma bind_value_stmts p i v db : stmts (bind_value_to_raw_stmt p i v db).2 = stmts db.
Proof.
  unfold bind_value_to_raw_stmt, bind, lift. destruct (match v with VText _ => _ | _ => _ end); [|done].
  pose proof (bind_stmts p i v db) as Hb. destruct (sqlite3_bind p i v db) as [rc db']. simpl in Hb.
  by destruct (negb _).
Qed.

Lemma bind_from_stmts p vs i db : stmts (bind_from p i vs db).2 = stmts db.
Proof.
  revert i db; induction vs as [|v vs IH]; intros i db; [done|]. cbn [bind_from]. unfold bind.
  match goal with |- context [bind_value_to_raw_stmt p ?j v db] => pose proof (bind_value_stmts p j v db) as Hb end.
  destruct (bind_value_to_raw_stmt _ _ v db) as [[[]|e] db']; simpl in *; [by rewrite IH|done].
Qed.

Lemma bind_named_stmts p ps db : stmts (bind_named_params_ffi p ps db).2 = stmts db.
Proof.
  revert db; induction ps as [|[name v] ps IH]; intros db; [done|]. cbn [bind_named_params_ffi].
  case_bool_decide; [done|]. unfold bind, reads. cbn [fst snd].
  destruct (_ =? 0); [done|].
  pose proof (bind_value_stmts p (sqlite3_bind_parameter_index p name db) v db) as Hb.
  destruct (bind_value_to_raw_stmt _ _ v db) as [[[]|e] db']; simpl in *; [by rewrite IH|done].
Qed.

Lemma bind_params_stmts p t db : stmts (bind_params_result p t db).2 = stmts db.
Proof.
  unfold bind_params_result, bind, lift, ret.
  destruct (get_type t); try (by destruct (is_nil t)).
  destruct (is_empty_list t); [done|]. destruct (is_keyword t).
  - destruct (decode_exec_keyword_params t) as [named|]; [|done].
    pose proof (bind_named_stmts p named db). by destruct (bind_named_params_ffi p named db).
  - destruct (decode_plain_list_params t) as [vs|]; [|done].
    pose proof (bind_from_stmts p vs 0 db). unfold bind_positional_params_ffi.
    by destruct (bind_from p 0 vs db).
Qed.

Lemma prepare_spec sql db : match prepare sql db with
  | (Ok (Some p, _), db') => p ∉ stmts db /\ stmts db' = {[p]} ∪ stmts db
  | (_, db') => stmts db' = stmts db
  end.
Proof.
  unfold prepare. case_bool_decide; [done|]. destruct (_ <? _); [done|].
  pose proof (prepare_stmts sql db) as Hp. destruct (sqlite3_prepare_v2 sql db) as [[[rc p] tail] db'].
  destruct (Z.eqb_spec rc SQLITE_OK) as [->|Hne]; simpl.
  - destruct p as [p|]; [|done]. by destruct Hp as (_ & ? & ?).
  - destruct p as [p|]; [|done]. by destruct Hp as (? & _).
Qed.

Lemma step_keeps_stmts p db : stmts (process_single_step p db).2 = stmts db.
Proof.
  unfold process_single_step. pose proof (step_stmts p db) as Hs.
  destruct (sqlite3_step p db) as [rc db']. simpl in Hs.
  destruct (rc =? SQLITE_ROW); [done|]. by destruct (rc =? SQLITE_DONE).
Qed.

Lemma new_stmt_removed (p : ptr) (s : gset ptr) : p ∉ s -> ({[p]} ∪ s) ∖ {[p]} = s.
Proof. intros Hp. set_solver. Qed.

(** ** Lemmas: what a statement yields *)

(** Statement [p] will give the rows [rs] and then be done, or fail with an error. *)
Inductive gives (p : ptr) : Db -> list (list term) -> option XqliteError -> Prop :=
| gives_done db db' : process_single_step p db = (Ok None, db') -> gives p db [] None
| gives_error db db' e : process_single_step p db = (Err e, db') -> gives p db [] (Some e)
| gives_row db db' r rs o : process_single_step p db = (Ok (Some r), db') -> gives p db' rs o ->
    gives p db (r :: rs) o.
Definition yields (p : ptr) (db : Db) (rs : list (list term)) : Prop := gives p db rs None.

(** A batch of [n]: the next [n] rows with the statement left at the rest, or all
    remaining rows, and the error, with the statement finalized. *)
Lemma fetch_loop_gives n p names db rs o acc : gives p db rs o -> p ∈ stmts db ->
  exists db', stmts db' = (if (n <=? length rs)%nat then stmts db else stmts db ∖ {[p]}) /\
    if (n <=? length rs)%nat
    then fetch_loop n (mkStmt (Some p) names) acc db = (acc ++ take n rs, None, false, mkStmt (Some p) names, db')
         /\ gives p db' (drop n rs) o
    else fetch_loop n (mkStmt (Some p) names) acc db = (acc ++ rs, o, true, mkStmt None names, db').
Proof.
  intros Hy. revert n acc; induction Hy as [db db' E|db db' e E|db db' r rs o E Hy IH]; intros n acc Hp;
    pose proof (step_keeps_stmts p db) as Hs; rewrite E in Hs; simpl in Hs.
  1, 2: destruct n as [|n]; simpl;
    [exists db; rewrite app_nil_r; split_and!; try done; by econstructor|
     rewrite E; exists (sqlite3_finalize p db'); rewrite app_nil_r, finalize_stmts, Hs; done].
  destruct n as [|n]; cbn [fetch_loop length Nat.leb take drop].
  - exists db. rewrite app_nil_r. split_and!; try done. by econstructor.
  - cbn [raw_stmt]. rewrite E. rewrite <- Hs.
    destruct (IH n (acc ++ [r])) as (db2 & Hst & Hf); [by rewrite Hs|]. exists db2. split; [done|].
    destruct (n <=? length rs)%nat; rewrite <- app_assoc in Hf; exact Hf.
Qed.

(** Fetching batches of [n] until [:done] is answered. *)
Fixpoint drain (fuel : nat) (poison_debug : bytes) (n : Z) (h : XqliteConn Db) (st : XqliteStatement)
    (acc : list term) : option (list term * XqliteStatement * XqliteConn Db) :=
  match fuel with
  | O => None
  | S fuel =>
      match stream_fetch poison_debug h st (TInt n) with
      | (TTuple [TAtom "ok"; TMap [(TAtom "rows", TList batch)]], st, h) =>
          drain fuel poison_debug n h st (acc ++ batch)
      | (TAtom "done", st, h) => Some (acc, st, h)
      | _ => None
      end
  end.

Lemma stream_fetch_gives n pd h names p db rs o : 1 <= n -> in_i 64 n = true ->
  poison h = None -> conn_opt h = Some db -> gives p db rs o -> p ∈ stmts db ->
  exists db', if (Z.to_nat n <=? length rs)%nat
    then stream_fetch pd h (mkStmt (Some p) names) (TInt n)
         = (rows_map (take (Z.to_nat n) rs) "map_new fail for fetched rows", mkStmt (Some p) names,
            set_conn h (Some db')) /\ gives p db' (drop (Z.to_nat n) rs) o /\ stmts db' = stmts db
    else stream_fetch pd h (mkStmt (Some p) names) (TInt n)
         = (match o with
            | Some e => error_tuple (encode e)
            | None => match rs with [] => TAtom "done" | _ => rows_map rs "map_new fail for fetched rows" end
            end, mkStmt None names, set_conn h (Some db')) /\ stmts db' = stmts db ∖ {[p]}.
Proof.
  intros Hn Hi Hpo Hc Hy Hp. unfold stream_fetch. cbn [decode_i64]. rewrite Hi.
  replace (1 <=? n) with true by lia. cbn [negb raw_stmt]. rewrite Hpo, Hc.
  destruct (fetch_loop_gives (Z.to_nat n) p names db rs o [] Hy Hp) as (db' & Hst & Hf). exists db'.
  destruct (Z.to_nat n <=? length rs)%nat eqn:El.
  - destruct Hf as [-> Hy']. cbn [app]. split_and!; [|done|done]. apply Nat.leb_le in El.
    destruct rs as [|r rs]; [simpl in El; lia|]. destruct (Z.to_nat n) eqn:En; [lia|]. done.
  - rewrite Hf. cbn [app]. split; [|done]. destruct o; [done|]. by destruct rs.
Qed.

Lemma rows_map_ok rows c :
  rows_map rows c = TTuple [TAtom "ok"; TMap [(TAtom "rows", TList (map TList rows))]].
Proof. done. Qed.

(** A finished stream answers [:done]. *)
Lemma drain_finished fuel pd n h names acc : in_i 64 n = true -> 1 <= n ->
  drain (S fuel) pd n h (mkStmt None names) acc = Some (acc, mkStmt None names, h).
Proof.
  intros Hi Hn. cbn [drain]. unfold stream_fetch. cbn [decode_i64]. rewrite Hi.
  by replace (1 <=? n) with true by lia.
Qed.

Lemma drain_yields fuel pd n h names p db rs acc : 1 <= n -> in_i 64 n = true ->
  poison h = None -> conn_opt h = Some db -> yields p db rs -> p ∈ stmts db -> (length rs + 1 < fuel)%nat ->
  exists db', drain fuel pd n h (mkStmt (Some p) names) acc
    = Some (acc ++ map TList rs, mkStmt None names, set_conn h (Some db')) /\
    stmts db' = stmts db ∖ {[p]}.
Proof.
  intros Hn Hi. revert h db rs acc; induction fuel as [|fuel IH]; intros h db rs acc Hpo Hc Hy Hp Hf; [lia|].
  cbn [drain]. destruct (stream_fetch_gives n pd h names p db rs None Hn Hi Hpo Hc Hy Hp) as (db' & Hs).
  destruct (Z.to_nat n <=? length rs)%nat eqn:El.
  - destruct Hs as (-> & Hy' & Hst). rewrite rows_map_ok. cbv beta iota. apply Nat.leb_le in El.
    destruct (IH (set_conn h (Some db')) db' (drop (Z.to_nat n) rs) (acc ++ map TList (take (Z.to_nat n) rs)))
      as (db2 & -> & Hst2); try done; [by rewrite Hst|rewrite length_drop; lia|].
    exists db2. split; [|congruence]. do 3 f_equal.
    by rewrite <- app_assoc, <- map_app, take_drop.
  - destruct Hs as (-> & Hst). exists db'. split; [|done]. destruct rs as [|r rs].
    + by rewrite app_nil_r.
    + rewrite rows_map_ok. cbv beta iota. destruct fuel as [|fuel]; [lia|]. by apply drain_finished.
Qed.

Lemma multi_step_loop_yields n p db rs acc : yields p db rs ->
  exists db', multi_step_loop n p acc db
    = (Ok (acc ++ take n rs, negb (n <=? length rs)%nat), db') /\ stmts db' = stmts db.
Proof.
  unfold yields. remember None as o eqn:Ho. intros Hy. revert n acc.
  induction Hy as [db db' E|db db' e E|db db' r rs o E Hy IH]; [|done|]; intros n acc;
    pose proof (step_keeps_stmts p db) as Hs; rewrite E in Hs; simpl in Hs.
  - destruct n as [|n]; cbn [multi_step_loop]; [exists db; by rewrite app_nil_r|].
    exists db'. unfold bind. rewrite E. rewrite take_nil, app_nil_r. done.
  - destruct n as [|n]; cbn [multi_step_loop]; [exists db; by rewrite app_nil_r|].
    unfold bind. rewrite E. destruct (IH Ho n (acc ++ [r])) as (db2 & -> & Hst). exists db2.
    split; [|congruence]. cbn [take length Nat.leb]. by rewrite <- app_assoc.
Qed.

Lemma drop_arcs_guard ts fl c own : flags_rep fl c (fun p => own p + occ p ts)%nat ->
  exists fl', drop_arcs ts fl = Some fl' /\ brk fl' = brk fl /\ flags_rep fl' c own.
Proof.
  revert fl; induction ts as [|t ts IH]; intros fl Hr; cbn [drop_arcs].
  - exists fl. split_and!; [done|done|]. intros p. rewrite (Hr p). f_equal. unfold occ. simpl. lia.
  - assert (own t + occ t (t :: ts) <> O)%nat as Hne by (rewrite occ_cons, decide_True by done; lia).
    destruct (arc_drop_cell t fl _ _ (Hr t) Hne) as (fl1 & -> & Hb & Hp & Ho).
    destruct (IH fl1) as (fl2 & -> & Hb2 & Hr2).
    + eapply flags_rep_upd; [exact Hr|rewrite Hp|exact Ho|].
      * rewrite occ_cons, decide_True by done. f_equal. lia.
      * intros q Hq. cbv beta. rewrite occ_cons, decide_False by congruence. split; [lia|done].
    + exists fl2. split_and!; [done|congruence|done].
Qed.

(** A refused batch size runs nothing and gives the tokens back. *)
Lemma multi_step_refused h st n tokens (cs : LC) fl c own : n < 1 ->
  flags_rep fl c (fun q => own q + occ q tokens)%nat ->
  exists fl', stmt_multi_step_impl h st n tokens cs fl = Some (invalid_batch_size (TInt n), h, cs, fl') /\
    flags_rep fl' c own.
Proof.
  intros Hn Hr. unfold stmt_multi_step_impl. replace (n <? 1) with true by lia.
  destruct (drop_arcs_guard tokens fl c own Hr) as (fl' & -> & _ & Hr'). by exists fl'.
Qed.

End Statements.

(** ** A database for the witnesses: one statement, a counter of rows still to give *)

Record demo_db := mkDemo { d_live : gset ptr; d_left : nat }.

Definition demo_sqlite : SqliteApi demo_db := {|
  sqlite3_errmsg _ := None;
  sqlite3_prepare_v2 sql db :=
    if decide (1%positive ∈ d_live db) then (SQLITE_ERROR, None, None, db)
    else (SQLITE_OK, Some 1%positive, Some [], mkDemo ({[1%positive]} ∪ d_live db) (d_left db));
  sqlite3_finalize p db := mkDemo (d_live db ∖ {[p]}) (d_left db);
  sqlite3_step p db :=
    match d_left db with
    | O => (SQLITE_DONE, db)
    | S n => (SQLITE_ROW, mkDemo (d_live db) n)
    end;
  sqlite3_reset p db := db;
  sqlite3_clear_bindings p db := db;
  sqlite3_column_count p db := 1;
  sqlite3_column_name p i db := Some (str "n");
  sqlite3_column p db i := mkColumn SQLITE_INTEGER (Z.of_nat (d_left db)) (SpecFloat.S754_zero false) None None 0 [];
  sqlite3_bind_parameter_count p db := 0;
  sqlite3_bind_parameter_index p name db := 0;
  sqlite3_bind p i v db := (SQLITE_OK, db);
  stmts := d_live;
|}.

Definition demo_sqlite_laws : @SqliteApiLaws demo_db demo_sqlite.
Proof.
  constructor; try reflexivity.
  - intros sql db. simpl. destruct (decide (1%positive ∈ d_live db)); simpl; auto.
  - intros p db. simpl. by destruct (d_left db).
Defined.

Lemma demo_yields : @yields demo_beam demo_text demo_db demo_sqlite 1 (mkDemo {[1%positive]} 2)
  [[TInt 1]; [TInt 0]].
Proof.
  eapply gives_row; [vm_compute; reflexivity|].
  eapply gives_row; [vm_compute; reflexivity|].
  eapply gives_done. vm_compute. reflexivity.
Qed.

(** ** Theorems *)

(** A stream delivers everything: fetching batches of any size until [:done]
    returns every row of the statement, once and in order, and the statement has
    then been finalized and its cell emptied. *)
Theorem stream_delivers_all_rows `{Beam} `{RusqliteText} {Db} `{SqliteApiLaws Db}
    pd n (h : XqliteConn Db) names p db rs :
  1 <= n -> in_i 64 n = true -> poison h = None -> conn_opt h = Some db ->
  yields p db rs -> p ∈ stmts db ->
  exists db', drain (length rs + 2) pd n h (mkStmt (Some p) names) []
    = Some (map TList rs, mkStmt None names, set_conn h (Some db')) /\ stmts db' = stmts db ∖ {[p]}.
Proof.
  intros. destruct (drain_yields (length rs + 2) pd n h names p db rs []) as (db' & E & Hs); try done; [lia|].
  by exists db'.
Qed.

Lemma stream_delivers_all_rows_witness :
  exists db', @drain demo_beam demo_text demo_db demo_sqlite 4 [] 2
      (mkXConn None (Some (mkDemo {[1%positive]} 2)) false) (mkStmt (Some 1%positive) []) []
    = Some ([TList [TInt 1]; TList [TInt 0]], mkStmt None [], mkXConn None (Some db') false) /\
    d_live db' = {[1%positive]} ∖ {[1%positive]}.
Proof.
  destruct (@stream_delivers_all_rows demo_beam demo_text demo_db demo_sqlite demo_sqlite_laws [] 2
    (mkXConn None (Some (mkDemo {[1%positive]} 2)) false) [] 1 (mkDemo {[1%positive]} 2)
    [[TInt 1]; [TInt 0]]) as (db' & E & Hs).
  - lia.
  - reflexivity.
  - reflexivity.
  - reflexivity.
  - exact demo_yields.
  - vm_compute. reflexivity.
  - exists db'. split; [exact E|exact Hs].
Defined.

(** [stmt_prepare] leaks nothing: when it fails, for whatever reason (NUL byte,
    length, SQLite's refusal, no statement, trailing SQL, a null column name), the
    statements in SQLite are what they were; when it succeeds, the one new
    statement is the one in the resource's cell. *)
Theorem stmt_prepare_owns_what_it_creates `{RusqliteText} {Db} `{SqliteApiLaws Db} sql (db : Db) :
  match stmt_prepare_body sql db with
  | (Ok st, db') => exists p, raw_stmt st = Some p /\ p ∉ stmts db /\ stmts db' = {[p]} ∪ stmts db
  | (Err _, db') => stmts db' = stmts db
  end.
Proof.
  unfold stmt_prepare_body, bind. pose proof (prepare_spec sql db) as Hp.
  destruct (prepare sql db) as [[[[p|] tail]|e] db']; [|done|done].
  destruct Hp as [Hni Hst]. cbn [fst snd].
  destruct (match tail with Some _ => _ | None => _ end).
  - unfold finalize_with. rewrite finalize_stmts, Hst. by apply new_stmt_removed.
  - destruct (column_names_of p db') as [names|i].
    + by exists p.
    + unfold finalize_with. rewrite finalize_stmts, Hst. by apply new_stmt_removed.
Qed.

Lemma stmt_prepare_owns_what_it_creates_witness :
  match @stmt_prepare_body demo_text demo_db demo_sqlite (str "SELECT n") (mkDemo ∅ 2) with
  | (Ok st, db') => exists p, raw_stmt st = Some p /\ p ∉ (∅ : gset ptr) /\ d_live db' = {[p]} ∪ ∅
  | (Err _, db') => d_live db' = ∅
  end.
Proof.
  exact (@stmt_prepare_owns_what_it_creates demo_text demo_db demo_sqlite demo_sqlite_laws
    (str "SELECT n") (mkDemo ∅ 2)).
Defined.

(** [stream_open] is not as careful: parameters that cannot be decoded return after
    the statement was created and before anything owns it. *)
Theorem stream_open_loses_statement `{Beam} `{RusqliteText} {Db} `{SqliteApiLaws Db} sql t (db : Db) p tail db1 e :
  prepare sql db = (Ok (Some p, tail), db1) -> get_type t = TyList -> is_empty_list t = false ->
  (if is_keyword t then result_map (fun _ => tt) (decode_exec_keyword_params t)
   else result_map (fun _ => tt) (decode_plain_list_params t)) = Err e ->
  stream_open_body sql t db = (Err e, db1) /\ p ∉ stmts db /\ stmts db1 = {[p]} ∪ stmts db.
Proof.
  intros Hp Ht He Hd. pose proof (prepare_spec sql db) as Hs. rewrite Hp in Hs. split; [|done].
  unfold stream_open_body, bind. rewrite Hp. cbn [fst]. unfold bind_params_result. rewrite Ht, He.
  destruct (is_keyword t); unfold bind, lift.
  - destruct (decode_exec_keyword_params t); simpl in Hd; [done|]. congruence.
  - destruct (decode_plain_list_params t); simpl in Hd; [done|]. congruence.
Qed.

Lemma stream_open_loses_statement_witness :
  @stream_open_body demo_beam demo_text demo_db demo_sqlite (str "SELECT ?") (TList [TPid 1]) (mkDemo ∅ 0)
  = (Err (UnsupportedDataType TyPid), mkDemo ({[1%positive]} ∪ ∅) 0).
Proof.
  apply (@stream_open_loses_statement demo_beam demo_text demo_db demo_sqlite demo_sqlite_laws
    (str "SELECT ?") (TList [TPid 1]) (mkDemo ∅ 0) 1 (Some [])); vm_compute; reflexivity.
Defined.

(** A batched step of a live statement returns the next rows, at most
    [batch_size] of them and in order, with [done] true exactly when the statement
    has no further row for this batch; cancel tokens are registered only while it
    runs: afterwards the subscriber list is empty again and every token's flag has
    the owners it had before its [Arc] was cloned for the call. *)
Theorem multi_step_batch `{Beam} `{RusqliteText} {Db} `{SqliteApiLaws Db} {LC}
    `{SubscriberListLaws CancelSubscriber LC} (h : XqliteConn Db) names p db rs n tokens (cs : LC) k fl c own :
  1 <= n -> poison h = None -> conn_opt h = Some db -> yields p db rs ->
  sl_holds cs [] k -> k + Z.of_nat (length tokens) < 2 ^ 64 ->
  flags_rep fl c (fun q => own q + occ q tokens)%nat ->
  exists db' cs' fl', stmt_multi_step_impl h (mkStmt (Some p) names) n tokens cs fl
    = Some (TTuple [TAtom "ok"; TMap [(TAtom "rows", TList (map TList (take (Z.to_nat n) rs)));
                      (TAtom "done", encode_bool (negb (Z.to_nat n <=? length rs)%nat))]],
            set_conn h (Some db'), cs', fl') /\
    stmts db' = stmts db /\ sl_holds cs' [] (k + Z.of_nat (length tokens)) /\ flags_rep fl' c own.
Proof.
  intros Hn Hpo Hc Hy Hh Hk Hr. unfold stmt_multi_step_impl. replace (n <? 1) with false by lia.
  rewrite Hpo, Hc. cbn [raw_stmt].
  destruct (guard_new_holds tokens cs [] k Hh Hk) as (g & cs1 & -> & Hg & Hh1).
  destruct (multi_step_loop_yields (Z.to_nat n) p db rs [] Hy) as (db' & -> & Hst).
  destruct (guard_drop_rep g cs1 _ fl c own Hh1) as (cs2 & fl2 & -> & Hh2 & _ & Hr2); [by rewrite Hg|].
  exists db', cs2, fl2. by split_and!.
Qed.

Lemma multi_step_batch_witness :
  exists db' cs' fl', @stmt_multi_step_impl demo_beam demo_text demo_db demo_sqlite
      (hook_list CancelSubscriber) _ (mkXConn None (Some (mkDemo {[1%positive]} 2)) false)
      (mkStmt (Some 1%positive) []) 1 [] sl_new empty_heap
    = Some (TTuple [TAtom "ok"; TMap [(TAtom "rows", TList [TList [TInt 1]]); (TAtom "done", TAtom "false")]],
            mkXConn None (Some db') false, cs', fl').
Proof.
  destruct (@multi_step_batch demo_beam demo_text demo_db demo_sqlite demo_sqlite_laws
    (hook_list CancelSubscriber) _ _ (mkXConn None (Some (mkDemo {[1%positive]} 2)) false) [] 1
    (mkDemo {[1%positive]} 2) [[TInt 1]; [TInt 0]] 1 [] sl_new 1 empty_heap ∅ (fun _ => O))
    as (db' & cs' & fl' & E & _).
  - lia.
  - reflexivity.
  - reflexivity.
  - exact demo_yields.
  - apply sl_new_holds.
  - simpl. lia.
  - intros q. simpl. rewrite lookup_empty. reflexivity.
  - exists db', cs', fl'. exact E.
Defined.
