(* ===== verification/Blob.v ===== *)
(** * [blob.rs]: incremental BLOB handles

    Reads and writes at an offset inside an open blob, on unsigned 64-bit offsets
    and lengths from Elixir and 32-bit ones towards SQLite. *)

From S2P Require Import Prelude RustStr Sqlite Terms Heap ConstraintParse Error Util Connection Query.

Class BlobApi (Db : Type) := {
  blob_errmsg : Db -> option bytes;
  sqlite3_blob_open : bytes -> bytes -> bytes -> Z -> bool -> Db -> Z * ptr * Db;
  sqlite3_blob_bytes : ptr -> Db -> Z;
  (** blob, length, offset: the code and, when OK, the bytes read *)
  sqlite3_blob_read : ptr -> Z -> Z -> Db -> Z * bytes * Db;
  sqlite3_blob_write : ptr -> bytes -> Z -> Z -> Db -> Z * Db;
  sqlite3_blob_reopen : ptr -> Z -> Db -> Z * Db;
  sqlite3_blob_close : ptr -> Db -> Db;
  (** the bytes of the row's value while the handle is usable *)
  blob_content : ptr -> Db -> option bytes;
}.

(** SQLite's documented reads and writes: inside the blob they copy exactly the
    bytes asked for, outside they are refused and change nothing. *)
Class BlobApiLaws (Db : Type) `{BlobApi Db} := {
  blob_bytes_content p db c : blob_content p db = Some c ->
    sqlite3_blob_bytes p db = Z.of_nat (length c) /\ Z.of_nat (length c) <= i32_max;
  blob_read_in p n off db c : blob_content p db = Some c -> 0 <= off -> 0 <= n ->
    off + n <= Z.of_nat (length c) ->
    exists db', sqlite3_blob_read p n off db
      = (SQLITE_OK, take (Z.to_nat n) (drop (Z.to_nat off) c), db') /\ blob_content p db' = Some c;
  blob_write_in p data n off db c : blob_content p db = Some c -> 0 <= off -> n = Z.of_nat (length data) ->
    off + n <= Z.of_nat (length c) ->
    match sqlite3_blob_write p data n off db with
    | (rc, db') => if rc =? SQLITE_OK
        then blob_content p db' = Some (take (Z.to_nat off) c ++ data ++ drop (Z.to_nat (off + n)) c)
        else True
    end;
}.

Record XqliteBlob := mkBlob { blob : option ptr }.

Section Blob.
  Context `{Beam} `{RusqliteText} {Db : Type} `{BlobApiLaws Db}.

Definition blob_error (rc : Z) (db : Db) : XqliteError :=
  from_rusqlite (R_SqliteFailure (ffi_new rc)
    (Some match blob_errmsg db with
          | Some m => m
          | None => str "SQLite blob operation failed (code " ++ show_Z rc ++ str ")"
          end)).

Definition with_live_blob {R} (h : XqliteConn Db) (b : XqliteBlob) (f : ptr -> M Db R)
    : result R XqliteError * XqliteConn Db :=
  with_conn h match blob b with None => fail ConnectionClosed | Some p => f p end.

Definition c_string (s : bytes) : result bytes XqliteError :=
  if bool_decide (NUL ∈ s) then Err NulErrorInString else Ok s.

Definition blob_open (h : XqliteConn Db) (dbn table column : bytes) (row_id : Z) (read_only : bool)
    : result XqliteBlob XqliteError * XqliteConn Db :=
  with_conn h
    (let* c_db := lift (c_string dbn) in
     let* c_table := lift (c_string table) in
     let* c_column := lift (c_string column) in
     fun db =>
       let '(rc, p, db) := sqlite3_blob_open c_db c_table c_column row_id (negb read_only) db in
       if negb (rc =? SQLITE_OK) then (Err (blob_error rc db), db)
       else (Ok (mkBlob (Some p)), db)).

(** [session::to_owned_binary] *)
Definition to_owned_binary (bs : bytes) (context : bytes) : result bytes XqliteError :=
  if owned_binary_ok (Z.of_nat (length bs)) then Ok bs
  else Err (InternalEncodingError (str "failed to allocate binary for " ++ context)).

(** [sqlite3_blob_bytes(ptr).max(0) as usize] *)
Definition blob_size (p : ptr) (db : Db) : Z := Z.max 0 (sqlite3_blob_bytes p db).

Definition blob_read_body (offset len : Z) (p : ptr) : M Db bytes := fun db =>
  let size := blob_size p db in
  let actual_len := if size <=? offset then 0 else Z.min len (size - offset) in
  if actual_len =? 0 then (to_owned_binary [] (str "blob read"), db)
  else
    let c_offset := wrap_signed 32 offset in
    let c_len := wrap_signed 32 actual_len in
    if negb (owned_binary_ok actual_len)
    then (Err (InternalEncodingError (str "failed to allocate binary for blob read")), db)
    else
      let '(rc, bs, db) := sqlite3_blob_read p c_len c_offset db in
      if negb (rc =? SQLITE_OK) then (Err (blob_error rc db), db) else (Ok bs, db).

Definition blob_read (h : XqliteConn Db) (b : XqliteBlob) (offset len : Z) :=
  with_live_blob h b (blob_read_body offset len).

(** [usize::saturating_add] *)
Definition saturating_add (a b : Z) : Z := Z.min u64_max (a + b).

Definition blob_write_body (offset : Z) (data : bytes) (p : ptr) : M Db unit := fun db =>
  let size := blob_size p db in
  if size <? saturating_add (Z.of_nat (length data)) offset
  then (Err (from_rusqlite R_BlobSizeError), db)
  else
    let c_offset := wrap_signed 32 offset in
    let c_len := wrap_signed 32 (Z.of_nat (length data)) in
    let '(rc, db) := sqlite3_blob_write p data c_len c_offset db in
    if negb (rc =? SQLITE_OK) then (Err (blob_error rc db), db) else (Ok tt, db).

Definition blob_write (h : XqliteConn Db) (b : XqliteBlob) (offset : Z) (data : bytes) :=
  with_live_blob h b (blob_write_body offset data).

Definition blob_size_nif (h : XqliteConn Db) (b : XqliteBlob) :=
  with_live_blob h b (fun p => reads (blob_size p)).

Definition blob_reopen (h : XqliteConn Db) (b : XqliteBlob) (row_id : Z) :=
  with_live_blob h b (fun p db =>
    let '(rc, db) := sqlite3_blob_reopen p row_id db in
    if negb (rc =? SQLITE_OK) then (Err (blob_error rc db), db) else (Ok tt, db)).

Definition blob_close (h : XqliteConn Db) (b : XqliteBlob) : result unit XqliteError * XqliteBlob * XqliteConn Db :=
  match blob b with
  | None => (Ok tt, mkBlob None, h)
  | Some p =>
      match poison h with
      | Some e => (Err (LockError e), mkBlob None, h)
      | None => (Ok tt, mkBlob None, set_conn h (option_map (sqlite3_blob_close p) (conn_opt h)))
      end
  end.

(** [Drop]: the error is only logged. *)
Definition blob_drop (h : XqliteConn Db) (b : XqliteBlob) : XqliteConn Db :=
  let '(_, _, h) := blob_close h b in h.

(** ** Lemmas *)

Lemma wrap32_id z : 0 <= z <= i32_max -> wrap_signed 32 z = z.
Proof.
  intros Hz. unfold i32_max in Hz. unfold wrap_signed. rewrite Z.mod_small by lia.
  by replace (z <? 2 ^ (32 - 1)) with true by lia.
Qed.

Lemma take_min {A} n (l : list A) : take (min n (length l)) l = take n l.
Proof.
  destruct (Nat.le_ge_cases n (length l)).
  - by replace (min n (length l)) with n by lia.
  - replace (min n (length l)) with (length l) by lia. by rewrite !take_ge by lia.
Qed.

Lemma blob_read_slice p offset len db c :
  (forall n, owned_binary_ok n = true) -> blob_content p db = Some c -> 0 <= offset -> 0 <= len ->
  exists db', blob_read_body offset len p db
    = (Ok (take (Z.to_nat len) (drop (Z.to_nat offset) c)), db') /\ blob_content p db' = Some c.
Proof.
  intros Ha Hc Ho Hl. unfold blob_read_body, blob_size. destruct (blob_bytes_content p db c Hc) as [-> Hmax].
  replace (Z.max 0 (Z.of_nat (length c))) with (Z.of_nat (length c)) by lia.
  destruct (Z.leb_spec (Z.of_nat (length c)) offset) as [Hpast|Hin].
  - exists db. rewrite Z.eqb_refl. unfold to_owned_binary. rewrite Ha. split; [|done].
    rewrite drop_ge by lia. by rewrite take_nil.
  - destruct (Z.eqb_spec (Z.min len (Z.of_nat (length c) - offset)) 0) as [Hz|Hnz].
    + exists db. unfold to_owned_binary. rewrite Ha. split; [|done].
      replace (Z.to_nat len) with O by lia. by rewrite take_0.
    + rewrite Ha. cbn [negb]. unfold i32_max in Hmax. rewrite !wrap32_id by (unfold i32_max; lia).
      destruct (blob_read_in p (Z.min len (Z.of_nat (length c) - offset)) offset db c Hc)
        as (db' & -> & Hc'); [lia..|].
      exists db'. split; [|done]. cbn [negb Z.eqb]. do 2 f_equal.
      rewrite <- (take_min (Z.to_nat len)). f_equal. rewrite length_drop. lia.
Qed.

End Blob.

(** ** A blob store for the witnesses: the handle 1 over one value *)

Definition demo_blobs : BlobApi bytes := {|
  blob_errmsg _ := None;
  sqlite3_blob_open _ _ _ _ _ db := (SQLITE_OK, 1%positive, db);
  sqlite3_blob_bytes _ db := if Z.of_nat (length db) <=? i32_max then Z.of_nat (length db) else 0;
  sqlite3_blob_read _ n off db := (SQLITE_OK, take (Z.to_nat n) (drop (Z.to_nat off) db), db);
  sqlite3_blob_write _ data n off db :=
    (SQLITE_OK, take (Z.to_nat off) db ++ data ++ drop (Z.to_nat (off + n)) db);
  sqlite3_blob_reopen _ _ db := (SQLITE_OK, db);
  sqlite3_blob_close _ db := db;
  blob_content _ db := if Z.of_nat (length db) <=? i32_max then Some db else None;
|}.

Definition demo_blobs_laws : @BlobApiLaws bytes demo_blobs.
Proof.
  constructor; simpl.
  - intros p db c. destruct (Z.of_nat (length db) <=? i32_max) eqn:E; [|discriminate].
    intros [= <-]. split; [done|lia].
  - intros p n off db c. destruct (Z.of_nat (length db) <=? i32_max) eqn:E; [|discriminate].
    intros [= <-] **. eexists. split; [done|]. by rewrite E.
  - intros p data n off db c. destruct (Z.of_nat (length db) <=? i32_max) eqn:E; [|discriminate].
    intros [= <-] Ho Hn Hle. replace (Z.of_nat _ <=? i32_max) with true; [done|].
    symmetry. apply Z.leb_le. rewrite !length_app, length_take, length_drop. lia.
Defined.

(** ** Theorems *)

(** Reading a blob returns exactly the bytes of its value in the range asked for
    that exist, for every 64-bit offset and length: nothing past the end, an empty
    binary when the range starts at or past it, and no offset or length is truncated
    on the way to SQLite's 32-bit interface. *)
Theorem blob_read_is_clamped_slice `{Beam} `{RusqliteText} {Db} `{BlobApiLaws Db}
    (h : XqliteConn Db) p db c offset len :
  (forall n, owned_binary_ok n = true) -> poison h = None -> conn_opt h = Some db ->
  blob_content p db = Some c -> 0 <= offset -> 0 <= len ->
  exists db', blob_read h (mkBlob (Some p)) offset len
    = (Ok (take (Z.to_nat len) (drop (Z.to_nat offset) c)), set_conn h (Some db')) /\
    blob_content p db' = Some c.
Proof.
  intros Ha Hp Hc Hb Ho Hl. destruct (blob_read_slice p offset len db c Ha Hb Ho Hl) as (db' & E & Hb').
  exists db'. split; [|done]. unfold blob_read, with_live_blob. cbn [blob].
  rewrite (with_conn_open _ _ db) by done. by rewrite E.
Qed.

Lemma blob_read_is_clamped_slice_witness :
  exists db', @blob_read demo_beam demo_text bytes demo_blobs (mkXConn None (Some [1; 2; 3]) false)
    (mkBlob (Some 1%positive)) 1 18446744073709551615 = (Ok [2; 3], mkXConn None (Some db') false).
Proof.
  destruct (@blob_read_is_clamped_slice demo_beam demo_text bytes demo_blobs demo_blobs_laws
    (mkXConn None (Some [1; 2; 3]) false) 1 [1; 2; 3] [1; 2; 3] 1 18446744073709551615)
    as (db' & E & _); try reflexivity; try lia.
  exists db'. rewrite take_ge in E by (simpl; lia). exact E.
Defined.

(** C29: a blob handle is a window on its bytes.  Reading any 64-bit offset and length gives
    exactly the bytes of that range that exist, untruncated.  A write that would reach past the end of the blob is refused before SQLite is
    called, also when offset plus length overflows 64 bits; any other write that
    SQLite accepts replaces exactly the bytes in its range, and reading the range
    back gives the data written. *)
Theorem blob_write_then_read `{Beam} `{RusqliteText} {Db} `{BlobApiLaws Db} p (db : Db) c offset data :
  (forall n, owned_binary_ok n = true) -> blob_content p db = Some c -> 0 <= offset <= u64_max ->
  Z.of_nat (length data) <= u64_max ->
  (forall off len, 0 <= off -> 0 <= len -> exists db2,
     blob_read_body off len p db = (Ok (take (Z.to_nat len) (drop (Z.to_nat off) c)), db2) /\
     blob_content p db2 = Some c) /\
  (Z.of_nat (length c) < offset + Z.of_nat (length data) ->
     blob_write_body offset data p db = (Err (from_rusqlite R_BlobSizeError), db)) /\
  (forall db', blob_write_body offset data p db = (Ok tt, db') ->
     offset + Z.of_nat (length data) <= Z.of_nat (length c) /\
     blob_content p db' = Some (take (Z.to_nat offset) c ++ data
                                ++ drop (Z.to_nat (offset + Z.of_nat (length data))) c) /\
     exists db2, blob_read_body offset (Z.of_nat (length data)) p db' = (Ok data, db2)).
Proof.
  intros Ha Hc Ho Hd. split; [intros off len; by apply blob_read_slice|]. unfold blob_write_body, blob_size, saturating_add.
  destruct (blob_bytes_content p db c Hc) as [-> Hmax].
  replace (Z.max 0 (Z.of_nat (length c))) with (Z.of_nat (length c)) by lia.
  unfold i32_max, u64_max in *. split.
  - intros Hlt. by replace (_ <? _) with true by lia.
  - intros db'. destruct (Z.ltb_spec (Z.of_nat (length c)) (Z.min 18446744073709551615 (Z.of_nat (length data) + offset)))
      as [|Hin]; [done|].
    rewrite !wrap32_id by (unfold i32_max; lia).
    pose proof (blob_write_in p data (Z.of_nat (length data)) offset db c Hc) as Hw.
    destruct (sqlite3_blob_write _ _ _ _ _) as [rc db2]. destruct (Z.eqb_spec rc SQLITE_OK); [|done].
    cbn [negb]. intros [= <-]. assert (blob_content p db2 = Some (take (Z.to_nat offset) c ++ data
      ++ drop (Z.to_nat (offset + Z.of_nat (length data))) c)) as Hc2 by (apply Hw; lia).
    split_and!; [lia|done|].
    destruct (blob_read_slice p offset (Z.of_nat (length data)) db2 _ Ha Hc2) as (db3 & -> & _); [lia..|].
    exists db3. do 2 f_equal. rewrite drop_app_length' by (rewrite length_take; lia).
    by rewrite Nat2Z.id, take_app_length.
Qed.

Lemma blob_write_then_read_witness :
  @blob_write_body demo_text bytes demo_blobs 18446744073709551615 [9] 1 [1; 2; 3]
  = (Err (@from_rusqlite demo_text R_BlobSizeError), [1; 2; 3]).
Proof.
  destruct (@blob_write_then_read demo_beam demo_text bytes demo_blobs demo_blobs_laws 1 [1; 2; 3] [1; 2; 3]
    18446744073709551615 [9]) as (_ & Hr & _).
  - reflexivity.
  - reflexivity.
  - unfold u64_max. lia.
  - unfold u64_max. simpl. lia.
  - apply Hr. simpl. lia.
Defined.
