(* ===== verification/Authorizer.v ===== *)
(** * [authorizer.rs]: the deny-list authorizer

    A list of action atoms becomes a set of denied kinds; the installed closure
    looks only at the kind of an action, never at its arguments. *)

From S2P Require Import Prelude RustStr Sqlite Terms Heap ConstraintParse Error Util Connection.

Inductive ActionKind :=
| CreateIndex
| CreateTable
| CreateTempIndex
| CreateTempTable
| CreateTempTrigger
| CreateTempView
| CreateTrigger
| CreateView
| Delete
| DropIndex
| DropTable
| DropTempIndex
| DropTempTable
| DropTempTrigger
| DropTempView
| DropTrigger
| DropView
| Insert
| Pragma
| Read
| Select
| Transaction
| Update
| Attach
| Detach
| AlterTable
| Reindex
| Analyze
| CreateVtable
| DropVtable
| Function
| Savepoint
| Recursive
| Unknown.

#[export] Instance ActionKind_eq_dec : EqDecision ActionKind.
Proof. solve_decision. Defined.

(** rusqlite's [AuthAction]: one variant per kind, with the names of the objects
    concerned; [A_Unknown] stands for its unknown and future variants. *)
Inductive AuthAction :=
| A_CreateIndex (args : list bytes)
| A_CreateTable (args : list bytes)
| A_CreateTempIndex (args : list bytes)
| A_CreateTempTable (args : list bytes)
| A_CreateTempTrigger (args : list bytes)
| A_CreateTempView (args : list bytes)
| A_CreateTrigger (args : list bytes)
| A_CreateView (args : list bytes)
| A_Delete (args : list bytes)
| A_DropIndex (args : list bytes)
| A_DropTable (args : list bytes)
| A_DropTempIndex (args : list bytes)
| A_DropTempTable (args : list bytes)
| A_DropTempTrigger (args : list bytes)
| A_DropTempView (args : list bytes)
| A_DropTrigger (args : list bytes)
| A_DropView (args : list bytes)
| A_Insert (args : list bytes)
| A_Pragma (args : list bytes)
| A_Read (args : list bytes)
| A_Select
| A_Transaction (args : list bytes)
| A_Update (args : list bytes)
| A_Attach (args : list bytes)
| A_Detach (args : list bytes)
| A_AlterTable (args : list bytes)
| A_Reindex (args : list bytes)
| A_Analyze (args : list bytes)
| A_CreateVtable (args : list bytes)
| A_DropVtable (args : list bytes)
| A_Function (args : list bytes)
| A_Savepoint (args : list bytes)
| A_Recursive
| A_Unknown (code : Z).

Definition kind_of (action : AuthAction) : ActionKind :=
  match action with
  | A_CreateIndex _ => CreateIndex
  | A_CreateTable _ => CreateTable
  | A_CreateTempIndex _ => CreateTempIndex
  | A_CreateTempTable _ => CreateTempTable
  | A_CreateTempTrigger _ => CreateTempTrigger
  | A_CreateTempView _ => CreateTempView
  | A_CreateTrigger _ => CreateTrigger
  | A_CreateView _ => CreateView
  | A_Delete _ => Delete
  | A_DropIndex _ => DropIndex
  | A_DropTable _ => DropTable
  | A_DropTempIndex _ => DropTempIndex
  | A_DropTempTable _ => DropTempTable
  | A_DropTempTrigger _ => DropTempTrigger
  | A_DropTempView _ => DropTempView
  | A_DropTrigger _ => DropTrigger
  | A_DropView _ => DropView
  | A_Insert _ => Insert
  | A_Pragma _ => Pragma
  | A_Read _ => Read
  | A_Select => Select
  | A_Transaction _ => Transaction
  | A_Update _ => Update
  | A_Attach _ => Attach
  | A_Detach _ => Detach
  | A_AlterTable _ => AlterTable
  | A_Reindex _ => Reindex
  | A_Analyze _ => Analyze
  | A_CreateVtable _ => CreateVtable
  | A_DropVtable _ => DropVtable
  | A_Function _ => Function
  | A_Savepoint _ => Savepoint
  | A_Recursive => Recursive
  | A_Unknown _ => Unknown
  end.

Definition action_table : list (string * ActionKind) :=
  [("create_index", CreateIndex);
   ("create_table", CreateTable);
   ("create_temp_index", CreateTempIndex);
   ("create_temp_table", CreateTempTable);
   ("create_temp_trigger", CreateTempTrigger);
   ("create_temp_view", CreateTempView);
   ("create_trigger", CreateTrigger);
   ("create_view", CreateView);
   ("delete", Delete);
   ("drop_index", DropIndex);
   ("drop_table", DropTable);
   ("drop_temp_index", DropTempIndex);
   ("drop_temp_table", DropTempTable);
   ("drop_temp_trigger", DropTempTrigger);
   ("drop_temp_view", DropTempView);
   ("drop_trigger", DropTrigger);
   ("drop_view", DropView);
   ("insert", Insert);
   ("pragma", Pragma);
   ("read", Read);
   ("select", Select);
   ("transaction", Transaction);
   ("update", Update);
   ("attach", Attach);
   ("detach", Detach);
   ("alter_table", AlterTable);
   ("reindex", Reindex);
   ("analyze", Analyze);
   ("create_vtable", CreateVtable);
   ("drop_vtable", DropVtable);
   ("function", Function);
   ("savepoint", Savepoint);
   ("recursive", Recursive);
   ("unknown", Unknown)].

(** [find_map(|(a, kind)| (a == atom).then_some(kind))] *)
Fixpoint find_kind (atom : string) (tbl : list (string * ActionKind)) : option ActionKind :=
  match tbl with
  | [] => None
  | (a, kind) :: tbl => if String.eqb a atom then Some kind else find_kind atom tbl
  end.

Definition from_atom (atom : string) : result ActionKind XqliteError :=
  ok_or (InvalidAuthorizerAction atom) (find_kind atom action_table).

(** The [HashSet] as the list it is collected from. *)
Definition parse_denied (actions : list string) : result (list ActionKind) XqliteError :=
  collect_map from_atom actions.

Inductive Authorization := Deny | Allow.

(** The closure [set] installs. *)
Definition authorize (denied : list ActionKind) (action : AuthAction) : Authorization :=
  if bool_decide (kind_of action ∈ denied) then Deny else Allow.

Section Install.
  Context `{RusqliteText} {Db : Type}.
  (** [conn.authorizer(hook)] *)
  Context (conn_authorizer : option (AuthAction -> Authorization) -> Db -> result unit RusqliteError * Db).

Definition authorizer_set (denied : list ActionKind) : M Db unit :=
  rq (conn_authorizer (Some (authorize denied))).
Definition authorizer_clear : M Db unit := rq (conn_authorizer None).

Definition set_authorizer (h : XqliteConn Db) (denied_actions : list string) : term * XqliteConn Db :=
  match parse_denied denied_actions with
  | Err e => (error_tuple (encode e), h)
  | Ok denied =>
      let '(r, h) := with_conn h (authorizer_set denied) in (singular_ok_or_error_tuple r, h)
  end.

Definition remove_authorizer (h : XqliteConn Db) : term * XqliteConn Db :=
  let '(r, h) := with_conn h authorizer_clear in (singular_ok_or_error_tuple r, h).
End Install.

(** ** The documented names *)

(** The atom that names an action: SQLite's constant for it in lower case, as
    [lib/xqlite.ex] says.  Written from the actions, not from the code's tables. *)
Definition documented_name (action : AuthAction) : string :=
  match action with
  | A_CreateIndex _ => "create_index"
  | A_CreateTable _ => "create_table"
  | A_CreateTempIndex _ => "create_temp_index"
  | A_CreateTempTable _ => "create_temp_table"
  | A_CreateTempTrigger _ => "create_temp_trigger"
  | A_CreateTempView _ => "create_temp_view"
  | A_CreateTrigger _ => "create_trigger"
  | A_CreateView _ => "create_view"
  | A_Delete _ => "delete"
  | A_DropIndex _ => "drop_index"
  | A_DropTable _ => "drop_table"
  | A_DropTempIndex _ => "drop_temp_index"
  | A_DropTempTable _ => "drop_temp_table"
  | A_DropTempTrigger _ => "drop_temp_trigger"
  | A_DropTempView _ => "drop_temp_view"
  | A_DropTrigger _ => "drop_trigger"
  | A_DropView _ => "drop_view"
  | A_Insert _ => "insert"
  | A_Pragma _ => "pragma"
  | A_Read _ => "read"
  | A_Select => "select"
  | A_Transaction _ => "transaction"
  | A_Update _ => "update"
  | A_Attach _ => "attach"
  | A_Detach _ => "detach"
  | A_AlterTable _ => "alter_table"
  | A_Reindex _ => "reindex"
  | A_Analyze _ => "analyze"
  | A_CreateVtable _ => "create_vtable"
  | A_DropVtable _ => "drop_vtable"
  | A_Function _ => "function"
  | A_Savepoint _ => "savepoint"
  | A_Recursive => "recursive"
  | A_Unknown _ => "unknown"
  end%string.

Definition action_named (a : string) : Prop := exists action, a = documented_name action.

(** ** Lemmas *)

Lemma from_documented_name action : from_atom (documented_name action) = Ok (kind_of action).
Proof. by destruct action. Qed.

Lemma find_kind_in atom tbl k : find_kind atom tbl = Some k -> (atom, k) ∈ tbl.
Proof.
  induction tbl as [|[a k'] tbl IH]; simpl; [done|].
  destruct (String.eqb_spec a atom) as [->|]; [intros [= ->]; by left|]. intros. right. auto.
Qed.

Lemma kind_has_action k : exists action, kind_of action = k.
Proof.
  destruct k; [
    by exists (A_CreateIndex [])|by exists (A_CreateTable [])|by exists (A_CreateTempIndex [])|by exists
    (A_CreateTempTable [])|by exists (A_CreateTempTrigger [])|by exists (A_CreateTempView [])|by exists
    (A_CreateTrigger [])|by exists (A_CreateView [])|by exists (A_Delete [])|by exists (A_DropIndex [])|by exists
    (A_DropTable [])|by exists (A_DropTempIndex [])|by exists (A_DropTempTable [])|by exists (A_DropTempTrigger
    [])|by exists (A_DropTempView [])|by exists (A_DropTrigger [])|by exists (A_DropView [])|by exists (A_Insert
    [])|by exists (A_Pragma [])|by exists (A_Read [])|by exists A_Select|by exists (A_Transaction [])|by exists
    (A_Update [])|by exists (A_Attach [])|by exists (A_Detach [])|by exists (A_AlterTable [])|by exists (A_Reindex
    [])|by exists (A_Analyze [])|by exists (A_CreateVtable [])|by exists (A_DropVtable [])|by exists (A_Function
    [])|by exists (A_Savepoint [])|by exists A_Recursive|by exists (A_Unknown 0)].
Qed.

(** Only the documented name of an action gives its kind. *)
Lemma table_names : Forall (fun e => forall action, kind_of action = e.2 -> e.1 = documented_name action) action_table.
Proof. unfold action_table. repeat constructor; cbn [fst snd]; intros []; first [discriminate|reflexivity]. Qed.

Lemma from_atom_ok atom action : from_atom atom = Ok (kind_of action) <-> atom = documented_name action.
Proof.
  split; [|intros ->; apply from_documented_name].
  unfold from_atom. destruct (find_kind atom action_table) as [k|] eqn:E; [|done].
  intros [= ->]. apply find_kind_in in E. pose proof table_names as HF. rewrite list.Forall_forall in HF.
  exact (HF _ E action eq_refl).
Qed.

Lemma from_atom_err atom : ~ action_named atom -> from_atom atom = Err (InvalidAuthorizerAction atom).
Proof.
  intros Hn. destruct (from_atom atom) as [k|e] eqn:E.
  - destruct (kind_has_action k) as [action <-]. apply from_atom_ok in E. destruct Hn. by exists action.
  - unfold from_atom in E. by destruct (find_kind atom action_table); simpl in E; simplify_eq.
Qed.

Lemma denied_exactly atoms denied : parse_denied atoms = Ok denied ->
  forall action, authorize denied action = Deny <-> documented_name action ∈ atoms.
Proof.
  intros Hd action. apply collect_map_ok in Hd. unfold authorize. case_bool_decide as Hin.
  - split; [intros _|done]. apply list_elem_of_lookup_1 in Hin as [i Hi].
    destruct (Forall2_lookup_r _ _ _ _ _ Hd Hi) as (a & Ha & E).
    apply from_atom_ok in E as ->. by eapply list_elem_of_lookup_2.
  - split; [done|]. intros Hin2. destruct Hin. apply list_elem_of_lookup_1 in Hin2 as [i Hi].
    destruct (Forall2_lookup_l _ _ _ _ _ Hd Hi) as (k & Hk & E).
    rewrite from_documented_name in E. injection E as ->. by eapply list_elem_of_lookup_2.
Qed.

Lemma named_parse atoms : Forall action_named atoms -> exists denied, parse_denied atoms = Ok denied.
Proof.
  intros Hf. destruct (parse_denied atoms) as [denied|e] eqn:E; [by exists denied|].
  apply collect_map_err in E as (good & bad & rest & -> & E & _). apply list.Forall_app in Hf as [_ Hf].
  apply Forall_cons_1 in Hf as [[action ->] _]. by rewrite from_documented_name in E.
Qed.

(** ** Theorems *)

(** C32: [set_authorizer] with documented names hands SQLite, in place of the authorizer
    it had, one that denies exactly the actions named, whatever their arguments, and
    allows every other; a list with a name that is none is refused whole, before the
    connection is touched, naming the first such; [remove_authorizer] hands SQLite no
    authorizer.  The call answers what SQLite answers. *)
Theorem authorizer_denies_exactly `{RusqliteText} {Db}
    (conn_authorizer : option (AuthAction -> Authorization) -> Db -> result unit RusqliteError * Db)
    (h : XqliteConn Db) (atoms : list string) :
  let installs f := let '(r, h') := with_conn h (rq (conn_authorizer f)) in (singular_ok_or_error_tuple r, h') in
  (Forall action_named atoms -> exists f,
     (forall action, f action = if bool_decide (documented_name action ∈ atoms) then Deny else Allow) /\
     set_authorizer conn_authorizer h atoms = installs (Some f)) /\
  (forall good bad rest, atoms = good ++ bad :: rest -> Forall action_named good -> ~ action_named bad ->
     set_authorizer conn_authorizer h atoms = (error_tuple (encode (InvalidAuthorizerAction bad)), h)) /\
  remove_authorizer conn_authorizer h = installs None.
Proof.
  cbv zeta. unfold set_authorizer. split_and!; [| |done].
  - intros [denied Hd]%named_parse. rewrite Hd. exists (authorize denied). split; [|done]. intros action.
    pose proof (denied_exactly _ _ Hd action) as Hx. case_bool_decide as Hin; [by apply Hx|].
    destruct (authorize denied action); [by destruct Hin; apply Hx|done].
  - intros good bad rest -> Hg Hb. unfold parse_denied.
    rewrite (proj2 (collect_map_err from_atom (good ++ bad :: rest) (InvalidAuthorizerAction bad))); [done|].
    exists good, bad, rest. split_and!; [done|by apply from_atom_err|].
    eapply Forall_impl; [|exact Hg]. intros a [action ->]. exists (kind_of action). apply from_documented_name.
Qed.

(** A connection that keeps the authorizer it was given. *)
Lemma authorizer_denies_exactly_witness :
  exists f h', @set_authorizer demo_text _ (fun f _ => (Ok tt, f)) (mkXConn None (Some None) false) ["delete"; "read"]%string
      = (TAtom "ok", h') /\ conn_opt h' = Some (Some f) /\
    f (A_Delete [str "t"]) = Deny /\ f (A_Read [str "t"; str "c"]) = Deny /\ f (A_Insert [str "t"]) = Allow.
Proof.
  destruct (@authorizer_denies_exactly demo_text (option (AuthAction -> Authorization)) (fun f _ => (Ok tt, f))
    (mkXConn None (Some None) false) ["delete"; "read"]%string) as [Hs _].
  destruct Hs as (f & Hf & E).
  - repeat constructor; [by exists (A_Delete [])|by exists (A_Read [])].
  - exists f. eexists. split; [exact E|]. rewrite !Hf. split; [reflexivity|]. split; [reflexivity|]. split; reflexivity.
Defined.
