(* ===== verification/ExplainAnalyze.v ===== *)
(** * [explain_analyze.rs]: running a statement and reporting its counters

    The statement is prepared, its query plan read with a second statement, then it
    is bound, stepped to the end, measured and finalized.  The two loops that SQLite
    ends run on fuel; [None] is fuel exhausted. *)

From S2P Require Import Prelude RustStr Sqlite Terms Heap ConstraintParse Error Util RustFloat SchemaDefault HookList Hooks ProgressDispatch Connection Query Schema Statements.

Record StmtCounters := mkCounters {
  fullscan_step : Z; sort : Z; autoindex : Z; vm_step : Z; reprepare : Z; run : Z; filter_miss : Z;
  filter_hit : Z; memused_bytes : Z }.

Record ScanStatus := mkScan {
  loops : Z; rows_visited : Z; estimated_rows : f64; scan_name : bytes; explain : bytes; selectid : Z;
  parentid : Z }.

Record QueryPlanRow := mkPlanRow { plan_id : Z; plan_parent : Z; plan_detail : bytes }.

Record ExplainAnalyze := mkExplain {
  wall_time_ns : Z; rows_produced : Z; stmt_counters : StmtCounters; scans : list ScanStatus;
  query_plan : list QueryPlanRow }.

(** The counters of [sqlite3_stmt_status]. *)
Definition SQLITE_STMTSTATUS_FULLSCAN_STEP : Z := 1.
Definition SQLITE_STMTSTATUS_SORT : Z := 2.
Definition SQLITE_STMTSTATUS_AUTOINDEX : Z := 3.
Definition SQLITE_STMTSTATUS_VM_STEP : Z := 4.
Definition SQLITE_STMTSTATUS_REPREPARE : Z := 5.
Definition SQLITE_STMTSTATUS_RUN : Z := 6.
Definition SQLITE_STMTSTATUS_FILTER_MISS : Z := 7.
Definition SQLITE_STMTSTATUS_FILTER_HIT : Z := 8.
Definition SQLITE_STMTSTATUS_MEMUSED : Z := 99.

(** What the functions of this file call besides [SqliteApi] and [RusqliteConn]. *)
Class ExplainApi (Db : Type) := {
  sqlite3_stmt_status : ptr -> Z -> Db -> Z;
  (** the seven [sqlite3_stmt_scanstatus_v2] reads of loop [idx], texts null or lossy; [None]: a
      non-zero code for the first of them *)
  sqlite3_scanstatus : ptr -> nat -> Db -> option (Z * Z * f64 * option bytes * option bytes * Z * Z);
  (** [stmt.raw_query()] of a prepared SQL text, stepped to the end *)
  raw_query : bytes -> Db -> list (result row RusqliteError) * Db;
  (** [start.elapsed().as_nanos() as u64] *)
  elapsed_ns : Db -> Z;
}.

(** Rusqlite finalizes its own statements when they are dropped. *)
Class RusqliteDrops (Db : Type) `{SqliteApi Db} `{RusqliteConn Db} `{ExplainApi Db} := {
  rusqlite_prepare_stmts sql db : stmts (conn_prepare sql db).2 = stmts db;
  rusqlite_raw_query_stmts sql db : stmts (raw_query sql db).2 = stmts db;
}.

Section Explain.
  Context `{Beam} `{RusqliteText} {Db : Type} `{SqliteApiLaws Db} `{RusqliteConn Db} `{ExplainApi Db}.

Definition zero_counters : StmtCounters := mkCounters 0 0 0 0 0 0 0 0 0.

Definition ffi_error (db : Db) (code : Z) : XqliteError :=
  sqlite_error code (str "SQLite error (code " ++ show_Z code ++ str ") but no message available") db.

Definition bind_params (p : ptr) (params_term : term) : M Db unit :=
  match get_type params_term with
  | TyList =>
      if is_empty_list params_term then ret tt
      else if is_keyword params_term then
        let* named := lift (decode_exec_keyword_params params_term) in bind_named_params_ffi p named
      else
        let* positional := lift (decode_plain_list_params params_term) in bind_positional_params_ffi p positional
  | _ => if is_nil params_term then ret tt else fail (ExpectedList (term_debug params_term))
  end.

(** [row.get::<_, i32>(i)] *)
Definition get_i32 (names : list bytes) (r : row) (i : nat) : result Z RusqliteError :=
  let? z := get_i64 names r i in
  if in_i 32 z then Ok z else Err (R_IntegralValueOutOfRange (Z.of_nat i) z).

Definition plan_row (names : list bytes) (r : row) : result QueryPlanRow RusqliteError :=
  let? id := get_i32 names r 0 in
  let? parent := get_i32 names r 1 in
  let? detail := get_string names r 3 in
  Ok (mkPlanRow id parent detail).

Definition collect_query_plan (sql : bytes) : M Db (list QueryPlanRow) :=
  let eqp_sql := str "EXPLAIN QUERY PLAN " ++ sql in
  let* names := rq (conn_prepare eqp_sql) in
  if negb (length names =? 4)%nat
  then fail (CannotExecute (str "EXPLAIN QUERY PLAN returned " ++ show_Z (Z.of_nat (length names))
                            ++ str " columns; expected 4"))
  else
    let* rows := ffi_call (raw_query eqp_sql) in
    lift (collect_map (fun r => map_err from_rusqlite (let? r := r in plan_row names r)) rows).

Definition collect_stmt_counters (p : ptr) (db : Db) : StmtCounters :=
  let get op := sqlite3_stmt_status p op db in
  mkCounters (get SQLITE_STMTSTATUS_FULLSCAN_STEP) (get SQLITE_STMTSTATUS_SORT)
    (get SQLITE_STMTSTATUS_AUTOINDEX) (get SQLITE_STMTSTATUS_VM_STEP) (get SQLITE_STMTSTATUS_REPREPARE)
    (get SQLITE_STMTSTATUS_RUN) (get SQLITE_STMTSTATUS_FILTER_MISS) (get SQLITE_STMTSTATUS_FILTER_HIT)
    (get SQLITE_STMTSTATUS_MEMUSED).

Definition cstr_to_string (p : option bytes) : bytes := default [] p.

Fixpoint collect_scan_status (fuel : nat) (p : ptr) (idx : nat) (db : Db) : option (list ScanStatus) :=
  match fuel with
  | O => None
  | S fuel =>
      match sqlite3_scanstatus p idx db with
      | None => Some []
      | Some (nloop, nvisit, est, name_ptr, explain_ptr, selectid, parentid) =>
          let! scans := collect_scan_status fuel p (S idx) db in
          Some (mkScan nloop nvisit est (cstr_to_string name_ptr) (cstr_to_string explain_ptr) selectid parentid
                  :: scans)
      end
  end.

(** The step loop: how many rows the statement gave. *)
Fixpoint step_loop (fuel : nat) (p : ptr) (rows_produced : Z) (db : Db) : option (result Z XqliteError * Db) :=
  match fuel with
  | O => None
  | S fuel =>
      let '(rc, db) := sqlite3_step p db in
      if rc =? SQLITE_ROW then step_loop fuel p (rows_produced + 1) db
      else if rc =? SQLITE_DONE then Some (Ok rows_produced, db)
      else Some (Err (ffi_error db rc), db)
  end.

Definition run_and_collect (fuel : nat) (p : ptr) (params_term : term) (plan : list QueryPlanRow) (db : Db)
    : option (result ExplainAnalyze XqliteError * Db) :=
  match bind_params p params_term db with
  | (Err e, db) => Some (Err e, db)
  | (Ok _, db) =>
      let! r := step_loop fuel p 0 db in
      match r with
      | (Err e, db) => Some (Err e, db)
      | (Ok rows_produced, db) =>
          let! scans := collect_scan_status fuel p 0 db in
          Some (Ok (mkExplain (elapsed_ns db) rows_produced (collect_stmt_counters p db) scans plan), db)
      end
  end.

Definition core_explain_analyze (fuel : nat) (sql : bytes) (params_term : term) (db : Db)
    : option (result ExplainAnalyze XqliteError * Db) :=
  if bool_decide (NUL ∈ sql) then Some (Err NulErrorInString, db)
  else if i32_max <? Z.of_nat (length sql) then Some (Err (CannotExecute (str "SQL too long")), db)
  else
    let '(prepare_rc, stmt_ptr, _, db) := sqlite3_prepare_v2 sql db in
    if negb (prepare_rc =? SQLITE_OK) then Some (Err (ffi_error db prepare_rc), db)
    else
      match stmt_ptr with
      | None => Some (Ok (mkExplain 0 0 zero_counters [] []), db)
      | Some p =>
          match collect_query_plan sql db with
          | (Err e, db) => Some (Err e, db)                          (* [?]: no [sqlite3_finalize] *)
          | (Ok plan, db) =>
              let! r := run_and_collect fuel p params_term plan db in
              let '(result, db) := r in
              Some (result, sqlite3_finalize p db)
          end
      end.

(** ** Encoding *)

(** The chained [map_put]s of the encoders. *)
Fixpoint put_all (m : term) (kvs : list (string * term)) : result term unit :=
  match kvs with
  | [] => Ok m
  | (k, v) :: kvs => let? m := map_put m k v in put_all m kvs
  end.

Definition map_or_encoding_error (built : result term unit) (context : string) : term :=
  match built with Ok m => m | Err _ => encode (InternalEncodingError (str context)) end.

Definition encode_counters (c : StmtCounters) : term :=
  map_or_encoding_error (put_all map_new
    [("fullscan_step", TInt (fullscan_step c)); ("sort", TInt (sort c)); ("autoindex", TInt (autoindex c));
     ("vm_step", TInt (vm_step c)); ("reprepare", TInt (reprepare c)); ("run", TInt (run c));
     ("filter_miss", TInt (filter_miss c)); ("filter_hit", TInt (filter_hit c));
     ("memused_bytes", TInt (memused_bytes c))]%string) "explain_analyze stmt_counters".

Definition encode_scan (s : ScanStatus) : term :=
  map_or_encoding_error (put_all map_new
    [("loops", TInt (loops s)); ("rows_visited", TInt (rows_visited s));
     ("estimated_rows", TFloat (estimated_rows s)); ("name", TBin (scan_name s)); ("explain", TBin (explain s));
     ("selectid", TInt (selectid s)); ("parentid", TInt (parentid s))]%string) "explain_analyze scan".

Definition encode_plan_row (r : QueryPlanRow) : term :=
  map_or_encoding_error (put_all map_new
    [("id", TInt (plan_id r)); ("parent", TInt (plan_parent r)); ("detail", TBin (plan_detail r))]%string)
    "explain_analyze query_plan row".

Definition encode_explain (e : ExplainAnalyze) : term :=
  map_or_encoding_error (put_all map_new
    [("wall_time_ns", TInt (wall_time_ns e)); ("rows_produced", TInt (rows_produced e));
     ("stmt_counters", encode_counters (stmt_counters e)); ("scans", TList (map encode_scan (scans e)));
     ("query_plan", TList (map encode_plan_row (query_plan e)))]%string) "explain_analyze result".

(** ** What SQLite will do *)

(** Statement [p] will give [n] rows and then end with code [rc], in state [db']. *)
Inductive steps_to (p : ptr) : Db -> nat -> Z -> Db -> Prop :=
| steps_end db rc db' : sqlite3_step p db = (rc, db') -> rc <> SQLITE_ROW -> steps_to p db 0 rc db'
| steps_row db db1 n rc db' : sqlite3_step p db = (SQLITE_ROW, db1) -> steps_to p db1 n rc db' ->
    steps_to p db (S n) rc db'.

(** The statement's plan has [n] loops. *)
Definition has_loops (p : ptr) (db : Db) (n : nat) : Prop :=
  (forall i, (i < n)%nat -> is_Some (sqlite3_scanstatus p i db)) /\ sqlite3_scanstatus p n db = None.

(** Loop [i] of the plan, as [sqlite3_stmt_scanstatus_v2] describes it. *)
Definition scan_of (p : ptr) (db : Db) (i : nat) (s : ScanStatus) : Prop :=
  match sqlite3_scanstatus p i db with
  | Some (nloop, nvisit, est, name, expl, sel, par) =>
      loops s = nloop /\ rows_visited s = nvisit /\ estimated_rows s = est /\ scan_name s = default [] name /\
      explain s = default [] expl /\ selectid s = sel /\ parentid s = par
  | None => False
  end.

(** ** Lemmas *)

Lemma steps_to_stmts p db n rc db' : steps_to p db n rc db' -> stmts db' = stmts db.
Proof.
  induction 1 as [db rc db' E _|db db1 n rc db' E _ IH]; pose proof (step_stmts p db) as Hs;
    rewrite E in Hs; simpl in Hs; congruence.
Qed.

Lemma step_loop_steps p db n rc db' : steps_to p db n rc db' -> forall fuel k, (n < fuel)%nat ->
  step_loop fuel p k db = Some (if rc =? SQLITE_DONE then Ok (k + Z.of_nat n) else Err (ffi_error db' rc), db').
Proof.
  induction 1 as [db rc db' E Hrc|db db1 n rc db' E _ IH]; intros [|fuel] k Hf; try lia;
    cbn [step_loop]; rewrite E.
  - destruct (Z.eqb_spec rc SQLITE_ROW); [done|]. rewrite Z.add_0_r. by destruct (rc =? SQLITE_DONE).
  - rewrite Z.eqb_refl, IH by lia. by replace (k + 1 + Z.of_nat n) with (k + Z.of_nat (S n)) by lia.
Qed.

Lemma scan_status_loops p db n : has_loops p db n -> forall m i fuel, (i + m = n)%nat -> (m < fuel)%nat ->
  exists l, collect_scan_status fuel p i db = Some l /\ Forall2 (scan_of p db) (seq i m) l.
Proof.
  intros [Hl Hn]. induction m as [|m IH]; intros i [|fuel] Hi Hf; try lia; cbn [collect_scan_status].
  - replace i with n by lia. rewrite Hn. by exists [].
  - destruct (Hl i) as [[[[[[[a b] c] d] e] f] g] E]; [lia|]. rewrite E.
    destruct (IH (S i) fuel) as (l & -> & Hlen); [lia|lia|]. eexists. split; [done|]. constructor; [|done].
    unfold scan_of. rewrite E. by split_and!.
Qed.

(** The counters of a report are those of the statement, each under its own name. *)
Definition counters_of (p : ptr) (db : Db) (c : StmtCounters) : Prop :=
  let st := fun op => sqlite3_stmt_status p op db in
  fullscan_step c = st 1 /\ sort c = st 2 /\ autoindex c = st 3 /\ vm_step c = st 4 /\ reprepare c = st 5 /\ run c = st 6 /\
  filter_miss c = st 7 /\ filter_hit c = st 8 /\ memused_bytes c = st 99.

(** What the report on a statement says that gave [n] rows in state [db], its plan having [nl] loops. *)
Definition reports_on (p : ptr) (plan : list QueryPlanRow) (n nl : nat) (db : Db) (e : ExplainAnalyze) : Prop :=
  rows_produced e = Z.of_nat n /\ query_plan e = plan /\ wall_time_ns e = elapsed_ns db /\
  counters_of p db (stmt_counters e) /\ Forall2 (scan_of p db) (seq 0 nl) (scans e).

Lemma run_reports p params plan db2 db3 n rc db4 nl fuel : bind_params p params db2 = (Ok tt, db3) ->
  steps_to p db3 n rc db4 -> has_loops p db4 nl -> (n < fuel)%nat -> (nl < fuel)%nat ->
  exists r, run_and_collect fuel p params plan db2 = Some (r, db4) /\
    if rc =? SQLITE_DONE then exists e, r = Ok e /\ reports_on p plan n nl db4 e else r = Err (ffi_error db4 rc).
Proof.
  intros Hbind Hsteps Hloops Hf1 Hf2. unfold run_and_collect. rewrite Hbind, (step_loop_steps _ _ _ _ _ Hsteps) by done.
  destruct (scan_status_loops _ _ _ Hloops nl 0 fuel) as (l & Hl & Hll); [lia|done|].
  destruct (rc =? SQLITE_DONE); [|by eexists]. rewrite Hl. eexists. split; [done|]. eexists. split; [done|]. by split_and!.
Qed.

Lemma bind_params_keeps p t db : stmts (bind_params p t db).2 = stmts db.
Proof.
  unfold bind_params, bind, lift, ret, fail.
  destruct (get_type t); try (by destruct (is_nil t)).
  destruct (is_empty_list t); [done|]. destruct (is_keyword t).
  - destruct (decode_exec_keyword_params t); [apply bind_named_stmts|done].
  - destruct (decode_plain_list_params t); [apply bind_from_stmts|done].
Qed.

Lemma query_plan_keeps `{!RusqliteDrops Db} sql db : stmts (collect_query_plan sql db).2 = stmts db.
Proof.
  unfold collect_query_plan, bind, rq, ffi_call, lift, fail.
  pose proof (rusqlite_prepare_stmts (str "EXPLAIN QUERY PLAN " ++ sql) db) as Hp.
  destruct (conn_prepare _ db) as [[names|] db1]; cbn [map_err snd fst] in *; [|done].
  destruct (negb _); [done|].
  pose proof (rusqlite_raw_query_stmts (str "EXPLAIN QUERY PLAN " ++ sql) db1) as Hr.
  destruct (raw_query _ db1) as [rows db2]. simpl in *. congruence.
Qed.

End Explain.

(** ** A database for the witnesses: the statement of [demo_sqlite], with a plan of one loop; a text that
    starts with [E] has no plan *)

Definition demo_rusqlite : RusqliteConn demo_db := {|
  conn_prepare sql db :=
    match strip_prefix (str "EXPLAIN QUERY PLAN E") sql with
    | Some _ => (Err (R_Other (str "syntax error")), db)
    | None => (Ok [str "id"; str "parent"; str "notused"; str "detail"], db)
    end;
  stmt_query _ _ db := (Ok [], db);
  stmt_execute _ _ db := (Ok 0, db);
  conn_execute _ db := (Ok 0, db);
  conn_execute_batch _ db := (Ok tt, db);
  conn_query_value _ db := (Ok VNull, db);
  total_changes _ := 0;
  changes _ := 0;
|}.

Definition demo_explain : ExplainApi demo_db := {|
  sqlite3_stmt_status _ op _ := op;
  sqlite3_scanstatus _ i _ :=
    match i with O => Some (1, 2, SpecFloat.S754_zero false, Some (str "t"), None, 3, 0) | S _ => None end;
  raw_query _ db := ([Ok (cells [VInteger 2; VInteger 0; VInteger 0; VText (str "SCAN t")])], db);
  elapsed_ns _ := 5;
|}.

Definition demo_drops : @RusqliteDrops demo_db demo_sqlite demo_rusqlite demo_explain.
Proof. constructor; [|done]. intros sql db. cbn. by destruct (strip_prefix _ sql). Defined.

(** ** Theorems *)

(** C28: [explain_analyze] on every path.  A text with a NUL or beyond 32 bits is refused
    untouched; a text SQLite does not compile answers the code, classified, and an empty
    one an empty report, with SQLite's statements as they were.  Otherwise: a query
    plan that cannot be read answers its error and leaves the prepared statement behind
    (and only then); parameters that cannot be bound answer their error; and once the
    statement ends (with enough fuel for its rows and loops) the answer is the error it
    ended with, or a report of exactly its rows, its plan, its counters and one scan per
    loop.  In these cases the statement is finalized and SQLite's statements are as
    they were. *)
Theorem explain_analyze_reports `{Beam} `{RusqliteText} {Db} `{SqliteApiLaws Db} `{RusqliteConn Db} `{ExplainApi Db}
    `{!RusqliteDrops Db} sql params (db : Db) fuel :
  let call := core_explain_analyze fuel sql params db in
  let answers r db' := call = Some (r, db') /\ stmts db' = stmts db in
  if bool_decide (NUL ∈ sql) then call = Some (Err NulErrorInString, db)
  else if i32_max <? Z.of_nat (length sql) then call = Some (Err (CannotExecute (str "SQL too long")), db)
  else
    match sqlite3_prepare_v2 sql db with
    | (rc, None, _, db1) => answers (if rc =? SQLITE_OK then Ok (mkExplain 0 0 zero_counters [] []) else Err (ffi_error db1 rc)) db1
    | (_, Some p, _, db1) =>
        match collect_query_plan sql db1 with
        | (Err e, db2) => call = Some (Err e, db2) /\ stmts db2 = {[p]} ∪ stmts db /\ p ∉ stmts db
        | (Ok plan, db2) =>
            match bind_params p params db2 with
            | (Err e, db3) => answers (Err e) (sqlite3_finalize p db3)
            | (Ok _, db3) => forall n rc db4 nl, steps_to p db3 n rc db4 -> has_loops p db4 nl -> (n < fuel)%nat -> (nl < fuel)%nat ->
                exists r, answers r (sqlite3_finalize p db4) /\
                  if rc =? SQLITE_DONE then exists e, r = Ok e /\ reports_on p plan n nl db4 e else r = Err (ffi_error db4 rc)
            end
        end
    end.
Proof.
  cbv zeta. unfold core_explain_analyze. destruct (bool_decide (NUL ∈ sql)); [done|]. destruct (i32_max <? _); [done|].
  pose proof (prepare_stmts sql db) as Hs. destruct (sqlite3_prepare_v2 sql db) as [[[rc [p|]] tail] db1];
    [|by destruct (rc =? SQLITE_OK)]. destruct Hs as (-> & Hp & Hs). cbn [Z.eqb SQLITE_OK negb].
  pose proof (query_plan_keeps sql db1) as Hq. destruct (collect_query_plan sql db1) as [[plan|e] db2]; cbn [snd] in Hq;
    [|by split_and!; [|congruence|]].
  assert (Hfin : forall db', stmts db' = stmts db2 -> stmts (sqlite3_finalize p db') = stmts db).
  { intros db' E. rewrite finalize_stmts, E, Hq, Hs. by apply new_stmt_removed. }
  pose proof (bind_params_keeps p params db2) as Hb. destruct (bind_params p params db2) as [[[]|e] db3] eqn:Eb; cbn [snd] in Hb.
  - intros n rc db4 nl Hst Hl Hf1 Hf2. destruct (run_reports p params plan db2 db3 n rc db4 nl fuel Eb Hst Hl Hf1 Hf2) as (r & -> & Hr).
    exists r. split; [|exact Hr]. split; [done|]. apply Hfin. by rewrite (steps_to_stmts _ _ _ _ _ Hst).
  - unfold run_and_collect. rewrite Eb. split; [done|]. by apply Hfin.
Qed.

(** Two rows, a plan of one loop. *)
Lemma explain_analyze_reports_witness :
  exists r, @core_explain_analyze demo_beam demo_text demo_db demo_sqlite demo_rusqlite demo_explain
      3 (str "SELECT n") nil_term (mkDemo ∅ 2) = Some (r, mkDemo ({[1%positive]} ∖ {[1%positive]}) 0) /\
    exists e, r = Ok e /\ rows_produced e = 2 /\ vm_step (stmt_counters e) = 4 /\ length (scans e) = 1%nat.
Proof.
  pose proof (@explain_analyze_reports demo_beam demo_text demo_db demo_sqlite demo_sqlite_laws demo_rusqlite
    demo_explain demo_drops (str "SELECT n") nil_term (mkDemo ∅ 2) 3) as Hr.
  destruct (Hr 2%nat SQLITE_DONE (mkDemo {[1%positive]} 0) 1%nat) as (r & [E _] & e & He & Hn & _ & _ & Hc & Hs).
  - eapply steps_row; [reflexivity|]. eapply steps_row; [reflexivity|]. eapply steps_end; [reflexivity|done].
  - split; [|reflexivity]. intros [|i] Hi; [|lia]. eexists. reflexivity.
  - lia.
  - lia.
  - exists r. split; [exact E|]. exists e. split; [exact He|]. split; [exact Hn|]. split; [apply Hc|].
    symmetry. exact (list.Forall2_length _ _ _ Hs).
Defined.

(** A query plan that cannot be read leaves the statement behind: nothing finalizes
    it and nothing refers to it any more. *)
Theorem explain_analyze_loses_statement `{Beam} `{RusqliteText} {Db} `{SqliteApiLaws Db} `{RusqliteConn Db}
    `{ExplainApi Db} `{!RusqliteDrops Db} sql params (db : Db) p tail db1 e db2 fuel :
  NUL ∉ sql -> Z.of_nat (length sql) <= i32_max ->
  sqlite3_prepare_v2 sql db = (SQLITE_OK, Some p, tail, db1) ->
  collect_query_plan sql db1 = (Err e, db2) ->
  core_explain_analyze fuel sql params db = Some (Err e, db2) /\ stmts db2 = {[p]} ∪ stmts db.
Proof.
  intros Hnul Hlen Hprep Hplan. unfold core_explain_analyze. rewrite bool_decide_eq_false_2 by done.
  destruct (Z.ltb_spec i32_max (Z.of_nat (length sql))); [lia|].
  pose proof (prepare_stmts sql db) as Hs1. rewrite Hprep in Hs1 |- *. destruct Hs1 as (_ & Hni & Hs1).
  cbn [Z.eqb SQLITE_OK negb]. rewrite Hplan. split; [done|].
  pose proof (query_plan_keeps sql db1) as Hq. rewrite Hplan in Hq. simpl in Hq. congruence.
Qed.

Lemma explain_analyze_loses_statement_witness :
  exists e, @core_explain_analyze demo_beam demo_text demo_db demo_sqlite demo_rusqlite demo_explain
      3 (str "EXPLAIN SELECT n") nil_term (mkDemo ∅ 2) = Some (Err e, mkDemo {[1%positive]} 2).
Proof.
  eexists. apply (@explain_analyze_loses_statement demo_beam demo_text demo_db demo_sqlite demo_sqlite_laws
    demo_rusqlite demo_explain demo_drops (str "EXPLAIN SELECT n") nil_term (mkDemo ∅ 2) 1 (Some [])
    (mkDemo {[1%positive]} 2)).
  - by_compute.
  - vm_compute. discriminate.
  - vm_compute. reflexivity.
  - vm_compute. reflexivity.
Defined.
