(* ===== verification/Session.v ===== *)
(** * [session.rs] and the session and changeset NIFs

    A session records changes of its connection; every call on it goes through the
    connection's lock and then the session's own.  Changesets are applied with a
    conflict handler that must stay within what SQLite allows for each conflict. *)

From S2P Require Import Prelude RustStr Sqlite Terms Heap ConstraintParse Error Util HookList Hooks ProgressDispatch Connection Query Blob.

Inductive ConflictType :=
| CHANGESET_DATA | CHANGESET_NOTFOUND | CHANGESET_CONFLICT | CHANGESET_CONSTRAINT | CHANGESET_FOREIGN_KEY
| CHANGESET_UNKNOWN.
Inductive ConflictAction := CHANGESET_OMIT | CHANGESET_REPLACE | CHANGESET_ABORT.
#[export] Instance ConflictAction_eq_dec : EqDecision ConflictAction.
Proof. solve_decision. Defined.
#[export] Instance ConflictType_eq_dec : EqDecision ConflictType.
Proof. solve_decision. Defined.

(** [rusqlite::session]: a session is its handle; the streaming functions return
    the bytes they write. *)
Class SessionApi (Db : Type) := {
  session_create : Db -> result ptr RusqliteError * Db;
  session_attach_table : ptr -> option bytes -> Db -> result unit RusqliteError * Db;
  changeset_strm : ptr -> Db -> result bytes RusqliteError * Db;
  patchset_strm : ptr -> Db -> result bytes RusqliteError * Db;
  session_empty : ptr -> Db -> bool;
  sqlite3session_delete : ptr -> Db -> Db;
  apply_strm : bytes -> (ConflictType -> ConflictAction) -> Db -> result unit RusqliteError * Db;
  invert_strm : bytes -> result bytes RusqliteError;
  concat_strm : bytes -> bytes -> result bytes RusqliteError;
  (** the sessions that exist *)
  sessions : Db -> gset ptr;
}.

(** The per-session Mutex: its poison text and what it guards. *)
Record XqliteSession := mkSession { s_poison : option bytes; session : option ptr }.

Section Session.
  Context `{Beam} `{RusqliteText} {Db : Type} `{SessionApi Db}.

Definition session_new (h : XqliteConn Db) : result XqliteSession XqliteError * XqliteConn Db :=
  with_conn h (let* s := rq session_create in ret (mkSession None (Some s))).

(** [with_session] and [with_session_mut] *)
Definition with_session {R} (h : XqliteConn Db) (s : XqliteSession) (func : ptr -> M Db R)
    : result R XqliteError * XqliteConn Db :=
  match poison h with
  | Some e => (Err (LockError e), h)
  | None =>
      match conn_opt h with
      | None => (Err ConnectionClosed, h)
      | Some db =>
          match s_poison s with
          | Some e => (Err (LockError e), h)
          | None =>
              match session s with
              | Some p => let '(r, db) := func p db in (r, set_conn h (Some db))
              | None => (Err ConnectionClosed, h)
              end
          end
      end
  end.

(** [close]: the session is deleted while the connection is open and forgotten
    otherwise; its guard is recovered even when poisoned. *)
Definition session_close (h : XqliteConn Db) (s : XqliteSession)
    : result unit XqliteError * XqliteSession * XqliteConn Db :=
  match session s with
  | None => (Ok tt, s, h)
  | Some p =>
      match poison h, conn_opt h with
      | None, Some db => (Ok tt, mkSession (s_poison s) None, set_conn h (Some (sqlite3session_delete p db)))
      | _, _ => (Ok tt, mkSession (s_poison s) None, h)
      end
  end.

(** [Drop] *)
Definition session_drop (h : XqliteConn Db) (s : XqliteSession) : XqliteConn Db :=
  let '(_, _, h) := session_close h s in h.

Definition binary_or_error (r : result bytes XqliteError) : term :=
  match r with Ok b => ok_tuple (TBin b) | Err err => error_tuple (encode err) end.

Definition session_attach (h : XqliteConn Db) (s : XqliteSession) (table : option bytes) : term * XqliteConn Db :=
  let '(r, h) := with_session h s (fun p => rq (session_attach_table p table)) in
  (singular_ok_or_error_tuple r, h).

Definition session_changeset (h : XqliteConn Db) (s : XqliteSession) : term * XqliteConn Db :=
  let '(r, h) := with_session h s (fun p =>
    let* output := rq (changeset_strm p) in lift (to_owned_binary output (str "changeset"))) in
  (binary_or_error r, h).

Definition session_patchset (h : XqliteConn Db) (s : XqliteSession) : term * XqliteConn Db :=
  let '(r, h) := with_session h s (fun p =>
    let* output := rq (patchset_strm p) in lift (to_owned_binary output (str "patchset"))) in
  (binary_or_error r, h).

Definition session_is_empty (h : XqliteConn Db) (s : XqliteSession) : result bool XqliteError * XqliteConn Db :=
  with_session h s (fun p => reads (session_empty p)).

Definition session_delete (h : XqliteConn Db) (s : XqliteSession) : term * XqliteSession * XqliteConn Db :=
  let '(r, s, h) := session_close h s in (singular_ok_or_error_tuple r, s, h).

(** ** Changesets *)

(** The closure given to [apply_strm]. *)
Definition conflict_handler (strategy : ConflictAction) (conflict_type : ConflictType) : ConflictAction :=
  if decide (strategy = CHANGESET_ABORT) then CHANGESET_ABORT
  else if decide (strategy = CHANGESET_REPLACE) then
    match conflict_type with
    | CHANGESET_DATA | CHANGESET_CONFLICT => CHANGESET_REPLACE
    | _ => CHANGESET_ABORT
    end
  else CHANGESET_OMIT.

Definition strategy_of (conflict_strategy : string) : option ConflictAction :=
  if String.eqb conflict_strategy "omit" then Some CHANGESET_OMIT
  else if String.eqb conflict_strategy "replace" then Some CHANGESET_REPLACE
  else if String.eqb conflict_strategy "abort" then Some CHANGESET_ABORT
  else None.

Definition changeset_apply (h : XqliteConn Db) (changeset : bytes) (conflict_strategy : string)
    : term * XqliteConn Db :=
  match strategy_of conflict_strategy with
  | None => (error_tuple (TAtom "invalid_conflict_strategy"), h)
  | Some strategy =>
      let '(r, h) := with_conn h (rq (apply_strm changeset (conflict_handler strategy))) in
      (singular_ok_or_error_tuple r, h)
  end.

Definition changeset_invert (changeset : bytes) : term :=
  binary_or_error (let? output := map_err from_rusqlite (invert_strm changeset) in
                   to_owned_binary output (str "inverted changeset")).

Definition changeset_concat (a b : bytes) : term :=
  binary_or_error (let? output := map_err from_rusqlite (concat_strm a b) in
                   to_owned_binary output (str "concatenated changeset")).

End Session.

(** ** What is documented of conflicts *)

(** The answers [lib/xqlite/xqlitenif.ex] documents: each strategy's name, and for each
    kind of conflict what SQLite is told. *)
Definition documented_answers : list (string * (ConflictType -> ConflictAction)) := [
  ("omit", fun _ => CHANGESET_OMIT);
  ("replace", fun t =>
     match t with
     | CHANGESET_DATA => CHANGESET_REPLACE
     | CHANGESET_CONFLICT => CHANGESET_REPLACE
     | CHANGESET_NOTFOUND => CHANGESET_ABORT
     | CHANGESET_CONSTRAINT => CHANGESET_ABORT
     | CHANGESET_FOREIGN_KEY => CHANGESET_ABORT
     | CHANGESET_UNKNOWN => CHANGESET_ABORT
     end);
  ("abort", fun _ => CHANGESET_ABORT)]%string.

Definition documented (name : string) : option (ConflictType -> ConflictAction) :=
  option_map snd (List.find (fun e => String.eqb name e.1) documented_answers).

(** SQLite takes REPLACE only for DATA and CONFLICT conflicts; any other use is SQLITE_MISUSE. *)
Definition action_legal (a : ConflictAction) (t : ConflictType) : Prop :=
  a = CHANGESET_REPLACE -> t = CHANGESET_DATA \/ t = CHANGESET_CONFLICT.

(** [met]: the conflicts [sqlite3changeset_apply] asks the handler about.  ABORT rolls
    back what was applied, and the call fails. *)
Class ApplyLaws {Db C : Type} `{SessionApi Db} (content : Db -> C)
    (met : bytes -> (ConflictType -> ConflictAction) -> Db -> list ConflictType) : Prop := {
  abort_rolls_back changeset handler db : Exists (fun t => handler t = CHANGESET_ABORT) (met changeset handler db) ->
    exists e db', apply_strm changeset handler db = (Err e, db') /\ content db' = content db;
}.

Lemma strategy_documented name :
  match documented name, strategy_of name with
  | Some answer, Some s => forall t, conflict_handler s t = answer t
  | None, None => True
  | _, _ => False
  end.
Proof.
  unfold documented, strategy_of. cbn [documented_answers List.find fst].
  destruct (String.eqb name "omit"); [by cbn|]. destruct (String.eqb name "replace"); [by intros []|].
  destruct (String.eqb name "abort"); by cbn.
Qed.

(** ** Theorems *)

(** C31: [changeset_apply] with a name that is no strategy answers
    [:invalid_conflict_strategy] and touches nothing.  Otherwise SQLite applies the
    changeset with a handler that answers every kind of conflict as documented for that
    strategy, never REPLACE where SQLite forbids it, and the call answers what SQLite
    answers; and when SQLite meets a conflict the strategy aborts at (any conflict for
    [:abort]; one that is neither DATA nor CONFLICT for [:replace]), the answer is an
    error and the content is what it was. *)
Theorem changeset_conflicts_resolved `{RusqliteText} {Db C} `{SessionApi Db} (content : Db -> C) met
    `{!ApplyLaws content met} (h : XqliteConn Db) db changeset name :
  poison h = None -> conn_opt h = Some db ->
  match documented name with
  | None => changeset_apply h changeset name = (error_tuple (TAtom "invalid_conflict_strategy"), h)
  | Some answer => exists handler r db',
      (forall t, handler t = answer t /\ action_legal (handler t) t) /\ apply_strm changeset handler db = (r, db') /\
      changeset_apply h changeset name = (singular_ok_or_error_tuple (map_err from_rusqlite r), set_conn h (Some db')) /\
      (Exists (fun t => answer t = CHANGESET_ABORT) (met changeset handler db) -> (exists e, r = Err e) /\ content db' = content db)
  end.
Proof.
  intros Hp Hc. unfold changeset_apply. pose proof (strategy_documented name) as Hs.
  destruct (documented name) as [answer|]; destruct (strategy_of name) as [s|]; try done.
  unfold with_conn, rq. rewrite Hp, Hc. destruct (apply_strm changeset (conflict_handler s) db) as [r db'] eqn:E.
  exists (conflict_handler s), r, db'. split_and!; [|exact E|done|].
  - intros t. split; [apply Hs|]. by destruct s, t; cbn; intros ?; auto.
  - intros Hm. destruct (abort_rolls_back changeset (conflict_handler s) db) as (e & db1 & E1 & Hcont).
    + eapply list.Exists_impl; [exact Hm|]. intros t Ht. by rewrite Hs.
    + rewrite E in E1. injection E1 as -> ->. eauto.
Qed.

(** ** A database whose only row is missing: every changeset meets a NOTFOUND conflict *)

Definition demo_changes : SessionApi nat := {|
  session_create db := (Ok 1%positive, db);
  session_attach_table _ _ db := (Ok tt, db);
  changeset_strm _ db := (Ok [], db);
  patchset_strm _ db := (Ok [], db);
  session_empty _ _ := true;
  sqlite3session_delete _ db := db;
  apply_strm _ handler db :=
    match handler CHANGESET_NOTFOUND with CHANGESET_ABORT => (Err (R_Other (str "aborted")), db) | _ => (Ok tt, S db) end;
  invert_strm c := Ok c;
  concat_strm a b := Ok (a ++ b);
  sessions _ := ∅;
|}.

#[export] Instance demo_changes_laws : @ApplyLaws nat nat demo_changes id (fun _ _ _ => [CHANGESET_NOTFOUND]).
Proof.
  constructor. intros cs handler db He. inversion He as [t l Ht|t l Ht]; subst; [|inversion Ht].
  cbn. rewrite Ht. by eexists _, db.
Qed.

Lemma changeset_conflicts_resolved_witness :
  exists t h', @changeset_apply demo_text nat demo_changes (mkXConn None (Some 7%nat) false) [] "replace" = (t, h') /\
    conn_opt h' = Some 7%nat /\ t <> TAtom "ok".
Proof.
  destruct (@changeset_conflicts_resolved demo_text nat nat demo_changes id (fun _ _ _ => [CHANGESET_NOTFOUND])
    demo_changes_laws (mkXConn None (Some 7%nat) false) 7%nat [] "replace" eq_refl eq_refl)
    as (handler & r & db' & _ & _ & E & Ha).
  destruct Ha as [[e ->] Hdb]; [by left|]. do 2 eexists. split; [exact E|]. cbn in Hdb. subst db'. split; [reflexivity|discriminate].
Defined.
