(* ===== verification/Maintenance.v ===== *)
(** * Maintenance NIFs of [nif.rs]: checkpoints, statistics, extensions, backup, serialization *)

From S2P Require Import Prelude RustStr Sqlite Terms Heap ConstraintParse Error Util HookList Hooks ProgressDispatch Connection Query Blob.

Inductive TransactionState := TS_None | TS_Read | TS_Write | TS_Other.
Inductive StepResult := Done | More | Busy | Locked | OtherStep.
#[export] Instance StepResult_eq_dec : EqDecision StepResult.
Proof. solve_decision. Defined.

Definition SQLITE_CHECKPOINT_PASSIVE : Z := 0.
Definition SQLITE_CHECKPOINT_FULL : Z := 1.
Definition SQLITE_CHECKPOINT_RESTART : Z := 2.
Definition SQLITE_CHECKPOINT_TRUNCATE : Z := 3.

(** What these NIFs call. [Bk] is a [rusqlite::backup::Backup] in progress. *)
Class MaintenanceApi (Db Bk : Type) := {
  maint_errmsg : Db -> option bytes;
  is_autocommit : Db -> bool;
  transaction_state : option bytes -> Db -> result TransactionState RusqliteError;
  (** code, pages in the log, pages checkpointed *)
  sqlite3_wal_checkpoint_v2 : option bytes -> Z -> Db -> Z * Z * Z * Db;
  (** code and current value *)
  sqlite3_db_status : Z -> Db -> Z * Z;
  load_extension_enable : Db -> result unit RusqliteError * Db;
  load_extension_disable : Db -> result unit RusqliteError * Db;
  conn_load_extension : bytes -> option bytes -> Db -> result unit RusqliteError * Db;
  (** [Connection::open] of the destination and [Backup::new_with_names] *)
  backup_new : bytes -> bytes -> Db -> result Bk RusqliteError;
  backup_step : Z -> Bk -> result StepResult RusqliteError * Bk;
  backup_remaining : Bk -> Z;
  backup_pagecount : Bk -> Z;
  conn_backup : bytes -> bytes -> Db -> result unit RusqliteError * Db;
  conn_restore : bytes -> bytes -> Db -> result unit RusqliteError * Db;
  conn_serialize : bytes -> Db -> result bytes RusqliteError * Db;
  conn_deserialize : bytes -> bytes -> bool -> Db -> result unit RusqliteError * Db;
}.

Section Maintenance.
  Context `{Beam} `{RusqliteText} {Db Bk : Type} `{MaintenanceApi Db Bk}.

Definition autocommit (h : XqliteConn Db) : result bool XqliteError * XqliteConn Db :=
  with_conn h (reads is_autocommit).

Definition txn_state (h : XqliteConn Db) (schema : option bytes) : result term XqliteError * XqliteConn Db :=
  let '(r, h) := with_conn h (fun db => (map_err from_rusqlite (transaction_state schema db), db)) in
  (let? state := r in
   Ok (TAtom match state with
             | TS_None => "none" | TS_Read => "read" | TS_Write => "write" | TS_Other => "unknown"
             end), h).

(** ** WAL checkpoint *)

Definition checkpoint_mode (mode : string) : option Z :=
  if String.eqb mode "passive" then Some SQLITE_CHECKPOINT_PASSIVE
  else if String.eqb mode "full" then Some SQLITE_CHECKPOINT_FULL
  else if String.eqb mode "restart" then Some SQLITE_CHECKPOINT_RESTART
  else if String.eqb mode "truncate" then Some SQLITE_CHECKPOINT_TRUNCATE
  else None.

Definition put_or_fail (m : term) (k : string) (v : term) (what : bytes) : result term XqliteError :=
  map_err (fun _ => CannotExecute what) (map_put m k v).

Definition checkpoint_map (rc log_pages ckpt_pages : Z) : result term XqliteError :=
  let? m := put_or_fail map_new "log_pages" (TInt log_pages) (str "wal_checkpoint map_put log_pages failed") in
  let? m := put_or_fail m "checkpointed_pages" (TInt ckpt_pages)
              (str "wal_checkpoint map_put checkpointed_pages failed") in
  put_or_fail m "busy" (encode_bool (rc =? SQLITE_BUSY)) (str "wal_checkpoint map_put busy failed").

Definition wal_checkpoint (h : XqliteConn Db) (mode : string) (schema : option bytes)
    : result term XqliteError * XqliteConn Db :=
  match checkpoint_mode mode with
  | None => (Err (CannotExecute (str "invalid wal_checkpoint mode " ++ atom_debug mode
               ++ str "; expected :passive, :full, :restart, or :truncate")), h)
  | Some mode_int =>
      with_conn h
        (let* c_schema := lift match schema with
                               | None => Ok None
                               | Some s => let? c := c_string s in Ok (Some c)
                               end in
         fun db =>
           let '(rc, log_pages, ckpt_pages, db) := sqlite3_wal_checkpoint_v2 c_schema mode_int db in
           if (rc =? SQLITE_OK) || (rc =? SQLITE_BUSY) then (checkpoint_map rc log_pages ckpt_pages, db)
           else (Err (from_rusqlite (R_SqliteFailure (ffi_new rc)
                   (Some match maint_errmsg db with
                         | Some m => m
                         | None => str "sqlite3_wal_checkpoint_v2 failed (code " ++ show_Z rc ++ str ")"
                         end))), db))
  end.

(** ** Statistics *)

Definition status_ops : list (string * Z) :=
  [("lookaside_used", 0); ("cache_used", 1); ("schema_used", 2); ("stmt_used", 3); ("lookaside_hit", 4);
   ("lookaside_miss_size", 5); ("lookaside_miss_full", 6); ("cache_hit", 7); ("cache_miss", 8);
   ("cache_write", 9); ("deferred_fks", 10); ("cache_used_shared", 11); ("cache_spill", 12);
   ("tempbuf_spill", 13)]%string.

Fixpoint stats_loop (ops : list (string * Z)) (m : term) (db : Db) : result term XqliteError :=
  match ops with
  | [] => Ok m
  | (atom, op) :: ops =>
      let '(rc, current) := sqlite3_db_status op db in
      if negb (rc =? SQLITE_OK)
      then Err (CannotExecute (str "sqlite3_db_status(op=" ++ show_Z op ++ str ") returned " ++ show_Z rc))
      else
        let? m := put_or_fail m atom (TInt current)
                    (str "connection_stats map_put for op " ++ show_Z op ++ str " failed") in
        stats_loop ops m db
  end.

Definition connection_stats (h : XqliteConn Db) : result term XqliteError * XqliteConn Db :=
  with_conn h (fun db => (stats_loop status_ops map_new db, db)).

(** ** Extensions: the flag is stored once SQLite agreed *)

Definition enable_load_extension (h : XqliteConn Db) (enabled : bool) : term * XqliteConn Db :=
  match with_conn h (rq (if enabled then load_extension_enable else load_extension_disable)) with
  | (Ok _, h) => (TAtom "ok", mkXConn (poison h) (conn_opt h) enabled)
  | (Err e, h) => (error_tuple (encode e), h)
  end.

Definition load_extension (h : XqliteConn Db) (path : bytes) (entry_point : option bytes) : term * XqliteConn Db :=
  if negb (extensions_enabled h) then (error_tuple (TAtom "extension_loading_disabled"), h)
  else
    let '(r, h) := with_conn h (rq (conn_load_extension path entry_point)) in
    (singular_ok_or_error_tuple r, h).

(** ** Backup *)

Definition backup (h : XqliteConn Db) (schema dest_path : bytes) : term * XqliteConn Db :=
  let '(r, h) := with_conn h (rq (conn_backup schema dest_path)) in (singular_ok_or_error_tuple r, h).

Definition restore (h : XqliteConn Db) (schema src_path : bytes) : term * XqliteConn Db :=
  let '(r, h) := with_conn_mut h (rq (conn_restore schema src_path)) in (singular_ok_or_error_tuple r, h).

Definition progress_message (remaining pagecount : Z) : term :=
  TTuple [make_atom (str "xqlite_backup_progress"); TInt remaining; TInt pagecount].

Definition send_backup_progress (p remaining pagecount : Z) (out : outbox) : outbox :=
  enif_send p (progress_message remaining pagecount) out.

(** The loop; [tokens i] are the values the cancel tokens show at iteration [i].
    [None]: still running when the fuel is used up. *)
Fixpoint backup_loop (fuel : nat) (tokens : nat -> list bool) (p pages_per_step : Z) (i : nat) (b : Bk)
    (out : outbox) : option (result unit XqliteError * Bk * outbox) :=
  match fuel with
  | O => None
  | S fuel =>
      if existsb (fun t => t) (tokens i) then Some (Err OperationCancelled, b, out)
      else
        match backup_step pages_per_step b with
        | (Err e, b) => Some (Err (from_rusqlite e), b, out)
        | (Ok step_result, b) =>
            let out := send_backup_progress p (backup_remaining b) (backup_pagecount b) out in
            match step_result with
            | Done => Some (Ok tt, b, out)
            | More | Busy | Locked | OtherStep => backup_loop fuel tokens p pages_per_step (S i) b out
            end
        end
  end.

Definition backup_with_progress (fuel : nat) (tokens : nat -> list bool) (h : XqliteConn Db)
    (schema dest_path : bytes) (p pages_per_step : Z) (out : outbox) : option (term * option Bk * outbox) :=
  if pages_per_step <? 1 then
    Some (error_tuple (TTuple [TAtom "invalid_pages_per_step"; TInt pages_per_step]), None, out)
  else
    match poison h, conn_opt h with
    | Some e, _ => Some (error_tuple (encode (LockError e)), None, out)
    | None, None => Some (error_tuple (encode ConnectionClosed), None, out)
    | None, Some db =>
        match backup_new schema dest_path db with
        | Err e => Some (error_tuple (encode (from_rusqlite e)), None, out)
        | Ok b =>
            let! r := backup_loop fuel tokens p pages_per_step 0 b out in
            let '(r, b, out) := r in
            Some (singular_ok_or_error_tuple r, Some b, out)
        end
    end.

(** ** Serialization *)

Definition serialize (h : XqliteConn Db) (schema : bytes) : result bytes XqliteError * XqliteConn Db :=
  with_conn h (let* data := rq (conn_serialize schema) in
               lift (to_owned_binary data (str "serialized database"))).

Definition deserialize (h : XqliteConn Db) (schema data : bytes) (read_only : bool) : term * XqliteConn Db :=
  let '(r, h) := with_conn_mut h (rq (conn_deserialize schema data read_only)) in
  (singular_ok_or_error_tuple r, h).

(** ** The run of a backup

    Nothing is assumed of SQLite's steps: how many pages each copies, whether a changed
    source makes it start again and how long the locks last is SQLite's matter.  The
    run is the sequence of states its steps make. *)

Fixpoint backup_state (n : Z) (b : Bk) (k : nat) : Bk :=
  match k with O => b | S k => backup_state n (backup_step n b).2 k end.

(** At its iteration [k] the loop goes on: no token is set and the step answered
    neither an error nor [Done]. *)
Definition goes_on (tokens : nat -> list bool) (n : Z) (b : Bk) (k : nat) : Prop :=
  existsb (fun t => t) (tokens k) = false /\
  match (backup_step n (backup_state n b k)).1 with Ok s => s <> Done | Err _ => False end.

(** One message for each of the first [m] steps, with the progress after it. *)
Definition progress_of (p n : Z) (b : Bk) (m : nat) : outbox :=
  map (fun j => let b' := backup_state n b (S j) in (p, progress_message (backup_remaining b') (backup_pagecount b'))) (seq 0 m).

(** What a loop that stops at iteration [k] answers, its last state and its messages. *)
Definition stops_with (tokens : nat -> list bool) (p n : Z) (b : Bk) (k : nat) : result unit XqliteError * Bk * outbox :=
  if existsb (fun t => t) (tokens k) then (Err OperationCancelled, backup_state n b k, progress_of p n b k)
  else
    match (backup_step n (backup_state n b k)).1 with
    | Err e => (Err (from_rusqlite e), backup_state n b (S k), progress_of p n b k)
    | Ok _ => (Ok tt, backup_state n b (S k), progress_of p n b (S k))
    end.

Lemma progress_of_succ p n b m : progress_of p n b (S m) =
  (p, progress_message (backup_remaining (backup_step n b).2) (backup_pagecount (backup_step n b).2)) ::
  progress_of p n (backup_step n b).2 m.
Proof. unfold progress_of. cbn [seq map backup_state]. f_equal. rewrite <- fmap_S_seq. by rewrite <- list_fmap_compose. Qed.

Lemma goes_on_succ tokens n b k : goes_on tokens n b (S k) <-> goes_on (fun j => tokens (S j)) n (backup_step n b).2 k.
Proof. done. Qed.

Lemma stops_with_succ tokens p n b k : goes_on tokens n b 0 ->
  stops_with tokens p n b (S k) =
  let '(r, b', ms) := stops_with (fun j => tokens (S j)) p n (backup_step n b).2 k in
  (r, b', (p, progress_message (backup_remaining (backup_step n b).2) (backup_pagecount (backup_step n b).2)) :: ms).
Proof.
  intros _. unfold stops_with. cbn [backup_state]. rewrite !progress_of_succ.
  destruct (existsb _ _); [done|]. by destruct (backup_step n (backup_state n (backup_step n b).2 k)).1.
Qed.

(** The loop at iteration [i] sees the tokens from there on. *)
Lemma backup_loop_shift fuel tokens p n i b out :
  backup_loop fuel tokens p n (S i) b out = backup_loop fuel (fun j => tokens (S j)) p n i b out.
Proof.
  revert i b out. induction fuel as [|fuel IH]; intros i b out; [done|]. cbn [backup_loop].
  destruct (existsb _ _); [done|]. destruct (backup_step n b) as [[[]|] b']; done || apply IH.
Qed.

Lemma backup_loop_goes_on fuel tokens p n b out : goes_on tokens n b 0 ->
  backup_loop (S fuel) tokens p n 0 b out =
  backup_loop fuel (fun j => tokens (S j)) p n 0 (backup_step n b).2
    (out ++ [(p, progress_message (backup_remaining (backup_step n b).2) (backup_pagecount (backup_step n b).2))]).
Proof.
  intros [Ht Hs]. cbn [backup_loop]. rewrite Ht. cbn [backup_state] in Hs.
  destruct (backup_step n b) as [[[]|] b']; cbn [fst snd] in *; try done; apply backup_loop_shift.
Qed.

Lemma backup_loop_stops k : forall fuel tokens p n b out, (k < fuel)%nat ->
  (forall j, (j < k)%nat -> goes_on tokens n b j) -> ~ goes_on tokens n b k ->
  backup_loop fuel tokens p n 0 b out = let '(r, b', ms) := stops_with tokens p n b k in Some (r, b', out ++ ms).
Proof.
  induction k as [|k IH]; intros [|fuel] tokens p n b out Hf Hgo Hstop; try lia.
  - unfold goes_on, stops_with, progress_of in *. cbn [backup_loop backup_state seq map] in *.
    destruct (existsb _ (tokens 0%nat)); [by rewrite app_nil_r|].
    destruct (backup_step n b) as [[s|e] b']; cbn [fst snd] in *; [|by rewrite app_nil_r].
    destruct s; try (by destruct Hstop). done.
  - pose proof (Hgo 0%nat ltac:(lia)) as Hfirst. rewrite backup_loop_goes_on, stops_with_succ by done.
    rewrite IH; [|lia| |by rewrite <- goes_on_succ].
    + destruct (stops_with _ p n _ k) as [[r b'] ms]. by rewrite <- app_assoc.
    + intros j Hj. apply goes_on_succ, Hgo. lia.
Qed.

Lemma backup_loop_runs fuel : forall tokens p n b out, (forall j, (j < fuel)%nat -> goes_on tokens n b j) ->
  backup_loop fuel tokens p n 0 b out = None.
Proof.
  induction fuel as [|fuel IH]; intros tokens p n b out Hgo; [done|].
  rewrite backup_loop_goes_on by (apply Hgo; lia). apply IH. intros j Hj. apply goes_on_succ, Hgo. lia.
Qed.

End Maintenance.

(** ** A backup for the witnesses: pages left and locked answers still to come *)

Definition demo_backup : MaintenanceApi unit (Z * nat) := {|
  maint_errmsg _ := None;
  is_autocommit _ := true;
  transaction_state _ _ := Ok TS_None;
  sqlite3_wal_checkpoint_v2 _ _ db := (SQLITE_OK, 0, 0, db);
  sqlite3_db_status _ _ := (SQLITE_OK, 0);
  load_extension_enable db := (Ok tt, db);
  load_extension_disable db := (Ok tt, db);
  conn_load_extension _ _ db := (Ok tt, db);
  backup_new _ _ _ := Ok (5, 1%nat);
  backup_step n b :=
    match b.2 with
    | S k => (Ok Busy, (b.1, k))
    | O => if b.1 <=? n then (Ok Done, (0, O)) else (Ok More, (b.1 - n, O))
    end;
  backup_remaining b := b.1;
  backup_pagecount _ := 5;
  conn_backup _ _ db := (Ok tt, db);
  conn_restore _ _ db := (Ok tt, db);
  conn_serialize _ db := (Ok [], db);
  conn_deserialize _ _ _ db := (Ok tt, db);
|}.

(** ** Theorems *)

(** C30: a backup in steps, whatever SQLite's steps answer.  A step size below one page is
    refused before anything is opened, and a poisoned or closed connection or a
    destination that cannot be opened answers its error.  Otherwise the call returns at
    the first iteration at which a token is set (cancelled, before that step), a step
    fails (its classified error) or a step answers [Done] ([:ok]), and at no other; it
    has then sent one message per step that succeeded, in order, with the pages
    remaining and the page count SQLite reported after that step.  As long as every
    step answers something else and no token is set it is still running. *)
Theorem backup_ends `{Beam} `{RusqliteText} {Db Bk} `{MaintenanceApi Db Bk}
    tokens (h : XqliteConn Db) schema dest p n out fuel :
  let call := backup_with_progress fuel tokens h schema dest p n out in
  if n <? 1 then call = Some (error_tuple (TTuple [TAtom "invalid_pages_per_step"; TInt n]), None, out)
  else
    match poison h, conn_opt h with
    | Some e, _ => call = Some (error_tuple (encode (LockError e)), None, out)
    | None, None => call = Some (error_tuple (encode ConnectionClosed), None, out)
    | None, Some db =>
        match backup_new schema dest db with
        | Err e => call = Some (error_tuple (encode (from_rusqlite e)), None, out)
        | Ok b =>
            (forall k, (k < fuel)%nat -> (forall j, (j < k)%nat -> goes_on tokens n b j) -> ~ goes_on tokens n b k ->
               let '(r, b', ms) := stops_with tokens p n b k in
               call = Some (singular_ok_or_error_tuple r, Some b', out ++ ms)) /\
            ((forall j, (j < fuel)%nat -> goes_on tokens n b j) -> call = None)
        end
    end.
Proof.
  cbv zeta. unfold backup_with_progress. destruct (n <? 1); [done|]. destruct (poison h); [done|].
  destruct (conn_opt h) as [db|]; [|done]. destruct (backup_new schema dest db) as [b|e]; [|done]. split.
  - intros k Hf Hgo Hstop. rewrite (backup_loop_stops k) by done. by destruct (stops_with tokens p n b k) as [[r b'] ms].
  - intros Hgo. by rewrite backup_loop_runs.
Qed.

(** Five pages in steps of two, the first of which finds the source locked. *)
Lemma backup_ends_witness :
  @backup_with_progress demo_beam demo_text unit (Z * nat) demo_backup 4 (fun _ => [])
    (mkXConn None (Some tt) false) (str "main") (str "b.db") 9 2 []
  = Some (TAtom "ok", Some (0, O), map (fun k => (9, @progress_message demo_beam k 5)) [5; 3; 1; 0]).
Proof.
  destruct (@backup_ends demo_beam demo_text unit (Z * nat) demo_backup (fun _ => [])
    (mkXConn None (Some tt) false) (str "main") (str "b.db") 9 2 [] 4) as [Hs _].
  rewrite (Hs 3%nat).
  - vm_compute. reflexivity.
  - lia.
  - intros j Hj. do 3 (destruct j as [|j]; [by split|]). lia.
  - intros [_ Hx]. by vm_compute in Hx.
Defined.

(** Extensions are loaded only while enabled: in a sequence of calls, the flag is
    what the last successful [enable_load_extension] said, and while it is off
    [load_extension] does not reach SQLite. *)
Lemma extension_flag_tracks `{Beam} `{RusqliteText} {Db Bk} `{MaintenanceApi Db Bk} (h : XqliteConn Db) b t h' :
  enable_load_extension h b = (t, h') ->
  (t = TAtom "ok" /\ extensions_enabled h' = b \/ t <> TAtom "ok" /\ extensions_enabled h' = extensions_enabled h) /\
  (forall path entry, extensions_enabled h' = false ->
     load_extension h' path entry = (error_tuple (TAtom "extension_loading_disabled"), h')).
Proof.
  intros E. split; [|intros path entry Hx; unfold load_extension; by rewrite Hx].
  unfold enable_load_extension, with_conn in E. destruct (poison h); [injection E as <- <-; by right|].
  destruct (conn_opt h) as [db|]; [|injection E as <- <-; by right].
  destruct (rq _ db) as [[[]|e] db']; injection E as <- <-; [by left|by right].
Qed.
