(* ===== verification/Nif.v ===== *)
(** * The query and transaction NIFs of [nif.rs]

    Thin entry points over [with_conn]; the cancellable ones clone the tokens'
    flags, register them for the duration of the body and take them back on every
    path. *)

From S2P Require Import Prelude RustStr Sqlite Terms Heap ConstraintParse Error Util HookList Hooks ProgressDispatch Connection Query Statements.

Section Nif.
  Context `{Beam} `{RusqliteText} {Db : Type} `{RusqliteConn Db}.

Definition query (h : XqliteConn Db) (sql : bytes) (params_term : term) :=
  with_conn h (core_query sql params_term).
Definition execute (h : XqliteConn Db) (sql : bytes) (params_term : term) :=
  with_conn h (core_execute sql params_term).
Definition execute_batch (h : XqliteConn Db) (sql_batch : bytes) : term * XqliteConn Db :=
  let '(r, h) := with_conn h (core_execute_batch sql_batch) in (singular_ok_or_error_tuple r, h).

(** [map_put(atoms::columns(), &qr.columns)]: the names go over as binaries. *)
Definition encode_query_result_with_changes (qr : XqliteQueryResult) (changes : Z) : term :=
  let built :=
    let? m := map_err (fun _ => str "Failed to insert :columns key")
                (map_put map_new "columns" (TList (map TBin (columns qr)))) in
    let? m := map_err (fun _ => str "Failed to insert :rows key")
                (map_put m "rows" (TList (map TList (rows qr)))) in
    let? m := map_err (fun _ => str "Failed to insert :num_rows key") (map_put m "num_rows" (TInt (num_rows qr))) in
    map_err (fun _ => str "Failed to insert :changes key") (map_put m "changes" (TInt changes)) in
  match built with
  | Ok m => ok_tuple m
  | Err context => error_tuple (encode (InternalEncodingError context))
  end.

Definition with_changes_term (r : result (XqliteQueryResult * Z) XqliteError) : term :=
  match r with
  | Ok (qr, changes) => encode_query_result_with_changes qr changes
  | Err err => error_tuple (encode err)
  end.

Definition query_with_changes (h : XqliteConn Db) (sql : bytes) (params_term : term) : term * XqliteConn Db :=
  let '(r, h) := with_conn h (core_query_with_changes sql params_term) in (with_changes_term r, h).

(** ** Transactions *)

Definition begin_nif (h : XqliteConn Db) (mode : string) : term * XqliteConn Db :=
  match mode_from_atom mode with
  | Err e => (error_tuple (encode e), h)
  | Ok m => let '(r, h) := with_conn h (begin_tx m) in (singular_ok_or_error_tuple r, h)
  end.

Definition unit_nif (h : XqliteConn Db) (body : M Db unit) : term * XqliteConn Db :=
  let '(r, h) := with_conn h body in (singular_ok_or_error_tuple r, h).
Definition commit_nif (h : XqliteConn Db) := unit_nif h commit.
Definition rollback_nif (h : XqliteConn Db) := unit_nif h rollback.
Definition savepoint_nif (h : XqliteConn Db) (name : bytes) := unit_nif h (savepoint name).
Definition rollback_to_savepoint_nif (h : XqliteConn Db) (name : bytes) := unit_nif h (rollback_to_savepoint name).
Definition release_savepoint_nif (h : XqliteConn Db) (name : bytes) := unit_nif h (release_savepoint name).

(** ** Cancellable calls *)

Context {LC : Type} `{SubscriberListLaws CancelSubscriber LC}.

(** The body runs with the guard alive; the guard is dropped when it returns,
    normally or early; an unusable connection drops the clones with the closure. *)
Definition cancellable {R} (body : M Db R) (h : XqliteConn Db) (tokens : list ptr) (cs : LC) (fl : heap (bool * nat))
    : option (result R XqliteError * XqliteConn Db * LC * heap (bool * nat)) :=
  let! fl := clone_all tokens fl in
  match poison h, conn_opt h with
  | None, Some db =>
      let! r := guard_new tokens cs in
      let '(guard, cs) := r in
      let '(result, db) := body db in
      let! r := guard_drop guard cs fl in
      let '(cs, fl) := r in
      Some (result, set_conn h (Some db), cs, fl)
  | Some e, _ => let! fl := drop_arcs tokens fl in Some (Err (LockError e), h, cs, fl)
  | None, None => let! fl := drop_arcs tokens fl in Some (Err ConnectionClosed, h, cs, fl)
  end.

Definition query_cancellable (h : XqliteConn Db) (sql : bytes) (params_term : term) :=
  cancellable (core_query sql params_term) h.
Definition execute_cancellable (h : XqliteConn Db) (sql : bytes) (params_term : term) :=
  cancellable (core_execute sql params_term) h.
Definition execute_batch_cancellable (h : XqliteConn Db) (sql_batch : bytes) (tokens : list ptr) (cs : LC)
    (fl : heap (bool * nat)) : option (term * XqliteConn Db * LC * heap (bool * nat)) :=
  let! r := cancellable (core_execute_batch sql_batch) h tokens cs fl in
  let '(r, h, cs, fl) := r in Some (singular_ok_or_error_tuple r, h, cs, fl).
Definition query_with_changes_cancellable (h : XqliteConn Db) (sql : bytes) (params_term : term) (tokens : list ptr)
    (cs : LC) (fl : heap (bool * nat)) : option (term * XqliteConn Db * LC * heap (bool * nat)) :=
  let! r := cancellable (core_query_with_changes sql params_term) h tokens cs fl in
  let '(r, h, cs, fl) := r in Some (with_changes_term r, h, cs, fl).

End Nif.

(** ** Theorems *)

(** A cancellable call answers what the plain call answers, and whichever way it
    ends (result, error, closed or poisoned connection) its tokens are registered
    no longer and every flag has the owners it had before: nothing is leaked and
    nothing freed early. *)
Theorem cancellable_leaves_no_token {Db R LC} `{SubscriberListLaws CancelSubscriber LC}
    (body : M Db R) (h : XqliteConn Db) tokens (cs : LC) k fl c own :
  sl_holds cs [] k -> k + Z.of_nat (length tokens) < 2 ^ 64 ->
  flags_rep fl c own -> Forall (fun t => own t <> O) tokens ->
  exists cs' fl' k', cancellable body h tokens cs fl
    = Some ((with_conn h body).1, (with_conn h body).2, cs', fl') /\
    sl_holds cs' [] k' /\ flags_rep fl' c own.
Proof.
  intros Hh Hk Hr Ht. unfold cancellable, with_conn.
  destruct (clone_all_rep tokens fl c own Hr Ht) as (fl1 & -> & _ & Hr1).
  destruct (poison h) as [e|] eqn:Ep.
  { destruct (drop_arcs_guard tokens fl1 c own Hr1) as (fl2 & -> & _ & Hr2). by exists cs, fl2, k. }
  destruct (conn_opt h) as [db|] eqn:Ec.
  2:{ destruct (drop_arcs_guard tokens fl1 c own Hr1) as (fl2 & -> & _ & Hr2). by exists cs, fl2, k. }
  destruct (guard_new_holds tokens cs [] k Hh Hk) as (g & cs1 & -> & Hg & Hh1).
  destruct (body db) as [r db'].
  destruct (guard_drop_rep g cs1 _ fl1 c own Hh1) as (cs2 & fl2 & -> & Hh2 & _ & Hr2); [by rewrite Hg|].
  exists cs2, fl2, (k + Z.of_nat (length tokens)). by split_and!.
Qed.

Lemma cancellable_leaves_no_token_witness :
  exists cs' fl' k', @cancellable bool (hook_list CancelSubscriber) _ unit (ret tt)
      (mkXConn None (Some true) false) [1%positive] sl_new (token_new empty_heap).2
    = Some (Ok tt, mkXConn None (Some true) false, cs', fl') /\
    sl_holds cs' [] k'.
Proof.
  destruct (@cancellable_leaves_no_token bool unit (hook_list CancelSubscriber) _ _ (ret tt)
    (mkXConn None (Some true) false) [1%positive] sl_new 1 (token_new empty_heap).2 ∅
    (fun p => if decide (p = 1%positive) then 1%nat else O)) as (cs' & fl' & k' & E & Hh & _).
  - apply sl_new_holds.
  - simpl. lia.
  - intros q. destruct (decide (q = 1%positive)) as [->|Hq]; [reflexivity|].
    simpl. rewrite lookup_insert_ne by congruence. by rewrite lookup_empty.
  - repeat constructor. simpl. discriminate.
  - exists cs', fl', k'. split; [exact E|exact Hh].
Defined.
