(* ===== verification/Cancellation.v ===== *)
(** * Cancelling a running query, end to end

    The parts meet here: the tokens' flags ([cancel.rs]), the guard that registers
    them, the progress callback SQLite polls ([progress_dispatch.rs]), SQLite's
    SQLITE_INTERRUPT and the error it becomes ([error.rs]), inside a cancellable NIF
    ([nif.rs]).  What SQLite does is [vm]: told to stop, it fails with an interrupt. *)

From S2P Require Import Prelude RustStr Sqlite Terms Heap ConstraintParse Error Util HookList Hooks ProgressDispatch Connection Query Statements Nif.

Section Cancellation.
  Context `{Beam} `{RusqliteText} {Db R : Type}.
  Context {LC : Type} `{SubscriberListLaws CancelSubscriber LC}.
  Context {LT : Type} `{SubscriberListLaws TickSubscriber LT}.
  Abbreviation dispatch := (@ProgressDispatch LC LT).

(** The rusqlite call, stopped by the progress callback or not. *)
Context (vm : bool -> Db -> result R RusqliteError * Db).

(** SQLite's documentation of the progress handler. *)
Definition interrupts : Prop := forall db, exists e msg db',
  vm true db = (Err (R_SqliteFailure e msg), db') /\ Z.land (extended_code e) 255 = SQLITE_INTERRUPT.

(** [cancel_operation] on each of these tokens, by other processes. *)
Fixpoint cancel_all (ts : list ptr) (fl : heap (bool * nat)) : option (heap (bool * nat)) :=
  match ts with [] => Some fl | t :: ts => let! fl := token_cancel t fl in cancel_all ts fl end.

(** SQLite polls while the statement runs and stops at the first non-zero answer;
    before each poll other processes may cancel tokens. *)
Fixpoint poll (firings : list (list ptr * (Z -> Z))) (d : dispatch) (w : progress_world)
    : option (bool * progress_world) :=
  match firings with
  | [] => Some (false, w)
  | (ts, now) :: firings =>
      let! fl := cancel_all ts (flags w) in
      let! r := progress_dispatch_callback now d (mkWorld fl (counters w) (sent w)) in
      if r.1 =? 0 then poll firings d r.2 else Some (true, r.2)
  end.

(** A cancellable NIF whose body is polled: [Nif.cancellable] with the callback
    running in the middle of it. *)
Definition cancellable_run (firings : list (list ptr * (Z -> Z))) (h : XqliteConn Db) (tokens : list ptr)
    (d : dispatch) (w : progress_world)
    : option (result R XqliteError * XqliteConn Db * dispatch * progress_world) :=
  let! fl := clone_all tokens (flags w) in
  match poison h, conn_opt h with
  | None, Some db =>
      let! r := guard_new tokens (cancels d) in
      let '(guard, cs) := r in
      let! x := poll firings (mkDispatch cs (ticks d)) (mkWorld fl (counters w) (sent w)) in
      let '(stop, w) := x in
      let '(result, db) := rq (vm stop) db in
      let! r := guard_drop guard cs (flags w) in
      let '(cs, fl) := r in
      Some (result, set_conn h (Some db), mkDispatch cs (ticks d), mkWorld fl (counters w) (sent w))
  | Some e, _ => let! fl := drop_arcs tokens fl in Some (Err (LockError e), h, d, mkWorld fl (counters w) (sent w))
  | None, None => let! fl := drop_arcs tokens fl in Some (Err ConnectionClosed, h, d, mkWorld fl (counters w) (sent w))
  end.

(** One of the call's tokens is cancelled by the time of some poll. *)
Fixpoint hit (tokens : list ptr) (c : gset ptr) (firings : list (list ptr * (Z -> Z))) : bool :=
  match firings with
  | [] => false
  | (ts, _) :: firings =>
      let c := list_to_set ts ∪ c in
      existsb (fun t => bool_decide (t ∈ c)) tokens || hit tokens c firings
  end.

(** ** Lemmas *)

(** Without a poll [cancellable_run] is [Nif.cancellable] around the rusqlite call. *)
Lemma cancellable_run_unpolled h tokens d w :
  cancellable_run [] h tokens d w =
    match cancellable (rq (vm false)) h tokens (cancels d) (flags w) with
    | Some (r, h, cs, fl) => Some (r, h, mkDispatch cs (ticks d), mkWorld fl (counters w) (sent w))
    | None => None
    end.
Proof.
  unfold cancellable_run, cancellable. destruct (clone_all tokens (flags w)) as [fl|]; [|done]. cbn.
  destruct (poison h) as [e|]; cbn; [by destruct d, (drop_arcs tokens fl)|].
  destruct (conn_opt h) as [db|]; cbn; [|by destruct d, (drop_arcs tokens fl)].
  destruct (guard_new tokens (cancels d)) as [[guard cs]|]; cbn; [|done].
  destruct (rq (vm false) db) as [x db']. by destruct (guard_drop guard cs fl) as [[cs' fl']|].
Qed.

Lemma cancel_all_rep ts fl c own : flags_rep fl c own -> Forall (fun t => own t <> O) ts ->
  exists fl', cancel_all ts fl = Some fl' /\ flags_rep fl' (list_to_set ts ∪ c) own.
Proof.
  intros Hr HF. revert fl c Hr; induction HF as [|t ts Ht HF IH]; intros fl c Hr; cbn [cancel_all].
  - exists fl. split; [done|]. intros p. rewrite (Hr p). f_equal. apply bool_decide_ext. set_solver.
  - unfold token_cancel. destruct (arc_store_cell t true fl _ _ (Hr t) Ht) as (fl1 & -> & _ & Hp & Ho).
    destruct (IH fl1 ({[t]} ∪ c)) as (fl2 & -> & Hr2).
    + eapply flags_rep_upd; [exact Hr|rewrite Hp|exact Ho|].
      * by rewrite bool_decide_eq_true_2 by set_solver.
      * set_solver.
    + exists fl2. split; [done|]. intros p. rewrite (Hr2 p). f_equal. apply bool_decide_ext. set_solver.
Qed.

Lemma flags_set ces fl c own : flags_rep fl c own ->
  Forall (fun e => own (flag (HookList.state e)) <> O) ces ->
  Forall (fun e => is_Some (arc_load (flag (HookList.state e)) fl)) ces /\
  existsb (fun e => flag_set fl (flag (HookList.state e))) ces
  = existsb (fun t => bool_decide (t ∈ c)) (map (fun e => flag (HookList.state e)) ces).
Proof.
  intros Hr HF. induction HF as [|e ces He HF [IH1 IH2]]; [by split|].
  pose proof (arc_load_cell _ _ _ _ (Hr _) He) as Hl. split.
  - constructor; [by rewrite Hl|done].
  - cbn [existsb map]. unfold flag_set at 1. by rewrite Hl, IH2.
Qed.

Lemma poll_hit firings d w ces m tes n cnt c own :
  sl_holds (cancels d) ces m -> sl_holds (ticks d) tes n ->
  Forall (fun e => own (flag (HookList.state e)) <> O) ces ->
  NoDup (counter_ptrs tes) -> counters_read (counters w) cnt tes -> flags_rep (flags w) c own ->
  Forall (fun f => Forall (fun t => own t <> O) f.1) firings ->
  exists w' c', poll firings d w = Some (hit (map (fun e => flag (HookList.state e)) ces) c firings, w') /\
    flags_rep (flags w') c' own.
Proof.
  intros Hc Ht Ho Hnd Hr Hf HF. revert w cnt c Hr Hf; induction HF as [|[ts now] fs Hts HF IH]; intros w cnt c Hr Hf;
    cbn [poll hit]; [by exists w, c|]. cbn [fst] in Hts.
  destruct (cancel_all_rep ts (flags w) c own Hf Hts) as (fl & -> & Hf1).
  destruct (flags_set ces fl _ own Hf1 Ho) as [Hs He].
  destruct (callback_spec now d (mkWorld fl (counters w) (sent w)) ces m tes n cnt Hc Ht) as (cs' & -> & Hr'); try done.
  cbn [flags counters sent] in *. rewrite He in *. destruct (existsb _ (map _ ces)) eqn:Eh; cbn [fst snd orb Z.eqb].
  - eexists _, _. split; [done|]. exact Hf1.
  - destruct (IH (mkWorld fl cs' (sent w ++ tick_msgs cnt now tes)) _ _ (Hr' eq_refl) Hf1) as (w' & c' & -> & Hf').
    by exists w', c'.
Qed.

Lemma guard_flags g : map (fun e => flag (HookList.state e)) (guard_subs g) = map snd g.
Proof. unfold guard_subs. rewrite map_map. by apply map_ext. Qed.

End Cancellation.

(** ** Theorems *)

(** C11: cancelling reaches the running query: a cancellable call answers
    [:operation_cancelled] exactly when, at some poll of the progress callback, one of
    the tokens it was given had been cancelled (before the call or by another process
    while it ran); otherwise it answers what the statement answers, cancelled tokens
    of other calls playing no part.  Either way its tokens are unregistered and their
    flags have the owners they had. *)
Theorem cancel_reaches_the_query `{Beam} `{RusqliteText} {Db R LC} `{SubscriberListLaws CancelSubscriber LC} {LT}
    `{SubscriberListLaws TickSubscriber LT} (vm : bool -> Db -> result R RusqliteError * Db) firings
    (h : XqliteConn Db) db tokens (d : ProgressDispatch LC LT) w k tes n cnt c own :
  interrupts vm -> poison h = None -> conn_opt h = Some db ->
  sl_holds (cancels d) [] k -> k + Z.of_nat (length tokens) < 2 ^ 64 ->
  sl_holds (ticks d) tes n -> NoDup (counter_ptrs tes) -> counters_read (counters w) cnt tes ->
  flags_rep (flags w) c own -> Forall (fun t => own t <> O) tokens ->
  Forall (fun f => Forall (fun t => own t <> O) f.1) firings ->
  exists x h' d' w', cancellable_run vm firings h tokens d w = Some (x, h', d', w') /\
    x = (if hit tokens c firings then Err OperationCancelled else map_err from_rusqlite (vm false db).1) /\
    (exists k', sl_holds (cancels d') [] k') /\ (exists c', flags_rep (flags w') c' own).
Proof.
  intros Hv Hpo Hco Hc Hk Ht Hnd Hr Hf Ho HF. unfold cancellable_run. rewrite Hpo, Hco.
  destruct (clone_all_rep tokens (flags w) c own Hf Ho) as (fl & -> & _ & Hf1).
  destruct (guard_new_holds tokens (cancels d) [] k Hc Hk) as (g & cs & -> & Hg & Hc1). cbn [app] in Hc1.
  fold (guard_subs g) in Hc1.
  destruct (poll_hit firings (mkDispatch cs (ticks d)) (mkWorld fl (counters w) (sent w)) (guard_subs g) _ tes n cnt c
    (fun p => own p + occ p tokens)%nat Hc1 Ht) as (w1 & c1 & -> & Hf2); [|done|done|done| |].
  { apply list.Forall_forall. intros e (x & -> & Hx)%list_elem_of_fmap. cbn [HookList.state flag].
    assert (x.2 ∈ tokens) as Hin by (rewrite <- Hg; by apply list_elem_of_fmap_2).
    rewrite list.Forall_forall in Ho. specialize (Ho _ Hin). lia. }
  { eapply Forall_impl; [|exact HF]. intros f Hfs. eapply Forall_impl; [|exact Hfs]. cbn. lia. }
  rewrite guard_flags, Hg. unfold rq. destruct (vm (hit tokens c firings) db) as [r db'] eqn:Ev.
  destruct (guard_drop_rep g cs _ (flags w1) c1 own Hc1) as (cs2 & fl2 & -> & Hc2 & _ & Hf3); [by rewrite Hg|].
  eexists _, _, _, _. split; [done|]. split_and!; [|by eexists|by eexists].
  destruct (hit tokens c firings).
  - destruct (Hv db) as (e & m & db2 & E & Hi). rewrite E in Ev. injection Ev as <- _. cbn [map_err from_rusqlite].
    unfold classify_sqlite_error. by rewrite Hi.
  - by rewrite Ev.
Qed.

Definition demo_vm (stop : bool) (db : unit) : result Z RusqliteError * unit :=
  (if stop then Err (R_SqliteFailure (mkFfi 9) None) else Ok 42, db).

(** One token, cancelled by another process before the second poll. *)
Lemma cancel_reaches_the_query_witness :
  exists h' d' w', @cancellable_run demo_beam demo_text unit Z (hook_list CancelSubscriber) _ (hook_list TickSubscriber) _
    demo_vm [([], fun _ => 0); ([1%positive], fun _ => 0)] (mkXConn None (Some tt) false) [1%positive]
    dispatch_new (mkWorld (token_new empty_heap).2 empty_heap []) = Some (Err OperationCancelled, h', d', w').
Proof.
  destruct (@cancel_reaches_the_query demo_beam demo_text unit Z (hook_list CancelSubscriber) _ _
    (hook_list TickSubscriber) _ _ demo_vm [([], fun _ => 0); ([1%positive], fun _ => 0)] (mkXConn None (Some tt) false) tt
    [1%positive] dispatch_new (mkWorld (token_new empty_heap).2 empty_heap []) 1 [] 1 (fun _ => 0) ∅
    (fun p => if decide (p = 1%positive) then 1%nat else O)) as (x & h' & d' & w' & E & Hx & _).
  - intros []. eexists _, _, _. split; reflexivity.
  - reflexivity.
  - reflexivity.
  - apply sl_new_holds.
  - simpl. lia.
  - apply sl_new_holds.
  - constructor.
  - intros p Hp. inversion Hp.
  - intros q. destruct (decide (q = 1%positive)) as [->|Hq]; [reflexivity|].
    simpl. rewrite lookup_insert_ne by congruence. by rewrite lookup_empty.
  - repeat constructor. simpl. discriminate.
  - repeat constructor. simpl. discriminate.
  - exists h', d', w'. rewrite E, Hx. reflexivity.
Defined.
