(* ===== verification/Resource.v ===== *)
(** * The connection resource as a whole: [connection.rs] with its hooks

    [Connection] models the lock; here the resource is modelled with everything it
    owns: the connection and the closures installed in it, the busy slot, the
    [Arc]s of the three hook lists that closures share with the resource, and the
    two dispatch structures SQLite holds the addresses of.  A field that has been
    dropped is [None], and a callback that reaches one is undefined behaviour, so
    the order in which [Drop] takes the resource apart matters. *)

From S2P Require Import Prelude RustStr Sqlite Terms Heap ConstraintParse Error Util HookList Hooks ProgressDispatch BusyHandler Connection Query.

(** The hooks whose list is shared with a rusqlite closure. *)
Inductive arc_hook := HUpdate | HCommit | HRollback.
#[export] Instance arc_hook_eq_dec : EqDecision arc_hook.
Proof. solve_decision. Defined.

Abbreviation pid_list := (hook_list PidSubscriber).
Abbreviation dispatch := (@ProgressDispatch (hook_list CancelSubscriber) (hook_list TickSubscriber)).

(** A rusqlite [Connection]: SQLite's state, and the closures it owns with the [Arc]
    each captured. *)
Record Conn (Db : Type) := mkConn { raw : Db; closures : list (arc_hook * ptr) }.
Arguments mkConn {Db}. Arguments raw {Db}. Arguments closures {Db}.

(** [struct XqliteConn], in the order of its fields. *)
Record resource (Db : Type) := mkResource {
  lock : XqliteConn (Conn Db);                 (* [conn] and [extensions_enabled] *)
  busy_handler : option ptr;
  wal_hook : option (WalDispatch pid_list);
  update_hook : ptr;
  commit_hook : ptr;
  rollback_hook : ptr;
  progress_dispatch : option dispatch;
}.
Arguments mkResource {Db}. Arguments lock {Db}. Arguments busy_handler {Db}. Arguments wal_hook {Db}.
Arguments update_hook {Db}. Arguments commit_hook {Db}. Arguments rollback_hook {Db}.
Arguments progress_dispatch {Db}.

(** Memory and what has been sent; [leaked] counts boxes whose owner is gone. *)
Record world := mkW {
  lists : heap (pid_list * nat);
  boxes : heap BusySlotState;
  prog : progress_world;
  wal_fx : wal_effects;
  busy_fx : busy_effects;
  out : outbox;
  leaked : nat;
}.

Definition set_lists (w : world) ls : world := mkW ls (boxes w) (prog w) (wal_fx w) (busy_fx w) (out w) (leaked w).
Definition set_boxes (w : world) bs : world := mkW (lists w) bs (prog w) (wal_fx w) (busy_fx w) (out w) (leaked w).
Definition set_prog (w : world) p : world := mkW (lists w) (boxes w) p (wal_fx w) (busy_fx w) (out w) (leaked w).
Definition set_out (w : world) o : world := mkW (lists w) (boxes w) (prog w) (wal_fx w) (busy_fx w) o (leaked w).
Definition add_leak (n : nat) (w : world) : world :=
  mkW (lists w) (boxes w) (prog w) (wal_fx w) (busy_fx w) (out w) (n + leaked w).

Section Resource.
  Context `{Beam} `{RusqliteText} {Db : Type} `{BusyApiLaws Db} `{HookInstall Db}.
  Abbreviation res := (resource Db).

Definition set_lock (r : res) l : res := mkResource l (busy_handler r) (wal_hook r) (update_hook r) (commit_hook r)
  (rollback_hook r) (progress_dispatch r).
Definition set_busy (r : res) b : res := mkResource (lock r) b (wal_hook r) (update_hook r) (commit_hook r)
  (rollback_hook r) (progress_dispatch r).
Definition set_wal (r : res) d : res := mkResource (lock r) (busy_handler r) d (update_hook r) (commit_hook r)
  (rollback_hook r) (progress_dispatch r).
Definition set_progress (r : res) d : res := mkResource (lock r) (busy_handler r) (wal_hook r) (update_hook r)
  (commit_hook r) (rollback_hook r) d.

Definition arc_field (k : arc_hook) (r : res) : ptr :=
  match k with HUpdate => update_hook r | HCommit => commit_hook r | HRollback => rollback_hook r end.

(** ** What SQLite can call *)

Inductive event :=
| EUpdate (a : Action) (db tbl : bytes) (rowid : Z)
| ECommit
| ERollback
| EWal (db : option bytes) (pages : Z)
| EProgress (now : Z -> Z)
| EBusy (count now later : Z).

Definition event_hook (e : event) : option arc_hook :=
  match e with EUpdate _ _ _ _ => Some HUpdate | ECommit => Some HCommit | ERollback => Some HRollback | _ => None end.

(** The closure of hook [k], if installed, run on the list its [Arc] points to. *)
Definition call_closure (k : arc_hook) (c : Conn Db) (f : pid_list -> outbox -> option outbox) (w : world)
    : option world :=
  match list_find (fun x => x.1 = k) (closures c) with
  | None => Some w
  | Some (_, (_, p)) =>
      let! l := arc_load p (lists w) in
      let! o := f l (out w) in
      Some (set_out w o)
  end.

(** The WAL and progress callbacks get the address of the resource's field. *)
Definition fire (e : event) (c : Conn Db) (r : res) (w : world) : option world :=
  match e with
  | EUpdate a db tbl rowid => call_closure HUpdate c (fun l => update_callback l a db tbl rowid) w
  | ECommit => call_closure HCommit c (fun l o => let! x := commit_callback l o in Some x.2) w
  | ERollback => call_closure HRollback c (fun l => rollback_callback l) w
  | EWal db pages =>
      let! d := wal_hook r in
      let! x := wal_hook_callback d db pages (wal_fx w) in
      Some (mkW (lists w) (boxes w) (prog w) x.2 (busy_fx w) (out w) (leaked w))
  | EProgress now =>
      let! d := progress_dispatch r in
      let! x := progress_dispatch_callback now d (prog w) in
      Some (set_prog w x.2)
  | EBusy count now later =>
      match busy_arg (raw c) with
      | None => Some w
      | Some p =>
          let! x := busy_callback p count now later (boxes w) (busy_fx w) in
          let '(_, bs, fx) := x in
          Some (mkW (lists w) bs (prog w) (wal_fx w) fx (out w) (leaked w))
      end
  end.

Fixpoint fire_all (es : list event) (c : Conn Db) (r : res) (w : world) : option world :=
  match es with [] => Some w | e :: es => let! w := fire e c r w in fire_all es c r w end.

(** ** Dropping *)

(** [impl Drop for HookList]: [drop_all]; what its heap still holds is lost. *)
Definition free_list {T} (l : hook_list T) : option nat :=
  let! l := sl_drop_all l in Some (size (cells l.2)).

(** An [Arc<HookList>] dropped: the last owner drops the list. *)
Definition drop_arc (p : ptr) (w : world) : option world :=
  match cells (lists w) !! p with
  | None => None
  | Some (l, S (S n)) => Some (set_lists w (mkHeap (<[p := (l, S n)]> (cells (lists w))) (brk (lists w))))
  | Some (l, _) =>
      let! lost := free_list l in
      Some (add_leak lost (set_lists w (mkHeap (delete p (cells (lists w))) (brk (lists w)))))
  end.

Fixpoint drop_arcs_of (ps : list ptr) (w : world) : option world :=
  match ps with [] => Some w | p :: ps => let! w := drop_arc p w in drop_arcs_of ps w end.

(** A [Connection] dropped: SQLite closes it, calling whatever it still calls, and
    the closures go. *)
Definition drop_conn (es : list event) (c : Conn Db) (r : res) (w : world) : option world :=
  let! w := fire_all es c r w in drop_arcs_of (closures c).*2 w.

(** [Drop for XqliteConn]: first its body ([drop_hook]), then the fields as declared. *)
Definition drop_body (r : res) (w : world) : option (res * world) :=
  let! x := drop_hook (busy_handler r) (boxes w) in
  Some (set_busy r x.1, set_boxes w x.2).

Definition drop_fields (es : list event) (r : res) (w : world) : option world :=
  let! w := match conn_opt (lock r) with Some c => drop_conn es c r w | None => Some w end in
  let! lost := match wal_hook r with Some d => free_list (wal_list d) | None => None end in
  let r := set_wal r None in
  let! w := drop_arcs_of [update_hook r; commit_hook r; rollback_hook r] (add_leak lost w) in
  let! d := progress_dispatch r in
  let! lost_c := free_list (cancels d) in
  let! lost_t := free_list (ticks d) in
  Some (add_leak lost_t (add_leak lost_c w)).

Definition drop_resource (es : list event) (r : res) (w : world) : option world :=
  let! x := drop_body r w in
  let '(r, w) := x in
  drop_fields es r w.

(** ** [handle_open_result], with its allocations *)

(** [update_hook::install_callback] and the two like it: the list moves into the
    closure, which rusqlite drops when it refuses it. *)
Definition install_closure (k : arc_hook) (f : Db -> result unit RusqliteError * Db) (p : ptr) (c : Conn Db) (w : world)
    : option (result unit XqliteError * Conn Db * world) :=
  match f (raw c) with
  | (Ok _, db) => Some (Ok tt, mkConn db (closures c ++ [(k, p)]), w)
  | (Err e, db) => let! w := drop_arc p w in Some (Err (from_rusqlite e), mkConn db (closures c), w)
  end.

(** [?] in the middle of the installation: the handle is dropped, then the lists not
    yet moved, last one first. *)
Definition abandon (es : list event) (r : res) (e : XqliteError) (locals : list ptr) (w : world)
    : option (result res XqliteError * world) :=
  let! w := drop_resource es r w in
  let! w := drop_arcs_of locals w in
  Some (Err e, w).

Definition arc_list_new (w : world) : ptr * world :=
  let '(p, ls) := arc_new (sl_new : pid_list) (lists w) in (p, set_lists w ls).
Definition arc_list_clone (p : ptr) (w : world) : option world :=
  let! ls := arc_clone p (lists w) in Some (set_lists w ls).

(** The new resource around a connection. *)
Definition new_handle (u c b : ptr) (conn : Conn Db) : res :=
  mkResource (mkXConn None (Some conn) false) None (Some wal_new) u c b (Some dispatch_new).

(** [es]: what SQLite calls while a half-opened connection is closed again. *)
Definition open_resource (es : list event) (open_result : result Db RusqliteError) (path : bytes) (w : world)
    : option (result res XqliteError * world) :=
  match open_result with
  | Ok conn =>
      let '(u, w) := arc_list_new w in
      let '(c, w) := arc_list_new w in
      let '(b, w) := arc_list_new w in
      let! w := arc_list_clone u w in
      let! w := arc_list_clone c w in
      let! w := arc_list_clone b w in
      let conn := mkConn (install_wal (install_progress conn)) [] in
      let handle := new_handle u c b in
      let! x := install_closure HUpdate install_update u conn w in
      match x with
      | (Err e, conn, w) => abandon es (handle conn) e [b; c] w
      | (Ok _, conn, w) =>
          let! x := install_closure HCommit install_commit c conn w in
          match x with
          | (Err e, conn, w) => abandon es (handle conn) e [b] w
          | (Ok _, conn, w) =>
              let! x := install_closure HRollback install_rollback b conn w in
              match x with
              | (Err e, conn, w) => abandon es (handle conn) e [] w
              | (Ok _, conn, w) => Some (Ok (handle conn), w)
              end
          end
      end
  | Err (R_SqliteFailure ffi_err msg_opt) =>
      Some (Err (CannotOpenDatabase path (extended_code ffi_err)
                   match msg_opt with Some m => m | None => ffi_display ffi_err end), w)
  | Err other => Some (Err (CannotOpenDatabase path (-1) (rusqlite_display other)), w)
  end.

(** ** The hook NIFs of [nif.rs] *)

(** [with_conn] around a body that works on the rest of the resource. *)
Definition with_locked {R} (r : res) (w : world) (func : Conn Db -> option (result R XqliteError * res * world))
    : option (result R XqliteError * res * world) :=
  match poison (lock r), conn_opt (lock r) with
  | Some e, _ => Some (Err (LockError e), r, w)
  | None, Some c => func c
  | None, None => Some (Err ConnectionClosed, r, w)
  end.

Definition id_term (x : option (result Z XqliteError * res * world)) : option (term * res * world) :=
  let! x := x in
  let '(result, r, w) := x in
  Some (match result with Ok i => ok_tuple (TInt i) | Err e => error_tuple (encode e) end, r, w).

Definition unit_term (x : option (result unit XqliteError * res * world)) : option (term * res * world) :=
  let! x := x in let '(result, r, w) := x in Some (singular_ok_or_error_tuple result, r, w).

(** An operation on a list through its [Arc]. *)
Definition on_arc {R} (p : ptr) (f : pid_list -> option (R * pid_list)) (w : world) : option (R * world) :=
  let! l := arc_load p (lists w) in
  let! x := f l in
  let! ls := arc_store p x.2 (lists w) in
  Some (x.1, set_lists w ls).

Definition register_arc (k : arc_hook) (reg : pid_list -> option (result Z XqliteError * pid_list)) (r : res) (w : world) :=
  id_term (with_locked r w (fun _ => let! x := on_arc (arc_field k r) reg w in Some (x.1, r, x.2))).
Definition unregister_arc (k : arc_hook) (unreg : pid_list -> option pid_list) (r : res) (w : world) :=
  unit_term (with_locked r w (fun _ =>
    let! x := on_arc (arc_field k r) (fun l => let! l := unreg l in Some (tt, l)) w in Some (Ok tt, r, x.2))).

Definition register_update_hook (p : Z) := register_arc HUpdate (update_register p).
Definition unregister_update_hook (i : Z) := unregister_arc HUpdate (update_unregister i).
Definition register_commit_hook (p : Z) := register_arc HCommit (commit_register p).
Definition unregister_commit_hook (i : Z) := unregister_arc HCommit (commit_unregister i).
Definition register_rollback_hook (p : Z) := register_arc HRollback (rollback_register p).
Definition unregister_rollback_hook (i : Z) := unregister_arc HRollback (rollback_unregister i).

Definition register_wal_hook (p : Z) (r : res) (w : world) : option (term * res * world) :=
  id_term (with_locked r w (fun _ =>
    let! d := wal_hook r in
    let! x := wal_register p d in Some (x.1, set_wal r (Some x.2), w))).
Definition unregister_wal_hook (i : Z) (r : res) (w : world) : option (term * res * world) :=
  unit_term (with_locked r w (fun _ =>
    let! d := wal_hook r in
    let! d := wal_unregister i d in Some (Ok tt, set_wal r (Some d), w))).

Definition register_progress_hook_nif (p every_n : Z) (tag : option bytes) (now : Z) (r : res) (w : world)
    : option (term * res * world) :=
  if every_n =? 0 then
    Some (error_tuple (encode (CannotExecute (str "register_progress_hook: every_n must be >= 1"))), r, w)
  else
    id_term (with_locked r w (fun _ =>
      let! d := progress_dispatch r in
      let! x := register_progress_hook p every_n tag now d (prog w) in
      let '(id, d, pw) := x in Some (id, set_progress r (Some d), set_prog w pw))).
Definition unregister_progress_hook_nif (i : Z) (r : res) (w : world) : option (term * res * world) :=
  unit_term (with_locked r w (fun _ =>
    let! d := progress_dispatch r in
    let! d := unregister_progress_hook i d in Some (Ok tt, set_progress r (Some d), w))).

(** The busy NIFs: the slot and the connection are changed together. *)
Definition on_busy {R} (f : option ptr -> heap BusySlotState -> Db ->
      option (result R XqliteError * option ptr * heap BusySlotState * Db)) (r : res) (w : world)
    : option (result R XqliteError * res * world) :=
  with_locked r w (fun c =>
    let! x := f (busy_handler r) (boxes w) (raw c) in
    let '(result, slot, bs, db) := x in
    Some (result, set_busy (set_lock r (set_conn (lock r) (Some (mkConn db (closures c))))) slot, set_boxes w bs)).

Definition set_busy_policy (max_retries max_elapsed_ms sleep_ms now : Z) (r : res) (w : world) :=
  unit_term (on_busy (fun slot => set_policy (mkPolicy max_retries max_elapsed_ms sleep_ms) slot now) r w).
Definition remove_busy_policy (now : Z) (r : res) (w : world) :=
  unit_term (on_busy (fun slot => remove_policy slot now) r w).
Definition register_busy_observer (p now : Z) (r : res) (w : world) :=
  id_term (on_busy (fun slot => register_observer p slot now) r w).
Definition unregister_busy_observer (observer_handle now : Z) (r : res) (w : world) :=
  unit_term (on_busy (fun slot => unregister_observer observer_handle slot now) r w).

(** [close]: [close_connection] takes the connection out of the lock and drops it. *)
Definition close (es : list event) (r : res) (w : world) : option (term * res * world) :=
  match poison (lock r), conn_opt (lock r) with
  | Some e, _ => Some (error_tuple (encode (LockError e)), r, w)
  | None, Some c =>
      let! w := drop_conn es c r w in Some (TAtom "ok", set_lock r (set_conn (lock r) None), w)
  | None, None => Some (TAtom "ok", r, w)
  end.

(** ** A connection's life: NIFs in any order, SQLite's calls, a panic under the lock *)

Inductive res_op :=
| OpRegUpdate (p : Z) | OpUnregUpdate (i : Z)
| OpRegCommit (p : Z) | OpUnregCommit (i : Z)
| OpRegRollback (p : Z) | OpUnregRollback (i : Z)
| OpRegWal (p : Z) | OpUnregWal (i : Z)
| OpRegTick (p every_n : Z) (tag : option bytes) (now : Z) | OpUnregTick (i : Z)
| OpSetPolicy (max_retries max_elapsed_ms sleep_ms now : Z) | OpRemovePolicy (now : Z)
| OpObserve (p now : Z) | OpUnobserve (i now : Z)
| OpSql (f : Db -> Db)             (* a NIF body that runs statements *)
| OpCallback (e : event)
| OpClose (es : list event)
| OpPanic (e : bytes).

Definition res_step (o : res_op) (r : res) (w : world) : option (term * res * world) :=
  match o with
  | OpRegUpdate p => register_update_hook p r w
  | OpUnregUpdate i => unregister_update_hook i r w
  | OpRegCommit p => register_commit_hook p r w
  | OpUnregCommit i => unregister_commit_hook i r w
  | OpRegRollback p => register_rollback_hook p r w
  | OpUnregRollback i => unregister_rollback_hook i r w
  | OpRegWal p => register_wal_hook p r w
  | OpUnregWal i => unregister_wal_hook i r w
  | OpRegTick p n tag now => register_progress_hook_nif p n tag now r w
  | OpUnregTick i => unregister_progress_hook_nif i r w
  | OpSetPolicy a b c now => set_busy_policy a b c now r w
  | OpRemovePolicy now => remove_busy_policy now r w
  | OpObserve p now => register_busy_observer p now r w
  | OpUnobserve i now => unregister_busy_observer i now r w
  | OpSql f =>
      unit_term (with_locked r w (fun c =>
        Some (Ok tt, set_lock r (set_conn (lock r) (Some (mkConn (f (raw c)) (closures c)))), w)))
  | OpCallback e =>
      match conn_opt (lock r) with
      | Some c => let! w := fire e c r w in Some (TAtom "ok", r, w)
      | None => Some (TAtom "ok", r, w)
      end
  | OpClose es => close es r w
  | OpPanic e => Some (TAtom "ok", set_lock r (mkXConn (Some e) (conn_opt (lock r)) (extensions_enabled (lock r))), w)
  end.

Fixpoint run_res (ops : list res_op) (r : res) (w : world) : option (list term * res * world) :=
  match ops with
  | [] => Some ([], r, w)
  | o :: ops =>
      let! x := res_step o r w in
      let '(t, r, w) := x in
      let! y := run_res ops r w in
      let '(ts, r, w) := y in Some (t :: ts, r, w)
  end.

(** ** Lemmas *)

(** *** The [Arc]s of the lists: [own p] owners, handles up to [B] *)

Definition list_ok (l : pid_list) (B : Z) : Prop := exists es n, sl_holds l es n /\ n <= B.

Definition lists_rep (ls : heap (pid_list * nat)) (own : ptr -> nat) (B : Z) : Prop :=
  forall p, match own p with
            | O => cells ls !! p = None
            | S _ => exists l, cells ls !! p = Some (l, own p) /\ list_ok l B
            end.

(** Only the lists differ. *)
Definition same (w w' : world) : Prop :=
  boxes w' = boxes w /\ prog w' = prog w /\ leaked w' = leaked w.

Lemma lists_rep_ext ls own own' B : (forall p, own p = own' p) -> lists_rep ls own B -> lists_rep ls own' B.
Proof. intros He Hr p. rewrite <- He. apply Hr. Qed.

Lemma lists_rep_le ls own B B' : B <= B' -> lists_rep ls own B -> lists_rep ls own B'.
Proof.
  intros Hle Hr p. specialize (Hr p). destruct (own p); [done|]. destruct Hr as (l & Hl & es & m & Hh & Hm).
  exists l. split; [done|]. exists es, m. split; [done|lia].
Qed.

Lemma lists_rep_get ls own B p : lists_rep ls own B -> own p <> O ->
  exists l, cells ls !! p = Some (l, own p) /\ list_ok l B.
Proof. intros Hr Hp. specialize (Hr p). by destruct (own p). Qed.

Lemma lists_rep_load ls own B p : lists_rep ls own B -> own p <> O ->
  exists l, arc_load p ls = Some l /\ list_ok l B.
Proof. intros Hr Hp. destruct (lists_rep_get ls own B p Hr Hp) as (l & E & Hl). exists l. unfold arc_load. by rewrite E. Qed.

Lemma lists_rep_store ls own B B' p l : lists_rep ls own B -> own p <> O -> B <= B' -> list_ok l B' ->
  exists ls', arc_store p l ls = Some ls' /\ lists_rep ls' own B'.
Proof.
  intros Hr Hp Hle Hl. destruct (lists_rep_get ls own B p Hr Hp) as (l0 & E & _). unfold arc_store. rewrite E.
  eexists. split; [done|]. intros q. cbn [cells]. apply (lists_rep_le _ _ _ _ Hle) in Hr. specialize (Hr q).
  destruct (decide (q = p)) as [->|Hq].
  - destruct (own p) eqn:Eo; [done|]. exists l. by rewrite lookup_insert, decide_True.
  - by rewrite lookup_insert_ne.
Qed.

Lemma free_list_ok {T} (l : hook_list T) es n : sl_holds l es n -> free_list l = Some O.
Proof.
  intros Hh. unfold free_list. destruct l as [hl h]. cbn in Hh |- *.
  destruct (HookList.drop_all_holds hl h es n Hh) as (hl' & h' & -> & _ & Hc). cbn [snd]. by rewrite Hc, map_size_empty.
Qed.

Lemma drop_arc_rep p w own B : lists_rep (lists w) own B -> own p <> O ->
  exists w', drop_arc p w = Some w' /\ same w w' /\
    lists_rep (lists w') (fun q => if decide (q = p) then pred (own q) else own q) B.
Proof.
  intros Hr Hp. destruct (lists_rep_get _ _ _ p Hr Hp) as (l & E & es & n & Hh & Hn). unfold drop_arc. rewrite E.
  destruct (own p) as [|[|k]] eqn:Eo; [done| |].
  - rewrite (free_list_ok _ _ _ Hh). eexists. split; [done|]. split; [by split_and!|]. intros q. cbn [lists add_leak set_lists cells].
    destruct (decide (q = p)) as [->|Hq]; [rewrite Eo; simpl; by rewrite lookup_delete, decide_True|].
    rewrite lookup_delete_ne by congruence. apply Hr.
  - eexists. split; [done|]. split; [by split_and!|]. intros q. cbn [lists set_lists cells].
    destruct (decide (q = p)) as [->|Hq].
    + rewrite Eo. cbn [pred]. exists l. rewrite lookup_insert, decide_True by done. split; [done|]. by exists es, n.
    + rewrite lookup_insert_ne by congruence. apply Hr.
Qed.

Lemma same_trans w1 w2 w3 : same w1 w2 -> same w2 w3 -> same w1 w3.
Proof. intros (?&?&?) (?&?&?). split_and!; congruence. Qed.

Lemma drop_arcs_rep ps w own B : lists_rep (lists w) (fun q => own q + occ q ps)%nat B ->
  exists w', drop_arcs_of ps w = Some w' /\ same w w' /\ lists_rep (lists w') own B.
Proof.
  revert w; induction ps as [|p ps IH]; intros w Hr; cbn [drop_arcs_of].
  - exists w. split_and!; [done|by split_and!|]. eapply lists_rep_ext; [|exact Hr]. intros q. unfold occ. simpl. lia.
  - destruct (drop_arc_rep p w _ B Hr) as (w1 & -> & Hs & Hr1).
    { rewrite occ_cons, decide_True by done. lia. }
    destruct (IH w1) as (w2 & -> & Hs2 & Hr2).
    + eapply lists_rep_ext; [|exact Hr1]. intros q. cbv beta. rewrite occ_cons.
      destruct (decide (q = p)) as [->|Hq]; [rewrite decide_True by done; lia|rewrite decide_False by congruence; lia].
    + exists w2. split_and!; [done|by eapply same_trans|done].
Qed.

Lemma lists_rep_nil ls B : lists_rep ls (fun _ => O) B -> cells ls = ∅.
Proof. intros Hr. apply map_eq. intros p. rewrite lookup_empty. apply (Hr p). Qed.

(** *** The two dispatch structures *)

Definition wal_ok (r : res) (B : Z) : Prop := exists d, wal_hook r = Some d /\ list_ok (wal_list d) B.

Definition prog_ok (r : res) (pw : progress_world) (B : Z) : Prop :=
  exists d ces m tes n, progress_dispatch r = Some d /\ sl_holds (cancels d) ces m /\ ces = [] /\
    sl_holds (ticks d) tes n /\ n <= B /\ NoDup (counter_ptrs tes) /\
    forall p, p ∈ counter_ptrs tes -> is_Some (cells (counters pw) !! p) /\ (p < brk (counters pw))%positive.

Lemma tick_fold_brk now es s s' :
  foldl (fun acc e => let! s := acc in tick_body now e s) (Some s) es = Some s' -> brk s'.1 = brk s.1.
Proof.
  revert s; induction es as [|e es IH]; intros s; cbn [foldl]; [by intros [= ->]|].
  destruct (tick_body now e s) as [s1|] eqn:E.
  - intros Hf%IH. rewrite Hf. unfold tick_body, fetch_add1 in E.
    destruct (cells s.1 !! _); [|done]. destruct (is_multiple_of _ _); by injection E as <-.
  - clear. intros Hf. exfalso. induction es as [|e es IH]; [done|]. by apply IH.
Qed.

Lemma progress_fires now r w B : prog_ok r (prog w) B ->
  exists d x, progress_dispatch r = Some d /\ progress_dispatch_callback now d (prog w) = Some x /\ prog_ok r x.2 B.
Proof.
  intros (d & ces & m & tes & n & Hd & Hc & -> & Ht & Hn & Hnd & Hp). exists d.
  assert (counters_read (counters (prog w)) (fun p => default 0 (cells (counters (prog w)) !! p)) tes) as Hr.
  { intros p Hin. by destruct (Hp p Hin) as [[z ->] _]. }
  destruct (callback_spec now d (prog w) [] m tes n
    (fun p => default 0 (cells (counters (prog w)) !! p)) Hc Ht) as (cs' & E & Hr'); [by constructor|done|exact Hr|].
  cbn [existsb] in E, Hr'. eexists. split_and!; [done|exact E|]. exists d, [], m, tes, n. split_and!; try done.
  intros p Hin. cbn [snd counters]. split; [rewrite (Hr' eq_refl p Hin); eauto|].
  destruct (Hp p Hin) as [_ Hb]. cut (brk cs' = brk (counters (prog w))); [by intros ->|].
  unfold progress_dispatch_callback in E. rewrite (sl_for_each_holds _ _ _ _ _ _ Hc) in E. cbn [foldl] in E.
  rewrite (sl_is_empty_holds _ _ _ Ht) in E. case_bool_decide; [by injection E as ->|].
  rewrite (sl_for_each_holds _ _ _ _ _ _ Ht) in E. destruct (foldl _ _ tes) as [x|] eqn:Ef; [|done].
  apply tick_fold_brk in Ef. cbn [fst] in Ef. injection E as <- _. done.
Qed.

(** *** The invariant of an open or closed resource *)

Definition field_ptrs (r : res) : list ptr := [update_hook r; commit_hook r; rollback_hook r].
Definition closure_ptrs (r : res) : list ptr :=
  match conn_opt (lock r) with Some c => (closures c).*2 | None => [] end.

(** While the connection is open SQLite's busy pointer is the slot's or none; afterwards
    the slot's box only waits to be freed. *)
Definition busy_ok (r : res) (w : world) (B : Z) : Prop :=
  match conn_opt (lock r) with
  | Some c => exists a, slot_holds (mkState (busy_handler r) (boxes w) (raw c) (busy_fx w)) a /\ sp_next a <= B
  | None => exists st, holds_box (busy_handler r) st (boxes w)
  end.

Definition res_inv (r : res) (w : world) (B : Z) : Prop :=
  wal_ok r B /\ prog_ok r (prog w) B /\
  lists_rep (lists w) (fun p => occ p (field_ptrs r) + occ p (closure_ptrs r))%nat B /\
  busy_ok r w B /\ leaked w = O.

Lemma list_ok_le l B B' : B <= B' -> list_ok l B -> list_ok l B'.
Proof. intros Hle (es & n & Hh & Hn). exists es, n. split; [done|lia]. Qed.

Lemma res_inv_le r w B B' : B <= B' -> res_inv r w B -> res_inv r w B'.
Proof.
  intros Hle ((d & Hd & Hl) & Hp & Hr & Hb & Hk). split_and!; [| | | |done].
  - exists d. split; [done|]. by eapply list_ok_le.
  - destruct Hp as (d' & ces & m & tes & n & Hp). exists d', ces, m, tes, n. destruct Hp as (?&?&?&?&?&?&?).
    split_and!; try done. lia.
  - by eapply lists_rep_le.
  - unfold busy_ok in *. destruct (conn_opt (lock r)); [|done]. destruct Hb as (a & Ha & Hn). exists a. split; [done|lia].
Qed.

(** *** Callbacks *)

Definition is_busy (e : event) : bool := match e with EBusy _ _ _ => true | _ => false end.

Lemma call_closure_ok k c f w own B : lists_rep (lists w) own B -> Forall (fun x => own x.2 <> O) (closures c) ->
  (forall l es n o, sl_holds l es n -> is_Some (f l o)) ->
  exists o, call_closure k c f w = Some (set_out w o).
Proof.
  intros Hr Hc Hf. unfold call_closure. destruct (list_find _ (closures c)) as [[i [k' p]]|] eqn:E.
  - apply list_find_Some in E as (E & _ & _). rewrite Forall_lookup in Hc.
    destruct (lists_rep_load _ _ _ p Hr (Hc i _ E)) as (l & -> & es & n & Hh & _).
    destruct (Hf l es n (out w) Hh) as [o ->]. by exists o.
  - exists (out w). by destruct w.
Qed.

Lemma fire_mem e c r w own B : wal_ok r B -> prog_ok r (prog w) B -> lists_rep (lists w) own B ->
  Forall (fun x => own x.2 <> O) (closures c) -> is_busy e = false \/ busy_arg (raw c) = None ->
  exists w', fire e c r w = Some w' /\ lists w' = lists w /\ boxes w' = boxes w /\ busy_fx w' = busy_fx w /\
    leaked w' = leaked w /\ prog_ok r (prog w') B.
Proof.
  intros Hw Hp Hr Hc Hb. destruct e as [a db tbl rowid| | |db pages|now|count now later]; cbn [fire].
  - destruct (call_closure_ok HUpdate c (fun l => update_callback l a db tbl rowid) w own B Hr Hc) as (o & ->).
    { intros l es n o Hh. unfold update_callback. setoid_rewrite (sl_fan_out _ _ _ _ _ Hh). eauto. }
    by eexists.
  - destruct (call_closure_ok HCommit c (fun l o => let! x := commit_callback l o in Some x.2) w own B Hr Hc) as (o & ->).
    { intros l es n o Hh. unfold commit_callback. setoid_rewrite (sl_fan_out _ _ _ _ _ Hh). eauto. }
    by eexists.
  - destruct (call_closure_ok HRollback c (fun l => rollback_callback l) w own B Hr Hc) as (o & ->).
    { intros l es n o Hh. unfold rollback_callback. setoid_rewrite (sl_fan_out _ _ _ _ _ Hh). eauto. }
    by eexists.
  - destruct Hw as (d & -> & es & n & Hh & _). unfold wal_hook_callback.
    setoid_rewrite (sl_fan_out _ _ _ _ _ Hh). by eexists.
  - destruct (progress_fires now r w B Hp) as (d & x & -> & -> & Hp'). by eexists.
  - destruct Hb as [Hb|Hb]; [done|]. rewrite Hb. by eexists.
Qed.

Lemma closures_owned r c : conn_opt (lock r) = Some c ->
  Forall (fun x => occ x.2 (field_ptrs r) + occ x.2 (closure_ptrs r) <> O)%nat (closures c).
Proof.
  intros Hc. apply list.Forall_forall. intros x Hx. unfold closure_ptrs. rewrite Hc.
  assert (occ x.2 (closures c).*2 <> O); [|lia]. apply occ_elem. by apply list_elem_of_fmap_2.
Qed.

Lemma fire_inv e c r w B : res_inv r w B -> conn_opt (lock r) = Some c ->
  exists w', fire e c r w = Some w' /\ res_inv r w' B.
Proof.
  intros (Hw & Hp & Hr & Hb & Hk) Hc. destruct (is_busy e) eqn:Ee.
  - destruct e as [| | | | |count now later]; try done. cbn [fire]. unfold busy_ok in Hb. rewrite Hc in Hb.
    destruct Hb as (a & Ha & Hn). destruct (busy_fires_holds count later now _ _ Ha) as (s' & Hs & Ha' & _).
    cbn [busy_step b_db b_heap b_fx b_slot] in Hs. destruct (busy_arg (raw c)) as [p|].
    + destruct (busy_callback p count now later (boxes w) (busy_fx w)) as [[[rc bs] fx]|]; [|done].
      injection Hs as <-. eexists. split; [done|]. split_and!; try done. unfold busy_ok. rewrite Hc. by exists a.
    + exists w. split; [done|]. split_and!; try done. unfold busy_ok. rewrite Hc. by exists a.
  - destruct (fire_mem e c r w _ B Hw Hp Hr (closures_owned r c Hc) (or_introl Ee)) as (w' & -> & E1 & E2 & E3 & E4 & Hp').
    exists w'. split; [done|]. split_and!; [done|done|by rewrite E1| |congruence].
    unfold busy_ok in *. by rewrite E2, E3.
Qed.

Lemma fire_all_inv es c r w B : res_inv r w B -> conn_opt (lock r) = Some c ->
  exists w', fire_all es c r w = Some w' /\ res_inv r w' B.
Proof.
  revert w; induction es as [|e es IH]; intros w Hi Hc; [by exists w|]. cbn [fire_all].
  destruct (fire_inv e c r w B Hi Hc) as (w1 & -> & Hi1). by apply IH.
Qed.

(** What SQLite may call at the end: anything but a busy handler that is installed. *)
Definition quiet (es : list event) (c : Conn Db) : Prop :=
  busy_arg (raw c) = None \/ Forall (fun e => is_busy e = false) es.

Lemma fire_all_mem es c r w own B : wal_ok r B -> prog_ok r (prog w) B -> lists_rep (lists w) own B ->
  Forall (fun x => own x.2 <> O) (closures c) -> quiet es c ->
  exists w', fire_all es c r w = Some w' /\ lists w' = lists w /\ boxes w' = boxes w /\ leaked w' = leaked w /\
    prog_ok r (prog w') B.
Proof.
  intros Hw Hp Hr Hc Hq. revert w Hp Hr; induction es as [|e es IH]; intros w Hp Hr; [by exists w|]. cbn [fire_all].
  destruct (fire_mem e c r w own B Hw Hp Hr Hc) as (w1 & -> & E1 & E2 & _ & E4 & Hp1).
  { destruct Hq as [Hq|Hq]; [by right|left]. by inversion Hq. }
  destruct (IH) with (w := w1) as (w2 & -> & F1 & F2 & F4 & Hp2); [|done|by rewrite E1|].
  - destruct Hq as [Hq|Hq]; [by left|right]. by inversion Hq.
  - exists w2. split_and!; [done|congruence..|done].
Qed.

(** *** Each operation keeps the invariant *)

Definition steps_ok (x : option (term * res * world)) (B : Z) : Prop :=
  exists t r' w', x = Some (t, r', w') /\ res_inv r' w' B.

Lemma with_locked_ok {R} r w (func : Conn Db -> option (result R XqliteError * res * world)) B B' :
  res_inv r w B -> B <= B' ->
  (forall c, conn_opt (lock r) = Some c -> exists x r' w', func c = Some (x, r', w') /\ res_inv r' w' B') ->
  exists x r' w', with_locked r w func = Some (x, r', w') /\ res_inv r' w' B'.
Proof.
  intros Hi Hle Hf. pose proof (res_inv_le _ _ _ _ Hle Hi) as Hi'. unfold with_locked.
  destruct (poison (lock r)) as [e|]; [by eexists _, _, _|].
  destruct (conn_opt (lock r)) as [c|] eqn:Ec; [by apply Hf|by eexists _, _, _].
Qed.

Lemma id_term_ok x B : (exists (y : result Z XqliteError) (r' : res) w', x = Some (y, r', w') /\ res_inv r' w' B) ->
  steps_ok (id_term x) B.
Proof. intros (y & r' & w' & -> & Hi). by eexists _, _, _. Qed.
Lemma unit_term_ok x B : (exists (y : result unit XqliteError) (r' : res) w', x = Some (y, r', w') /\ res_inv r' w' B) ->
  steps_ok (unit_term x) B.
Proof. intros (y & r' & w' & -> & Hi). by eexists _, _, _. Qed.

Lemma field_owned k r : (occ (arc_field k r) (field_ptrs r) <> O)%nat.
Proof. apply occ_elem. unfold field_ptrs. destruct k; cbn [arc_field]; set_solver. Qed.

(** An operation on a shared list that gives out at most one handle. *)
Lemma on_arc_inv {R} k (f : pid_list -> option (R * pid_list)) r w B : res_inv r w B ->
  (forall l, list_ok l B -> exists x l', f l = Some (x, l') /\ list_ok l' (B + 1)) ->
  exists x w', on_arc (arc_field k r) f w = Some (x, w') /\ res_inv r w' (B + 1).
Proof.
  intros Hi Hf. destruct (res_inv_le r w B (B + 1) ltac:(lia) Hi) as (Hw & Hp & _ & Hb & Hk).
  destruct Hi as (_ & _ & Hr & _). unfold on_arc.
  assert (occ (arc_field k r) (field_ptrs r) + occ (arc_field k r) (closure_ptrs r) <> O)%nat as Ho
    by (pose proof (field_owned k r); lia).
  destruct (lists_rep_load _ _ _ _ Hr Ho) as (l & -> & Hl). destruct (Hf l Hl) as (x & l' & -> & Hl'). cbn [fst snd].
  destruct (lists_rep_store _ _ _ (B + 1) _ _ Hr Ho ltac:(lia) Hl') as (ls' & -> & Hr').
  eexists _, _. split; [done|]. by split_and!.
Qed.

Lemma register_ok p l B : B + 1 < 2 ^ 64 -> list_ok l B ->
  exists i l', sl_register (mkSub p) l = Some (i, l') /\ list_ok l' (B + 1).
Proof.
  intros HB (es & n & Hh & Hn). destruct (sl_register_holds (mkSub p) l es n Hh) as (l' & E & Hh'); [lia|].
  exists n, l'. split; [exact E|]. eexists _, _. split; [exact Hh'|lia].
Qed.

Lemma unregister_ok i l B : list_ok l B -> exists b l', sl_unregister i l = Some (b, l') /\ list_ok l' (B + 1).
Proof.
  intros (es & n & Hh & Hn). destruct (sl_unregister_holds i l es n Hh) as (l' & E & Hh').
  eexists _, l'. split; [exact E|]. eexists _, _. split; [exact Hh'|lia].
Qed.

Lemma register_arc_ok k p r w B : B + 1 < 2 ^ 64 -> res_inv r w B ->
  steps_ok (register_arc k (fun l => let! x := sl_register (mkSub p) l in Some (Ok x.1, x.2)) r w) (B + 1).
Proof.
  intros HB Hi. apply id_term_ok, (with_locked_ok _ _ _ B); [done|lia|]. intros c _.
  destruct (on_arc_inv k (fun l => let! x := sl_register (mkSub p) l in Some (Ok x.1 : result Z XqliteError, x.2)) r w B Hi)
    as (x & w' & -> & Hi').
  { intros l Hl. destruct (register_ok p l B HB Hl) as (i & l' & -> & Hl'). by eexists _, _. }
  by eexists _, _, _.
Qed.

Lemma unregister_arc_ok k i r w B : res_inv r w B ->
  steps_ok (unregister_arc k (fun l => let! x := sl_unregister i l in Some x.2) r w) (B + 1).
Proof.
  intros Hi. apply unit_term_ok, (with_locked_ok _ _ _ B); [done|lia|]. intros c _.
  destruct (on_arc_inv k (fun l => let! l := (let! x := sl_unregister i l in Some x.2) in Some (tt, l)) r w B Hi)
    as (x & w' & -> & Hi').
  { intros l Hl. destruct (unregister_ok i l B Hl) as (b & l' & -> & Hl'). by eexists _, _. }
  by eexists _, _, _.
Qed.

(** The WAL list is a field of the resource. *)
Lemma set_wal_inv r w d B : res_inv r w B -> list_ok (wal_list d) B -> res_inv (set_wal r (Some d)) w B.
Proof. intros (_ & Hp & Hr & Hb & Hk) Hd. split_and!; try done. by exists d. Qed.

Lemma wal_register_ok p r w B : B + 1 < 2 ^ 64 -> res_inv r w B -> steps_ok (register_wal_hook p r w) (B + 1).
Proof.
  intros HB Hi. apply id_term_ok, (with_locked_ok _ _ _ B); [done|lia|]. intros c _.
  pose proof Hi as ((d & -> & Hl) & _). unfold wal_register. destruct (register_ok p _ B HB Hl) as (i & l' & -> & Hl').
  eexists _, _, _. split; [done|]. apply set_wal_inv; [|done]. by eapply res_inv_le; [|exact Hi]; lia.
Qed.

Lemma wal_unregister_ok i r w B : res_inv r w B -> steps_ok (unregister_wal_hook i r w) (B + 1).
Proof.
  intros Hi. apply unit_term_ok, (with_locked_ok _ _ _ B); [done|lia|]. intros c _.
  pose proof Hi as ((d & -> & Hl) & _). unfold wal_unregister. destruct (unregister_ok i _ B Hl) as (b & l' & -> & Hl').
  eexists _, _, _. split; [done|]. apply set_wal_inv; [|done]. by eapply res_inv_le; [|exact Hi]; lia.
Qed.

Lemma tick_register_ok p n tag now r w B : B + 1 < 2 ^ 64 -> res_inv r w B ->
  steps_ok (register_progress_hook_nif p n tag now r w) (B + 1).
Proof.
  intros HB Hi. unfold register_progress_hook_nif. destruct (n =? 0) eqn:En.
  { eexists _, _, _. split; [done|]. eapply res_inv_le; [|exact Hi]. lia. }
  apply id_term_ok, (with_locked_ok _ _ _ B); [done|lia|]. intros c _.
  pose proof Hi as (_ & (d & ces & m & tes & k & Hd & Hc & Hnil & Ht & Hk & Hnd & Hp) & _).
  rewrite Hd. unfold register_progress_hook. rewrite En. unfold tick_new, box_into_raw.
  destruct (sl_register_holds (mkTick p n tag (brk (counters (prog w))) now) (ticks d) tes k Ht) as (l' & -> & Ht'); [lia|].
  eexists _, _, _. split; [done|].
  destruct (res_inv_le r w B (B + 1) ltac:(lia) Hi) as (Hw & _ & Hr & Hb & Hlk). split_and!; try done.
  exists (mkDispatch (cancels d) l'), ces, m. eexists _, _. split_and!; [done|done|done|exact Ht'|lia| |].
  - unfold counter_ptrs in *. rewrite map_app. apply list.NoDup_app. split_and!; [done| |apply NoDup_singleton].
    intros q Hq Hq2%list_elem_of_singleton. destruct (Hp q Hq) as [_ Hlt]. subst q. cbn in Hlt. lia.
  - intros q Hq. unfold counter_ptrs in Hq. rewrite map_app in Hq. cbn [counters cells brk prog set_prog].
    apply elem_of_app in Hq as [Hq|Hq%list_elem_of_singleton].
    + destruct (Hp q Hq) as [Hs Hlt]. rewrite lookup_insert_ne by lia. split; [done|lia].
    + cbn in Hq. subst q. rewrite lookup_insert, decide_True by done. split; [eauto|lia].
Qed.

Lemma tick_unregister_ok i r w B : res_inv r w B -> steps_ok (unregister_progress_hook_nif i r w) (B + 1).
Proof.
  intros Hi. apply unit_term_ok, (with_locked_ok _ _ _ B); [done|lia|]. intros c _.
  pose proof Hi as (_ & (d & ces & m & tes & k & Hd & Hc & Hnil & Ht & Hk & Hnd & Hp) & _).
  rewrite Hd. unfold unregister_progress_hook. destruct (sl_unregister_holds i (ticks d) tes k Ht) as (l' & -> & Ht').
  eexists _, _, _. split; [done|].
  destruct (res_inv_le r w B (B + 1) ltac:(lia) Hi) as (Hw & _ & Hr & Hb & Hlk). split_and!; try done.
  exists (mkDispatch (cancels d) l'), ces, m. eexists _, _. split_and!; [done|done|done|exact Ht'|lia| |].
  - eapply sublist_NoDup; [exact Hnd|]. apply sublist_map, sublist_filter.
  - intros q Hq. apply Hp. unfold counter_ptrs in *. apply list_elem_of_fmap in Hq as (e & -> & [_ He]%list_elem_of_filter).
    apply list_elem_of_fmap. by exists e.
Qed.

(** A busy operation of [BusyHandler]'s system, run through the resource. *)
Lemma on_busy_ok {R} (f : option ptr -> heap BusySlotState -> Db ->
      option (result R XqliteError * option ptr * heap BusySlotState * Db)) o now r w B :
  B + 1 < 2 ^ 64 -> res_inv r w B ->
  (forall slot bs db fx, busy_step o now (mkState slot bs db fx)
     = let! x := f slot bs db in let '(result, slot, bs, db) := x in Some (is_ok result, mkState slot bs db fx)) ->
  exists x r' w', on_busy f r w = Some (x, r', w') /\ res_inv r' w' (B + 1).
Proof.
  intros HB Hi Hf. apply (with_locked_ok _ _ _ B); [done|lia|]. intros c Hc.
  destruct (res_inv_le r w B (B + 1) ltac:(lia) Hi) as (Hw & Hp & Hr & _ & Hk).
  destruct Hi as (_ & _ & _ & Hb & _). unfold busy_ok in Hb. rewrite Hc in Hb. destruct Hb as (a & Ha & Hn).
  assert (is_observe o <= 1) by (destruct o; simpl; lia).
  destruct (busy_step_holds o now _ a Ha) as (ok & s' & Hs & Ha' & _); [lia|]. rewrite Hf in Hs.
  destruct (f (busy_handler r) (boxes w) (raw c)) as [[[[x slot] bs] db]|]; [|done]. injection Hs as <- <-.
  eexists _, _, _. split; [done|]. split_and!; try done.
  - eapply lists_rep_ext; [|exact Hr]. intros p. unfold closure_ptrs. by rewrite Hc.
  - unfold busy_ok. cbn. exists (busy_spec_step o (is_ok x) a). split; [done|].
    pose proof (busy_spec_next o (is_ok x) a (slot_holds_next _ _ Ha)). lia.
Qed.

Lemma close_ok es r w B : res_inv r w B -> steps_ok (close es r w) B.
Proof.
  intros Hi. unfold close. destruct (poison (lock r)); [by eexists _, _, _|].
  destruct (conn_opt (lock r)) as [c|] eqn:Hc; [|by eexists _, _, _]. unfold drop_conn.
  destruct (fire_all_inv es c r w B Hi Hc) as (w1 & -> & Hw & Hp & Hr & Hb & Hk).
  destruct (drop_arcs_rep (closures c).*2 w1 (fun p => occ p (field_ptrs r)) B) as (w2 & -> & (S1 & S2 & S3) & Hr2).
  { eapply lists_rep_ext; [|exact Hr]. intros p. unfold closure_ptrs. by rewrite Hc. }
  eexists _, _, _. split; [done|]. split_and!; [done|by rewrite S2| | |congruence].
  - eapply lists_rep_ext; [|exact Hr2]. intros p. unfold closure_ptrs, occ at 3. cbn. lia.
  - unfold busy_ok in *. rewrite Hc in Hb. cbn. rewrite S1. destruct Hb as (a & (st & (Hb & _) & _) & _).
    by exists st.
Qed.

(** Statements do with SQLite's state what they like; to the busy handler they can do one
    thing, [PRAGMA busy_timeout], which takes it away. *)
Definition sql_ok (o : res_op) : Prop :=
  match o with OpSql f => forall db, busy_arg (f db) = busy_arg db \/ busy_arg (f db) = None | _ => True end.

Lemma sql_inv f r w B : sql_ok (OpSql f) -> res_inv r w B -> steps_ok (res_step (OpSql f) r w) B.
Proof.
  intros Hf Hi. apply unit_term_ok, (with_locked_ok _ _ _ B); [done|lia|]. intros c Hc. eexists _, _, _. split; [done|].
  destruct Hi as (Hw & Hp & Hr & Hb & Hk). split_and!; try done.
  - eapply lists_rep_ext; [|exact Hr]. intros p. unfold closure_ptrs. by rewrite Hc.
  - unfold busy_ok in *. rewrite Hc in Hb. destruct Hb as (a & (st & (Hb & Ha & Hh) & Hsp) & Hn). cbn. exists a. split; [|done].
    exists st. split; [|done]. split_and!; [done| |apply Hh|apply Hh]. cbn. destruct (Hf (raw c)) as [->| ->]; [done|by left].
Qed.

Lemma res_step_ok o r w B : B + 1 < 2 ^ 64 -> sql_ok o -> res_inv r w B -> steps_ok (res_step o r w) (B + 1).
Proof.
  intros HB Hsql Hi. pose proof (res_inv_le r w B (B + 1) ltac:(lia) Hi) as Hi'.
  destruct o; cbn [res_step].
  - by apply register_arc_ok.
  - by apply unregister_arc_ok.
  - by apply register_arc_ok.
  - by apply unregister_arc_ok.
  - by apply register_arc_ok.
  - by apply unregister_arc_ok.
  - by apply wal_register_ok.
  - by apply wal_unregister_ok.
  - by apply tick_register_ok.
  - by apply tick_unregister_ok.
  - apply unit_term_ok. by apply (on_busy_ok _ (SetPolicy (mkPolicy max_retries max_elapsed_ms sleep_ms)) now r w B).
  - apply unit_term_ok. by apply (on_busy_ok _ RemovePolicy now r w B).
  - apply id_term_ok. by apply (on_busy_ok _ (Observe p) now r w B).
  - apply unit_term_ok. by apply (on_busy_ok _ (Unobserve i) now r w B).
  - by apply sql_inv.
  - destruct (conn_opt (lock r)) as [c|] eqn:Hc; [|by eexists _, _, _].
    destruct (fire_inv e c r w (B + 1) Hi' Hc) as (w' & -> & Hi2). by eexists _, _, _.
  - by apply close_ok.
  - by eexists _, _, _.
Qed.

Lemma run_res_ok ops r w B : B + Z.of_nat (length ops) < 2 ^ 64 -> Forall sql_ok ops -> res_inv r w B ->
  exists ts r' w', run_res ops r w = Some (ts, r', w') /\ res_inv r' w' (B + Z.of_nat (length ops)).
Proof.
  intros HB Hs. revert r w B HB; induction Hs as [|o ops Ho Hs IH]; intros r w B HB Hi.
  - exists [], r, w. split; [done|]. cbn [length]. by rewrite Z.add_0_r.
  - cbn [length] in HB. destruct (res_step_ok o r w B ltac:(lia) Ho Hi) as (t & r1 & w1 & E & Hi1).
    destruct (IH r1 w1 (B + 1) ltac:(lia) Hi1) as (ts & r2 & w2 & E2 & Hi2).
    cbn [run_res]. rewrite E, E2. eexists _, _, _. split; [done|]. cbn [length].
    by replace (B + Z.of_nat (S (length ops))) with (B + 1 + Z.of_nat (length ops)) by lia.
Qed.

(** *** Taking the resource apart *)

(** [locals]: owners of the lists besides the resource and its connection. *)
Lemma drop_resource_rep es r w B locals :
  wal_ok r B -> prog_ok r (prog w) B ->
  lists_rep (lists w) (fun p => occ p locals + occ p (field_ptrs r) + occ p (closure_ptrs r))%nat B ->
  (exists st, holds_box (busy_handler r) st (boxes w)) -> leaked w = O ->
  (forall c, conn_opt (lock r) = Some c -> quiet es c) ->
  exists w', drop_resource es r w = Some w' /\ lists_rep (lists w') (fun p => occ p locals) B /\
    cells (boxes w') = ∅ /\ leaked w' = O.
Proof.
  intros Hw Hp Hr (st & Hb) Hk Hq. unfold drop_resource, drop_body, drop_hook.
  destruct (drop_held _ _ _ Hb) as (bs & -> & Hbs). cbn [fst snd]. unfold drop_fields. cbn [lock set_busy].
  assert (exists w1, match conn_opt (lock r) with
      | Some c => drop_conn es c (set_busy r None) (set_boxes w bs) | None => Some (set_boxes w bs) end = Some w1 /\
    lists_rep (lists w1) (fun p => occ p locals + occ p (field_ptrs r))%nat B /\ boxes w1 = bs /\ leaked w1 = O /\
    prog_ok r (prog w1) B) as (w1 & -> & Hr1 & Hb1 & Hk1 & Hp1).
  { unfold closure_ptrs in Hr. destruct (conn_opt (lock r)) as [c|] eqn:Hc.
    - unfold drop_conn.
      destruct (fire_all_mem es c (set_busy r None) (set_boxes w bs) _ B Hw Hp Hr) as (w1 & -> & E1 & E2 & E3 & Hp1).
      { apply list.Forall_forall. intros x Hx. assert (occ x.2 (closures c).*2 <> O); [|lia].
        apply occ_elem. by apply list_elem_of_fmap_2. }
      { by apply Hq. }
      destruct (drop_arcs_rep (closures c).*2 w1 (fun p => occ p locals + occ p (field_ptrs r))%nat B)
        as (w2 & -> & (S1 & S2 & S3) & Hr2); [by rewrite E1|].
      exists w2. split_and!; [done|done|rewrite S1, E2; done|rewrite S3, E3; done|by rewrite S2].
    - exists (set_boxes w bs). split_and!; try done. eapply lists_rep_ext; [|exact Hr]. intros p. unfold occ at 3. cbn. lia. }
  destruct Hw as (d & Hd & es' & n & Hh & _). cbn [wal_hook set_busy]. rewrite Hd, (free_list_ok _ _ _ Hh).
  cbn [update_hook commit_hook rollback_hook set_wal set_busy]. fold (field_ptrs r).
  destruct (drop_arcs_rep (field_ptrs r) (add_leak 0 w1) (fun p => occ p locals) B) as (w2 & -> & (S1 & S2 & S3) & Hr2);
    [done|].
  destruct Hp1 as (pd & ces & m & tes & k & Hpd & Hc1 & _ & Ht1 & _). cbn [progress_dispatch set_wal set_busy].
  rewrite Hpd, (free_list_ok _ _ _ Hc1), (free_list_ok _ _ _ Ht1).
  eexists. split; [done|]. split; [done|]. cbn [boxes leaked add_leak Nat.add]. rewrite S1, S3. cbn. by rewrite Hb1.
Qed.

(** *** Opening *)

Definition fresh_above (ls : heap (pid_list * nat)) : Prop := forall p, (brk ls <= p)%positive -> cells ls !! p = None.

(** A world in which nothing of the connection exists yet. *)
Definition clean (w : world) : Prop := cells (lists w) = ∅ /\ cells (boxes w) = ∅ /\ leaked w = O.

Lemma list_new_rep w own B : lists_rep (lists w) own B -> fresh_above (lists w) -> 1 <= B ->
  exists p w', arc_list_new w = (p, w') /\ same w w' /\ fresh_above (lists w') /\
    lists_rep (lists w') (fun q => own q + occ q [p])%nat B.
Proof.
  intros Hr Hf HB. unfold arc_list_new, arc_new, box_into_raw. eexists _, _. split; [done|].
  split; [by split_and!|]. cbn [lists set_lists]. split.
  - intros p Hp. cbn [cells brk] in *. rewrite lookup_insert_ne by lia. apply Hf. lia.
  - intros q. specialize (Hr q). cbn [cells]. rewrite occ_cons. destruct (decide (brk (lists w) = q)) as [<-|Hq].
    + destruct (own (brk (lists w))) as [|m] eqn:Eo.
      * cbn. exists sl_new. rewrite lookup_insert, decide_True by done. split; [done|].
        exists [], 1. split; [apply sl_new_holds|done].
      * destruct Hr as (l & E & _). by rewrite Hf in E.
    + rewrite lookup_insert_ne by congruence. by replace (own q + (0 + occ q []))%nat with (own q) by (unfold occ; simpl; lia).
Qed.

Lemma list_clone_rep p w own B : lists_rep (lists w) own B -> own p <> O ->
  exists w', arc_list_clone p w = Some w' /\ same w w' /\ lists_rep (lists w') (fun q => own q + occ q [p])%nat B.
Proof.
  intros Hr Hp. unfold arc_list_clone, arc_clone. destruct (lists_rep_get _ _ _ p Hr Hp) as (l & -> & Hl).
  eexists. split; [done|]. split; [by split_and!|]. intros q. specialize (Hr q). cbn [lists set_lists cells].
  rewrite occ_cons. destruct (decide (p = q)) as [<-|Hq].
  - replace (own p + (1 + occ p []))%nat with (S (own p)) by (unfold occ; simpl; lia).
    exists l. by rewrite lookup_insert, decide_True.
  - rewrite lookup_insert_ne by congruence. by replace (own q + (0 + occ q []))%nat with (own q) by (unfold occ; simpl; lia).
Qed.

(** The three lists, each owned by a local and by the resource. *)
Lemma six_owners w : clean w -> exists u c b w',
  (let '(u, w) := arc_list_new w in let '(c, w) := arc_list_new w in let '(b, w) := arc_list_new w in
   let! w := arc_list_clone u w in let! w := arc_list_clone c w in let! w := arc_list_clone b w in
   Some (u, c, b, w)) = Some (u, c, b, w') /\ same w w' /\
  lists_rep (lists w') (fun p => occ p [u; c; b] + occ p [u; c; b])%nat 1.
Proof.
  intros (Hl & _). assert (lists_rep (lists w) (fun _ => O) 1) as H0' by (intros p; cbn; by rewrite Hl).
  assert (fresh_above (lists w)) as Hf by (intros p _; by rewrite Hl).
  destruct (list_new_rep w _ 1 H0' Hf ltac:(lia)) as (u & w1 & -> & S1 & F1 & R1).
  destruct (list_new_rep w1 _ 1 R1 F1 ltac:(lia)) as (c & w2 & -> & S2 & F2 & R2).
  destruct (list_new_rep w2 _ 1 R2 F2 ltac:(lia)) as (b & w3 & -> & S3 & F3 & R3).
  destruct (list_clone_rep u w3 _ 1 R3) as (w4 & -> & S4 & R4); [rewrite !occ_cons, (decide_True _ _ (eq_refl u)); lia|].
  destruct (list_clone_rep c w4 _ 1 R4) as (w5 & -> & S5 & R5); [rewrite !occ_cons, (decide_True _ _ (eq_refl c)); lia|].
  destruct (list_clone_rep b w5 _ 1 R5) as (w6 & -> & S6 & R6); [rewrite !occ_cons, (decide_True _ _ (eq_refl b)); lia|].
  exists u, c, b, w6. split; [done|]. split; [by repeat (eapply same_trans; [eassumption|])|].
  eapply lists_rep_ext; [|exact R6]. intros p. cbv beta. rewrite !occ_cons. change (occ p []) with O. lia.
Qed.

End Resource.

(** Installing hooks leaves the busy handler alone. *)
Class HookInstallLaws (Db : Type) `{BusyApi Db} `{HookInstall Db} := {
  install_keeps_busy (db : Db) : busy_arg (install_wal (install_progress db)) = busy_arg db;
  update_keeps_busy (db : Db) : busy_arg (install_update db).2 = busy_arg db;
  commit_keeps_busy (db : Db) : busy_arg (install_commit db).2 = busy_arg db;
  rollback_keeps_busy (db : Db) : busy_arg (install_rollback db).2 = busy_arg db;
}.

Section Open.
  Context `{Beam} `{RusqliteText} {Db : Type} `{BusyApiLaws Db} `{HookInstall Db} `{!HookInstallLaws Db}.

Lemma new_handle_wal u c b (conn : Conn Db) : wal_ok (new_handle u c b conn) 1.
Proof. eexists. split; [done|]. exists [], 1. split; [apply sl_new_holds|lia]. Qed.

Lemma new_handle_prog u c b (conn : Conn Db) pw : prog_ok (new_handle u c b conn) pw 1.
Proof.
  exists dispatch_new, [], 1, [], 1. split_and!; [done|apply sl_new_holds|done|apply sl_new_holds|lia|constructor|..].
  all: intros p Hp; by inversion Hp.
Qed.

Lemma install_closure_ok k f p c w own : (busy_arg (f (raw c)).2 = busy_arg (raw c)) ->
  lists_rep (lists w) (fun q => own q + occ q [p])%nat 1 ->
  exists x c' w', install_closure (Db := Db) k f p c w = Some (x, c', w') /\ same w w' /\
    busy_arg (raw c') = busy_arg (raw c) /\
    match x with
    | Ok _ => closures c' = closures c ++ [(k, p)] /\ w' = w
    | Err _ => closures c' = closures c /\ lists_rep (lists w') own 1
    end.
Proof.
  intros Hb Hr. unfold install_closure. destruct (f (raw c)) as [[[]|e] db]; cbn [snd] in Hb.
  - eexists _, _, _. split; [done|]. by split_and!.
  - destruct (drop_arcs_rep [p] w own 1 Hr) as (w' & E & Hs & Hr'). cbn [drop_arcs_of] in E.
    destruct (drop_arc p w) as [w1|]; [|done]. injection E as ->. eexists _, _, _. by split_and!.
Qed.

Lemma abandon_ok es u c b (conn : Conn Db) e locals w : busy_arg (raw conn) = None ->
  lists_rep (lists w) (fun p => occ p locals + occ p [u; c; b] + occ p (closures conn).*2)%nat 1 ->
  cells (boxes w) = ∅ -> leaked w = O ->
  exists w', abandon es (new_handle u c b conn) e locals w = Some (Err e, w') /\ clean w'.
Proof.
  intros Hb Hr Hx Hk. unfold abandon.
  destruct (drop_resource_rep es (new_handle u c b conn) w 1 locals) as (w1 & -> & Hr1 & Hx1 & Hk1).
  - apply new_handle_wal.
  - apply new_handle_prog.
  - done.
  - by exists (mkBusy None [] 0 0).
  - done.
  - intros c' [= <-]. by left.
  - destruct (drop_arcs_rep locals w1 (fun _ => O) 1 Hr1) as (w2 & -> & (S1 & S2 & S3) & Hr2).
    exists w2. split; [done|]. split_and!; [by eapply lists_rep_nil|by rewrite S1|by rewrite S3].
Qed.

(** One installation of [open_resource]: the closure is in, or everything is undone. *)
Lemma install_or_abandon es u c b k f p (conn : Conn Db) locals w :
  (forall db, busy_arg (f db).2 = busy_arg db) -> busy_arg (raw conn) = None ->
  lists_rep (lists w) (fun q => occ q [p] + occ q locals + occ q [u; c; b] + occ q (closures conn).*2)%nat 1 ->
  cells (boxes w) = ∅ -> leaked w = O ->
  (exists conn', install_closure k f p conn w = Some (Ok tt, conn', w) /\ busy_arg (raw conn') = None /\
     closures conn' = closures conn ++ [(k, p)]) \/
  (exists e conn' w' w'', install_closure k f p conn w = Some (Err e, conn', w') /\
     abandon es (new_handle u c b conn') e locals w' = Some (Err e, w'') /\ clean w'').
Proof.
  intros Hf Hb Hr Hx Hk. destruct (install_closure_ok k f p conn w
    (fun q => occ q locals + occ q [u; c; b] + occ q (closures conn).*2)%nat (Hf _))
    as (x & conn' & w' & E & (S1 & _ & S3) & B' & Hi).
  { eapply lists_rep_ext; [|exact Hr]. intros q. cbv beta. lia. }
  destruct x as [[]|e]; destruct Hi as [C Hi].
  - subst w'. left. exists conn'. split_and!; [done|congruence|done].
  - right. destruct (abandon_ok es u c b conn' e locals w') as (w'' & E2 & Hw); [congruence|by rewrite C|congruence..|].
    by exists e, conn', w', w''.
Qed.

Lemma open_resource_ok es open_result path w : clean w ->
  (forall db, open_result = Ok db -> busy_arg db = None) ->
  exists x w', open_resource (Db := Db) es open_result path w = Some (x, w') /\
    match x with Ok r => res_inv r w' 1 | Err _ => clean w' end.
Proof.
  intros Hcl Hdb. destruct open_result as [db|err]; cbn [open_resource]; [|destruct err; by eexists _, _].
  specialize (Hdb db eq_refl). destruct (six_owners w Hcl) as (u & c & b & w0 & E & (S1 & _ & S3) & Hr).
  destruct Hcl as (_ & Hx & Hk). rewrite <- S1 in Hx. rewrite <- S3 in Hk.
  destruct (arc_list_new w) as [u' wa]. destruct (arc_list_new wa) as [c' wb]. destruct (arc_list_new wb) as [b' wc].
  destruct (arc_list_clone u' wc) as [wd|]; [|done]. destruct (arc_list_clone c' wd) as [we|]; [|done].
  destruct (arc_list_clone b' we) as [wf|]; [|done]. injection E as -> -> -> ->.
  set (c0 := mkConn (install_wal (install_progress db)) []).
  assert (Hocc : forall p q l, occ p (q :: l) = (occ p [q] + occ p l)%nat).
  { intros p q l. rewrite !occ_cons. change (occ p []) with O. lia. }
  destruct (install_or_abandon es u c b HUpdate install_update u c0 [b; c] w0 update_keeps_busy)
    as [(c1 & -> & B1 & C1)|(e & c1 & w1 & w2 & -> & -> & Hw)]; [cbn; by rewrite install_keeps_busy| |done|done| |by eexists _, _].
  { eapply lists_rep_ext; [|exact Hr]. intros p. cbn [closures c0 fmap list_fmap]. rewrite !(Hocc p _ (_ :: _)).
    change (occ p []) with O. lia. }
  destruct (install_or_abandon es u c b HCommit install_commit c c1 [b] w0 commit_keeps_busy)
    as [(c2 & -> & B2 & C2)|(e & c2 & w1 & w2 & -> & -> & Hw)]; [done| |done|done| |by eexists _, _].
  { eapply lists_rep_ext; [|exact Hr]. intros p. rewrite C1. cbn [closures c0 app fmap list_fmap snd]. rewrite !(Hocc p _ (_ :: _)). lia. }
  destruct (install_or_abandon es u c b HRollback install_rollback b c2 [] w0 rollback_keeps_busy)
    as [(c3 & -> & B3 & C3)|(e & c3 & w1 & w2 & -> & -> & Hw)]; [done| |done|done| |by eexists _, _].
  { eapply lists_rep_ext; [|exact Hr]. intros p. rewrite C2, C1. cbn [closures c0 app fmap list_fmap snd]. rewrite !(Hocc p _ (_ :: _)).
    change (occ p []) with O. lia. }
  eexists _, _. split; [done|]. split_and!; [apply new_handle_wal|apply new_handle_prog| | |done].
  - eapply lists_rep_ext; [|exact Hr]. intros p. unfold closure_ptrs. cbn [lock new_handle conn_opt]. by rewrite C3, C2, C1.
  - exists spec_empty. split; [|simpl; lia]. exists (mkBusy None [] 0 0).
    split; [|done]. split_and!; [done|by left| |done]. split_and!; simpl; [lia..|constructor|constructor].
Qed.

End Open.

(** ** Theorems *)

(** The life of a connection: opened, used, and collected by the runtime. *)
Definition life `{Beam} `{RusqliteText} {Db} `{BusyApi Db} `{HookInstall Db} (open_result : result Db RusqliteError)
    (path : bytes) (at_open : list event) (ops : list res_op) (at_drop : list event) (w : world)
    : option (result (list term) XqliteError * world) :=
  let! x := open_resource at_open open_result path w in
  match x with
  | (Err e, w) => Some (Err e, w)
  | (Ok r, w) =>
      let! y := run_res ops r w in
      let '(ts, r, w) := y in
      let! w := drop_resource at_drop r w in
      Some (Ok ts, w)
  end.

(** C9: a connection owns its memory: whether or not opening succeeds, whichever hooks
    and busy policies are set and removed, whatever statements run (a busy timeout that
    takes the crate's handler away included), whatever SQLite calls back, whether it is
    closed, poisoned or neither, once the resource is dropped every list, every
    closure's reference, and the busy box has been freed exactly once, none is lost,
    and no callback (not even one made while SQLite closes the connection) reached
    freed memory.  The one call that could is the busy handler while the resource is
    being dropped: it is excluded. *)
Theorem connection_frees_what_it_owns `{Beam} `{RusqliteText} {Db} `{BusyApiLaws Db} `{HookInstall Db}
    `{!HookInstallLaws Db} open_result path at_open ops at_drop w :
  clean w -> (forall db : Db, open_result = Ok db -> busy_arg db = None) -> Forall sql_ok ops ->
  Z.of_nat (length ops) < 2 ^ 64 - 1 -> Forall (fun e => is_busy e = false) at_drop ->
  exists x w', life open_result path at_open ops at_drop w = Some (x, w') /\ clean w'.
Proof.
  intros Hw Hdb Hsql Hn Hq. unfold life.
  destruct (open_resource_ok at_open open_result path w Hw Hdb) as ([r|e] & w1 & -> & Hi); [|by eexists _, _].
  destruct (run_res_ok ops r w1 1 ltac:(lia) Hsql Hi) as (ts & r2 & w2 & -> & Hwal & Hp & Hr & Hb & Hk).
  destruct (drop_resource_rep at_drop r2 w2 (1 + Z.of_nat (length ops)) []) as (w3 & -> & Hr3 & Hx3 & Hk3); [done|done| | |done| |].
  - eapply lists_rep_ext; [|exact Hr]. done.
  - unfold busy_ok in Hb. destruct (conn_opt (lock r2)); [|done].
    destruct Hb as (a & (st & (Hb & _) & _) & _). by exists st.
  - intros c _. by right.
  - eexists _, _. split; [done|]. split_and!; [by eapply lists_rep_nil|done|done].
Qed.

(** For the witness: SQLite with a busy slot only. *)
Definition demo_install : HookInstall (option ptr) := {|
  install_progress db := db; install_wal db := db; install_update db := (Ok tt, db);
  install_commit db := (Ok tt, db); install_rollback db := (Ok tt, db) |}.
Definition demo_install_laws : @HookInstallLaws (option ptr) demo_busy demo_install.
Proof. constructor; reflexivity. Defined.
Definition demo_w : world :=
  mkW empty_heap empty_heap (mkWorld empty_heap empty_heap []) (mkWalEffects [] []) (mkEffects [] []) [] 0.

Lemma connection_frees_what_it_owns_witness :
  exists x w', @life demo_beam demo_text (option ptr) demo_busy demo_install (Ok None) (str "a.db") []
    [OpRegUpdate 7; OpRegTick 8 1 None 0; OpObserve 9 0; OpCallback ECommit; OpSql (fun _ => None); OpSetPolicy 1 2 3 4]
    [ERollback; EWal None 5; EProgress (fun _ => 0)] demo_w = Some (x, w') /\ clean w'.
Proof.
  apply (@connection_frees_what_it_owns demo_beam demo_text (option ptr) demo_busy demo_busy_laws demo_install
    demo_install_laws).
  - split_and!; reflexivity.
  - intros db [= <-]. reflexivity.
  - do 4 (constructor; [exact I|]). constructor; [intros db; right; reflexivity|]. constructor; [exact I|constructor].
  - vm_compute. reflexivity.
  - repeat constructor.
Defined.

(** The comment on [Drop] says the connection is dropped first, but the body of [drop]
    runs before any field: the busy box is freed while SQLite still holds it, so a
    busy handler called while the connection is closing reads freed memory. *)
Theorem busy_call_at_drop_is_use_after_free :
  @life demo_beam demo_text (option ptr) demo_busy demo_install (Ok None) (str "a.db") [] [OpObserve 9 0]
    [EBusy 0 1 1] demo_w = None.
Proof. vm_compute. reflexivity. Qed.
