(* ===== verification/LogHook.v ===== *)
(** * [log_hook.rs] under concurrency: the one hook list without a connection

    The log hook is process-wide: registrations come from any scheduler and the
    callback from any thread that runs SQLite.  [Hooks] models its three entry
    points one at a time; here they run interleaved, one atomic access at a time
    (taking [MASTER_LOCK], the counter, loading and swapping the head of
    [LOG_SUBSCRIBERS], copying and freeing a vector, reading one entry of a
    snapshot, unlocking).  A read or a free of a vector that is gone is [UB].
    [guarded] says whether the callback takes the lock, as [log_callback] does. *)

From S2P Require Import Prelude RustStr Sqlite Terms Heap Error HookList Hooks.

Abbreviation entry := (HookList.HookEntry PidSubscriber).

Inductive log_op := LRegister (p : Z) | LUnregister (i : Z) | LEvent (code : Z) (msg : bytes).

(** Where a thread is. *)
Inductive phase :=
| Idle
| Calling (o : log_op)                       (* before [MASTER_LOCK.lock()] *)
| Entered (o : log_op)
| Counted (p i : Z)                          (* register: the handle is drawn *)
| Loaded (o : log_op) (i : Z) (old : option ptr)
| Built (new_vec : option (list entry))      (* [None]: the new head is null *)
| Boxed (new_ptr : option ptr)
| Swapped (prev : option ptr)
| Walking (snapshot : ptr) (k : nat) (code : Z) (msg : bytes)
| Leaving.

Record log_sys := mkLogSys {
  MASTER_LOCK : option nat;                  (* the thread holding it *)
  lock_poison : bool;
  installed : bool;                          (* MASTER_INSTALLED *)
  list_head : option ptr;
  list_next : Z;
  vectors : heap (list entry);
  log_sent : outbox;
  threads : nat -> phase;
}.

(** What the outside decides: the call an idle thread makes, what [config_log]
    answers, whether a send panics. *)
Record action := mkAction { call : log_op; config_log : bool; panics : bool }.

Inductive outcome := Blocked | UB | Next (s : log_sys).

Section LogHook.
  Context `{Beam}.

Definition goto (t : nat) (ph : phase) (s : log_sys) : log_sys :=
  mkLogSys (MASTER_LOCK s) (lock_poison s) (installed s) (list_head s) (list_next s) (vectors s) (log_sent s)
    (fun x => if decide (x = t) then ph else threads s x).
Definition set_master (o : option nat) (s : log_sys) : log_sys :=
  mkLogSys o (lock_poison s) (installed s) (list_head s) (list_next s) (vectors s) (log_sent s) (threads s).
Definition set_vectors (v : heap (list entry)) (s : log_sys) : log_sys :=
  mkLogSys (MASTER_LOCK s) (lock_poison s) (installed s) (list_head s) (list_next s) v (log_sent s) (threads s).

Definition is_event (o : log_op) : bool := match o with LEvent _ _ => true | _ => false end.

(** [MASTER_LOCK.lock()]: a poisoned lock makes register and unregister return at
    once; the callback goes on. *)
Definition enter (guarded : bool) (t : nat) (o : log_op) (s : log_sys) : outcome :=
  if is_event o && negb guarded then Next (goto t (Entered o) s)
  else match MASTER_LOCK s with
       | Some _ => Blocked
       | None =>
           if lock_poison s && negb (is_event o) then Next (goto t Idle s)
           else Next (goto t (Entered o) (set_master (Some t) s))
       end.

(** The first step inside: [register] installs the callback once and draws its
    handle, [unregister] loads the head, the callback takes its snapshot. *)
Definition entered (t : nat) (o : log_op) (a : action) (s : log_sys) : log_sys :=
  match o with
  | LRegister p =>
      if installed s || config_log a then
        goto t (Counted p (list_next s))
          (mkLogSys (MASTER_LOCK s) (lock_poison s) true (list_head s) (wrap_unsigned 64 (list_next s + 1))
             (vectors s) (log_sent s) (threads s))
      else goto t Leaving s
  | LUnregister i => goto t (Loaded o i (list_head s)) s
  | LEvent code msg =>
      match list_head s with None => goto t Leaving s | Some p => goto t (Walking p 0 code msg) s end
  end.

(** The new vector, from the old one. *)
Definition build (t : nat) (o : log_op) (i : Z) (old : option ptr) (s : log_sys) : outcome :=
  match o, old with
  | LRegister p, None => Next (goto t (Built (Some [HookList.mkEntry i (mkSub p)])) s)
  | LRegister p, Some q =>
      match deref q (vectors s) with
      | None => UB
      | Some existing => Next (goto t (Built (Some (map HookList.clone_entry existing ++ [HookList.mkEntry i (mkSub p)]))) s)
      end
  | LUnregister i, Some q =>
      match deref q (vectors s) with
      | None => UB
      | Some existing =>
          let filtered := map HookList.clone_entry (filter (fun e => HookList.id e <> i) existing) in
          if bool_decide (length filtered = length existing) then Next (goto t Leaving s)
          else Next (goto t (Built match filtered with [] => None | _ => Some filtered end) s)
      end
  | LUnregister _, None => Next (goto t Leaving s)
  | LEvent _ _, _ => Next (goto t Leaving s)     (* not reached: the callback builds nothing *)
  end.

Definition box_new (t : nat) (new_vec : option (list entry)) (s : log_sys) : log_sys :=
  match new_vec with
  | None => goto t (Boxed None) s
  | Some v => let '(p, h) := box_into_raw v (vectors s) in goto t (Boxed (Some p)) (set_vectors h s)
  end.

(** [self.head.swap(new_ptr)] *)
Definition swap_list (t : nat) (new_ptr : option ptr) (s : log_sys) : log_sys :=
  goto t (Swapped (list_head s))
    (mkLogSys (MASTER_LOCK s) (lock_poison s) (installed s) new_ptr (list_next s) (vectors s) (log_sent s) (threads s)).

(** One entry of the snapshot; a panic unwinds through the guard and poisons the lock. *)
Definition walk (guarded : bool) (t : nat) (p : ptr) (k : nat) (code : Z) (msg : bytes) (a : action) (s : log_sys)
    : outcome :=
  match deref p (vectors s) with
  | None => UB
  | Some es =>
      match es !! k with
      | None => Next (goto t Leaving s)
      | Some e =>
          if panics a then
            Next (goto t Idle
              (if guarded then mkLogSys None true (installed s) (list_head s) (list_next s) (vectors s) (log_sent s) (threads s)
               else s))
          else
            Next (goto t (Walking p (S k) code msg)
              (mkLogSys (MASTER_LOCK s) (lock_poison s) (installed s) (list_head s) (list_next s) (vectors s)
                 (send_log_to_pid (pid (HookList.state e)) code msg (log_sent s)) (threads s)))
      end
  end.

Definition unlock (t : nat) (s : log_sys) : log_sys :=
  goto t Idle (if bool_decide (MASTER_LOCK s = Some t) then set_master None s else s).

Definition log_step (guarded : bool) (t : nat) (a : action) (s : log_sys) : outcome :=
  match threads s t with
  | Idle => Next (goto t (Calling (call a)) s)
  | Calling o => enter guarded t o s
  | Entered o => Next (entered t o a s)
  | Counted p i => Next (goto t (Loaded (LRegister p) i (list_head s)) s)
  | Loaded o i old => build t o i old s
  | Built new_vec => Next (box_new t new_vec s)
  | Boxed new_ptr => Next (swap_list t new_ptr s)
  | Swapped prev =>
      match drop_nonnull prev (vectors s) with
      | None => UB
      | Some h => Next (goto t Leaving (set_vectors h s))
      end
  | Walking p k code msg => walk guarded t p k code msg a s
  | Leaving => Next (unlock t s)
  end.

(** LOG_SUBSCRIBERS at load time, nobody calling. *)
Definition log_init : log_sys := mkLogSys None false false None 1 empty_heap [] (fun _ => Idle).

Inductive reachable (guarded : bool) : log_sys -> Prop :=
| reach_init : reachable guarded log_init
| reach_step s t a s' : reachable guarded s -> log_step guarded t a s = Next s' -> reachable guarded s'.

(** ** Invariant *)

Definition outside (ph : phase) : bool := match ph with Idle | Calling _ => true | _ => false end.

(** The list as a thread in phase [ph] of the critical section left it. *)
Definition phase_ok (ph : phase) (s : log_sys) : Prop :=
  match ph with
  | Idle | Calling _ => False
  | Entered _ | Counted _ _ | Built _ | Leaving => exists es, holds_box (list_head s) es (vectors s)
  | Loaded _ _ old => old = list_head s /\ exists es, holds_box (list_head s) es (vectors s)
  | Walking p _ _ _ => list_head s = Some p /\ exists es, holds_box (list_head s) es (vectors s)
  | Boxed None => exists es, holds_box (list_head s) es (vectors s)
  | Boxed (Some q) => exists v h, box_into_raw v h = (q, vectors s) /\ exists es, holds_box (list_head s) es h
  | Swapped prev =>
      match list_head s with
      | None => exists es, holds_box prev es (vectors s)
      | Some q => exists v h, box_into_raw v h = (q, vectors s) /\ exists es, holds_box prev es h
      end
  end.

Definition log_inv (s : log_sys) : Prop :=
  (forall t, outside (threads s t) = false -> MASTER_LOCK s = Some t) /\
  match MASTER_LOCK s with
  | None => exists es, holds_box (list_head s) es (vectors s)
  | Some t => phase_ok (threads s t) s
  end.

(** ** Lemmas *)

Lemma goto_thread t ph s : threads (goto t ph s) t = ph.
Proof. cbn. by rewrite decide_True. Qed.

Lemma goto_other t ph s x : x <> t -> threads (goto t ph s) x = threads s x.
Proof. intros Hx. cbn. by rewrite decide_False. Qed.

(** A thread outside the critical section moves without entering it. *)
Lemma outside_inv s t ph : log_inv s -> outside (threads s t) = true -> outside ph = true ->
  log_inv (goto t ph s).
Proof.
  intros [Hl Hp] Ho Hph. split.
  - intros x. cbn [MASTER_LOCK goto threads]. destruct (decide (x = t)) as [->|Hx]; [by rewrite Hph|apply Hl].
  - cbn [MASTER_LOCK goto]. destruct (MASTER_LOCK s) as [x|] eqn:E; [|exact Hp].
    assert (x <> t) as Hx by (intros ->; destruct (threads s t); done). by rewrite goto_other.
Qed.

(** The holder moves on inside it. *)
Lemma inside_inv s s1 t ph : log_inv s -> MASTER_LOCK s = Some t -> MASTER_LOCK s1 = Some t ->
  threads s1 = threads s -> outside ph = false -> phase_ok ph s1 -> log_inv (goto t ph s1).
Proof.
  intros [Hl _] Hs Hs1 Ht Hph Hok. split.
  - intros x. cbn [MASTER_LOCK goto threads]. destruct (decide (x = t)) as [->|Hx]; [done|].
    rewrite Ht, Hs1, <- Hs. apply Hl.
  - cbn [MASTER_LOCK goto]. rewrite Hs1, goto_thread. by destruct ph as [| | | | | |[]| | |].
Qed.

(** The holder leaves. *)
Lemma leave_inv s s1 t : log_inv s -> MASTER_LOCK s = Some t -> MASTER_LOCK s1 = None -> threads s1 = threads s ->
  (exists es, holds_box (list_head s1) es (vectors s1)) -> log_inv (goto t Idle s1).
Proof.
  intros [Hl _] Hs Hs1 Ht Hb. split.
  - intros x. cbn [MASTER_LOCK goto threads]. destruct (decide (x = t)) as [->|Hx]; [done|].
    rewrite Ht. intros Hx'%Hl. congruence.
  - cbn [MASTER_LOCK goto]. by rewrite Hs1.
Qed.

Lemma enter_inv s t o : log_inv s -> threads s t = Calling o ->
  match enter true t o s with Blocked => is_Some (MASTER_LOCK s) | UB => False | Next s' => log_inv s' end.
Proof.
  intros Hi Ht. unfold enter. rewrite andb_false_r. destruct (MASTER_LOCK s) as [x|] eqn:E; [done|].
  destruct (lock_poison s && _); [by apply outside_inv; rewrite ?Ht|]. destruct Hi as [Hl Hp]. rewrite E in Hp. split.
  - intros x. cbn [MASTER_LOCK goto set_master threads]. destruct (decide (x = t)) as [->|Hx]; [done|].
    intros Hx'%Hl. congruence.
  - cbn [MASTER_LOCK goto set_master]. rewrite goto_thread. done.
Qed.

(** The box of the old head survives the allocation of a new one, and freeing it
    leaves the new one alone. *)
Lemma free_prev (v : list entry) prev es h q h1 : holds_box prev es h -> box_into_raw v h = (q, h1) ->
  exists h2, drop_nonnull prev h1 = Some h2 /\ holds_box (Some q) v h2.
Proof. intros Hb E. pose proof (swap_box _ _ v _ Hb) as Hs. by rewrite E in Hs. Qed.

(** The box the invariant speaks of is at hand. *)
Ltac box_in := try done; repeat match goal with
  | |- _ /\ _ => split; [done|]
  | es : list entry |- exists _, _ => by exists es
  | |- exists _, _ => eexists
  end; try done.

(** What the holder does next is defined and keeps the invariant. *)
Lemma holder_inv s t a : log_inv s -> MASTER_LOCK s = Some t ->
  match log_step true t a s with Blocked | UB => False | Next s' => log_inv s' end.
Proof.
  intros Hi Hs. pose proof Hi as [_ Hp]. rewrite Hs in Hp. unfold log_step.
  destruct (threads s t) as [|o|o|p i|o i old|v|q|prev|p k code msg|] eqn:Et; cbn [phase_ok] in Hp; try done.
  - destruct o as [p|i|code msg]; cbn [entered].
    + destruct (_ || _); by apply (inside_inv s).
    + by apply (inside_inv s).
    + destruct (list_head s) eqn:Eh; apply (inside_inv s); cbn; rewrite ?Eh; box_in.
  - by apply (inside_inv s).
  - destruct Hp as [-> [es Hb]]. destruct o as [p|j|code msg]; cbn [build].
    + destruct (list_head s) as [q|] eqn:Eh; [rewrite (deref_held _ _ _ Hb)|]; apply (inside_inv s); cbn; rewrite ?Eh; box_in.
    + destruct (list_head s) as [q|] eqn:Eh; [rewrite (deref_held _ _ _ Hb); case_bool_decide|];
        apply (inside_inv s); cbn; rewrite ?Eh; box_in.
    + destruct (list_head s) eqn:Eh; apply (inside_inv s); cbn; rewrite ?Eh; box_in.
  - destruct v as [v|]; cbn [box_new]; [|by apply (inside_inv s)].
    destruct (box_into_raw v (vectors s)) as [q h] eqn:Eb. apply (inside_inv s); try done. by exists v, (vectors s).
  - apply (inside_inv s); cbn; try done.
  - destruct (list_head s) as [q|] eqn:Eh.
    + destruct Hp as (v & h & Eb & es & Hb). destruct (free_prev v prev es h q _ Hb Eb) as (h2 & -> & Hb2).
      apply (inside_inv s); cbn; rewrite ?Eh; box_in.
    + destruct Hp as [es Hb]. destruct (drop_held _ _ _ Hb) as (h2 & -> & Hc).
      apply (inside_inv s); cbn; rewrite ?Eh; box_in.
  - destruct Hp as [Eh [es Hb]]. unfold walk. rewrite Eh in Hb. rewrite (deref_held _ _ _ Hb).
    destruct (es !! k); [destruct (panics a)|].
    + apply (leave_inv s); cbn; rewrite ?Eh; box_in.
    + apply (inside_inv s); cbn; rewrite ?Eh; box_in.
    + apply (inside_inv s); cbn; rewrite ?Eh; box_in.
  - unfold unlock. rewrite bool_decide_eq_true_2 by done. by apply (leave_inv s).
Qed.

Lemma log_step_inv s t a : log_inv s ->
  match log_step true t a s with Blocked => is_Some (MASTER_LOCK s) | UB => False | Next s' => log_inv s' end.
Proof.
  intros Hi. destruct (outside (threads s t)) eqn:Eo.
  - unfold log_step. destruct (threads s t) eqn:Et; try done; [|by apply enter_inv].
    apply outside_inv; rewrite ?Et; done.
  - destruct Hi as [Hl Hp]. pose proof (holder_inv s t a (conj Hl Hp) (Hl t Eo)). by destruct (log_step true t a s).
Qed.

Lemma log_reachable_inv s : reachable true s -> log_inv s.
Proof.
  induction 1 as [|s t a s' _ IH Hs].
  - split; [done|]. by exists [].
  - pose proof (log_step_inv s t a IH) as Hi. by rewrite Hs in Hi.
Qed.

End LogHook.

(** ** Theorems *)

(** C10: the process-wide log hook is memory safe under every interleaving of
    registrations, unregistrations and log events from any number of threads, with
    sends that panic and the lock they poison included: no thread ever reads or
    frees a subscriber vector that has been freed; some thread can always go on (the
    one holding the lock, if there is one); and whenever nobody holds the lock
    exactly the current vector is allocated, so nothing leaks. *)
Theorem log_hook_no_use_after_free `{Beam} s : reachable true s ->
  (forall t a, log_step true t a s <> UB) /\
  (exists t, forall a, log_step true t a s <> Blocked) /\
  (MASTER_LOCK s = None -> exists es, holds_box (list_head s) es (vectors s)).
Proof.
  intros Hi%log_reachable_inv. split_and!.
  - intros t a E. pose proof (log_step_inv s t a Hi) as Hs. by rewrite E in Hs.
  - destruct (MASTER_LOCK s) as [t|] eqn:El.
    + exists t. intros a E. pose proof (holder_inv s t a Hi El) as Hs. by rewrite E in Hs.
    + exists O. intros a E. pose proof (log_step_inv s 0 a Hi) as Hs. rewrite E, El in Hs. by destruct Hs.
  - intros El. destruct Hi as [_ Hp]. by rewrite El in Hp.
Qed.

(** The steps of [ts] by thread and action. *)
Fixpoint run_log `{Beam} (guarded : bool) (ts : list (nat * action)) (s : log_sys) : outcome :=
  match ts with
  | [] => Next s
  | (t, a) :: ts => match log_step guarded t a s with Next s => run_log guarded ts s | o => o end
  end.

Lemma run_log_reachable `{Beam} guarded ts s s' : reachable guarded s -> run_log guarded ts s = Next s' -> reachable guarded s'.
Proof.
  revert s; induction ts as [|[t a] ts IH]; intros s Hr; cbn [run_log]; [by intros [= <-]|].
  destruct (log_step guarded t a s) eqn:E; try done. apply IH. by econstructor.
Qed.

(** Thread 0 registers, then thread 1 runs a log event while thread 0 unregisters. *)
Definition race : list (nat * action) :=
  let reg := mkAction (LRegister 7) true false in
  let event := mkAction (LEvent 1 (str "x")) true false in
  let unreg := mkAction (LUnregister 1) true false in
  replicate 9 (0%nat, reg) ++ replicate 3 (1%nat, event) ++ replicate 8 (0%nat, unreg) ++ [(1%nat, event)].

Definition after (o : outcome) : log_sys := match o with Next s => s | _ => log_init end.

Lemma run_after `{Beam} guarded ts : reachable guarded (after (run_log guarded ts log_init)).
Proof.
  destruct (run_log guarded ts log_init) eqn:E; [apply reach_init..|].
  by eapply run_log_reachable; [apply reach_init|].
Qed.

Lemma log_hook_no_use_after_free_witness :
  let s := after (@run_log demo_beam true (replicate 9 (0%nat, mkAction (LRegister 7) true false)) log_init) in
  list_head s = Some 1%positive /\ exists es, holds_box (list_head s) es (vectors s).
Proof.
  split; [vm_compute; reflexivity|].
  apply (proj2 (proj2 (@log_hook_no_use_after_free demo_beam _ (run_after _ _)))).
  vm_compute. reflexivity.
Defined.

(** Without the lock in the callback, as the comment there says, the same calls reach a
    use after free. *)
Theorem unguarded_callback_races : @run_log demo_beam false race log_init = UB.
Proof. vm_compute. reflexivity. Qed.
