(* ===== verification/Entrypoints.v ===== *)
(** * The remaining entry points of [nif.rs]

    The NIFs that only open a connection, read one value of it, or call one function
    of another component under [with_conn].  What holds of all the entry points
    together on a connection that cannot be used is in [Unusable]. *)

From S2P Require Import Prelude RustStr Sqlite Terms Heap ConstraintParse Error Util RustFloat SchemaDefault HookList Hooks ProgressDispatch Connection Query Schema Statements Blob Authorizer ExplainAnalyze Session Maintenance Nif.

(** ** Opening *)

(** [rusqlite::OpenFlags] *)
Definition SQLITE_OPEN_READ_ONLY : Z := 1.
Definition SQLITE_OPEN_URI : Z := 64.
Definition SQLITE_OPEN_MEMORY : Z := 128.
Definition SQLITE_OPEN_NO_MUTEX : Z := 32768.

Class OpenApi (Db : Type) := {
  conn_open : bytes -> result Db RusqliteError;                    (* [Connection::open] *)
  open_with_flags : bytes -> Z -> result Db RusqliteError;
  (** [conn.path()] *)
  conn_path : Db -> option bytes;
  last_rowid : Db -> Z;
  (** [sqlite3_libversion()], null or its text *)
  libversion : option bytes;
}.

Section Entrypoints.
  Context `{Beam} `{RusqliteText} (upper_table : case_table) {Db : Type} `{OpenApi Db} `{HookInstall Db}
    `{RusqliteConn Db} `{SqliteApi Db} `{BlobApi Db} `{ExplainApi Db} {Bk : Type} `{MaintenanceApi Db Bk}.

Definition open (path : bytes) : result (XqliteConn Db) XqliteError := handle_open_result (conn_open path) path.
Definition open_in_memory (uri : bytes) : result (XqliteConn Db) XqliteError := handle_open_result (conn_open uri) uri.

Definition readonly_flags : Z := Z.lor (Z.lor SQLITE_OPEN_READ_ONLY SQLITE_OPEN_NO_MUTEX) SQLITE_OPEN_URI.
Definition open_readonly (path : bytes) : result (XqliteConn Db) XqliteError :=
  handle_open_result (open_with_flags path readonly_flags) path.

Definition memory_readonly_flags : Z :=
  Z.lor (Z.lor (Z.lor SQLITE_OPEN_READ_ONLY SQLITE_OPEN_NO_MUTEX) SQLITE_OPEN_MEMORY) SQLITE_OPEN_URI.
Definition open_in_memory_readonly (uri : bytes) : result (XqliteConn Db) XqliteError :=
  handle_open_result (open_with_flags uri memory_readonly_flags) uri.

Definition open_temporary : result (XqliteConn Db) XqliteError := handle_open_result (conn_open []) [].

Definition close_nif (h : XqliteConn Db) : term * XqliteConn Db :=
  let '(r, h) := close_connection h in (singular_ok_or_error_tuple r, h).

(** An empty filename is [None]. *)
Definition db_path (h : XqliteConn Db) : result (option bytes) XqliteError * XqliteConn Db :=
  with_conn h (reads (fun db => match conn_path db with
                                | Some p => if bool_decide (p = []) then None else Some p
                                | None => None
                                end)).

(** ** One function under the lock *)

Definition explain_analyze (fuel : nat) (h : XqliteConn Db) (sql : bytes) (params_term : term)
    : option (result ExplainAnalyze XqliteError * XqliteConn Db) :=
  match poison h, conn_opt h with
  | Some e, _ => Some (Err (LockError e), h)
  | None, None => Some (Err ConnectionClosed, h)
  | None, Some db =>
      let! r := core_explain_analyze fuel sql params_term db in
      Some (r.1, set_conn h (Some r.2))
  end.

Definition transaction_status (h : XqliteConn Db) : result bool XqliteError * XqliteConn Db :=
  with_conn h (reads (fun db => negb (is_autocommit db))).

Definition schema_databases (h : XqliteConn Db) := with_conn h databases.
Definition schema_list_objects (h : XqliteConn Db) (schema : option bytes) := with_conn h (list_objects schema).
Definition schema_columns (h : XqliteConn Db) (table_name : bytes) := with_conn h (Schema.columns upper_table table_name).
Definition schema_foreign_keys (h : XqliteConn Db) (table_name : bytes) := with_conn h (foreign_keys table_name).
Definition schema_indexes (h : XqliteConn Db) (table_name : bytes) := with_conn h (indexes table_name).
Definition schema_index_columns (h : XqliteConn Db) (index_name : bytes) := with_conn h (index_columns index_name).
Definition get_create_sql (h : XqliteConn Db) (object_name : bytes) := with_conn h (create_sql object_name).

Definition last_insert_rowid (h : XqliteConn Db) := with_conn h (reads last_rowid).
Definition changes_nif (h : XqliteConn Db) := with_conn h (reads changes).
Definition total_changes_nif (h : XqliteConn Db) := with_conn h (reads total_changes).

(** [stmt.query_map([], |row| row.get(0))?.collect::<Result<Vec<String>, _>>()?] *)
Definition compile_options (h : XqliteConn Db) : result (list bytes) XqliteError * XqliteConn Db :=
  with_conn h
    (let* opts := query_map (str "PRAGMA compile_options;") (fun names r => get_string names r 0) in
     lift (map_err from_rusqlite (collect_map (fun o => o) opts))).

Definition sqlite_version : result bytes XqliteError :=
  match libversion with
  | None => Err (InternalEncodingError (str "sqlite3_libversion returned a null pointer"))
  | Some v => Ok v
  end.

(** ** Streams and batches *)

Definition stream_get_columns (st : XqliteStatement) : result (list bytes) XqliteError := Ok (column_names st).

Context {LC : Type} `{SubscriberListLaws CancelSubscriber LC}.

Definition stmt_multi_step (h : XqliteConn Db) (st : XqliteStatement) (batch_size : Z) (cs : LC) (fl : heap (bool * nat)) :=
  stmt_multi_step_impl h st batch_size [] cs fl.
Definition stmt_multi_step_cancellable (h : XqliteConn Db) (st : XqliteStatement) (batch_size : Z) (tokens : list ptr)
    (cs : LC) (fl : heap (bool * nat)) :=
  let! fl := clone_all tokens fl in stmt_multi_step_impl h st batch_size tokens cs fl.

(** ** Cancel tokens *)

Definition create_cancel_token (fl : heap (bool * nat)) : ptr * heap (bool * nat) := token_new fl.
Definition cancel_operation (token : ptr) (fl : heap (bool * nat)) : option (term * heap (bool * nat)) :=
  let! fl := token_cancel token fl in Some (TAtom "ok", fl).

(** ** The log hook *)

Context {LL : Type} `{SubscriberListLaws PidSubscriber LL}.

Definition register_log_hook (config_log : result unit bytes) (p : Z) (g : log_state LL) : option (term * log_state LL) :=
  let! r := log_register config_log p g in
  Some (match r.1 with Ok id => ok_tuple (TInt id) | Err msg => error_tuple (encode (CannotExecute msg)) end, r.2).
Definition unregister_log_hook (i : Z) (g : log_state LL) : option (term * log_state LL) :=
  let! r := log_unregister i g in
  Some (match r.1 with Ok _ => TAtom "ok" | Err msg => error_tuple (encode (CannotExecute msg)) end, r.2).

(** ** Blobs: the term of each answer ([resource]: the reference that stands for it) *)

Definition blob_open_nif (resource : term) (h : XqliteConn Db) (dbn table column : bytes) (row_id : Z) (read_only : bool)
    : term * option XqliteBlob * XqliteConn Db :=
  match blob_open h dbn table column row_id read_only with
  | (Ok b, h) => (ok_tuple resource, Some b, h)
  | (Err err, h) => (error_tuple (encode err), None, h)
  end.
Definition blob_read_nif (h : XqliteConn Db) (b : XqliteBlob) (offset len : Z) : term * XqliteConn Db :=
  let '(r, h) := blob_read h b offset len in (binary_or_error r, h).
Definition blob_write_nif (h : XqliteConn Db) (b : XqliteBlob) (offset : Z) (data : bytes) : term * XqliteConn Db :=
  let '(r, h) := blob_write h b offset data in (singular_ok_or_error_tuple r, h).
Definition blob_reopen_nif (h : XqliteConn Db) (b : XqliteBlob) (row_id : Z) : term * XqliteConn Db :=
  let '(r, h) := blob_reopen h b row_id in (singular_ok_or_error_tuple r, h).
Definition blob_close_nif (h : XqliteConn Db) (b : XqliteBlob) : term * XqliteBlob * XqliteConn Db :=
  let '(r, b, h) := blob_close h b in (singular_ok_or_error_tuple r, b, h).

End Entrypoints.

(** ** Destructors and flags *)

(** The read-only variants ask for neither write access nor creation. *)
Lemma readonly_never_writes :
  forall flag, flag = 2 \/ flag = 4 -> Z.land readonly_flags flag = 0 /\ Z.land memory_readonly_flags flag = 0.
Proof. by intros flag [->| ->]. Qed.

(** Garbage collection after an explicit close has nothing left to do: SQLite sees each
    handle finalized, closed or deleted at most once. *)
Theorem destructor_after_close `{Beam} `{RusqliteText} {Db} `{SqliteApi Db} `{BlobApi Db} `{SessionApi Db}
    (h : XqliteConn Db) st b s :
  (let '(_, st', h') := stmt_finalize h st in statement_drop h' st' = h') /\
  (let '(_, st', h') := stream_close h st in stream_drop h' st' = h') /\
  (let '(_, b', h') := blob_close h b in blob_drop h' b' = h') /\
  (let '(_, s', h') := session_delete h s in session_drop h' s' = h').
Proof.
  assert (Hr : let '(_, st', h') := take_and_finalize_raw h st in statement_drop h' st' = h').
  { unfold take_and_finalize_raw. by destruct (raw_stmt st), (poison h), (conn_opt h). }
  split_and!.
  - unfold stmt_finalize. by destruct (take_and_finalize_raw h st) as [[? ?] ?].
  - unfold stream_close. by destruct (take_and_finalize_raw h st) as [[? ?] ?].
  - unfold blob_close. by destruct (blob b), (poison h).
  - unfold session_delete, session_close. destruct (session s) eqn:E; [by destruct (poison h), (conn_opt h)|].
    unfold session_drop, session_close. by rewrite E.
Qed.
