(* ===== verification/Unusable.v ===== *)
(** * Entry points on a connection that is closed or poisoned

    Every NIF that needs the connection takes its lock first.  On a closed connection,
    or once a panic has poisoned the lock, the calls answer the one error and touch
    nothing; the calls that check an argument first, that give back a handle, or that
    need no connection are the exceptions, stated with what they answer. *)

From S2P Require Import Prelude RustStr Sqlite Terms Heap ConstraintParse Error Util RustFloat SchemaDefault HookList Hooks ProgressDispatch BusyHandler Connection Query Schema Statements Blob Authorizer ExplainAnalyze Session Maintenance Nif Resource Entrypoints.

(** A connection no call can use, and the error every call gives for it. *)
Definition unusable {Db} (h : XqliteConn Db) (e : XqliteError) : Prop :=
  match poison h with
  | Some m => e = LockError m
  | None => conn_opt h = None /\ e = ConnectionClosed
  end.

Lemma with_conn_unusable {Db R} (h : XqliteConn Db) e (f : M Db R) : unusable h e -> with_conn h f = (Err e, h).
Proof.
  unfold unusable, with_conn. destruct (poison h) as [m|]; [by intros ->|]. by intros [-> ->].
Qed.

Lemma with_conn_mut_unusable {Db R} (h : XqliteConn Db) e (f : M Db R) : unusable h e -> with_conn_mut h f = (Err e, h).
Proof. apply with_conn_unusable. Qed.

Lemma with_session_unusable {Db R} (h : XqliteConn Db) e s (f : ptr -> M Db R) : unusable h e ->
  with_session h s f = (Err e, h).
Proof. unfold unusable, with_session. destruct (poison h) as [m|]; [by intros ->|]. by intros [-> ->]. Qed.

(** The entry point's lock is not to be had. *)
Ltac refuse := match goal with
  | Hu : unusable ?h ?e |- _ =>
      rewrite ?(with_conn_unusable h e _ Hu), ?(with_conn_mut_unusable h e _ Hu), ?(with_session_unusable h e _ _ Hu);
      reflexivity
  end.

(** ** The entry points that refuse *)

Section Refusals.
  Context `{Beam} `{RusqliteText} `{FloatText} (upper_table : case_table) {Db : Type} `{OpenApi Db} `{RusqliteConn Db}
    `{SqliteApi Db} `{BlobApi Db} `{ExplainApi Db} `{SessionApi Db} {Bk : Type} `{MaintenanceApi Db Bk} {L : Type}
    {LC : Type} `{SubscriberListLaws CancelSubscriber LC}
    (conn_authorizer : option (AuthAction -> Authorization) -> Db -> result unit RusqliteError * Db)
    (reinstall_wal : Db -> Db) (h : XqliteConn Db) (e : XqliteError).

(** The two shapes of an answer: the term, or the result it is made from. *)
Local Notation refused := (error_tuple (encode e), h).

Definition queries_refuse : Prop := forall sql t tokens (cs : LC) fl fl1 fl2,
  query h sql t = (Err e, h) /\ execute h sql t = (Err e, h) /\ execute_batch h sql = refused /\
  query_with_changes h sql t = refused /\ (forall fuel, explain_analyze fuel h sql t = Some (Err e, h)) /\
  (clone_all tokens fl = Some fl1 -> drop_arcs tokens fl1 = Some fl2 ->
     query_cancellable h sql t tokens cs fl = Some (Err e, h, cs, fl2) /\
     execute_cancellable h sql t tokens cs fl = Some (Err e, h, cs, fl2) /\
     execute_batch_cancellable h sql tokens cs fl = Some (error_tuple (encode e), h, cs, fl2) /\
     query_with_changes_cancellable h sql t tokens cs fl = Some (error_tuple (encode e), h, cs, fl2)).

Definition transactions_refuse : Prop := forall name mode m,
  (mode_from_atom mode = Ok m -> begin_nif h mode = refused) /\ commit_nif h = refused /\ rollback_nif h = refused /\
  savepoint_nif h name = refused /\ rollback_to_savepoint_nif h name = refused /\ release_savepoint_nif h name = refused /\
  autocommit h = (Err e, h) /\ transaction_status h = (Err e, h) /\ (forall schema, txn_state h schema = (Err e, h)).

Definition pragmas_refuse : Prop := forall (d : WalDispatch L) name t mode m schema,
  get_pragma h d name = (Err e, h) /\ set_pragma reinstall_wal h d name t = (Err e, h, d) /\
  (checkpoint_mode mode = Some m -> wal_checkpoint h mode schema = (Err e, h)).

Definition statements_refuse : Prop := forall sql t st n (cs : LC) fl,
  stmt_prepare h sql = (Err e, h) /\ stream_open h sql t = (Err e, h) /\ stmt_bind h st t = refused /\
  stmt_step h st = refused /\ stmt_reset h st = refused /\ stmt_clear_bindings h st = refused /\
  (1 <= n -> stmt_multi_step h st n cs fl = Some (error_tuple (encode e), h, cs, fl)).

Definition schema_refuses : Prop := forall name o,
  schema_databases h = (Err e, h) /\ schema_list_objects h o = (Err e, h) /\ schema_columns upper_table h name = (Err e, h) /\
  schema_foreign_keys h name = (Err e, h) /\ schema_indexes h name = (Err e, h) /\ schema_index_columns h name = (Err e, h) /\
  get_create_sql h name = (Err e, h) /\ db_path h = (Err e, h) /\ last_insert_rowid h = (Err e, h) /\
  changes_nif h = (Err e, h) /\ total_changes_nif h = (Err e, h) /\ compile_options h = (Err e, h) /\ connection_stats h = (Err e, h).

Definition blobs_refuse : Prop := forall b off n data r dbn tbl col row ro,
  blob_open_nif r h dbn tbl col row ro = (error_tuple (encode e), None, h) /\ blob_read_nif h b off n = refused /\
  blob_write_nif h b off data = refused /\ blob_reopen_nif h b n = refused.

Definition sessions_refuse : Prop := forall s tbl cs name a,
  session_new h = (Err e, h) /\ session_attach h s tbl = refused /\ session_changeset h s = refused /\
  session_patchset h s = refused /\ session_is_empty h s = (Err e, h) /\
  (strategy_of name = Some a -> changeset_apply h cs name = refused).

Definition maintenance_refuses : Prop := forall a b ro n fuel tokens p out denied kinds on ep,
  backup h a b = refused /\ restore h a b = refused /\ serialize h a = (Err e, h) /\ deserialize h a b ro = refused /\
  (1 <= n -> backup_with_progress fuel tokens h a b p n out = Some (error_tuple (encode e), None, out)) /\
  (parse_denied denied = Ok kinds -> set_authorizer conn_authorizer h denied = refused) /\
  remove_authorizer conn_authorizer h = refused /\ enable_load_extension h on = refused /\
  (extensions_enabled h = true -> load_extension h a ep = refused).

(** Those that do not: a switched-off extension loader says so first; on a closed
    connection a fetch says closed only while the stream is unfinished, column names are
    the cached ones, and handing back a handle succeeds. *)
Definition exceptions_answer : Prop :=
  (forall a ep, extensions_enabled h = false -> load_extension h a ep = (error_tuple (TAtom "extension_loading_disabled"), h)) /\
  (poison h = None -> forall st b s pd n v,
     (let '(t, st', h') := stmt_finalize h st in t = TAtom "ok" /\ raw_stmt st' = None /\ h' = h) /\
     (let '(t, st', h') := stream_close h st in t = TAtom "ok" /\ raw_stmt st' = None /\ h' = h) /\
     (let '(t, b', h') := blob_close_nif h b in t = TAtom "ok" /\ blob b' = None /\ h' = h) /\
     (let '(t, s', h') := session_delete h s in t = TAtom "ok" /\ session s' = None /\ h' = h) /\
     stmt_column_names h st = (Ok (column_names st), h) /\
     (decode_i64 n = Some v -> 1 <= v -> stream_fetch pd h st n =
        (if raw_stmt st then error_tuple (encode ConnectionClosed) else TAtom "done", st, h))).

Context (Hu : unusable h e).

Lemma cancellable_unusable {R} (body : M Db R) tokens (cs : LC) fl fl1 fl2 : clone_all tokens fl = Some fl1 ->
  drop_arcs tokens fl1 = Some fl2 -> cancellable body h tokens cs fl = Some (Err e, h, cs, fl2).
Proof.
  intros E1 E2. unfold cancellable. rewrite E1. unfold unusable in Hu. destruct (poison h) as [m|].
  - subst e. by rewrite E2.
  - destruct Hu as [-> ->]. by rewrite E2.
Qed.

Lemma refuse_queries : queries_refuse.
Proof.
  intros sql t tokens cs fl fl1 fl2. split_and!; try (unfold query, execute, execute_batch, query_with_changes; refuse).
  - intros fuel. unfold explain_analyze. unfold unusable in Hu. destruct (poison h); [by subst e|]. by destruct Hu as [-> ->].
  - intros E1 E2. unfold query_cancellable, execute_cancellable, execute_batch_cancellable, query_with_changes_cancellable.
    by rewrite !(cancellable_unusable _ _ _ _ _ _ E1 E2).
Qed.

Lemma refuse_transactions : transactions_refuse.
Proof.
  intros name mode m. split_and!; try (unfold commit_nif, rollback_nif, savepoint_nif, rollback_to_savepoint_nif,
    release_savepoint_nif, unit_nif, autocommit, transaction_status; refuse).
  - intros E. unfold begin_nif. rewrite E. refuse.
  - intros schema. unfold txn_state. refuse.
Qed.

Lemma refuse_pragmas : pragmas_refuse.
Proof.
  intros d name t mode m schema. split_and!; [unfold get_pragma; refuse|unfold set_pragma; refuse|].
  intros E. unfold wal_checkpoint. rewrite E. refuse.
Qed.

Lemma refuse_statements : statements_refuse.
Proof.
  intros sql t st n cs fl. split_and!; try (unfold stmt_prepare, stream_open, stmt_bind, stmt_step, stmt_reset,
    stmt_clear_bindings, with_live_stmt; refuse).
  intros Hn. unfold stmt_multi_step, stmt_multi_step_impl. destruct (Z.ltb_spec n 1); [lia|]. unfold unusable in Hu.
  destruct (poison h); [by subst e|]. by destruct Hu as [-> ->].
Qed.

Lemma refuse_schema : schema_refuses.
Proof.
  intros name o. split_and!; unfold schema_databases, schema_list_objects, schema_columns, schema_foreign_keys,
    schema_indexes, schema_index_columns, get_create_sql, db_path, last_insert_rowid, changes_nif, total_changes_nif,
    compile_options, connection_stats; refuse.
Qed.

Lemma refuse_blobs : blobs_refuse.
Proof.
  intros b off n data r dbn tbl col row ro. split_and!; unfold blob_open_nif, blob_open, blob_read_nif, blob_write_nif,
    blob_reopen_nif, blob_read, blob_write, blob_reopen, with_live_blob; refuse.
Qed.

Lemma refuse_sessions : sessions_refuse.
Proof.
  intros s tbl cs name a. split_and!; try (unfold session_new, session_attach, session_changeset, session_patchset,
    session_is_empty; refuse).
  intros E. unfold changeset_apply. rewrite E. refuse.
Qed.

Lemma refuse_maintenance : maintenance_refuses.
Proof.
  intros a b ro n fuel tokens p out denied kinds on ep. split_and!;
    try (unfold backup, restore, serialize, deserialize, remove_authorizer, enable_load_extension; refuse).
  - intros Hn. unfold backup_with_progress. destruct (Z.ltb_spec n 1); [lia|]. unfold unusable in Hu.
    destruct (poison h); [by subst e|]. by destruct Hu as [-> ->].
  - intros E. unfold set_authorizer. rewrite E. refuse.
  - intros E. unfold load_extension. rewrite E. refuse.
Qed.

Lemma exceptions_hold : exceptions_answer.
Proof.
  split; [intros a ep E; unfold load_extension; by rewrite E|]. intros Hp st b s pd n v.
  unfold unusable in Hu. rewrite Hp in Hu. destruct Hu as [Hc He].
  assert (Hh : set_conn h None = h) by (destruct h; cbn in *; by subst).
  split_and!.
  - unfold stmt_finalize, take_and_finalize_raw. rewrite Hp, Hc. by destruct (raw_stmt st).
  - unfold stream_close, take_and_finalize_raw. rewrite Hp, Hc. by destruct (raw_stmt st).
  - unfold blob_close_nif, blob_close. rewrite Hp, Hc. by destruct (blob b).
  - unfold session_delete, session_close. rewrite Hp, Hc. by destruct (session s) eqn:E.
  - unfold stmt_column_names, with_live_stmt, with_conn. by rewrite Hp, Hc.
  - intros E Hv. unfold stream_fetch. rewrite E. destruct (Z.leb_spec 1 v); [|lia]. cbn [negb].
    rewrite Hp, Hc. by destruct (raw_stmt st).
Qed.

End Refusals.

(** ** The hook NIFs *)

Definition hooks_refuse `{Beam} `{RusqliteText} {Db} `{BusyApiLaws Db} `{HookInstall Db} (r : resource Db) (w : world) (e : XqliteError) : Prop :=
  forall p n i tag now a b c, let refused := Some (error_tuple (encode e), r, w) in
  register_update_hook p r w = refused /\ unregister_update_hook i r w = refused /\
  register_commit_hook p r w = refused /\ unregister_commit_hook i r w = refused /\
  register_rollback_hook p r w = refused /\ unregister_rollback_hook i r w = refused /\
  register_wal_hook p r w = refused /\ unregister_wal_hook i r w = refused /\
  (n <> 0 -> register_progress_hook_nif p n tag now r w = refused) /\ unregister_progress_hook_nif i r w = refused /\
  set_busy_policy a b c now r w = refused /\ remove_busy_policy now r w = refused /\
  register_busy_observer p now r w = refused /\ unregister_busy_observer i now r w = refused.

Lemma refuse_hooks `{Beam} `{RusqliteText} {Db} `{BusyApiLaws Db} `{HookInstall Db} (r : resource Db) (w : world) e :
  unusable (lock r) e -> hooks_refuse r w e.
Proof.
  intros Hu. assert (Hl : forall R (f : Conn Db -> option (result R XqliteError * resource Db * world)),
    with_locked r w f = Some (Err e, r, w)).
  { intros R f. unfold with_locked. unfold unusable in Hu. destruct (poison (lock r)); [by subst e|]. by destruct Hu as [-> ->]. }
  intros p n i tag now a b c. split_and!; try (intros Hn; unfold register_progress_hook_nif; destruct (Z.eqb_spec n 0); [done|]);
    unfold register_update_hook, unregister_update_hook, register_commit_hook, unregister_commit_hook,
      register_rollback_hook, unregister_rollback_hook, register_wal_hook, unregister_wal_hook, unregister_progress_hook_nif,
      set_busy_policy, remove_busy_policy, register_busy_observer, unregister_busy_observer, register_arc, unregister_arc,
      on_busy; by rewrite Hl.
Qed.

(** ** Theorems *)

(** C38: on a connection that is closed, or whose lock is poisoned, the calls that need it
    do not reach SQLite: queries (cancellable ones too), transactions, PRAGMAs and
    checkpoints, statements and batches, schema and counter reads, opening and using
    blobs, sessions and changesets, backups, the authorizer, extensions and the hook
    registrations answer the one error ([:connection_closed], or the lock error) and
    leave the handle as it was.  A call that checks an argument first (a transaction or
    checkpoint mode, a strategy, an action name, a step or batch size, a tick interval)
    does so for a valid argument.  The exceptions are stated with their answers: loading an extension while that is
    switched off, an exhausted stream, cached column names, and giving back a statement,
    stream, blob or session, which succeeds on a closed connection.  Closing leaves the
    handle in that state, and closing it again is a no-op that succeeds. *)
Theorem unusable_connection_refuses `{Beam} `{RusqliteText} `{FloatText} upper_table {Db} `{OpenApi Db} `{RusqliteConn Db}
    `{SqliteApi Db} `{BlobApi Db} `{ExplainApi Db} `{SessionApi Db} {Bk} `{MaintenanceApi Db Bk} {L} {LC}
    `{SubscriberListLaws CancelSubscriber LC} conn_authorizer reinstall_wal {Raw} `{BusyApiLaws Raw} `{HookInstall Raw}
    (h : XqliteConn Db) e :
  unusable h e ->
  queries_refuse (LC := LC) h e /\ transactions_refuse h e /\ pragmas_refuse (L := L) reinstall_wal h e /\
  statements_refuse (LC := LC) h e /\ schema_refuses upper_table h e /\ blobs_refuse h e /\ sessions_refuse h e /\
  maintenance_refuses conn_authorizer h e /\ exceptions_answer h /\
  (forall (r : resource Raw) w, unusable (lock r) e -> hooks_refuse r w e) /\
  (forall h', poison h' = None -> let '(t, h'') := close_nif h' in
     t = TAtom "ok" /\ unusable (Db := Db) h'' ConnectionClosed /\ close_nif h'' = (TAtom "ok", h'')).
Proof.
  intros Hu. split_and!; [by apply refuse_queries|by apply refuse_transactions|by apply refuse_pragmas|by apply refuse_statements
    |by apply refuse_schema|by apply refuse_blobs|by apply refuse_sessions|by apply refuse_maintenance
    |by eapply exceptions_hold|intros r w; apply refuse_hooks|].
  intros h' Hp. unfold close_nif, close_connection, unusable. rewrite Hp. cbn. by rewrite Hp.
Qed.

(** The C interface of a database that has nothing in it, for the witness. *)
Definition empty_open : OpenApi unit := {|
  conn_open _ := Ok tt; open_with_flags _ _ := Ok tt; conn_path _ := Some []; last_rowid _ := 0;
  libversion := Some (str "3.50.4") |}.
Definition empty_sqlite : SqliteApi unit := {|
  sqlite3_errmsg _ := None; sqlite3_prepare_v2 _ db := (SQLITE_OK, None, None, db); sqlite3_finalize _ db := db;
  sqlite3_step _ db := (SQLITE_DONE, db); sqlite3_reset _ db := db; sqlite3_clear_bindings _ db := db;
  sqlite3_column_count _ _ := 0; sqlite3_column_name _ _ _ := None;
  sqlite3_column _ _ _ := mkColumn SQLITE_NULL 0 (SpecFloat.S754_zero false) None None 0 [];
  sqlite3_bind_parameter_count _ _ := 0; sqlite3_bind_parameter_index _ _ _ := 0;
  sqlite3_bind _ _ _ db := (SQLITE_OK, db); stmts _ := ∅ |}.
Definition empty_blobs : BlobApi unit := {|
  blob_errmsg _ := None; sqlite3_blob_open _ _ _ _ _ db := (SQLITE_ERROR, 1%positive, db);
  sqlite3_blob_bytes _ _ := 0; sqlite3_blob_read _ _ _ db := (SQLITE_ERROR, [], db);
  sqlite3_blob_write _ _ _ _ db := (SQLITE_ERROR, db); sqlite3_blob_reopen _ _ db := (SQLITE_ERROR, db);
  sqlite3_blob_close _ db := db; blob_content _ _ := None |}.
Definition empty_sessions : SessionApi unit := {|
  session_create db := (Ok 1%positive, db); session_attach_table _ _ db := (Ok tt, db);
  changeset_strm _ db := (Ok [], db); patchset_strm _ db := (Ok [], db); session_empty _ _ := true;
  sqlite3session_delete _ db := db; apply_strm _ _ db := (Ok tt, db); invert_strm b := Ok b;
  concat_strm a b := Ok (a ++ b); sessions _ := ∅ |}.

Definition empty_explain : ExplainApi unit := {|
  sqlite3_stmt_status _ _ _ := 0; sqlite3_scanstatus _ _ _ := None; raw_query _ db := ([], db); elapsed_ns _ := 0 |}.

Lemma unusable_connection_refuses_witness :
  @query demo_beam demo_text unit (script_conn [] []) (mkXConn None None false) (str "SELECT 1") nil_term
  = (Err ConnectionClosed, mkXConn None None false).
Proof.
  destruct (@unusable_connection_refuses demo_beam demo_text demo_floats (fun _ _ => []) unit empty_open (script_conn [] [])
    empty_sqlite empty_blobs empty_explain empty_sessions _ demo_backup unit (hook_list CancelSubscriber) _ _ (fun _ db => (Ok tt, db)) (fun db => db)
    _ demo_busy demo_busy_laws demo_install (mkXConn None None false) ConnectionClosed) as (Hq & _).
  - split; reflexivity.
  - exact (proj1 (Hq (str "SELECT 1") nil_term [] sl_new empty_heap empty_heap empty_heap)).
Defined.
