(* ===== verification/Affinity.v ===== *)
(** * Column affinity: [schema.rs]'s reading of SQLite's rules

    SQLite documents the affinity of a declared type as five rules on the texts that
    appear anywhere in it, in any mix of upper and lower case.  The crate upper-cases
    the type with Rust's Unicode [to_uppercase] and searches it. *)

From S2P Require Import Prelude RustStr Sqlite Terms ConstraintParse Error Util RustFloat SchemaDefault Heap HookList Hooks ProgressDispatch Connection Query Schema.

(** ** The documented rules *)

(** [pat] appears at some position of [s], ASCII case ignored. *)
Definition occurs_ci (pat s : bytes) : bool :=
  existsb (fun i => eq_ignore_ascii_case pat (take (length pat) (drop i s))) (seq 0 (S (length s))).

Definition documented_affinity (ty : bytes) : string :=
  if occurs_ci (str "INT") ty then "integer"
  else if occurs_ci (str "CHAR") ty || occurs_ci (str "CLOB") ty || occurs_ci (str "TEXT") ty then "text"
  else if occurs_ci (str "BLOB") ty || bool_decide (ty = []) then "binary"
  else if occurs_ci (str "REAL") ty || occurs_ci (str "FLOA") ty || occurs_ci (str "DOUB") ty then "float"
  else "numeric".

(** ** Lemmas *)

Lemma contains_spec p s : contains p s = true <-> exists l r, s = l ++ p ++ r.
Proof.
  split.
  - unfold contains. destruct (split_once p s) as [[l r]|] eqn:E; [|done]. intros _. exists l, r.
    by apply split_once_sound.
  - intros (l & r & ->). apply contains_mid.
Qed.

Definition upper_case (b : Z) : Prop := 65 <= b <= 90.

Lemma ci_upper b x : upper_case b -> to_ascii_lowercase b = to_ascii_lowercase x <-> b = to_ascii_uppercase x.
Proof.
  unfold upper_case, to_ascii_lowercase, to_ascii_uppercase, is_ascii_uppercase, is_ascii_lowercase. intros Hb.
  repeat case_match; lia.
Qed.

Lemma eq_ci_upper p x : Forall upper_case p -> eq_ignore_ascii_case p x = bytes_eqb p (map to_ascii_uppercase x).
Proof.
  unfold eq_ignore_ascii_case. intros Hp. apply bool_decide_ext.
  revert x; induction Hp as [|b p Hb Hp IH]; intros [|a x]; [done..|]. cbn [map].
  pose proof (ci_upper b a Hb). specialize (IH x). split; intros [= ? ?]; f_equal; tauto.
Qed.

Lemma occurs_spec p s : Forall upper_case p -> occurs_ci p s = contains p (map to_ascii_uppercase s).
Proof.
  intros Hp. apply eq_true_iff_eq. rewrite contains_spec. unfold occurs_ci. rewrite existsb_exists. split.
  - intros (i & _ & Hi). rewrite eq_ci_upper, bytes_eqb_eq in Hi by done. rewrite <- firstn_map, <- skipn_map in Hi.
    set (u := map to_ascii_uppercase s) in *. exists (take i u), (drop (length p) (drop i u)).
    transitivity (take i u ++ drop i u); [by rewrite take_drop|]. f_equal.
    rewrite <- (take_drop (length p) (drop i u)) at 1. by rewrite <- Hi.
  - intros (l & r & E). exists (length l). assert (length s = length l + (length p + length r))%nat as Hl.
    { by rewrite <- (length_map to_ascii_uppercase s), E, !length_app. }
    split; [apply in_seq; lia|]. rewrite eq_ci_upper, bytes_eqb_eq, <- firstn_map, <- skipn_map, E by done.
    by rewrite drop_app_length, take_app_length.
Qed.

Lemma uppercase_ascii tbl s : ascii_text s -> to_uppercase tbl s = map to_ascii_uppercase s.
Proof.
  intros Hs. unfold to_uppercase, map_case. pose proof (chars_ascii s [] Hs) as Hc. rewrite !app_nil_r in Hc.
  rewrite Hc. apply (map_case_run to_ascii_uppercase tbl _ s 0 Hs).
Qed.

(** The texts the rules name are in capitals. *)
Ltac capitals := vm_compute; repeat constructor; discriminate.

(** ** Theorems *)

(** C40: on ASCII type names the crate's affinity is SQLite's: it answers exactly what
    the documented rules give for every declared type, in whatever case it is
    written, whatever the Unicode tables say, with one addition: a type that is ANY
    and nothing else counts as having none. *)
Theorem affinity_is_sqlites tbl ty : ascii_text ty ->
  type_affinity_to_atom tbl ty
  = if eq_ignore_ascii_case (str "ANY") ty then "binary"%string else documented_affinity ty.
Proof.
  intros Hty. unfold type_affinity_to_atom, documented_affinity. rewrite uppercase_ascii by done.
  rewrite !occurs_spec by capitals. rewrite eq_ci_upper by capitals.
  set (u := map to_ascii_uppercase ty).
  assert (bool_decide (u = []) = bool_decide (ty = [])) as ->.
  { apply bool_decide_ext. unfold u. by destruct ty. }
  destruct (bytes_eqb (str "ANY") u) eqn:Ea.
  - apply bytes_eqb_eq in Ea. rewrite <- Ea. destruct (bool_decide (ty = [])); vm_compute; reflexivity.
  - assert (bytes_eqb u (str "ANY") = false) as ->; [|by rewrite orb_false_r].
    apply not_true_is_false. rewrite bytes_eqb_eq. intros Hu. rewrite Hu in Ea. by vm_compute in Ea.
Qed.

Lemma affinity_is_sqlites_witness :
  type_affinity_to_atom (fun _ _ => []) (str "Unsigned Big Int") = documented_affinity (str "Unsigned Big Int").
Proof.
  rewrite (affinity_is_sqlites (fun _ _ => []) (str "Unsigned Big Int")); [vm_compute; reflexivity|].
  repeat constructor; vm_compute; discriminate.
Defined.

(** Outside ASCII it is not: the upper case of the dotless i (U+0131, bytes 196 177) is
    I, so a type SQLite gives NUMERIC affinity is reported as an integer type. *)
Theorem dotless_i_is_misread tbl : (forall cs, tbl cs 0%nat = str "I") ->
  type_affinity_to_atom tbl ([196; 177] ++ str "NT") = "integer"%string /\
  documented_affinity ([196; 177] ++ str "NT") = "numeric"%string.
Proof.
  intros Ht. split; [|vm_compute; reflexivity].
  unfold type_affinity_to_atom, to_uppercase, map_case.
  assert (chars ([196; 177] ++ str "NT") = [[196; 177]; [78]; [84]]) as -> by (vm_compute; reflexivity).
  cbn [imap concat map_case_char]. unfold map_case_char. rewrite Ht. vm_compute. reflexivity.
Qed.
