(* ===== verification/Atoms.v ===== *)
(** * [lib.rs]: the atom table

    The BEAM never frees an atom, so a library that made atoms out of data could be
    made to exhaust the atom table.  [atoms] is the table the crate declares; the
    theorem says that the terms it answers hold no other atom, apart from those the
    caller passed in. *)

From Stdlib Require Import Floats.SpecFloat.
From S2P Require Import Prelude RustStr Sqlite Terms ConstraintParse Error Util RustFloat SchemaDefault HookList Hooks ProgressDispatch Heap Connection Query Schema Authorizer.

(** [rustler::atoms! { .. }] *)
Definition atoms : list string :=
  ["alter_table"; "analyze"; "asc"; "atom"; "attach"; "authorization_denied"; "autoindex"; "binary"; "blob";
   "busy"; "cache_hit"; "cache_miss"; "cache_spill"; "cache_used"; "cache_used_shared"; "cache_write";
   "cannot_convert_atom_to_string"; "changes"; "checkpointed_pages"; "cannot_convert_to_sqlite_value";
   "cannot_execute"; "cannot_execute_pragma"; "cannot_open_database"; "cascade"; "code"; "columns";
   "connection_closed"; "constraint_check"; "constraint_commit_hook"; "constraint_datatype";
   "constraint_foreign_key"; "constraint_function"; "constraint_name"; "constraint_not_null";
   "constraint_pinned"; "constraint_primary_key"; "constraint_rowid"; "constraint_trigger";
   "constraint_unique"; "constraint_violation"; "constraint_vtab"; "create_index"; "create_table";
   "create_temp_index"; "create_temp_table"; "create_temp_trigger"; "create_temp_view"; "create_trigger";
   "create_view"; "create_vtable"; "current"; "database_busy_or_locked"; "date"; "desc"; "detach"; "detail";
   "deferred"; "deferred_fks"; "done"; "drop_index"; "drop_table"; "drop_temp_index"; "drop_temp_table";
   "drop_temp_trigger"; "drop_temp_view"; "drop_trigger"; "drop_view"; "drop_vtable"; "error"; "expr";
   "estimated_rows"; "explain"; "exclusive"; "execute_returned_results"; "expected";
   "extension_loading_disabled"; "expected_keyword_list"; "expected_keyword_tuple"; "expected_list";
   "filter_hit"; "filter_miss"; "float"; "from_sql_conversion_failure"; "full"; "fullscan_step"; "function";
   "hidden_alias"; "id"; "immediate"; "index_exists"; "index_name"; "integer"; "integral_value_out_of_range";
   "invalid_conflict_strategy"; "internal_encoding_error"; "invalid_authorizer_action"; "invalid_batch_size";
   "invalid_column_index"; "invalid_column_name"; "invalid_column_type"; "invalid_pages_per_step";
   "invalid_parameter_count"; "invalid_parameter_name"; "invalid_pragma_name"; "invalid_transaction_mode";
   "invalid_stream_handle"; "list"; "literal"; "lock_error"; "log_pages"; "lookaside_hit";
   "lookaside_miss_full"; "lookaside_miss_size"; "lookaside_used"; "loops"; "map"; "memused_bytes"; "message";
   "minimum"; "multiple_statements"; "name"; "negative_infinity"; "no_action"; "no_such_index";
   "no_such_table"; "no_value"; "none"; "normal"; "abort"; "null_byte_in_string"; "num_rows"; "numeric";
   "offset"; "omit"; "operation_cancelled"; "parent"; "parentid"; "partial"; "passive"; "pid"; "port";
   "positive_infinity"; "pragma"; "primary_key_constraint"; "provided"; "query_plan"; "read_only_database";
   "read"; "real"; "recursive"; "reference"; "reindex"; "replace"; "reprepare"; "restart"; "restrict"; "row";
   "rows"; "rows_produced"; "rows_visited"; "run"; "savepoint"; "scans"; "schema_changed";
   "schema_parsing_error"; "schema_used"; "select"; "selectid"; "sequence"; "set_default"; "set_null";
   "shadow"; "simple"; "sort"; "source_type"; "sql"; "sql_input_error"; "sqlite_failure";
   "statement_finalized"; "stmt_counters"; "stmt_used"; "stored_generated"; "string"; "table"; "table_exists";
   "target_type"; "tempbuf_spill"; "text"; "time"; "timestamp"; "to_sql_conversion_failure"; "transaction";
   "truncate"; "tuple"; "vm_step"; "wall_time_ns"; "write"; "unexpected_value"; "unique_constraint"; "unknown";
   "unsupported_atom"; "unsupported_data_type"; "utf8_error"; "virtual"; "virtual_generated"; "view"; "delete";
   "insert"; "update"; "xqlite_busy"; "xqlite_commit"; "xqlite_log"; "xqlite_progress"; "xqlite_rollback";
   "xqlite_update"; "xqlite_wal"]%string.

(** Rustler's own. *)
Definition builtin : list string := ["ok"; "error"; "nil"; "true"; "false"]%string.

Definition declared (a : string) : bool := existsb (String.eqb a) (atoms ++ builtin).

(** The atoms of a term. *)
Fixpoint atoms_of (t : term) : list string :=
  match t with
  | TAtom a => [a]
  | TList l | TTuple l => flat_map atoms_of l
  | TImproper l tl => flat_map atoms_of l ++ atoms_of tl
  | TMap m => flat_map (fun kv => atoms_of kv.1 ++ atoms_of kv.2) m
  | _ => []
  end.

Abbreviation all_declared := (forallb declared).

(** The atoms an error carries as data. *)
Definition payload (e : XqliteError) : list string :=
  match e with
  | ConstraintViolation (Some k) _ _ => [k]
  | InvalidColumnType _ _ a | FromSqlConversionFailure _ a _ | InvalidAuthorizerAction a => [a]
  | _ => []
  end.

(** ** Lemmas *)

Lemma atoms_of_bins l : flat_map atoms_of (map TBin l) = [].
Proof. by induction l. Qed.

Lemma atoms_of_opt (o : option bytes) : all_declared (atoms_of (option_to_term o)) = true.
Proof. by destruct o. Qed.

Lemma atoms_of_class (t : option Type_) : all_declared (atoms_of (storage_class_to_term t)) = true.
Proof. by destruct t as [[]|]. Qed.

(** Concrete atoms are looked up. *)
Ltac look_up :=
  repeat match goal with
  | |- context [declared (String ?c ?s)] =>
      let v := eval vm_compute in (declared (String c s)) in
      change (declared (String c s)) with v
  end; cbn [andb]; rewrite ?andb_true_r; try done.

Lemma details_atoms m d mp : encode_details m d = Ok mp -> all_declared (atoms_of mp) = true.
Proof.
  intros [= <-]. cbn [atoms_of flat_map fst snd app]. rewrite atoms_of_bins.
  repeat (cbn [forallb app]; rewrite ?forallb_app). rewrite !atoms_of_opt, !atoms_of_class. look_up.
Qed.

Lemma error_atoms e : all_declared (atoms_of (encode e)) = all_declared (payload e).
Proof.
  destruct e; try (cbn -[declared]; look_up; fail).
  - destruct term_type; cbn -[declared]; look_up.
  - cbn [encode]. destruct (encode_details_ok message details) as [mp E]. revert E. generalize (TMap mp).
    intros t E. rewrite E. cbn [with_map tagged atoms_of flat_map].
    rewrite ?forallb_app. cbn [forallb]. rewrite (details_atoms _ _ _ E).
    destruct kind; cbn -[declared]; look_up.
  - destruct message; cbn -[declared]; look_up.
Qed.

Lemma kind_declared c k : constraint_kind_to_atom_extended c = Some k -> declared k = true.
Proof. unfold constraint_kind_to_atom_extended. repeat case_match; intros [= <-]; vm_compute; reflexivity. Qed.

(** Errors that come from SQLite carry no atom of their own. *)
Lemma classified_payload `{RusqliteText} err : all_declared (payload (from_rusqlite err)) = true.
Proof.
  assert (Hc : forall e m, all_declared (payload (classify_sqlite_error e m)) = true).
  { intros e m. unfold classify_sqlite_error. repeat case_match; try done.
    cbn [payload]. case_match; [|done]. cbn [forallb]. by erewrite kind_declared. }
  destruct err; cbn [from_rusqlite]; try done; try apply Hc.
  - specialize (Hc error msg). destruct (classify_sqlite_error error msg); done.
  - by destruct ty.
  - by destruct ty.
Qed.

Lemma lookup_declared s l a : lookup_text s l = Ok a -> all_declared (map snd l) = true -> declared a = true.
Proof.
  induction l as [|[k b] l IH]; cbn [lookup_text map forallb snd]; [done|].
  destruct (bytes_eqb s (str k)); [intros [= <-] [? _]%andb_true_iff; done|]. intros Hl [_ ?]%andb_true_iff. by apply IH.
Qed.

(** ** Theorems *)

(** No atom is made out of data: every atom in an error term, a cell, a column
    default, a schema description or an authorizer action is one the crate declares
    (or one of rustler's own five), except the atom that an unknown authorizer action
    names, which the caller passed in.  What SQLite reports (messages, names, types)
    only ever becomes binaries. *)
Theorem atoms_are_declared `{Beam} `{RusqliteText} :
  (forall e, all_declared (atoms_of (encode e)) = all_declared (payload e)) /\
  (forall err, all_declared (atoms_of (encode (from_rusqlite err))) = true) /\
  (forall v t, encode_val v = Ok t -> all_declared (atoms_of t) = true) /\
  (forall i c t, column_to_term i c = Ok t -> all_declared (atoms_of t) = true) /\
  (forall d, all_declared (atoms_of (encode_default d)) = true) /\
  (forall s a, object_type_to_atom s = Ok a \/ fk_action_to_atom s = Ok a \/ fk_match_to_atom s = Ok a \/
     index_origin_to_atom s = Ok a -> declared a = true) /\
  (forall z a, hidden_int_to_atom z = Ok a \/ sort_order_to_atom z = Ok a -> declared a = true) /\
  (forall tbl ty, declared (type_affinity_to_atom tbl ty) = true) /\
  all_declared action_table.*1 = true.
Proof.
  assert (Hf : forall f, all_declared (atoms_of (encode_f64 f)) = true) by (by intros [|[]| |]).
  split_and!.
  - apply error_atoms.
  - intros err. by rewrite error_atoms, classified_payload.
  - intros v t Hv%encode_val_shape. by destruct v; subst t.
  - intros i c t [->|[(z & ->)|[(f & ->)|(b & ->)]]]%column_shape; done.
  - intros d. destruct d as [| |[]| | | | |[]|]; try done. cbn [encode_default].
    destruct (owned_binary_ok _); [done|]. by rewrite error_atoms.
  - intros s a [Hs|[Hs|[Hs|Hs]]]; by eapply lookup_declared.
  - intros z a [Hz|Hz]; [unfold hidden_int_to_atom in Hz|unfold sort_order_to_atom in Hz];
      repeat case_match; try discriminate Hz; injection Hz as <-; vm_compute; reflexivity.
  - intros tbl ty. unfold type_affinity_to_atom. repeat case_match; vm_compute; reflexivity.
  - vm_compute. reflexivity.
Qed.
