(* ===== verification/TypeSpec.v ===== *)
(** * The documented types of what the NIFs answer

    The Elixir side publishes a typespec for every value a NIF returns
    ([lib/xqlite.ex], [lib/xqlite/xqlitenif.ex], [lib/xqlite/schema/column_info.ex]).
    [ty] is the fragment of that type language they use, [has_type] decides it, and the theorems say that the encoders of the crate
    produce terms of those types. *)

From Stdlib Require Import Floats.SpecFloat.
From S2P Require Import Prelude RustStr Sqlite Terms Heap ConstraintParse Error Util RustFloat SchemaDefault HookList Hooks ProgressDispatch Connection Query Statements Schema ExplainAnalyze Nif.

Inductive ty :=
| Lit (a : string)                       (* the atom itself *)
| AnyAtom
| Integer
| NonNeg
| Float
| Binary
| Str                                    (* [String.t()]: a binary of valid UTF-8 *)
| ListOf (t : ty)
| Tuple (ts : list ty)
| MapOf (kts : list (string * ty))       (* exactly these keys *)
| Union (ts : list ty).

(** The value of an atom key. *)
Fixpoint atom_key (k : string) (m : list (term * term)) : option term :=
  match m with
  | [] => None
  | (k', v) :: m => if is_atom k k' then Some v else atom_key k m
  end.

Fixpoint has_type (t : ty) (x : term) {struct t} : bool :=
  match t with
  | Lit a => is_atom a x
  | AnyAtom => match x with TAtom _ => true | _ => false end
  | Integer => match x with TInt _ => true | _ => false end
  | NonNeg => match x with TInt z => 0 <=? z | _ => false end
  | Float => match x with TFloat _ => true | _ => false end
  | Binary => match x with TBin _ => true | _ => false end
  | Str => match x with TBin b => utf8_valid b | _ => false end
  | ListOf t => match x with TList l => forallb (has_type t) l | _ => false end
  | Tuple ts =>
      match x with
      | TTuple l =>
          (fix all2 (ts : list ty) (l : list term) : bool :=
             match ts, l with
             | [], [] => true
             | t :: ts, x :: l => has_type t x && all2 ts l
             | _, _ => false
             end) ts l
      | _ => false
      end
  | MapOf kts =>
      match x with
      | TMap m =>
          (length m =? length kts)%nat &&
          (fix keys (kts : list (string * ty)) : bool :=
             match kts with
             | [] => true
             | (k, t) :: kts =>
                 match atom_key k m with Some v => has_type t v | None => false end && keys kts
             end) kts
      | _ => false
      end
  | Union ts =>
      (fix some (ts : list ty) : bool :=
         match ts with [] => false | t :: ts => has_type t x || some ts end) ts
  end.

(** ** The published types *)

Definition or_nil (t : ty) : ty := Union [t; Lit "nil"].
Definition Bool : ty := Union [Lit "true"; Lit "false"].

(** [Xqlite.sqlite_value()] *)
Definition sqlite_value : ty := Union [Integer; Float; Binary; Lit "nil"].

(** [Xqlite.constraint_kind()] *)
Definition constraint_kinds : list string :=
  ["constraint_check"; "constraint_commit_hook"; "constraint_datatype"; "constraint_foreign_key";
   "constraint_function"; "constraint_not_null"; "constraint_pinned"; "constraint_primary_key";
   "constraint_rowid"; "constraint_trigger"; "constraint_unique"; "constraint_vtab"; "nil"]%string.
Definition constraint_kind : ty := Union (map Lit constraint_kinds).

Definition storage_class : ty :=
  Union (map Lit ["integer"; "real"; "text"; "blob"; "nil"]%string).

Definition constraint_details : ty :=
  MapOf [("message", Str); ("table", or_nil Str); ("columns", ListOf Str); ("index_name", or_nil Str);
         ("constraint_name", or_nil Str); ("source_type", storage_class); ("target_type", storage_class)]%string.

Definition tag (a : string) (ts : list ty) : ty := Tuple (Lit a :: ts).

(** [Xqlite.error_reason()], the members the Rust side produces *)
Definition plain_reasons : list string :=
  ["connection_closed"; "execute_returned_results"; "extension_loading_disabled";
   "invalid_conflict_strategy"; "invalid_transaction_mode"; "multiple_statements";
   "null_byte_in_string"; "operation_cancelled"; "statement_finalized"]%string.

Definition tagged_reasons : list ty :=
  [tag "authorization_denied" [Integer; Str];
   tag "cannot_convert_atom_to_string" [Str];
   tag "cannot_convert_to_sqlite_value" [Str; Str];
   tag "cannot_execute" [Str];
   tag "cannot_execute_pragma" [Str; Str];
   tag "cannot_open_database" [Str; Integer; Str];
   tag "constraint_violation" [constraint_kind; constraint_details];
   tag "database_busy_or_locked" [Integer; Str];
   tag "expected_keyword_list" [Str];
   tag "expected_keyword_tuple" [Str];
   tag "expected_list" [Str];
   tag "from_sql_conversion_failure" [NonNeg; AnyAtom; Str];
   tag "index_exists" [Str];
   tag "integral_value_out_of_range" [NonNeg; Integer];
   tag "internal_encoding_error" [Str];
   tag "invalid_authorizer_action" [AnyAtom];
   tag "invalid_column_index" [NonNeg];
   tag "invalid_column_name" [Str];
   tag "invalid_column_type" [NonNeg; Str; AnyAtom];
   tag "invalid_pages_per_step" [Integer];
   tag "invalid_parameter_count" [MapOf [("provided", NonNeg); ("expected", NonNeg)]];
   tag "invalid_parameter_name" [Str];
   tag "invalid_pragma_name" [Str];
   tag "invalid_stream_handle" [Str];
   tag "lock_error" [Str];
   tag "no_such_index" [Str];
   tag "no_such_table" [Str];
   tag "read_only_database" [Integer; Str];
   tag "schema_changed" [Integer; Str];
   tag "schema_parsing_error" [Str; tag "unexpected_value" [Str]];
   tag "sql_input_error" [MapOf [("code", Integer); ("message", Str); ("sql", Str); ("offset", Integer)]];
   tag "sqlite_failure" [Integer; Integer; or_nil Str];
   tag "table_exists" [Str];
   tag "to_sql_conversion_failure" [Str];
   tag "unsupported_atom" [Str];
   tag "unsupported_data_type" [AnyAtom];
   tag "utf8_error" [NonNeg; Str]]%string.

Definition error_reason : ty := Union (map Lit plain_reasons ++ tagged_reasons).

(** [Xqlite.error()] *)
Definition error : ty := tag "error" [error_reason].

(** A cell of a row: [sqlite_value()] and the two atoms that guides/gotchas.md gives for the
    infinities. *)
Definition cell : ty := Union [sqlite_value; Lit "positive_infinity"; Lit "negative_infinity"].

(** [XqliteNIF.stmt_step], [stream_fetch] and [stmt_multi_step], errors apart *)
Definition rows_t : ty := ListOf (ListOf cell).
Definition step_answer : ty := Union [tag "row" [ListOf cell]; Lit "done"]%string.
Definition fetch_answer : ty := Union [tag "ok" [MapOf [("rows", rows_t)]]; Lit "done"]%string.

(** [Xqlite.query_result()] *)
Definition query_result : ty :=
  MapOf [("columns", ListOf Str); ("rows", rows_t); ("num_rows", NonNeg)]%string.

(** [Xqlite.Schema.ColumnInfo.default_value()] *)
Definition default_value_t : ty := Union
  [Lit "none"; tag "literal" [Union [Lit "nil"; Bool; Integer; Float; Str]]; tag "blob" [Binary];
   tag "current" [Union [Lit "time"; Lit "date"; Lit "timestamp"]]; tag "expr" [Str]]%string.

(** ** What Rust's types guarantee of the data

    A [String] is valid UTF-8, a [usize] is not negative. *)

Definition opt_text (o : option bytes) : bool := match o with Some b => utf8_valid b | None => true end.

Definition wf_details (d : ConstraintDetails) : bool :=
  opt_text (ConstraintParse.table d) && forallb utf8_valid (ConstraintParse.columns d) && opt_text (index_name d) && opt_text (constraint_name d).

Definition wf_error (e : XqliteError) : bool :=
  match e with
  | CannotConvertToSqliteValue a b | CannotExecutePragma a b | SchemaParsingError a b =>
      utf8_valid a && utf8_valid b
  | ToSqlConversionFailure a | ExpectedKeywordList a | ExpectedKeywordTuple a | ExpectedList a
  | UnsupportedAtom a | CannotConvertAtomToString a | InvalidParameterName a | InvalidPragmaName a
  | LockError a | CannotExecute a | NoSuchTable a | NoSuchIndex a | TableExists a | IndexExists a
  | InvalidColumnName a | InvalidStreamHandle a | InternalEncodingError a => utf8_valid a
  | InvalidParameterCount p x => (0 <=? p) && (0 <=? x)
  | CannotOpenDatabase p _ m => utf8_valid p && utf8_valid m
  | SqlInputError _ m s _ => utf8_valid m && utf8_valid s
  | DatabaseBusyOrLocked _ m | SchemaChanged _ m | ReadOnlyDatabase _ m | AuthorizationDenied _ m => utf8_valid m
  | InvalidColumnIndex i | IntegralValueOutOfRange i _ => 0 <=? i
  | InvalidColumnType i n _ => (0 <=? i) && utf8_valid n
  | FromSqlConversionFailure i _ r | Utf8Error i r => (0 <=? i) && utf8_valid r
  | ConstraintViolation _ m d => utf8_valid m && wf_details d
  | SqliteFailure _ _ m => opt_text m
  | UnsupportedDataType _ | InvalidTransactionMode | InvalidAuthorizerAction _ | NulErrorInString
  | MultipleStatements | ExecuteReturnedResults | OperationCancelled | ConnectionClosed
  | StatementFinalized => true
  end.

(** The kind of a constraint violation, when it is one the typespec lists. *)
Definition documented (e : XqliteError) : bool :=
  match e with
  | ConstraintViolation (Some k) _ _ => bool_decide (k ∈ constraint_kinds)
  | _ => true
  end.

(** ** Lemmas *)

Lemma union_or ts x : has_type (Union ts) x = existsb (fun t => has_type t x) ts.
Proof. induction ts as [|t ts IH]; [done|]. cbn [existsb]. rewrite <- IH. done. Qed.

Lemma or_nil_opt t f (o : option bytes) : (forall b, o = Some b -> has_type t (f b) = true) ->
  has_type (or_nil t) (encode_opt f o) = true.
Proof.
  intros Ho. unfold or_nil. rewrite union_or. destruct o as [b|]; cbn [encode_opt existsb].
  - by rewrite (Ho b).
  - by rewrite orb_true_r.
Qed.

Lemma strs_typed l : forallb utf8_valid l = true -> has_type (ListOf Str) (TList (map TBin l)) = true.
Proof.
  intros Hl. induction l as [|b l IH]; [done|]. cbn in Hl |- *. apply andb_true_iff in Hl as [-> Hl]. by apply IH.
Qed.

Lemma lit_in a l : has_type (Union (map Lit l)) (TAtom a) = bool_decide (a ∈ l).
Proof.
  rewrite union_or. induction l as [|b l IH]; [done|]. cbn [map existsb]. rewrite IH. cbn [has_type is_atom].
  destruct (String.eqb_spec b a) as [->|Hne].
  - symmetry. apply bool_decide_eq_true_2. left.
  - cbn [orb]. apply bool_decide_ext. rewrite elem_of_cons. naive_solver.
Qed.

Lemma details_typed m d : utf8_valid m = true -> wf_details d = true ->
  exists mp, encode_details m d = Ok mp /\ has_type constraint_details mp = true.
Proof.
  intros Hm Hd. unfold wf_details in Hd. repeat rewrite andb_true_iff in Hd. destruct Hd as [[[Ht Hc] Hi] Hn].
  eexists. split; [reflexivity|]. unfold constraint_details, storage_class. cbn -[utf8_valid has_type].
  assert (Ho : forall o, opt_text o = true -> has_type (or_nil Str) (option_to_term o) = true).
  { intros o Hw. apply or_nil_opt. by intros b ->. }
  assert (Hs : forall t, has_type (Union (map Lit ["integer"; "real"; "text"; "blob"; "nil"]%string))
    (storage_class_to_term t) = true) by (by intros [[]|]).
  change (has_type Str (TBin m) && (has_type (or_nil Str) (option_to_term (ConstraintParse.table d)) &&
    (has_type (ListOf Str) (TList (map TBin (ConstraintParse.columns d))) &&
     (has_type (or_nil Str) (option_to_term (index_name d)) &&
      (has_type (or_nil Str) (option_to_term (constraint_name d)) &&
       (has_type storage_class (storage_class_to_term (source_type d)) &&
        (has_type storage_class (storage_class_to_term (target_type d)) && true)))))) = true).
  rewrite !Ho, strs_typed by done. unfold storage_class. rewrite !Hs. cbn -[utf8_valid]. by rewrite Hm.
Qed.

Lemma violation_typed k m d : utf8_valid m = true -> wf_details d = true ->
  has_type (tag "constraint_violation" [constraint_kind; constraint_details])
    (encode (ConstraintViolation k m d)) = documented (ConstraintViolation k m d).
Proof.
  intros Hm Hd. destruct (details_typed m d Hm Hd) as (mp & E & Ht).
  cbn [encode documented]. rewrite E. cbn -[constraint_details constraint_kind].
  rewrite Ht, andb_true_r. destruct k as [k|]; [|done]. apply lit_in.
Qed.

(** A real that is an infinity: the one kind of value whose term is outside [sqlite_value]. *)
Definition infinite (v : Value) : bool := match v with VReal (S754_infinity _) => true | _ => false end.

(** What Rust's [String] guarantees of a classified default. *)
Definition wf_default (d : DefaultValue) : bool :=
  match d with LiteralText s | Expr s => utf8_valid s | _ => true end.

Section Results.
  Context `{Beam} `{RusqliteText}.

Lemma f64_cell f : has_type cell (encode_f64 f) = true /\
  has_type sqlite_value (encode_f64 f) = negb (infinite (VReal f)).
Proof. by destruct f as [|[]| |]. Qed.

Lemma value_cell v t : encode_val v = Ok t ->
  has_type cell t = true /\ has_type sqlite_value t = negb (infinite v).
Proof. intros Hv%encode_val_shape. destruct v; subst t; try done. apply f64_cell. Qed.

Lemma column_cell i c t : column_to_term i c = Ok t -> has_type cell t = true.
Proof. intros [->|[(z & ->)|[(f & ->)|(b & ->)]]]%column_shape; try done. apply f64_cell. Qed.

(** Every element of a collected list has the type its function gives. *)
Lemma collect_typed {A} ty' (f : A -> result term XqliteError) l ts :
  (forall a t, f a = Ok t -> has_type ty' t = true) -> collect_map f l = Ok ts ->
  has_type (ListOf ty') (TList ts) = true.
Proof.
  intros Hf Hc%collect_map_ok. cbn. induction Hc as [|a t l ts Ha _ IH]; [done|].
  cbn [forallb]. by rewrite (Hf _ _ Ha), IH.
Qed.

Lemma row_cells r n ts : encode_row r n = Ok ts -> has_type (ListOf cell) (TList ts) = true.
Proof.
  apply collect_typed. intros i t. destruct (r i) as [v|]; cbn [map_err]; [|done]. intros Hv%value_cell. apply Hv.
Qed.

Lemma raw_row_cells cols n ts : sqlite_row_to_elixir_terms cols n = Ok ts ->
  has_type (ListOf cell) (TList ts) = true.
Proof. apply collect_typed. intros i t. apply column_cell. Qed.

Lemma rows_snoc rs r : has_type rows_t (TList (map TList rs)) = true ->
  has_type (ListOf cell) (TList r) = true -> has_type rows_t (TList (map TList (rs ++ [r]))) = true.
Proof.
  cbn [has_type rows_t]. intros Hrs Hr. rewrite map_app, forallb_app, Hrs. cbn [map forallb].
  by rewrite Hr.
Qed.

Lemma process_rows_typed rs n acc out : has_type rows_t (TList (map TList acc)) = true ->
  process_rows rs n acc = Ok out -> has_type rows_t (TList (map TList out)) = true.
Proof.
  revert acc; induction rs as [|[r|e] rs IH]; intros acc Ha; cbn [process_rows]; [by intros [= <-]| |done].
  destruct (encode_row r n) as [ts|] eqn:E; [|done]. apply IH, rows_snoc; [done|by eapply row_cells].
Qed.

Lemma column_names_typed cols t : forallb utf8_valid cols = true -> encode_column_names cols = Ok t ->
  has_type (ListOf Str) t = true.
Proof.
  unfold encode_column_names. intros Hu. destruct (collect_map encode_text cols) as [ts|] eqn:E; [|done].
  intros [= <-]. apply collect_map_ok in E. cbn. induction E as [|a t l ts Ha _ IH]; [done|].
  cbn [forallb] in Hu |- *. apply andb_true_iff in Hu as [Hu Hl]. rewrite (IH Hl), andb_true_r.
  unfold encode_text in Ha. destruct (owned_binary_ok _); [|done]. by injection Ha as <-.
Qed.

Lemma query_result_typed dbg cols ct rs n : 0 <= n -> forallb utf8_valid cols = true ->
  has_type rows_t (TList (map TList rs)) = true -> encode_column_names cols = Ok ct ->
  has_type query_result (encode_query_result dbg (mkQueryResult cols rs n)) = true.
Proof.
  intros Hn Hu Hr Ha. unfold encode_query_result, query_result_map. cbn [Connection.columns rows num_rows].
  rewrite Ha. pose proof (column_names_typed _ _ Hu Ha) as Ht.
  cbn -[has_type rows_t]. change (has_type (ListOf Str) ct && (has_type rows_t (TList (map TList rs)) &&
    (has_type NonNeg (TInt n) && true)) = true). rewrite Ht, Hr. cbn. by rewrite andb_true_r, Z.leb_le.
Qed.

Context {Db : Type} `{SqliteApi Db}.

Lemma step_row_typed p (db : Db) r db' : process_single_step p db = (Ok (Some r), db') ->
  has_type (ListOf cell) (TList r) = true.
Proof.
  unfold process_single_step. destruct (sqlite3_step p db) as [rc d]. destruct (rc =? SQLITE_ROW).
  - destruct (sqlite_row_to_elixir_terms _ _) as [ts|] eqn:E; cbn [result_map]; [|done].
    intros [= <- _]. by eapply raw_row_cells.
  - by destruct (rc =? SQLITE_DONE).
Qed.

Lemma fetch_loop_typed n st acc (db : Db) : has_type rows_t (TList (map TList acc)) = true ->
  has_type rows_t (TList (map TList (fetch_loop n st acc db).1.1.1.1)) = true.
Proof.
  revert acc db; induction n as [|n IH]; intros acc db Ha; cbn [fetch_loop]; [done|].
  destruct (raw_stmt st) as [p|]; [|done].
  destruct (process_single_step p db) as [[[r|]|e] db'] eqn:E; try done.
  apply IH, rows_snoc; [done|by eapply step_row_typed].
Qed.

Lemma rows_map_typed rs c : has_type rows_t (TList (map TList rs)) = true ->
  has_type fetch_answer (rows_map rs c) = true.
Proof. intros Hr. cbn -[rows_t] in *. by rewrite Hr. Qed.

End Results.

(** The boolean hypotheses of a case of [wf_error], used up. *)
Ltac use_wf :=
  repeat match goal with
  | H : _ && _ = true |- _ => apply andb_true_iff in H as [? ?]
  | H : utf8_valid ?b = true |- context [utf8_valid ?b] => rewrite H
  | H : (0 <=? ?b) = true |- context [0 <=? ?b] => rewrite H
  end.

(** A column default reaches Elixir as a term of [ColumnInfo.default_value()]. *)
Lemma default_typed `{Beam} (d : DefaultValue) :
  (forall n, owned_binary_ok n = true) -> wf_default d = true ->
  has_type default_value_t (encode_default d) = true.
Proof.
  intros Ha Hw. destruct d as [| |[]| | | | |[]|]; cbn -[utf8_valid] in *; rewrite ?Ha, ?Hw; try done.
Qed.

(** ** Errors that come from SQLite *)

(** What Rust's types guarantee of a [rusqlite::Error]. *)
Definition wf_rusqlite (r : RusqliteError) : bool :=
  match r with
  | R_SqliteFailure _ m => opt_text m
  | R_SqlInputError _ m sql _ => utf8_valid m && utf8_valid sql
  | R_InvalidParameterCount p e => (0 <=? p) && (0 <=? e)
  | R_InvalidParameterName t | R_ToSqlConversionFailure t | R_InvalidColumnName t | R_Other t => utf8_valid t
  | R_Utf8Error i t | R_FromSqlConversionFailure i _ t | R_InvalidColumnType i t _ => (0 <=? i) && utf8_valid t
  | R_IntegralValueOutOfRange i _ | R_InvalidColumnIndex i => 0 <=? i
  | R_ExecuteReturnedResults | R_NulError | R_MultipleStatement | R_QueryReturnedNoRows | R_BlobSizeError => true
  end.

(** A [to_string()] is a [String]. *)
Class RusqliteTextValid `{RusqliteText} := {
  ffi_display_valid e : utf8_valid (ffi_display e) = true;
  rusqlite_display_valid e : utf8_valid (rusqlite_display e) = true;
}.

Definition demo_text_valid : @RusqliteTextValid demo_text.
Proof. by split. Defined.

(** A constraint failure with an extended code that is none of the known ones. *)
Definition known_codes : list Z :=
  [SQLITE_CONSTRAINT_CHECK; SQLITE_CONSTRAINT_COMMITHOOK; SQLITE_CONSTRAINT_FOREIGNKEY; SQLITE_CONSTRAINT_FUNCTION;
   SQLITE_CONSTRAINT_NOTNULL; SQLITE_CONSTRAINT_PRIMARYKEY; SQLITE_CONSTRAINT_ROWID; SQLITE_CONSTRAINT_TRIGGER;
   SQLITE_CONSTRAINT_UNIQUE; SQLITE_CONSTRAINT_VTAB; SQLITE_CONSTRAINT_PINNED; SQLITE_CONSTRAINT_DATATYPE].

Definition unknown_code (code : Z) : bool :=
  (Z.land code 255 =? SQLITE_CONSTRAINT) && negb (bool_decide (code ∈ known_codes)).

Definition unknown_constraint (r : RusqliteError) : bool :=
  match r with
  | R_SqliteFailure e _ | R_SqlInputError e _ _ _ => unknown_code (extended_code e)
  | _ => false
  end.

Section FromRusqlite.
  Context `{RusqliteText} `{!RusqliteTextValid}.

Lemma parse_details_wf code m : utf8_valid m = true -> wf_details (parse_details code m) = true.
Proof.
  intros Hm. destruct (parse_details_names_from code m) as (Ht & Hc & Hi & Hn). unfold wf_details.
  assert (Ho : forall o, (forall x, o = Some x -> part_of x m) -> opt_text o = true).
  { intros [x|] Ho; [|done]. by apply (Ho x eq_refl). }
  rewrite !Ho by done. rewrite andb_true_r. apply andb_true_iff; split; [|done].
  apply andb_true_iff; split; [done|].
  apply forallb_forall. intros c Hin%list_elem_of_In. rewrite list.Forall_forall in Hc. by apply (Hc c Hin).
Qed.

Lemma classify_wf e m : utf8_valid m = true -> wf_error (classify_sqlite_error e m) = true.
Proof.
  intros Hm. unfold classify_sqlite_error. repeat case_match; cbn [wf_error]; rewrite ?Hm; try done.
  by apply parse_details_wf.
Qed.

Lemma failure_text_valid c x m : opt_text m = true -> utf8_valid (display_sqlite_failure c x m) = true.
Proof.
  intros Hm. unfold display_sqlite_failure.
  rewrite !utf8_valid_app by (apply utf8_valid_ascii; auto using show_Z_ascii, ascii_str). by destruct m.
Qed.

Lemma from_rusqlite_wf r : wf_rusqlite r = true -> wf_error (from_rusqlite r) = true.
Proof.
  destruct r as [e m|e m sql off| | | | | | | | | | | | | | |]; try done; cbn [wf_rusqlite from_rusqlite]; intros Hr.
  - apply classify_wf. destruct m; [done|apply ffi_display_valid].
  - apply andb_true_iff in Hr as [Hm Hs]. pose proof (classify_wf e m Hm) as Hc.
    destruct (classify_sqlite_error e m); try done. cbn [wf_error] in *. by rewrite failure_text_valid, Hs.
  - apply rusqlite_display_valid.
  - apply rusqlite_display_valid.
  - apply rusqlite_display_valid.
Qed.

(** The kind of a constraint failure is a published one when its code is known. *)
Lemma known_kind code k : Z.land code 255 = SQLITE_CONSTRAINT -> constraint_kind_to_atom_extended code = Some k ->
  bool_decide (k ∈ constraint_kinds) = bool_decide (code ∈ known_codes).
Proof.
  intros Hc. unfold constraint_kind_to_atom_extended.
  repeat match goal with
  | |- context [if code =? ?x then _ else _] =>
      destruct (Z.eqb_spec code x) as [->|?]; [intros [= <-]; vm_compute; reflexivity|]
  end.
  rewrite Hc. intros [= <-]. symmetry. apply bool_decide_eq_false_2. unfold known_codes. set_solver.
Qed.

Lemma documented_classified e m :
  documented (classify_sqlite_error e m) = negb (unknown_code (extended_code e)).
Proof.
  unfold classify_sqlite_error, unknown_code.
  destruct (Z.eqb_spec (Z.land (extended_code e) 255) SQLITE_CONSTRAINT) as [Hc|Hc].
  - rewrite Hc. cbn -[constraint_kinds constraint_kind_to_atom_extended known_codes].
    destruct (constraint_kind_some _ Hc) as [k Hk]. rewrite Hk, (known_kind _ _ Hc Hk). by rewrite negb_involutive.
  - repeat case_match; done.
Qed.

Lemma documented_rusqlite r : documented (from_rusqlite r) = negb (unknown_constraint r).
Proof.
  destruct r as [e m|e m sql off| | | | | | | | | | | | | | |]; try done; cbn [from_rusqlite unknown_constraint].
  - apply documented_classified.
  - rewrite <- (documented_classified e m). by destruct (classify_sqlite_error e m).
Qed.

End FromRusqlite.

(** A well-formed error has the published type. *)
Lemma error_typed (e : XqliteError) :
  wf_error e = true -> has_type error_reason (encode e) = documented e.
Proof.
  intros Hw. unfold error_reason. rewrite union_or, existsb_app.
  assert (Hk : forall k m d, e = ConstraintViolation k m d ->
    existsb (fun t => has_type t (encode e)) tagged_reasons
    = has_type (tag "constraint_violation" [constraint_kind; constraint_details]) (encode e)).
  { intros k m d ->. destruct (encode_details_ok m d) as [mp E]. cbn [encode]. rewrite E.
    cbn -[constraint_details constraint_kind]. by rewrite orb_false_r. }
  destruct e; try (cbn -[utf8_valid] in Hw |- *; use_wf; done).
  - rewrite (Hk _ _ _ eq_refl). cbn [wf_error] in Hw. apply andb_true_iff in Hw as [Hm Hd].
    rewrite violation_typed by done. cbn [encode]. destruct (encode_details_ok message details) as [mp ->]. done.
  - destruct message as [m|]; cbn -[utf8_valid] in Hw |- *; [by rewrite Hw|done].
Qed.

(** ** Theorems *)

(** C34: every error the crate raises reaches Elixir as a term of the published
    [Xqlite.error_reason()] type, with its texts valid and its indices not negative.
    So does whatever SQLite and rusqlite report, once classified: the names taken out
    of a constraint message are valid texts because the message is.  The one exception
    is a constraint failure whose extended code is none of the twelve known ones. *)
Theorem errors_are_documented `{RusqliteText} `{!RusqliteTextValid} :
  (forall e, wf_error e = true -> has_type error_reason (encode e) = documented e) /\
  (forall r, wf_rusqlite r = true ->
     has_type error_reason (encode (from_rusqlite r)) = negb (unknown_constraint r)).
Proof.
  split; [apply error_typed|]. intros r Hr.
  rewrite error_typed by (by apply from_rusqlite_wf). apply documented_rusqlite.
Qed.

Lemma errors_are_documented_witness :
  has_type error_reason (encode (@from_rusqlite demo_text (R_SqliteFailure (mkFfi SQLITE_CONSTRAINT_UNIQUE)
    (Some (str "UNIQUE constraint failed: t.a"))))) = true.
Proof.
  etransitivity; [refine (proj2 (@errors_are_documented demo_text demo_text_valid) _ _); vm_compute; reflexivity|].
  vm_compute. reflexivity.
Defined.

(** A constraint failure without an extended code is such an exception. *)
Theorem generic_violation_is_undocumented `{RusqliteText} :
  has_type error_reason (encode (from_rusqlite (R_SqliteFailure (mkFfi SQLITE_CONSTRAINT)
    (Some (str "constraint failed"))))) = false.
Proof. vm_compute. reflexivity. Qed.

(** C36: what the row-producing NIFs answer has its published type.  A query result is
    the documented map: the column names as strings, a list of rows of cells, the
    number of rows not negative.  A manual step answers [{:row, cells}] or [:done], a
    fetch [{:ok, %{rows: rows}}] or [:done], or else an error built from an
    [XqliteError] (or, for a batch size below one, the batch size error).  Cells are
    [sqlite_value()]s or, exactly for infinite reals, one of the two infinity atoms. *)
Theorem results_are_documented `{Beam} `{RusqliteText} {Db} `{RusqliteConn Db} `{SqliteApi Db}
    dbg pd sql t (db : Db) (h : XqliteConn Db) st batch :
  (forall q ct db', core_query sql t db = (Ok q, db') -> forallb utf8_valid (Connection.columns q) = true ->
     encode_column_names (Connection.columns q) = Ok ct ->
     has_type query_result (encode_query_result dbg q) = true) /\
  (has_type step_answer (stmt_step h st).1 = true \/
     exists e, (stmt_step h st).1 = error_tuple (encode e)) /\
  (has_type fetch_answer (stream_fetch pd h st batch).1.1 = true \/
     (exists e, (stream_fetch pd h st batch).1.1 = error_tuple (encode e)) \/
     exists v, (stream_fetch pd h st batch).1.1 = invalid_batch_size v /\
       forall n, batch = TInt n -> in_i 64 n = true -> n < 1) /\
  (forall v x, encode_val v = Ok x -> has_type sqlite_value x = negb (infinite v)).
Proof.
  split_and!.
  - intros q ct db'. unfold core_query, bind, lift, rq, ret. destruct (reject_interior_nul sql); [|done].
    destruct (conn_prepare sql db) as [[cols|] d]; cbn [map_err]; [|done].
    destruct (decode_params t); [|done]. destruct (stmt_query _ _ _) as [[rs|] d2]; cbn [map_err]; [|done].
    destruct (process_rows _ _ _) eqn:E; [|done]. intros [= <- _] Hu Ha.
    apply (query_result_typed _ _ ct); [lia|done| |done]. by eapply (process_rows_typed _ _ []); [|exact E].
  - unfold stmt_step. destruct (with_live_stmt h st process_single_step) as [[[r|]|e] h'] eqn:E; cbn [fst];
      [left|by left|by right; exists e].
    assert (Hc : has_type (ListOf cell) (TList r) = true).
    { unfold with_live_stmt, with_conn in E. destruct (poison h); [done|]. destruct (conn_opt h); [|done].
      destruct (raw_stmt st); [|done]. destruct (process_single_step _ _) as [x d'] eqn:Es.
      injection E as -> _. by eapply step_row_typed. }
    cbn -[cell] in *. by rewrite Hc.
  - unfold stream_fetch. destruct (decode_i64 batch) as [n|] eqn:Ed.
    2:{ right; right. eexists. split; [done|]. intros n -> Hi. cbn in Ed. by rewrite Hi in Ed. }
    destruct (negb (1 <=? n)) eqn:En.
    { right; right. eexists. split; [done|]. intros m -> Hi. cbn in Ed. rewrite Hi in Ed. injection Ed as ->. lia. }
    destruct (raw_stmt st); [|by left]. destruct (poison h); [by right; left; eexists|].
    destruct (conn_opt h) as [d|]; [|by right; left; eexists].
    pose proof (fetch_loop_typed (Z.to_nat n) st [] d eq_refl) as Hf.
    destruct (fetch_loop _ _ _ _) as [[[[rs err] ex] st'] d']. cbn [fst] in Hf.
    destruct err as [e|]; [by right; left; eexists|]. left.
    destruct (negb (bool_decide _)); [by apply rows_map_typed|]. by destruct ex.
  - intros v x Hv%value_cell. apply Hv.
Qed.

(** A connection whose statements answer one row: a NULL, a text, an infinity. *)
Definition demo_rows : RusqliteConn demo_db := {|
  conn_prepare _ db := (Ok [str "a"; str "b"; str "c"], db);
  stmt_query _ _ db := (Ok [Ok (fun i => Ok (nth i [VNull; VText (str "x"); VReal (S754_infinity true)] VNull))], db);
  stmt_execute _ _ db := (Ok 0, db);
  conn_execute _ db := (Ok 0, db);
  conn_execute_batch _ db := (Ok tt, db);
  conn_query_value _ db := (Ok VNull, db);
  total_changes _ := 0;
  changes _ := 0;
|}.

Lemma results_are_documented_witness :
  has_type query_result (@encode_query_result demo_beam (fun _ => []) (mkQueryResult [str "a"; str "b"; str "c"]
    [[TAtom "nil"; TBin (str "x"); TAtom "negative_infinity"]] 1)) = true.
Proof.
  destruct (@results_are_documented demo_beam demo_text demo_db demo_rows demo_sqlite
    (fun _ => []) [] (str "SELECT 17") nil_term (mkDemo ∅ 0) (mkXConn None None false) (mkStmt None []) (TInt 1))
    as (Hq & _).
  apply (Hq _ (TList (map TBin [str "a"; str "b"; str "c"])) (mkDemo ∅ 0)); vm_compute; reflexivity.
Defined.
