(* ===== verification/SchemaTypes.v ===== *)
(** * The documented types of the schema NIFs and of [explain_analyze]

    [schema.rs] derives [NifStruct] for its records, so each reaches Elixir as a map
    with a [__struct__] key; [lib/xqlite/schema/*.ex] declares the structs and the
    types of their fields, [lib/xqlite/explain_analyze.ex] the report's.  The
    theorem says that whatever SQLite answers to the PRAGMAs, the NIF answers a list of
    those structs or a well-formed error. *)

From Stdlib Require Import Floats.SpecFloat.
From S2P Require Import Prelude RustStr Sqlite Terms Heap ConstraintParse Error Util RustFloat SchemaDefault HookList Hooks ProgressDispatch Connection Query Statements Schema ExplainAnalyze Nif TypeSpec.

(** ** [#[derive(NifStruct)]] *)

Definition encode_struct (module : string) (fields : list (string * term)) : term :=
  TMap ((TAtom "__struct__", TAtom ("Elixir." +:+ module)) :: map (fun kv => (TAtom kv.1, kv.2)) fields).

Section Encode.
  Context `{Beam}.

Definition encode_database_info (d : DatabaseInfo) : term := encode_struct "Xqlite.Schema.DatabaseInfo"
  [("name", TBin (di_name d)); ("file", encode_opt TBin (di_file d))]%string.

Definition encode_object_info (o : SchemaObjectInfo) : term := encode_struct "Xqlite.Schema.SchemaObjectInfo"
  [("schema", TBin (so_schema o)); ("name", TBin (so_name o)); ("object_type", TAtom (object_type o));
   ("column_count", TInt (column_count o)); ("is_without_rowid", encode_bool (is_without_rowid o));
   ("strict", encode_bool (so_strict o))]%string.

Definition encode_column_info (c : ColumnInfo) : term := encode_struct "Xqlite.Schema.ColumnInfo"
  [("column_id", TInt (column_id c)); ("name", TBin (ci_name c)); ("type_affinity", TAtom (type_affinity c));
   ("declared_type", TBin (declared_type c)); ("nullable", encode_bool (nullable c));
   ("default_value", encode_default (default_value c)); ("primary_key_index", TInt (primary_key_index c));
   ("hidden_kind", TAtom (hidden_kind c))]%string.

Definition encode_foreign_key_info (f : ForeignKeyInfo) : term := encode_struct "Xqlite.Schema.ForeignKeyInfo"
  [("id", TInt (fk_id f)); ("column_sequence", TInt (column_sequence f)); ("target_table", TBin (target_table f));
   ("from_column", TBin (from_column f)); ("to_column", TBin (to_column f)); ("on_update", TAtom (on_update f));
   ("on_delete", TAtom (on_delete f)); ("match_clause", TAtom (match_clause f))]%string.

Definition encode_index_info (i : IndexInfo) : term := encode_struct "Xqlite.Schema.IndexInfo"
  [("name", TBin (ii_name i)); ("unique", encode_bool (ii_unique i)); ("origin", TAtom (ii_origin i));
   ("partial", encode_bool (ii_partial i))]%string.

Definition encode_index_column_info (c : IndexColumnInfo) : term := encode_struct "Xqlite.Schema.IndexColumnInfo"
  [("index_column_sequence", TInt (index_column_sequence c)); ("table_column_id", TInt (table_column_id c));
   ("name", encode_opt TBin (ic_name c)); ("sort_order", TAtom (sort_order c)); ("collation", TBin (collation c));
   ("is_key_column", encode_bool (is_key_column c))]%string.

End Encode.

(** [Result<Vec<T>, XqliteError>] as a NIF returns it. *)
Definition answer {T} (enc : T -> term) (r : result (list T) XqliteError) : term :=
  match r with Ok l => ok_tuple (TList (map enc l)) | Err e => error_tuple (encode e) end.

(** ** The published types *)

Definition struct (module : string) (fields : list (string * ty)) : ty :=
  MapOf (("__struct__"%string, Lit ("Elixir." +:+ module)) :: fields).

(** [Xqlite.Schema.Types] *)
Definition object_types : list string := ["table"; "view"; "shadow"; "virtual"; "sequence"]%string.
Definition type_affinities : list string := ["text"; "numeric"; "integer"; "float"; "binary"]%string.
Definition fk_actions : list string := ["no_action"; "restrict"; "set_null"; "set_default"; "cascade"]%string.
Definition fk_matches : list string := ["none"; "simple"; "partial"; "full"]%string.
Definition index_origins : list string := ["create_index"; "unique_constraint"; "primary_key_constraint"]%string.
Definition sort_orders : list string := ["asc"; "desc"]%string.
Definition hidden_kinds : list string := ["normal"; "hidden_alias"; "virtual_generated"; "stored_generated"]%string.

Definition one_of (l : list string) : ty := Union (map Lit l).

Definition database_info_t : ty := struct "Xqlite.Schema.DatabaseInfo" [("name", Str); ("file", or_nil Str)]%string.
Definition object_info_t : ty := struct "Xqlite.Schema.SchemaObjectInfo"
  [("schema", Str); ("name", Str); ("object_type", one_of object_types); ("column_count", NonNeg);
   ("is_without_rowid", Bool); ("strict", Bool)]%string.
Definition column_info_t : ty := struct "Xqlite.Schema.ColumnInfo"
  [("column_id", Integer); ("name", Str); ("type_affinity", one_of type_affinities); ("declared_type", Str);
   ("nullable", Bool); ("default_value", default_value_t); ("primary_key_index", NonNeg);
   ("hidden_kind", one_of hidden_kinds)]%string.
Definition foreign_key_info_t : ty := struct "Xqlite.Schema.ForeignKeyInfo"
  [("id", Integer); ("column_sequence", Integer); ("target_table", Str); ("from_column", Str);
   ("to_column", or_nil Str); ("on_update", one_of fk_actions); ("on_delete", one_of fk_actions);
   ("match_clause", one_of fk_matches)]%string.
Definition index_info_t : ty := struct "Xqlite.Schema.IndexInfo"
  [("name", Str); ("unique", Bool); ("origin", one_of index_origins); ("partial", Bool)]%string.
Definition index_column_info_t : ty := struct "Xqlite.Schema.IndexColumnInfo"
  [("index_column_sequence", Integer); ("table_column_id", Integer); ("name", or_nil Str);
   ("sort_order", one_of sort_orders); ("collation", Str); ("is_key_column", Bool)]%string.

(** [Xqlite.ExplainAnalyze], as the NIF answers it: a map without [__struct__] *)
Definition counters_t : ty := MapOf
  (map (fun k => (k, Integer)) ["fullscan_step"; "sort"; "autoindex"; "vm_step"; "reprepare"; "run"; "filter_miss";
                                "filter_hit"; "memused_bytes"]%string).
Definition scan_t : ty := MapOf
  [("loops", NonNeg); ("rows_visited", NonNeg); ("estimated_rows", Float); ("name", Str); ("explain", Str);
   ("selectid", Integer); ("parentid", Integer)]%string.
Definition query_plan_row_t : ty := MapOf [("id", Integer); ("parent", Integer); ("detail", Str)]%string.
Definition explain_t : ty := MapOf
  [("wall_time_ns", NonNeg); ("rows_produced", NonNeg); ("stmt_counters", counters_t); ("scans", ListOf scan_t);
   ("query_plan", ListOf query_plan_row_t)]%string.

(** ** What Rust's types guarantee of rusqlite's answers *)

Definition wf_cell (c : result Value RusqliteError) : Prop :=
  match c with Ok (VText s) => utf8_valid s = true | Ok _ => True | Err e => wf_rusqlite e = true end.
Definition wf_row (r : result row RusqliteError) : Prop :=
  match r with Ok r => forall i, wf_cell (r i) | Err e => wf_rusqlite e = true end.

Class TypedConn (Db : Type) `{RusqliteConn Db} := {
  prepare_typed sql db : match (conn_prepare sql db).1 with
                         | Ok names => Forall (fun n => utf8_valid n = true) names
                         | Err e => wf_rusqlite e = true
                         end;
  query_typed sql ps db : match (stmt_query sql ps db).1 with
                          | Ok rows => Forall wf_row rows
                          | Err e => wf_rusqlite e = true
                          end;
}.

(** ** Texts *)

Lemma utf8_app a b : utf8_valid a = true -> utf8_valid b = true -> utf8_valid (a ++ b) = true.
Proof. intros Ha Hb. by rewrite utf8_valid_app. Qed.

Lemma utf8_show z : utf8_valid (show_Z z) = true.
Proof. apply utf8_valid_ascii, show_Z_ascii. Qed.

Lemma utf8_quoted s : utf8_valid s = true -> utf8_valid (quoted s) = true.
Proof. intros Hs. unfold quoted. apply utf8_app; [done|]. by apply utf8_app. Qed.

Create HintDb utf8.
#[export] Hint Resolve utf8_app utf8_show utf8_quoted : utf8.
#[export] Hint Extern 1 (utf8_valid (str _) = true) => (vm_compute; reflexivity) : utf8.

(** The escaped form of a text literal is the only text it is read from. *)
Lemma unescape_text_inv s t : unescape_text s = Some t ->
  s = flat_map (fun c => if c =? QUOTE then [QUOTE; QUOTE] else [c]) t.
Proof.
  remember (length s) as n eqn:Hn. revert s t Hn. induction (lt_wf n) as [n _ IH].
  intros [|c s] t -> E; [by injection E as <-|]. cbn [unescape_text] in E.
  destruct (Z.eqb_spec c QUOTE) as [->|Hc].
  - destruct s as [|c2 s]; [done|]. destruct (Z.eqb_spec c2 QUOTE) as [->|]; [|done].
    destruct (unescape_text s) as [t'|] eqn:Es; [|done]. injection E as <-. cbn [flat_map].
    rewrite Z.eqb_refl. rewrite (IH (length s) ltac:(cbn [length]; lia) s t' eq_refl Es) at 1. done.
  - destruct (unescape_text s) as [t'|] eqn:Es; [|done]. injection E as <-. cbn [flat_map].
    rewrite (proj2 (Z.eqb_neq c QUOTE) Hc). rewrite (IH (length s) ltac:(cbn [length]; lia) s t' eq_refl Es) at 1. done.
Qed.

Lemma quote_separator : separator [QUOTE].
Proof. split; [by repeat constructor|done]. Qed.

Lemma text_literal_valid t s : utf8_valid t = true -> parse_text_literal t = Some s -> utf8_valid s = true.
Proof.
  intros Ht. unfold parse_text_literal, strip_quotes. destruct (strip_prefix [QUOTE] t) as [r|] eqn:E1; [|done].
  destruct (strip_suffix [QUOTE] r) as [i|] eqn:E2; [|done]. intros Hs%unescape_text_inv.
  apply part_of_prefix in E1 as [_ E1]; [|exact quote_separator].
  apply part_of_suffix in E2 as [_ E2]; [|exact quote_separator].
  specialize (E2 (E1 Ht)). rewrite Hs, utf8_valid_replace in E2; [done|done|by repeat constructor|done].
Qed.

Lemma classify_default_wf o : opt_text o = true -> wf_default (classify_default o) = true.
Proof.
  destruct o as [s|]; [|done]. cbn [opt_text]. intros Hs. cbn [classify_default].
  pose proof (trim_valid s Hs) as Ht. destruct (parse_text_literal (trim s)) as [t|] eqn:E.
  - pose proof (text_literal_valid _ _ Ht E). repeat case_match; done.
  - repeat case_match; done.
Qed.

(** ** Well-formed outcomes *)

Definition good {T} (P : T -> Prop) (r : result T XqliteError) : Prop :=
  match r with Ok t => P t | Err e => wf_error e = true end.
Definition read_good {T} (P : T -> Prop) (r : result T RusqliteError) : Prop :=
  match r with Ok t => P t | Err e => wf_rusqlite e = true end.
Definition valid (s : bytes) : Prop := utf8_valid s = true.
Definition valid_opt (o : option bytes) : Prop := opt_text o = true.

Section Rows.
  Context (names : list bytes) (r : row).
  Context (Hn : Forall (fun n => utf8_valid n = true) names) (Hr : forall i, wf_cell (r i)).

Lemma wrong_type_wf i v : wf_rusqlite (wrong_type names i v) = true.
Proof.
  unfold wrong_type. cbn [wf_rusqlite]. apply andb_true_iff. split; [apply Z.leb_le; lia|]. destruct (names !! i) as [n|] eqn:E; [|done].
  by eapply list.Forall_lookup_1 in Hn; [|exact E].
Qed.

Lemma get_string_good i : read_good valid (get_string names r i).
Proof.
  unfold get_string. pose proof (Hr i) as Hi. destruct (r i) as [[]|]; cbn [read_good] in *; try done; apply wrong_type_wf.
Qed.

Lemma get_opt_string_good i : read_good valid_opt (get_opt_string names r i).
Proof.
  unfold get_opt_string. pose proof (Hr i) as Hi. destruct (r i) as [[]|]; cbn [read_good] in *; try done; apply wrong_type_wf.
Qed.

Lemma get_i64_good i : read_good (fun _ => True) (get_i64 names r i).
Proof.
  unfold get_i64. pose proof (Hr i) as Hi. destruct (r i) as [[]|]; cbn [read_good] in *; try done; apply wrong_type_wf.
Qed.

End Rows.

(** Read the columns of a row one after the other. *)
Ltac read_columns Hn Hr :=
  repeat match goal with
  | |- context [get_string ?n ?r ?i] =>
      let H := fresh "H" in pose proof (get_string_good n r Hn Hr i) as H;
      destruct (get_string n r i); cbn [read_good] in H |- *; [|exact H]
  | |- context [get_opt_string ?n ?r ?i] =>
      let H := fresh "H" in pose proof (get_opt_string_good n r Hn Hr i) as H;
      destruct (get_opt_string n r i); cbn [read_good] in H |- *; [|exact H]
  | |- context [get_i64 ?n ?r ?i] =>
      let H := fresh "H" in pose proof (get_i64_good n r Hn Hr i) as H;
      destruct (get_i64 n r i); cbn [read_good] in H |- *; [|exact H]
  end.

(** Reading gives [P], finishing turns [P] into a term of type [t] or into nothing. *)
Definition reads_well {T} (f : list bytes -> row -> result T RusqliteError) (P : T -> Prop) : Prop :=
  forall names r, Forall (fun n => utf8_valid n = true) names -> (forall i, wf_cell (r i)) -> read_good P (f names r).
Definition ends_well {T U} (body : T -> result (option U) XqliteError) (P : T -> Prop) (Q : U -> Prop) : Prop :=
  forall t, P t -> good (fun o => match o with Some u => Q u | None => True end) (body t).

Section Loop.
  Context `{RusqliteText} `{!RusqliteTextValid} {Db} `{TypedConn Db}.

Lemma query_map_good {T} sql (f : list bytes -> row -> result T RusqliteError) P (db : Db) : reads_well f P ->
  good (Forall (read_good P)) (query_map sql f db).1.
Proof.
  intros Hf. unfold query_map, bind, rq, ret.
  pose proof (prepare_typed sql db) as Hp. destruct (conn_prepare sql db) as [[names|e] db1]; cbn in *;
    [|by apply from_rusqlite_wf].
  pose proof (query_typed sql PNone db1) as Hq. destruct (stmt_query sql PNone db1) as [[rows|e] db2]; cbn in *;
    [|by apply from_rusqlite_wf].
  apply Forall_map. eapply Forall_impl; [|exact Hq]. intros [r|e] Hr; cbn; [|done]. by apply Hf.
Qed.

Lemma final_loop_good {T U} (body : T -> result (option U) XqliteError) P Q l acc : ends_well body P Q ->
  Forall (read_good P) l -> Forall Q acc -> good (Forall Q) (final_loop body l acc).
Proof.
  intros Hb Hl. revert acc; induction Hl as [|[t|e] l Ht Hl IH]; intros acc Ha; cbn [final_loop]; [done| |by apply from_rusqlite_wf].
  specialize (Hb t Ht). destruct (body t) as [[u|]|e]; cbn in *; [|by apply IH|done].
  apply IH, Forall_app. split; [done|]. by constructor.
Qed.

Lemma listing_good {T U} sql (f : list bytes -> row -> result T RusqliteError) (body : T -> result (option U) XqliteError)
    P Q (db : Db) : reads_well f P -> ends_well body P Q ->
  good (Forall Q) (bind (query_map sql f) (fun l => lift (final_loop body l [])) db).1.
Proof.
  intros Hf Hb. unfold bind, lift. pose proof (query_map_good sql f P db Hf) as Hq.
  destruct (query_map sql f db) as [[l|e] db1]; cbn in *; [|done]. by eapply final_loop_good.
Qed.

End Loop.

(** ** Each listing *)

(** A lookup gives one of the table's atoms, or the text it was given. *)
Definition one_of_or (l : list string) (r : result string bytes) : Prop :=
  match r with Ok a => a ∈ l | Err s => valid s end.

Lemma lookup_text_one_of s l : valid s -> one_of_or (map snd l) (lookup_text s l).
Proof.
  intros Hs. induction l as [|[k a] l IH]; [done|]. cbn [lookup_text]. destruct (bytes_eqb s (str k)); [left|].
  destruct (lookup_text s l); [by right|done].
Qed.

Lemma affinity_one_of tbl s : type_affinity_to_atom tbl s ∈ type_affinities.
Proof. unfold type_affinity_to_atom. repeat case_match; by_compute. Qed.

Lemma hidden_one_of z : one_of_or hidden_kinds (hidden_int_to_atom z).
Proof. unfold hidden_int_to_atom. repeat case_match; first [apply utf8_show|cbn [one_of_or]; by_compute]. Qed.

Lemma sort_order_one_of z : one_of_or sort_orders (sort_order_to_atom z).
Proof. unfold sort_order_to_atom. repeat case_match; first [apply utf8_show|cbn [one_of_or]; by_compute]. Qed.

Lemma one_of_typed l a : a ∈ l -> has_type (one_of l) (TAtom a) = true.
Proof. intros Ha. unfold one_of. rewrite lit_in. by apply bool_decide_eq_true_2. Qed.

Lemma bool_typed b : has_type Bool (encode_bool b) = true.
Proof. by destruct b. Qed.

Lemma opt_typed o : valid_opt o -> has_type (or_nil Str) (encode_opt TBin o) = true.
Proof. intros Ho. apply or_nil_opt. by intros b ->. Qed.

Lemma str_typed s : valid s -> has_type Str (TBin s) = true.
Proof. done. Qed.

Lemma int_flag_good z c n : valid c -> valid n -> good (fun _ => True) (int_flag_to_bool z c n).
Proof.
  intros Hc Hn. unfold int_flag_to_bool. repeat case_match; try done;
    cbn [good wf_error]; apply andb_true_iff; split; unfold valid in *; auto 6 with utf8.
Qed.

Lemma parsing_error_good c r l : valid c -> one_of_or l r -> good (fun a => a ∈ l) (map_err (parsing_error c) r).
Proof. intros Hc Hr. destruct r as [a|s]; cbn in *; [done|]. by apply andb_true_iff. Qed.

(** A struct is typed field by field. *)
Fixpoint fields_typed (fs : list (string * term)) (ts : list (string * ty)) : Prop :=
  match fs, ts with
  | [], [] => True
  | (k, v) :: fs, (k', t) :: ts => k = k' /\ has_type t v = true /\ fields_typed fs ts
  | _, _ => False
  end.

Lemma map_typed kts m : has_type (MapOf kts) (TMap m) =
  (length m =? length kts)%nat &&
  forallb (fun kt => match atom_key kt.1 m with Some v => has_type kt.2 v | None => false end) kts.
Proof.
  cbn [has_type]. generalize (length m =? length kts)%nat. intros b. f_equal. clear b.
  induction kts as [|[k t] kts IH]; [done|]. cbn [forallb fst snd]. by rewrite <- IH.
Qed.

Lemma atom_key_field k v fs : NoDup (map fst fs) -> (k, v) ∈ fs ->
  atom_key k (map (fun kv => (TAtom kv.1, kv.2)) fs) = Some v.
Proof.
  induction fs as [|[k' v'] fs IH]; intros Hd Hin; [by apply not_elem_of_nil in Hin|]. cbn in Hd |- *.
  apply list.NoDup_cons in Hd as [Hk Hd]. destruct (String.eqb_spec k k') as [->|Hne].
  - apply elem_of_cons in Hin as [[= ->]|Hin]; [done|]. destruct Hk. by apply (list_elem_of_fmap_2 fst _ _ Hin).
  - apply elem_of_cons in Hin as [[= -> _]|Hin]; [done|]. by apply IH.
Qed.

Lemma fields_typed_spec fs ts : fields_typed fs ts -> length fs = length ts /\
  forall k t, (k, t) ∈ ts -> exists v, (k, v) ∈ fs /\ has_type t v = true.
Proof.
  revert ts; induction fs as [|[k v] fs IH]; intros [|[k' t] ts]; cbn; try done.
  - intros _. split; [done|]. by intros k t ?%not_elem_of_nil.
  - intros (<- & Ht & Hf). destruct (IH _ Hf) as [Hl Hs]. split; [by f_equal|].
    intros k1 t1 [[= -> ->]|Hin]%elem_of_cons; [exists v; by split; [left|]|].
    destruct (Hs _ _ Hin) as (v1 & Hv & Hv1). exists v1. by split; [right|].
Qed.

Lemma struct_typed m fs ts : NoDup ("__struct__"%string :: map fst fs) -> fields_typed fs ts ->
  has_type (struct m ts) (encode_struct m fs) = true.
Proof.
  intros Hd Hf. destruct (fields_typed_spec fs ts Hf) as [Hl Hs]. unfold struct, encode_struct.
  set (self := ("__struct__"%string, TAtom ("Elixir." +:+ m))).
  change (has_type (MapOf (("__struct__"%string, Lit ("Elixir." +:+ m)) :: ts))
    (TMap (map (fun kv => (TAtom kv.1, kv.2)) (self :: fs))) = true).
  rewrite map_typed. apply andb_true_iff; split.
  - cbn [map length]. rewrite length_map, Hl. apply Nat.eqb_refl.
  - apply forallb_forall. intros [k t] Hin%list_elem_of_In. cbn [fst snd].
    apply elem_of_cons in Hin as [[= -> ->]|Hin].
    + rewrite (atom_key_field "__struct__" (TAtom ("Elixir." +:+ m))); [|done|left]. cbn. by rewrite String.eqb_refl.
    + destruct (Hs _ _ Hin) as (v & Hv & Ht). rewrite (atom_key_field k v); [done|done|by right].
Qed.

(** A struct with concrete keys, its fields typed by the lemmas above. *)
Ltac typed_struct :=
  apply struct_typed; [by_compute|]; cbn [fields_typed]; split_and!;
  lazymatch goal with
  | |- has_type Bool _ = _ => apply bool_typed
  | |- has_type Integer _ = _ => reflexivity
  | |- has_type (one_of type_affinities) _ = _ => apply one_of_typed, affinity_one_of
  | |- has_type (one_of _) _ = _ => apply one_of_typed; assumption
  | |- has_type Str _ = _ => apply str_typed; assumption
  | |- has_type (or_nil Str) (encode_opt _ _) = _ => apply opt_typed; assumption
  | |- has_type _ _ = _ => idtac
  | |- _ => first [exact I|reflexivity]
  end.

(** One [map_err(..)?] or [int_flag_to_bool(..)?] of a loop body. *)
Ltac finish_with lem :=
  let H := fresh "H" in pose proof lem as H;
  match type of H with good _ ?x => destruct x; cbn [good] in H |- *; [|exact H] end.

Ltac texts := unfold valid, valid_opt in *; auto 20 with utf8.

Definition object_read (t : TempObjectInfo) : Prop :=
  valid (to_schema t) /\ valid (to_name t) /\ one_of_or object_types (obj_type_atom t).
Lemma object_reads : reads_well temp_object object_read.
Proof.
  intros n r Hn Hr. unfold temp_object. read_columns Hn Hr. split_and!; try done. by apply lookup_text_one_of.
Qed.

Lemma object_ends sch : ends_well (final_object sch) object_read
  (fun o => 0 <= column_count o -> has_type object_info_t (encode_object_info o) = true).
Proof.
  intros [s n ty cc wr st] (Hs & Hn & Ht). unfold final_object. cbn [to_schema to_name obj_type_atom wr_flag strict_flag] in *.
  destruct (match sch with Some _ => _ | None => _ end); [done|].
  finish_with (parsing_error_good (str "Parsing object type for " ++ quoted s ++ str "." ++ quoted n) ty object_types
    ltac:(texts) Ht).
  finish_with (int_flag_good wr (str "wr") (str "object " ++ quoted s ++ str "." ++ quoted n) ltac:(texts) ltac:(texts)).
  finish_with (int_flag_good st (str "strict") (str "object " ++ quoted s ++ str "." ++ quoted n) ltac:(texts) ltac:(texts)).
  intros Hc. typed_struct. cbn in Hc |- *. by apply Z.leb_le.
Qed.

Definition column_read (t : TempColumnData) : Prop :=
  valid (tc_name t) /\ valid (type_str t) /\ valid_opt (dflt_value t).
Lemma column_reads : reads_well temp_column column_read.
Proof. intros n r Hn Hr. unfold temp_column. read_columns Hn Hr. by split_and!. Qed.

Lemma flag_ok_or {T} z (r : result T bytes) c : valid c -> (forall s, r = Err s -> s = show_Z z) ->
  good (fun t => r = Ok t) (map_err (parsing_error c) r).
Proof. intros Hc Hr. destruct r as [t|s]; cbn; [done|]. apply andb_true_iff. split; [done|]. rewrite (Hr s eq_refl). apply utf8_show. Qed.

Lemma column_ends `{Beam} tbl table : (forall n, owned_binary_ok n = true) -> valid table ->
  ends_well (final_column tbl table) column_read (fun c => has_type column_info_t (encode_column_info c) = true).
Proof.
  intros Ha Htb [cid name ty nn dflt pk hid] (Hn & Ht & Hd). unfold final_column.
  cbn [tc_name type_str dflt_value notnull_flag pk_flag hidden tc_cid] in *.
  set (w := str " for column " ++ quoted name ++ str " in table " ++ quoted table).
  assert (Hw : valid w) by (unfold w; texts).
  finish_with (flag_ok_or nn (notnull_to_nullable nn) (str "Parsing 'notnull' flag" ++ w) ltac:(texts)
    ltac:(unfold notnull_to_nullable; intros ?; repeat case_match; congruence)).
  finish_with (flag_ok_or pk (pk_value_to_index pk) (str "Parsing 'pk' flag" ++ w) ltac:(texts)
    ltac:(unfold pk_value_to_index; intros ?; repeat case_match; congruence)).
  finish_with (parsing_error_good (str "Parsing 'hidden' kind" ++ w) (hidden_int_to_atom hid) hidden_kinds
    ltac:(texts) (hidden_one_of hid)).
  typed_struct.
  - apply (default_typed _ Ha). by apply classify_default_wf.
  - cbn. unfold pk_value_to_index in *. destruct (in_u 8 pk) eqn:E; [|done]. unfold in_u in E. simp_res. lia.
Qed.

Definition foreign_key_read (t : TempForeignKeyData) : Prop :=
  valid (tf_table t) /\ valid (tf_from t) /\ valid (tf_to t) /\ valid (on_update_str t) /\ valid (on_delete_str t) /\
  valid (match_str t).
Lemma foreign_key_reads : reads_well temp_foreign_key foreign_key_read.
Proof. intros n r Hn Hr. unfold temp_foreign_key. read_columns Hn Hr. by split_and!. Qed.

Lemma foreign_key_ends table : valid table ->
  ends_well (final_foreign_key table) foreign_key_read
    (fun f => has_type foreign_key_info_t (encode_foreign_key_info f) = true).
Proof.
  intros Htb [id seq tb from to upd del mt] (Ht & Hf & Hto & Hu & Hd & Hm). unfold final_foreign_key.
  cbn [tf_id tf_seq tf_table tf_from tf_to on_update_str on_delete_str match_str] in *.
  set (w := str " for FK id " ++ show_Z id ++ str " on table " ++ quoted table).
  assert (Hw : valid w) by (unfold w; texts).
  finish_with (parsing_error_good (str "Parsing 'on_update' action" ++ w) (fk_action_to_atom upd) fk_actions
    ltac:(texts) (lookup_text_one_of _ _ Hu)).
  finish_with (parsing_error_good (str "Parsing 'on_delete' action" ++ w) (fk_action_to_atom del) fk_actions
    ltac:(texts) (lookup_text_one_of _ _ Hd)).
  finish_with (parsing_error_good (str "Parsing 'match' clause" ++ w) (fk_match_to_atom mt) fk_matches
    ltac:(texts) (lookup_text_one_of _ _ Hm)).
  typed_struct. by apply (opt_typed (Some to)).
Qed.

Definition index_read (t : TempIndexData) : Prop := valid (ti_name t) /\ valid (origin_str t).
Lemma index_reads : reads_well temp_index index_read.
Proof. intros n r Hn Hr. unfold temp_index. read_columns Hn Hr. by split_and!. Qed.

Lemma index_ends table : valid table ->
  ends_well (final_index table) index_read (fun i => has_type index_info_t (encode_index_info i) = true).
Proof.
  intros Htb [name uq org part] (Hn & Ho). unfold final_index. cbn [ti_name unique origin_str partial] in *.
  set (w := str "index " ++ quoted name ++ str " on table " ++ quoted table).
  assert (Hw : valid w) by (unfold w; texts).
  finish_with (parsing_error_good (str "Parsing 'origin' for " ++ w) (index_origin_to_atom org) index_origins
    ltac:(texts) (lookup_text_one_of _ _ Ho)).
  finish_with (int_flag_good uq (str "unique") w ltac:(texts) Hw).
  finish_with (int_flag_good part (str "partial") w ltac:(texts) Hw).
  typed_struct.
Qed.

Definition index_column_read (t : TempIndexColumnData) : Prop := valid_opt (tic_name t) /\ valid (coll t).
Lemma index_column_reads : reads_well temp_index_column index_column_read.
Proof. intros n r Hn Hr. unfold temp_index_column. read_columns Hn Hr. by split_and!. Qed.

Lemma index_column_ends index : valid index ->
  ends_well (final_index_column index) index_column_read
    (fun c => has_type index_column_info_t (encode_index_column_info c) = true).
Proof.
  intros Hi [sq cid name dsc cl ky] (Hn & Hc). unfold final_index_column. cbn [seqno tic_cid tic_name desc coll key] in *.
  set (w := str "column seq " ++ show_Z sq ++ str " in index " ++ quoted index).
  assert (Hw : valid w) by (unfold w; texts).
  finish_with (parsing_error_good (str "Parsing sort order ('desc') for " ++ w) (sort_order_to_atom dsc) sort_orders
    ltac:(texts) (sort_order_one_of dsc)).
  finish_with (int_flag_good ky (str "key") w ltac:(texts) Hw).
  typed_struct.
Qed.

Lemma databases_good `{RusqliteText} `{!RusqliteTextValid} {Db} `{TypedConn Db} (db : Db) :
  good (Forall (fun d => has_type database_info_t (encode_database_info d) = true)) (databases db).1.
Proof.
  unfold databases, bind, lift.
  match goal with |- context [query_map ?sql ?f db] =>
    pose proof (query_map_good sql f (fun d => has_type database_info_t (encode_database_info d) = true) db) as Hq;
    destruct (query_map sql f db) as [[l|e] db1]
  end; cbn [fst good] in *.
  - assert (Hl : Forall (read_good (fun d => has_type database_info_t (encode_database_info d) = true)) l).
    { apply Hq. intros n r Hn Hr. read_columns Hn Hr. typed_struct. }
    clear Hq. induction Hl as [|[d|e] l Hd _ IH]; cbn in *; [done| |by apply from_rusqlite_wf].
    destruct (collect_map _ l); cbn in *; [by constructor|done].
  - apply Hq. intros n r Hn Hr. read_columns Hn Hr. typed_struct.
Qed.

(** A constraint failure whose kind the typespec does not list: the one error outside
    [Xqlite.error()]. *)
Definition unlisted_violation {T} (r : result T XqliteError) : Prop :=
  exists k m d, r = Err (ConstraintViolation (Some k) m d) /\ k ∉ constraint_kinds.

(** An answer of the NIF: [{:ok, structs}], or [{:error, reason}] of the published type. *)
Definition answers_with {T} (t : ty) (enc : T -> term) (r : result (list T) XqliteError) : Prop :=
  has_type (Union [tag "ok" [ListOf t]; TypeSpec.error]) (answer enc r) = true \/ unlisted_violation r.

Lemma answer_typed {T} t (enc : T -> term) r : good (Forall (fun x => has_type t (enc x) = true)) r ->
  answers_with t enc r.
Proof.
  unfold answers_with. rewrite union_or. destruct r as [l|e]; cbn [good]; intros Hr.
  - left. assert (Hl : forallb (has_type t) (map enc l) = true).
    { induction Hr as [|x l Hx _ IH]; [done|]. cbn. by rewrite Hx. }
    cbn. by rewrite Hl.
  - pose proof (error_typed e Hr) as He. destruct (documented e) eqn:Ed.
    + left. cbn [existsb]. apply orb_true_iff. right. unfold TypeSpec.error, answer, error_tuple, tag.
      cbn -[error_reason encode]. by rewrite He.
    + right. destruct e; try done. destruct kind as [k|]; [|done]. exists k, message, details. split; [done|].
      by apply bool_decide_eq_false in Ed.
Qed.

(** ** Theorems *)

(** C35: whatever SQLite answers to the schema PRAGMAs (any rows, any error), a schema NIF
    answers [{:ok, structs}] with every struct of its published Elixir type (the
    [__struct__] key, every field present and of its declared type, atoms from the
    documented sets, texts valid UTF-8) or [{:error, reason}] of the published type
    [Xqlite.error()], a constraint failure of a kind the typespec does not list being
    the one exception.  For [schema_list_objects] the column counts SQLite reports must
    not be negative; texts are valid UTF-8 and allocation succeeds. *)
Theorem schema_answers_are_documented `{Beam} `{RusqliteText} `{!RusqliteTextValid} upper_table {Db} `{TypedConn Db}
    (name : bytes) schema (db : Db) :
  (forall n, owned_binary_ok n = true) -> utf8_valid name = true ->
  answers_with database_info_t encode_database_info (databases db).1 /\
  ((forall os o, (list_objects schema db).1 = Ok os -> o ∈ os -> 0 <= column_count o) ->
     answers_with object_info_t encode_object_info (list_objects schema db).1) /\
  answers_with column_info_t encode_column_info (Schema.columns upper_table name db).1 /\
  answers_with foreign_key_info_t encode_foreign_key_info (foreign_keys name db).1 /\
  answers_with index_info_t encode_index_info (indexes name db).1 /\
  answers_with index_column_info_t encode_index_column_info (index_columns name db).1.
Proof.
  intros Ha Hn. split_and!.
  - apply answer_typed, databases_good.
  - intros Hc. apply answer_typed.
    pose proof (listing_good (str "PRAGMA table_list;") temp_object (final_object schema) _ _ db
      object_reads (object_ends schema)) as Hg.
    unfold list_objects in *. destruct (bind _ _ db).1 as [os|e]; cbn [good] in *; [|done].
    rewrite list.Forall_forall in Hg |- *. intros o Ho. apply Hg; [done|]. by apply (Hc os).
  - apply answer_typed. exact (listing_good _ _ _ _ _ db column_reads (column_ends upper_table name Ha Hn)).
  - apply answer_typed. exact (listing_good _ _ _ _ _ db foreign_key_reads (foreign_key_ends name Hn)).
  - apply answer_typed. exact (listing_good _ _ _ _ _ db index_reads (index_ends name Hn)).
  - apply answer_typed. exact (listing_good _ _ _ _ _ db index_column_reads (index_column_ends name Hn)).
Qed.

Lemma cells_wf l : forallb (fun v => match v with VText s => utf8_valid s | _ => true end) l = true ->
  forall i, wf_cell (cells l i).
Proof.
  intros Hl i. unfold cells. destruct (l !! i) as [v|] eqn:E; cbn.
  - rewrite forallb_forall in Hl. apply list_elem_of_lookup_2, list_elem_of_In, Hl in E. by destruct v.
  - apply Z.leb_le. lia.
Qed.

(** A table with one text column, defaulting to a quoted text. *)
Definition demo_listing : RusqliteConn unit :=
  script_conn [str "cid"] [cells [VInteger 0; VText (str "n"); VText (str "TEXT"); VInteger 0; VText (str "'x'");
                                  VInteger 0; VInteger 0]].
Definition demo_listing_typed : @TypedConn unit demo_listing.
Proof.
  split; intros; cbn.
  - repeat constructor.
  - constructor; [|constructor]. refine (cells_wf _ _). vm_compute. reflexivity.
Defined.

Lemma schema_answers_are_documented_witness :
  let r := (@Schema.columns demo_text (fun _ _ => []) unit demo_listing (str "t") tt).1 in
  (exists c, r = Ok [c] /\ default_value c = LiteralText (str "x")) /\
  answers_with column_info_t (@encode_column_info demo_beam) r.
Proof.
  split; [eexists; split; vm_compute; reflexivity|].
  destruct (@schema_answers_are_documented demo_beam demo_text demo_text_valid (fun _ _ => []) unit demo_listing
    demo_listing_typed (str "t") None tt) as (_ & _ & Hc & _).
  - reflexivity.
  - vm_compute. reflexivity.
  - exact Hc.
Defined.

(** What Rust's types and SQLite's counters guarantee of a report. *)
Definition wf_scan (s : ScanStatus) : bool :=
  (0 <=? loops s) && (0 <=? rows_visited s) && utf8_valid (scan_name s) && utf8_valid (explain s).
Definition wf_explain (e : ExplainAnalyze) : bool :=
  (0 <=? wall_time_ns e) && (0 <=? rows_produced e) && forallb wf_scan (scans e) &&
  forallb (fun r => utf8_valid (plan_detail r)) (query_plan e).

Lemma list_typed {T} t (enc : T -> term) wf l : (forall x, wf x = true -> has_type t (enc x) = true) ->
  forallb wf l = true -> has_type (ListOf t) (TList (map enc l)) = true.
Proof.
  intros Ht Hl. cbn. induction l as [|x l IH]; [done|]. cbn in Hl |- *. apply andb_true_iff in Hl as [Hx Hl].
  by rewrite Ht, IH.
Qed.

Lemma scan_typed s : wf_scan s = true -> has_type scan_t (encode_scan s) = true.
Proof.
  unfold wf_scan. repeat rewrite andb_true_iff. intros [[[Hl Hr] Hn] He].
  cbn -[utf8_valid Z.leb]. by rewrite Hl, Hr, Hn, He.
Qed.

Lemma plan_row_typed r : utf8_valid (plan_detail r) = true -> has_type query_plan_row_t (encode_plan_row r) = true.
Proof. intros Hr. cbn -[utf8_valid]. by rewrite Hr. Qed.

(** The report of [explain_analyze] has its published type. *)
Theorem explain_report_is_documented (e : ExplainAnalyze) :
  wf_explain e = true -> has_type explain_t (encode_explain e) = true.
Proof.
  intros He. unfold wf_explain in He. repeat rewrite andb_true_iff in He. destruct He as [[[Hw Hp] Hs] Hq].
  pose proof (list_typed scan_t encode_scan wf_scan _ scan_typed Hs) as Ts.
  pose proof (list_typed query_plan_row_t encode_plan_row (fun r => utf8_valid (plan_detail r)) _ plan_row_typed Hq) as Tq.
  unfold explain_t. cbn -[utf8_valid Z.leb has_type scan_t query_plan_row_t counters_t encode_counters].
  rewrite map_typed. cbn -[utf8_valid Z.leb has_type scan_t query_plan_row_t counters_t encode_counters].
  rewrite Ts, Tq. cbn -[Z.leb]. by rewrite Hw, Hp.
Qed.
