(* ===== verification/Bounds.v ===== *)
(** * Integers at their width

    The crate takes 64-bit offsets, lengths and counts from Elixir and hands 32-bit
    ones to SQLite, with [as] casts that would wrap around silently.  Each routine
    that casts is compared with a reference that does not: on everything the caller
    can pass they agree, so no cast ever changes a value, and what does not fit in
    SQLite's interface is refused before the call. *)

From S2P Require Import Prelude RustStr Sqlite Terms Heap ConstraintParse Error Util HookList Hooks ProgressDispatch Connection Query Statements Blob.

(** ** The references: the same routines on unbounded integers *)

Section Reference.
  Context `{Beam} `{RusqliteText} {Db : Type}.

Definition read_exact `{BlobApi Db} (offset len : Z) (p : ptr) : M Db bytes := fun db =>
  let actual_len := Z.max 0 (Z.min len (blob_size p db - offset)) in
  if actual_len =? 0 then (to_owned_binary [] (str "blob read"), db)
  else if negb (owned_binary_ok actual_len)
  then (Err (InternalEncodingError (str "failed to allocate binary for blob read")), db)
  else
    let '(rc, bs, db) := sqlite3_blob_read p actual_len offset db in
    if negb (rc =? SQLITE_OK) then (Err (blob_error rc db), db) else (Ok bs, db).

Definition write_exact `{BlobApi Db} (offset : Z) (data : bytes) (p : ptr) : M Db unit := fun db =>
  if blob_size p db <? offset + Z.of_nat (length data) then (Err (from_rusqlite R_BlobSizeError), db)
  else
    let '(rc, db) := sqlite3_blob_write p data (Z.of_nat (length data)) offset db in
    if negb (rc =? SQLITE_OK) then (Err (blob_error rc db), db) else (Ok tt, db).

Fixpoint bind_exact `{SqliteApi Db} (p : ptr) (i : Z) (vs : list Value) : M Db unit :=
  match vs with
  | [] => ret tt
  | v :: vs => let* _ := bind_value_to_raw_stmt p (i + 1) v in bind_exact p (i + 1) vs
  end.

Definition step_exact `{SqliteApi Db} (p : ptr) : M Db (option (list term)) := fun db =>
  let '(rc, db) := sqlite3_step p db in
  if rc =? SQLITE_ROW then
    (result_map Some (sqlite_row_to_elixir_terms (sqlite3_column p db) (Z.to_nat (sqlite3_column_count p db))), db)
  else if rc =? SQLITE_DONE then (Ok None, db)
  else (Err (sqlite_error rc (str "SQLite error " ++ show_Z rc
                              ++ str " during step; no specific message.") db), db).

(** The length a value has for the C interface; [None] for the fixed-size ones. *)
Definition value_len (v : Value) : option Z :=
  match v with VText s | VBlob s => Some (Z.of_nat (length s)) | _ => None end.

End Reference.

(** ** What SQLite's header says of its integers *)

(** A [c_int] that is a size is not negative; a statement has at most [limit]
    parameters and binding beyond them is refused. *)
Class IntApi (Db : Type) `{SqliteApi Db} `{BlobApi Db} (limit : Z) := {
  blob_bytes_int p (db : Db) : i32_min <= sqlite3_blob_bytes p db <= i32_max;
  column_count_int p (db : Db) : 0 <= sqlite3_column_count p db <= i32_max;
  limit_int : 0 <= limit < i32_max;
  bind_beyond p i v (db : Db) : limit < i -> (sqlite3_bind p i v db).1 <> SQLITE_OK;
}.

Section Bounds.
  Context `{Beam} `{RusqliteText} {Db : Type} `{SqliteApi Db} `{BlobApi Db} {limit : Z} `{!IntApi Db limit}.

Lemma blob_size_int p (db : Db) : 0 <= blob_size p db <= i32_max.
Proof. unfold blob_size. pose proof (blob_bytes_int p db). unfold i32_max in *. lia. Qed.

Lemma read_casts offset len p (db : Db) : 0 <= offset -> 0 <= len ->
  blob_read_body offset len p db = read_exact offset len p db.
Proof.
  intros Ho Hl. pose proof (blob_size_int p db) as Hs. unfold blob_read_body, read_exact.
  destruct (Z.leb_spec (blob_size p db) offset) as [Hp|Hp].
  - by replace (Z.max 0 (Z.min len (blob_size p db - offset))) with 0 by lia.
  - replace (Z.max 0 (Z.min len (blob_size p db - offset))) with (Z.min len (blob_size p db - offset)) by lia.
    by rewrite !wrap32_id by lia.
Qed.

Lemma write_casts offset data p (db : Db) : 0 <= offset ->
  blob_write_body offset data p db = write_exact offset data p db.
Proof.
  intros Ho. pose proof (blob_size_int p db) as Hs. unfold blob_write_body, write_exact, saturating_add.
  assert (i32_max < u64_max) by (by vm_compute).
  destruct (Z.ltb_spec (blob_size p db) (offset + Z.of_nat (length data))) as [Hb|Hb].
  - by replace (blob_size p db <? _) with true by lia.
  - replace (blob_size p db <? _) with false by lia. by rewrite !wrap32_id by lia.
Qed.

Lemma bind_value_beyond p i v (db : Db) : limit < i -> exists e db', bind_value_to_raw_stmt p i v db = (Err e, db').
Proof.
  intros Hi. unfold bind_value_to_raw_stmt, bind, lift. destruct (match v with VText _ => _ | _ => _ end); [|eauto].
  pose proof (bind_beyond p i v db Hi) as Hb. destruct (sqlite3_bind p i v db) as [rc db']. cbn [fst] in Hb.
  apply Z.eqb_neq in Hb. rewrite Hb. cbn [negb]. eauto.
Qed.

Lemma bind_casts p vs i (db : Db) : 0 <= i <= limit -> bind_from p i vs db = bind_exact p i vs db.
Proof.
  pose proof limit_int as Hl. revert i db; induction vs as [|v vs IH]; intros i db Hi; [done|].
  cbn [bind_from bind_exact]. rewrite wrap32_id by lia. unfold bind.
  destruct (decide (i + 1 <= limit)) as [Hle|Hgt].
  - destruct (bind_value_to_raw_stmt p (i + 1) v db) as [[[]|] db']; [|done]. apply IH. lia.
  - destruct (bind_value_beyond p (i + 1) v db) as (e & db' & ->); [lia|done].
Qed.

Lemma step_casts p (db : Db) : process_single_step p db = step_exact p db.
Proof.
  unfold process_single_step, step_exact. destruct (sqlite3_step p db) as [rc db'].
  destruct (rc =? SQLITE_ROW); [|done]. pose proof (column_count_int p db').
  unfold wrap_unsigned, i32_max in *. by rewrite Z.mod_small by lia.
Qed.

Lemma too_long_refused p i v n (db : Db) : value_len v = Some n -> i32_max < n ->
  exists e, bind_value_to_raw_stmt p i v db = (Err e, db).
Proof.
  intros Hv Hn. destruct v as [| | |s|s]; try discriminate Hv; injection Hv as <-;
    unfold bind_value_to_raw_stmt, bind, lift; replace (_ <=? i32_max) with false by lia; eauto.
Qed.

End Bounds.

(** Widths of the witness's database: its one statement takes no parameter. *)
Definition demo_bind : SqliteApi bytes := {|
  sqlite3_errmsg _ := None;
  sqlite3_prepare_v2 _ db := (SQLITE_OK, None, None, db);
  sqlite3_finalize _ db := db;
  sqlite3_step _ db := (SQLITE_DONE, db);
  sqlite3_reset _ db := db;
  sqlite3_clear_bindings _ db := db;
  sqlite3_column_count _ _ := 0;
  sqlite3_column_name _ _ _ := None;
  sqlite3_column _ _ _ := mkColumn SQLITE_NULL 0 (SpecFloat.S754_zero false) None None 0 [];
  sqlite3_bind_parameter_count _ _ := 2;
  sqlite3_bind_parameter_index _ _ _ := 0;
  sqlite3_bind _ i _ db := (if i <=? 2 then SQLITE_OK else 25, db);
  stmts _ := ∅;
|}.

Definition demo_ints : @IntApi bytes demo_bind demo_blobs 2.
Proof.
  constructor; cbn.
  - intros _ db. unfold i32_min, i32_max. destruct (Z.leb_spec (Z.of_nat (length db)) 2147483647); lia.
  - unfold i32_max. lia.
  - unfold i32_max. lia.
  - intros _ i _ _ Hi. by replace (i <=? 2) with false by lia.
Defined.

(** ** Theorems *)

(** C37: no cast wraps: for every 64-bit offset and length a blob read and a blob
    write do what the cast-free reference does (the range is clamped to, or refused
    against, the blob's size before it is narrowed); positional parameters are bound
    at their true positions however many are given, because SQLite refuses an index
    beyond its limit before the counter could wrap; a row is read with exactly
    SQLite's column count; and a text or blob too long for SQLite's 32-bit length,
    like SQL text too long to prepare, is refused before SQLite is called. *)
Theorem casts_are_lossless `{Beam} `{RusqliteText} {Db} `{SqliteApi Db} `{BlobApi Db} limit `{!IntApi Db limit}
    (p : ptr) (db : Db) :
  (forall offset len, 0 <= offset -> 0 <= len -> blob_read_body offset len p db = read_exact offset len p db) /\
  (forall offset data, 0 <= offset -> blob_write_body offset data p db = write_exact offset data p db) /\
  (forall vs, bind_positional_params_ffi p vs db = bind_exact p 0 vs db) /\
  process_single_step p db = step_exact p db /\
  (forall i v n, value_len v = Some n -> i32_max < n -> exists e, bind_value_to_raw_stmt p i v db = (Err e, db)) /\
  (forall sql, i32_max < Z.of_nat (length sql) -> exists e, prepare sql db = (Err e, db)).
Proof.
  split_and!.
  - intros. by apply (read_casts (limit := limit)).
  - intros. by apply (write_casts (limit := limit)).
  - intros vs. apply (bind_casts (limit := limit)). pose proof (limit_int (limit := limit)). lia.
  - apply (step_casts (limit := limit)).
  - intros i v n. apply too_long_refused.
  - intros sql Hs. unfold prepare, fail. destruct (bool_decide _); [eauto|].
    replace (i32_max <? _) with true by lia. eauto.
Qed.

Lemma casts_are_lossless_witness :
  @blob_read_body demo_beam demo_text bytes demo_blobs (2 ^ 32 + 1) 5 1 [1; 2; 3] = (Ok [], [1; 2; 3]) /\
  (exists e, @bind_positional_params_ffi demo_text bytes demo_bind 1 [VNull; VNull; VNull] [] = (Err e, [])).
Proof.
  destruct (@casts_are_lossless demo_beam demo_text bytes demo_bind demo_blobs 2 demo_ints 1 [1; 2; 3]) as (Hr & _).
  destruct (@casts_are_lossless demo_beam demo_text bytes demo_bind demo_blobs 2 demo_ints 1 []) as (_ & _ & Hb & _).
  split.
  - rewrite Hr; [|lia|lia]. vm_compute. reflexivity.
  - rewrite Hb. eexists. vm_compute. reflexivity.
Defined.
