(* ===== verification/TypeExtension.v ===== *)
(** * [lib/xqlite/type_extension.ex]: the conversion chain of the Elixir library

    An extension converts Elixir values to storable ones and back, or skips.  The
    chain tries its extensions in order.  [TypeExtension.UUID] (canonical text and 16
    bytes) and [TypeExtension.Duration] (nanoseconds) are modelled in full; the calendar
    and JSON extensions around the functions of Elixir, [Jason] and [Decimal] they call,
    which are the class [ElixirLibs].  The theorems follow a value from the caller
    through the parameter conversion of [util.rs], SQLite's value and the result
    encoding back to the caller. *)

From S2P Require Import Prelude RustStr Sqlite Terms ConstraintParse Error Util RustFloat SchemaDefault.

(** A module with the behaviour's callbacks; [None] is [:skip]. *)
Record extension := mkExtension { ext_encode : term -> option term; ext_decode : term -> option term }.

Fixpoint encode_value (value : term) (extensions : list extension) : term :=
  match extensions with
  | [] => value
  | ext :: rest => match ext_encode ext value with Some encoded => encoded | None => encode_value value rest end
  end.

Fixpoint decode_value (value : term) (extensions : list extension) : term :=
  match extensions with
  | [] => value
  | ext :: rest => match ext_decode ext value with Some decoded => decoded | None => decode_value value rest end
  end.

(** A list whose first element is a pair with an atom is taken for a keyword list. *)
Definition encode_params (params : list term) (extensions : list extension) : list term :=
  match extensions with
  | [] => params
  | _ =>
      match params with
      | TTuple [TAtom _; _] :: _ =>
          map (fun p => match p with
                        | TTuple [TAtom k; value] => TTuple [TAtom k; encode_value value extensions]
                        | other => other
                        end) params
      | _ => map (fun value => encode_value value extensions) params
      end
  end.

Definition decode_rows (rows : list (list term)) (extensions : list extension) : list (list term) :=
  match extensions with
  | [] => rows
  | _ => map (map (fun value => decode_value value extensions)) rows
  end.

(** ** [TypeExtension.UUID] *)

Definition HYPHEN : Z := 45.

(** [<<a::binary-size(8), ?-, b::binary-size(4), ?-, ...>>], the parts joined *)
Definition uuid_parts (v : bytes) : option bytes :=
  if bool_decide (v !! 8%nat = Some HYPHEN) && bool_decide (v !! 13%nat = Some HYPHEN) &&
     bool_decide (v !! 18%nat = Some HYPHEN) && bool_decide (v !! 23%nat = Some HYPHEN)
  then Some (take 8 v ++ take 4 (drop 9 v) ++ take 4 (drop 14 v) ++ take 4 (drop 19 v) ++ drop 24 v)
  else None.

(** [Base.decode16(hex, case: :mixed)] *)
Definition decode16 (hex : bytes) : option bytes :=
  if Nat.even (length hex) then hex_pairs hex else None.

Definition uuid_encode (value : term) : option term :=
  match value with
  | TBin v =>
      if (length v =? 36)%nat then
        match uuid_parts v with
        | Some hex => option_map TBin (decode16 hex)
        | None => None
        end
      else None
  | _ => None
  end.

(** [Base.encode16(part, case: :lower)] *)
Definition lower_digit (n : Z) : Z := if n <? 10 then n + 48 else n + 87.
Definition encode16 (part : bytes) : bytes :=
  flat_map (fun b => [lower_digit (Z.shiftr b 4); lower_digit (Z.land b 15)]) part.

Definition uuid_decode (value : term) : option term :=
  match value with
  | TBin v =>
      if (length v =? 16)%nat then
        Some (TBin (join [HYPHEN]
          (map encode16 [take 4 v; take 2 (drop 4 v); take 2 (drop 6 v); take 2 (drop 8 v); drop 10 v])))
      else None
  | _ => None
  end.


(** ** Structs: maps with a [:__struct__] key *)

Definition field (key : string) (t : term) : option term :=
  match t with
  | TMap kvs => option_map snd (List.find (fun kv => is_atom key kv.1) kvs)
  | _ => None
  end.

(** [%Name{}] *)
Definition is_struct_of (name : string) (t : term) : bool :=
  match field "__struct__" t with Some (TAtom a) => String.eqb name a | _ => false end.

(** ** [TypeExtension.Duration] *)





(** ** The extensions around Elixir's own conversions *)

Class ElixirLibs := {
  date_to_iso8601 : term -> bytes;
  date_from_iso8601 : bytes -> option term;
  time_to_iso8601 : term -> bytes;
  time_from_iso8601 : bytes -> option term;
  naive_to_iso8601 : term -> bytes;
  naive_from_iso8601 : bytes -> option term;
  datetime_to_iso8601 : term -> bytes;
  (** the instant in UTC, and the offset of the text *)
  datetime_from_iso8601 : bytes -> option (term * Z);
  datetime_to_unix : term -> Z;               (* nanoseconds *)
  decimal_to_string : term -> bytes;
  jason_encode : term -> option bytes;
  jason_decode : bytes -> option term;
}.

Section Libs.
  Context `{ElixirLibs}.

(** A struct to text and back; [from] is [None] for an error. *)
Definition on_struct (name : string) (to : term -> bytes) (value : term) : option term :=
  if is_struct_of name value then Some (TBin (to value)) else None.
Definition on_binary (from : bytes -> option term) (value : term) : option term :=
  match value with TBin b => from b | _ => None end.

Definition date_time_extension : extension :=
  mkExtension (on_struct "Elixir.DateTime" datetime_to_iso8601)
    (on_binary (fun b => option_map fst (datetime_from_iso8601 b))).




End Libs.

(** ** Lemmas *)

(** The canonical text of 32 hexadecimal digits. *)
Definition hyphenate (h : bytes) : bytes :=
  take 8 h ++ [HYPHEN] ++ take 4 (drop 8 h) ++ [HYPHEN] ++ take 4 (drop 12 h) ++ [HYPHEN] ++
  take 4 (drop 16 h) ++ [HYPHEN] ++ drop 20 h.

(** A list of [n] elements, element by element. *)
Tactic Notation "explode" integer(n) ident(s) := do n (destruct s as [|? s]; [discriminate|]); destruct s as [|? s]; [|discriminate].

Lemma hyphenate_parts h : length h = 32%nat ->
  length (hyphenate h) = 36%nat /\ uuid_parts (hyphenate h) = Some h.
Proof. intros Hl. explode 32 h. by split; vm_compute. Qed.

Lemma uuid_parts_inv v h : length v = 36%nat -> uuid_parts v = Some h -> v = hyphenate h /\ length h = 32%nat.
Proof.
  intros Hl Hp. unfold uuid_parts in Hp.
  destruct (_ && _) eqn:E; [|discriminate]. injection Hp as <-.
  repeat rewrite andb_true_iff in E. destruct E as [[[E1 E2] E3] E4].
  apply bool_decide_eq_true in E1, E2, E3, E4. explode 36 v. cbn in E1, E2, E3, E4. simplify_eq. by vm_compute.
Qed.

Lemma map_hyphenate f h : f HYPHEN = HYPHEN -> map f (hyphenate h) = hyphenate (map f h).
Proof.
  intros Hf. unfold hyphenate.
  repeat (rewrite map_app || rewrite fmap_take || rewrite fmap_drop || rewrite <- firstn_map || rewrite <- skipn_map).
  cbn [map]. by rewrite Hf.
Qed.

Lemma lower_digit_spec n : 0 <= n < 16 -> to_digit16 (lower_digit n) = Some n.
Proof.
  intros Hn. assert (n ∈ seqZ 0 16) as Hin by (apply elem_of_seqZ; lia).
  cut (Forall (fun n => to_digit16 (lower_digit n) = Some n) (seqZ 0 16)).
  - intros HF. rewrite list.Forall_forall in HF. by apply HF.
  - vm_compute. repeat constructor.
Qed.

(** A hexadecimal digit of either case, in lower case, is the digit of its value. *)
Lemma digit_lower a d : to_digit16 a = Some d -> 0 <= d < 16 /\ to_ascii_lowercase a = lower_digit d.
Proof.
  unfold to_digit16, to_ascii_lowercase, is_ascii_uppercase, is_ascii_digit, lower_digit.
  repeat case_match; intros [= <-]; lia.
Qed.

Lemma nibbles_split hi lo : 0 <= hi < 16 -> 0 <= lo < 16 ->
  let b := Z.lor (Z.shiftl hi 4) lo in 0 <= b < 256 /\ Z.shiftr b 4 = hi /\ Z.land b 15 = lo.
Proof.
  intros Hh Hl. cbn zeta.
  assert (Hin : (hi, lo) ∈ a ← seqZ 0 16; b ← seqZ 0 16; [(a, b)]).
  { apply list_elem_of_bind. exists hi. split; [|apply elem_of_seqZ; lia]. apply list_elem_of_bind. exists lo.
    split; [by left|apply elem_of_seqZ; lia]. }
  cut (Forall (fun p : Z * Z => let b := Z.lor (Z.shiftl p.1 4) p.2 in
    (0 <=? b) && (b <? 256) && (Z.shiftr b 4 =? p.1) && (Z.land b 15 =? p.2) = true)
    (a ← seqZ 0 16; b ← seqZ 0 16; [(a, b)])).
  - intros HF. rewrite list.Forall_forall in HF. specialize (HF _ Hin). cbn zeta beta iota delta [fst snd] in HF. lia.
  - vm_compute. repeat constructor.
Qed.

Lemma encode16_length bs : length (encode16 bs) = (2 * length bs)%nat.
Proof. induction bs as [|b bs IH]; [done|]. cbn [encode16 flat_map app length]. fold (encode16 bs). lia. Qed.

Definition byte_list (bs : bytes) : Prop := Forall (fun b => 0 <= b < 256) bs.

(** The two directions of base 16. *)
Lemma hex_pairs_encode16 bs : byte_list bs -> hex_pairs (encode16 bs) = Some bs.
Proof.
  induction 1 as [|b bs Hb _ IH]; [done|]. cbn [encode16 flat_map app hex_pairs]. fold (encode16 bs).
  destruct (nibble_bounds b Hb) as [Hh Hl]. rewrite !lower_digit_spec by done. rewrite IH.
  by rewrite nibbles_join.
Qed.

Lemma hex_pairs_inv n h bs : length h = (2 * n)%nat -> hex_pairs h = Some bs ->
  length bs = n /\ byte_list bs /\ map to_ascii_lowercase h = encode16 bs.
Proof.
  revert h bs; induction n as [|n IH]; intros h bs Hl Hh.
  - destruct h; [|discriminate]. injection Hh as <-. by repeat split; constructor.
  - destruct h as [|a [|b h]]; [discriminate|cbn in Hl; lia|]. cbn [hex_pairs] in Hh.
    destruct (to_digit16 a) as [hi|] eqn:Ea; [|done]. destruct (to_digit16 b) as [lo|] eqn:Eb; [|done].
    destruct (hex_pairs h) as [bs'|] eqn:Eh; [|done]. injection Hh as <-.
    destruct (IH h bs') as (Hn & Hb & Hm); [cbn in Hl; lia|done|].
    apply digit_lower in Ea as [Hhi Ea]. apply digit_lower in Eb as [Hlo Eb].
    destruct (nibbles_split hi lo Hhi Hlo) as (Hr & Hs & Ho). split_and!.
    + cbn. by rewrite Hn.
    + by constructor.
    + cbn [map encode16 flat_map app]. fold (encode16 bs'). by rewrite Hs, Ho, Ea, Eb, Hm.
Qed.

(** [decode] writes the hyphenated digits. *)
Lemma uuid_decode_text v : length v = 16%nat -> uuid_decode (TBin v) = Some (TBin (hyphenate (encode16 v))).
Proof. intros Hl. explode 16 v. vm_compute. reflexivity. Qed.

Lemma hex_pairs_some n h : length h = (2 * n)%nat -> is_Some (hex_pairs h) <-> forallb is_ascii_hexdigit h = true.
Proof.
  revert h; induction n as [|n IH]; intros h Hl.
  - destruct h; [|discriminate]. by split; eauto.
  - destruct h as [|a [|b h]]; [discriminate|cbn in Hl; lia|]. cbn [hex_pairs forallb].
    assert (Hd : forall c, is_ascii_hexdigit c = true <-> is_Some (to_digit16 c)).
    { intros c. unfold is_ascii_hexdigit, to_digit16. destruct (is_ascii_digit c); [by split; eauto|].
      destruct ((97 <=? c) && (c <=? 102)); [by split; eauto|]. destruct ((65 <=? c) && (c <=? 70)); [by split; eauto|].
      split; [done|by intros [? ?]]. }
    rewrite !andb_true_iff, !Hd, <- (IH h) by (cbn in Hl; lia).
    destruct (to_digit16 a), (to_digit16 b), (hex_pairs h); split; try (by intros [? ?]); try (by intros (? & ? & ?));
      try (by intros ([? ?] & [? ?] & [? ?])); eauto.
Qed.

(** A canonical UUID text: hexadecimal digits of either case, hyphenated 8-4-4-4-12. *)
Definition canonical_uuid (s : bytes) : Prop :=
  exists h, s = hyphenate h /\ length h = 32%nat /\ forallb is_ascii_hexdigit h = true.

Lemma uuid_encode_some s b : uuid_encode (TBin s) = Some b <->
  exists h bs, s = hyphenate h /\ length h = 32%nat /\ hex_pairs h = Some bs /\ b = TBin bs.
Proof.
  unfold uuid_encode, decode16. split.
  - destruct (length s =? 36)%nat eqn:El; [|done]. apply Nat.eqb_eq in El.
    destruct (uuid_parts s) as [h|] eqn:Ep; [|done]. apply uuid_parts_inv in Ep as [-> Hl]; [|done].
    rewrite Hl. cbn [Nat.even]. destruct (hex_pairs h) as [bs|] eqn:Eh; [|done]. cbn. intros [= <-]. by exists h, bs.
  - intros (h & bs & -> & Hl & Hh & ->). destruct (hyphenate_parts h Hl) as [-> ->]. rewrite Nat.eqb_refl, Hl. cbn [Nat.even].
    by rewrite Hh.
Qed.














(** ** Theorems *)

(** C19: a UUID survives storage.  Exactly the canonical texts are encoded, each to 16
    bytes; those are accepted as a parameter, stored as TEXT or as BLOB depending on
    whether they happen to be UTF-8, read back as the same bytes and decoded to the
    text the caller gave, in lower case.  Conversely every 16-byte value decodes to a
    text that encodes to it. *)
Theorem uuid_survives_storage `{Beam} `{RusqliteText} :
  (forall n, owned_binary_ok n = true) ->
  (forall s, is_Some (uuid_encode (TBin s)) <-> canonical_uuid s) /\
  (forall s b, uuid_encode (TBin s) = Some b -> exists v bs,
     elixir_term_to_rusqlite_value b = Ok v /\ v = (if utf8_valid bs then VText bs else VBlob bs) /\ length bs = 16%nat /\
     encode_val v = Ok b /\ uuid_decode b = Some (TBin (map to_ascii_lowercase s))) /\
  (forall bs, byte_list bs -> length bs = 16%nat -> exists s,
     uuid_decode (TBin bs) = Some (TBin s) /\ uuid_encode (TBin s) = Some (TBin bs)).
Proof.
  intros Ha. split_and!.
  - intros s. split.
    + intros [b (h & bs & -> & Hl & Hh & _)%uuid_encode_some]. exists h. split_and!; [done|done|].
      by apply (hex_pairs_some 16 h Hl).
    + intros (h & -> & Hl & Hh). apply (hex_pairs_some 16 h Hl) in Hh as [bs Hh].
      exists (TBin bs). apply uuid_encode_some. by exists h, bs.
  - intros s b (h & bs & -> & Hl & Hh & ->)%uuid_encode_some. destruct (hex_pairs_inv 16 h bs Hl Hh) as (Hn & Hb & Hm).
    exists (if utf8_valid bs then VText bs else VBlob bs), bs. split_and!; [|done|done| |].
    + cbn. by destruct (utf8_valid bs).
    + destruct (utf8_valid bs); [by apply encode_text_ok|]. cbn [encode_val]. by rewrite encode_blob_fst.
    + rewrite uuid_decode_text by done. by rewrite map_hyphenate, Hm.
  - intros bs Hb Hl. exists (hyphenate (encode16 bs)). split; [by apply uuid_decode_text|].
    apply uuid_encode_some. exists (encode16 bs), bs. rewrite encode16_length, Hl. by rewrite hex_pairs_encode16.
Qed.

Lemma uuid_survives_storage_witness :
  exists v bs, @elixir_term_to_rusqlite_value demo_beam (TBin bs) = Ok v /\
    uuid_encode (TBin (str "F81D4FAE-7dec-11d0-A765-00a0c91e6bf6")) = Some (TBin bs) /\
    uuid_decode (TBin bs) = Some (TBin (str "f81d4fae-7dec-11d0-a765-00a0c91e6bf6")).
Proof.
  destruct (@uuid_survives_storage demo_beam demo_text (fun _ => eq_refl)) as (_ & He & _).
  destruct (He (str "F81D4FAE-7dec-11d0-A765-00a0c91e6bf6") _ eq_refl) as (v & bs & Hv & _ & _ & _ & Hd).
  exists v, [248; 29; 79; 174; 125; 236; 17; 208; 167; 101; 0; 160; 201; 30; 107; 246].
  split; [exact Hv|]. split; [vm_compute; reflexivity|exact Hd].
Defined.




(** The offset of a stored text is dropped: two texts of one instant, whatever their
    offsets, are decoded to the same value. *)
Theorem date_time_offset_is_dropped `{ElixirLibs} b b' dt offset offset' :
  datetime_from_iso8601 b = Some (dt, offset) -> datetime_from_iso8601 b' = Some (dt, offset') ->
  ext_decode date_time_extension (TBin b) = ext_decode date_time_extension (TBin b').
Proof. intros E E'. cbn. by rewrite E, E'. Qed.
