(* ===== verification/ElixirStream.v ===== *)
(** * [lib/xqlite/stream_resource_callbacks.ex] and [Xqlite.stream/4]

    The Elixir stream over the stream NIFs.  [Stream.resource/3] calls [next_fun] for
    the next elements and [after_fun] at the end, whatever ends it: exhaustion, a
    consumer that has had enough, an exception.  The stream handle is a resource that
    changes in place, so the statement and the connection are passed beside the
    accumulator.  Telemetry and logging are left out. *)

From S2P Require Import Prelude RustStr Sqlite Terms Heap ConstraintParse Error Util RustFloat SchemaDefault HookList Hooks ProgressDispatch Connection Query Statements TypeSpec TypeExtension.

Inductive on_error_mode := Raise | Halt | EmitError.

(** [@valid_on_error] *)
Definition validate_on_error (mode : term) : result on_error_mode term :=
  match mode with
  | TAtom a =>
      if String.eqb a "raise" then Ok Raise
      else if String.eqb a "halt" then Ok Halt
      else if String.eqb a "emit_error" then Ok EmitError
      else Err (TTuple [TAtom "invalid_on_error"; mode])
  | _ => Err (TTuple [TAtom "invalid_on_error"; mode])
  end.

(** The options, with their defaults in [default_opts]. *)
Record stream_opts := mkOpts { opt_on_error : term; opt_batch_size : term; opt_extensions : list extension }.
Definition default_opts : stream_opts := mkOpts (TAtom "raise") (TInt 500) [].

Record acc := mkAcc {
  columns : list bytes;
  batch_size : term;
  type_extensions : list extension;
  rows_total : nat;
  on_error : on_error_mode;
  errored : bool;
}.

(** ** Rows as maps *)

Definition is_bin (b : bytes) (t : term) : bool := match t with TBin c => bytes_eqb b c | _ => false end.

(** [Map.new(Enum.zip(columns, row))]: a later column of the same name wins. *)
Definition row_map (columns : list bytes) (row : list term) : term :=
  TMap (fold_left (fun m kv => assoc_put (is_bin kv.1) (TBin kv.1) kv.2 m) (zip columns row) []).

Definition map_rows_to_maps (rows : list (list term)) (columns : list bytes) (exts : list extension) : list term :=
  map (row_map columns) (decode_rows rows exts).

Definition shape_rows (mapped_rows : list term) (mode : on_error_mode) : list term :=
  match mode with EmitError => map ok_tuple mapped_rows | _ => mapped_rows end.

(** [%{rows: rows}] as a pattern on the fetched map *)
Definition rows_of (m : list (term * term)) : option (list (list term)) :=
  match atom_key "rows" m with
  | Some (TList l) => mapM (fun r => match r with TList cells => Some cells | _ => None end) l
  | _ => None
  end.

(** What [next_fun] returns or raises; [NoClause] is a [CaseClauseError]. *)
Inductive next_result :=
| Elements (l : list term) (a : acc)
| Finished (a : acc)
| Raised (reason : term)
| NoClause.

Section Stream.
  Context `{Beam} `{RusqliteText} {Db : Type} `{SqliteApiLaws Db}.

(** ** The callbacks *)

Definition build_acc (columns : list bytes) (opts : stream_opts) (mode : on_error_mode) : acc :=
  mkAcc columns (opt_batch_size opts) (opt_extensions opts) 0 mode false.

(** [NIF.stream_get_columns] only reads the resource and cannot fail. *)
Definition start_fun (h : XqliteConn Db) (sql : bytes) (params : term) (opts : stream_opts)
    : result (acc * XqliteStatement) term * XqliteConn Db :=
  match validate_on_error (opt_on_error opts) with
  | Err reason => (Err reason, h)
  | Ok mode =>
      match stream_open h sql params with
      | (Ok st, h) => (Ok (build_acc (column_names st) opts mode, st), h)
      | (Err e, h) => (Err (encode e), h)
      end
  end.

Definition handle_fetch_error (reason : term) (a : acc) : next_result :=
  match on_error a with
  | Raise => Raised reason
  | Halt => Finished a
  | EmitError => Elements [error_tuple reason]
                   (mkAcc (columns a) (batch_size a) (type_extensions a) (rows_total a) (on_error a) true)
  end.

Definition next_fun (pd : bytes) (a : acc) (st : XqliteStatement) (h : XqliteConn Db)
    : next_result * XqliteStatement * XqliteConn Db :=
  match on_error a, errored a with
  | EmitError, true => (Finished a, st, h)
  | _, _ =>
      let '(answer, st, h) := stream_fetch pd h st (batch_size a) in
      (match answer with
       | TTuple [TAtom "ok"; TMap m] =>
           match rows_of m with
           | Some rows =>
               let mapped_rows := map_rows_to_maps rows (columns a) (type_extensions a) in
               Elements (shape_rows mapped_rows (on_error a))
                 (mkAcc (columns a) (batch_size a) (type_extensions a) (rows_total a + length mapped_rows)
                    (on_error a) (errored a))
           | None => NoClause
           end
       | TAtom "done" => Finished a
       | TTuple [TAtom "error"; reason] => handle_fetch_error reason a
       | _ => NoClause
       end, st, h)
  end.

(** [NIF.stream_close]; its error is only logged. *)
Definition after_fun (st : XqliteStatement) (h : XqliteConn Db) : XqliteStatement * XqliteConn Db :=
  let '(_, st, h) := stream_close h st in (st, h).

(** ** [Stream.resource/3] under a consumer

    The consumer takes [want] elements and then stops ([None]: takes all).  The result is how the
    stream ended, what the consumer got, and the resources afterwards. *)

Inductive ending := Exhausted | Stopped | Exception (reason : term) | Crashed.

Fixpoint consume (fuel : nat) (pd : bytes) (want : option nat) (a : acc) (st : XqliteStatement) (h : XqliteConn Db)
    (got : list term) : option (ending * list term * (XqliteStatement * XqliteConn Db)) :=
  match fuel with
  | O => None
  | S fuel =>
      match next_fun pd a st h with
      | (Finished _, st, h) => Some (Exhausted, got, after_fun st h)
      | (Raised reason, st, h) => Some (Exception reason, got, after_fun st h)
      | (NoClause, st, h) => Some (Crashed, got, after_fun st h)
      | (Elements l a, st, h) =>
          match want with
          | Some k =>
              if (k <=? length l)%nat then Some (Stopped, got ++ take k l, after_fun st h)
              else consume fuel pd (Some (k - length l)%nat) a st h (got ++ l)
          | None => consume fuel pd None a st h (got ++ l)
          end
      end
  end.

(** ** What the consumer gets *)

(** A row as the consumer sees it. *)
Definition element (a : acc) (row : list term) : term :=
  let mapped := row_map (columns a) (map (fun v => decode_value v (type_extensions a)) row) in
  match on_error a with EmitError => ok_tuple mapped | _ => mapped end.

(** The rows that arrive when the statement gives [rs] and then fails: the full batches. *)
Definition full_batches (n : nat) (rs : list (list term)) : list (list term) := take (length rs / n * n) rs.

Definition elements (n : nat) (a : acc) (rs : list (list term)) (o : option XqliteError) : list term :=
  match o with
  | None => map (element a) rs
  | Some e => map (element a) (full_batches n rs) ++
              match on_error a with EmitError => [error_tuple (encode e)] | _ => [] end
  end.

Definition natural_end (a : acc) (o : option XqliteError) : ending :=
  match o, on_error a with Some e, Raise => Exception (encode e) | _, _ => Exhausted end.

(** A consumer that stops after [k] elements. *)
Definition limit (want : option nat) (els : list term) (e : ending) : ending * list term :=
  match want with
  | Some k => if (k <=? length els)%nat then (Stopped, take k els) else (e, els)
  | None => (e, els)
  end.

(** ** Lemmas *)

Lemma shape_elements a rows : shape_rows (map_rows_to_maps rows (columns a) (type_extensions a)) (on_error a)
  = map (element a) rows.
Proof.
  unfold shape_rows, map_rows_to_maps, decode_rows, element. destruct (type_extensions a) as [|x xs].
  - assert (Hr : forall r : list term, map (fun v => decode_value v []) r = r) by (intros r; apply map_id).
    destruct (on_error a); rewrite ?map_map; apply map_ext; intros r; by rewrite Hr.
  - destruct (on_error a); by rewrite ?map_map.
Qed.

Lemma rows_of_map rows : rows_of [(TAtom "rows", TList (map TList rows))] = Some rows.
Proof.
  unfold rows_of. cbn [atom_key is_atom]. rewrite String.eqb_refl. induction rows as [|r rows IH]; [done|].
  cbn. by rewrite IH.
Qed.

(** A stream whose statement is gone ends at once. *)
Lemma consume_closed fuel pd want a names h got n : batch_size a = TInt n -> 1 <= n -> in_i 64 n = true ->
  consume (S fuel) pd want a (mkStmt None names) h got = Some (Exhausted, got, (mkStmt None names, h)).
Proof.
  intros Hb Hn Hi. cbn [consume]. unfold next_fun, stream_fetch. rewrite Hb. cbn [decode_i64]. rewrite Hi.
  replace (1 <=? n) with true by lia. by destruct (on_error a), (errored a).
Qed.

Lemma full_batches_short n rs : (length rs < n)%nat -> full_batches n rs = [].
Proof. intros Hl. unfold full_batches. by rewrite Nat.div_small. Qed.

Lemma full_batches_step n rs : (0 < n)%nat -> (n <= length rs)%nat ->
  full_batches n rs = take n rs ++ full_batches n (drop n rs).
Proof.
  intros Hn Hl. unfold full_batches. rewrite length_drop.
  replace (length rs / n)%nat with (S ((length rs - n) / n)).
  - cbn [Nat.mul]. by rewrite take_take_drop.
  - replace (length rs) with ((length rs - n) + 1 * n)%nat at 2 by lia. rewrite Nat.div_add by lia. lia.
Qed.

Lemma elements_step n a rs o : (0 < n)%nat -> (n <= length rs)%nat ->
  elements n a rs o = map (element a) (take n rs) ++ elements n a (drop n rs) o.
Proof.
  intros Hn Hl. unfold elements. destruct o as [e|].
  - by rewrite full_batches_step, map_app, <- app_assoc.
  - by rewrite <- map_app, take_drop.
Qed.

Lemma limit_step want l els e : want <> Some O -> limit want (l ++ els) e =
  match want with
  | Some k => if (k <=? length l)%nat then (Stopped, take k l)
              else let '(x, r) := limit (Some (k - length l)%nat) els e in (x, l ++ r)
  | None => let '(x, r) := limit None els e in (x, l ++ r)
  end.
Proof.
  intros Hw. destruct want as [k|]; [|done]. unfold limit. rewrite length_app.
  destruct (Nat.leb_spec k (length l)) as [Hk|Hk].
  - rewrite (proj2 (Nat.leb_le k (length l + length els))) by lia. by rewrite take_app_le.
  - destruct (Nat.leb_spec (k - length l) (length els)) as [Hj|Hj].
    + rewrite (proj2 (Nat.leb_le k (length l + length els))) by lia. by rewrite take_app_ge by lia.
    + by rewrite (proj2 (Nat.leb_gt k (length l + length els))) by lia.
Qed.

(** How a stream over statement [p] ends: what is delivered, and the statement finalized. *)
Definition ends_with (r : option (ending * list term * (XqliteStatement * XqliteConn Db))) (want : option nat) (e : ending)
    (got els : list term) (names : list bytes) (h : XqliteConn Db) (live : gset ptr) : Prop :=
  exists db', r = Some (let '(x, l) := limit want els e in (x, got ++ l), (mkStmt None names, set_conn h (Some db'))) /\
    stmts db' = live.

Lemma next_fun_fetch pd a st h : errored a = false -> next_fun pd a st h =
  let '(answer, st, h) := stream_fetch pd h st (batch_size a) in
  (match answer with
   | TTuple [TAtom "ok"; TMap m] =>
       match rows_of m with
       | Some rows =>
           Elements (map (element a) rows)
             (mkAcc (columns a) (batch_size a) (type_extensions a)
                (rows_total a + length (map_rows_to_maps rows (columns a) (type_extensions a))) (on_error a) (errored a))
       | None => NoClause
       end
   | TAtom "done" => Finished a
   | TTuple [TAtom "error"; reason] => handle_fetch_error reason a
   | _ => NoClause
   end, st, h).
Proof.
  intros He. unfold next_fun. rewrite He.
  assert (Hs : forall rows, map (element a) rows
    = shape_rows (map_rows_to_maps rows (columns a) (type_extensions a)) (on_error a)) by (intros; by rewrite shape_elements).
  destruct (on_error a) eqn:Eo; destruct (stream_fetch pd h st (batch_size a)) as [[x st'] h'];
    do 2 f_equal; repeat case_match; try done; by rewrite Hs.
Qed.

Lemma consume_S fuel pd want a st h got : consume (S fuel) pd want a st h got =
  match next_fun pd a st h with
  | (Finished _, st, h) => Some (Exhausted, got, after_fun st h)
  | (Raised reason, st, h) => Some (Exception reason, got, after_fun st h)
  | (NoClause, st, h) => Some (Crashed, got, after_fun st h)
  | (Elements l a, st, h) =>
      match want with
      | Some k =>
          if (k <=? length l)%nat then Some (Stopped, got ++ take k l, after_fun st h)
          else consume fuel pd (Some (k - length l)%nat) a st h (got ++ l)
      | None => consume fuel pd None a st h (got ++ l)
      end
  end.
Proof. done. Qed.

(** The last fetch: fewer rows are left than a batch holds. *)
Lemma consume_last fuel pd want a names p h db rs o got n : 1 <= n -> in_i 64 n = true -> batch_size a = TInt n ->
  errored a = false -> want <> Some O -> poison h = None -> conn_opt h = Some db -> gives p db rs o -> p ∈ stmts db ->
  (length rs < Z.to_nat n)%nat ->
  ends_with (consume (S (S fuel)) pd want a (mkStmt (Some p) names) h got) want (natural_end a o) got
    (elements (Z.to_nat n) a rs o) names h (stmts db ∖ {[p]}).
Proof.
  intros Hn Hi Hb He Hw Hpo Hc Hg Hp Hl.
  destruct (stream_fetch_gives n pd h names p db rs o Hn Hi Hpo Hc Hg Hp) as (db' & Hf).
  rewrite (proj2 (Nat.leb_gt _ _) Hl) in Hf. destruct Hf as [Hf Hst]. exists db'. split; [|done].
  rewrite consume_S, next_fun_fetch, Hb, Hf by done. cbn iota beta.
  assert (Hz : want <> Some O -> limit want [] (natural_end a o) = (natural_end a o, [])).
  { intros Hw'. destruct want as [[|k]|]; done. }
  destruct o as [e|].
  - cbn [error_tuple]. unfold elements, handle_fetch_error, natural_end in *. rewrite full_batches_short by done. cbn [map app].
    destruct (on_error a) eqn:Eo; cbn [after_fun stream_close take_and_finalize_raw raw_stmt].
    + rewrite Hz by done. by rewrite app_nil_r.
    + rewrite Hz by done. by rewrite app_nil_r.
    + destruct want as [[|k]|]; [done| |].
      * cbn [length Nat.leb]. destruct k as [|k]; [done|]. cbn [Nat.sub limit length Nat.leb]. unfold next_fun. done.
      * done.
  - destruct rs as [|r rs].
    + cbn [elements map]. rewrite Hz by done. by rewrite app_nil_r.
    + rewrite rows_map_ok. cbn iota beta. rewrite rows_of_map. cbn iota beta. unfold elements. cbn zeta.
      set (l := map (element a) (r :: rs)). destruct want as [k|]; cbn [limit].
      * destruct (Nat.leb_spec k (length l)) as [Hk|Hk]; [done|].
        by apply (consume_closed _ _ _ _ _ _ _ n).
      * by apply (consume_closed _ _ _ _ _ _ _ n).
Qed.

(** The consumer stops inside a batch: [after_fun] finalizes the statement. *)
Lemma after_fun_live names p (h : XqliteConn Db) db : poison h = None -> conn_opt h = Some db ->
  after_fun (mkStmt (Some p) names) h = (mkStmt None names, set_conn h (Some (sqlite3_finalize p db))).
Proof. intros Hpo Hc. unfold after_fun, stream_close, take_and_finalize_raw. cbn. by rewrite Hpo, Hc. Qed.

Lemma consume_gives fuel pd want a names p h db rs o got n : 1 <= n -> in_i 64 n = true -> batch_size a = TInt n ->
  errored a = false -> want <> Some O -> poison h = None -> conn_opt h = Some db -> gives p db rs o -> p ∈ stmts db ->
  (length rs + 1 < fuel)%nat ->
  ends_with (consume fuel pd want a (mkStmt (Some p) names) h got) want (natural_end a o) got
    (elements (Z.to_nat n) a rs o) names h (stmts db ∖ {[p]}).
Proof.
  intros Hn Hi. revert want a h db rs got.
  induction fuel as [|fuel IH]; intros want a h db rs got Hb He Hw Hpo Hc Hg Hp Hf; [lia|].
  destruct (Nat.lt_ge_cases (length rs) (Z.to_nat n)) as [Hl|Hl].
  { destruct fuel as [|fuel]; [lia|]. by apply (consume_last fuel pd want a names p h db rs o got n). }
  destruct (stream_fetch_gives n pd h names p db rs o Hn Hi Hpo Hc Hg Hp) as (db' & Hs).
  rewrite (proj2 (Nat.leb_le _ _) Hl) in Hs. destruct Hs as (Hs & Hg' & Hst).
  rewrite consume_S, next_fun_fetch, Hb, Hs by done. cbn iota beta. rewrite rows_map_ok. cbn iota beta.
  rewrite rows_of_map. cbn iota beta. unfold ends_with. rewrite elements_step, limit_step by (done || lia).
  set (l := map (element a) (take (Z.to_nat n) rs)).
  match goal with |- context [consume fuel pd _ ?a' _ _ _] => set (a1 := a') end.
  assert (Hrec : forall want', want' <> Some O ->
    ends_with (consume fuel pd want' a1 (mkStmt (Some p) names) (set_conn h (Some db')) (got ++ l)) want' (natural_end a o)
      (got ++ l) (elements (Z.to_nat n) a (drop (Z.to_nat n) rs) o) names h (stmts db ∖ {[p]})).
  { intros want' Hw'. rewrite <- Hst. destruct (IH want' a1 (set_conn h (Some db')) db' (drop (Z.to_nat n) rs) (got ++ l))
      as (db2 & E & Hst2); try done; [by rewrite Hst|rewrite length_drop; lia|]. by exists db2. }
  destruct want as [k|].
  - destruct (Nat.leb_spec k (length l)) as [Hk|Hk].
    + exists (sqlite3_finalize p db'). rewrite (after_fun_live names p _ db') by done.
      split; [done|]. by rewrite finalize_stmts, Hst.
    + destruct (Hrec (Some (k - length l)%nat)) as (db2 & E & Hst2); [intros [=]; lia|]. exists db2. split; [|done].
      rewrite E. destruct (limit _ _ _) as [x r]. by rewrite app_assoc.
  - destruct (Hrec None) as (db2 & E & Hst2); [done|]. exists db2. split; [|done]. rewrite E.
    destruct (limit _ _ _) as [x r]. by rewrite app_assoc.
Qed.

End Stream.

(** ** Theorems *)

(** C13: an Elixir stream delivers what its [:on_error] mode promises, for every batch
    size, every consumer (one that takes everything, or stops after [k] elements) and
    every statement, whether it ends or fails at some row.  Every row arrives once, in
    order, as a map of its decoded cells; a failure raises, stops the stream or arrives
    as one last [{:error, reason}]; and however the stream ends, the statement has been
    finalized and the stream's cell emptied, so that a second pass delivers nothing.
    When the statement fails, only the rows of full batches arrive. *)
Theorem elixir_stream_delivers `{Beam} `{RusqliteText} {Db} `{SqliteApiLaws Db} pd want a names p (h : XqliteConn Db) db rs o n :
  1 <= n -> in_i 64 n = true -> batch_size a = TInt n -> errored a = false -> want <> Some O ->
  poison h = None -> conn_opt h = Some db -> gives p db rs o -> p ∈ stmts db ->
  exists db', let h' := set_conn h (Some db') in
    consume (length rs + 2) pd want a (mkStmt (Some p) names) h []
    = Some (limit want (elements (Z.to_nat n) a rs o) (natural_end a o), (mkStmt None names, h')) /\
    stmts db' = stmts db ∖ {[p]} /\
    consume 1 pd want a (mkStmt None names) h' [] = Some (Exhausted, [], (mkStmt None names, h')).
Proof.
  intros. destruct (consume_gives (length rs + 2) pd want a names p h db rs o [] n) as (db' & E & Hst); try done; [lia|].
  exists db'. cbn zeta. split_and!; [|done|by apply (consume_closed _ _ _ _ _ _ _ n)].
  rewrite E. by destruct (limit _ _ _).
Qed.

Lemma elixir_stream_delivers_witness :
  let a := mkAcc [str "n"] (TInt 2) [] 0 EmitError false in
  exists db', @consume demo_beam demo_text demo_db demo_sqlite 4 [] (Some 2%nat) a (mkStmt (Some 1%positive) [str "n"])
      (mkXConn None (Some (mkDemo {[1%positive]} 2)) false) []
    = Some (Stopped, [ok_tuple (TMap [(TBin (str "n"), TInt 1)]); ok_tuple (TMap [(TBin (str "n"), TInt 0)])],
            (mkStmt None [str "n"], mkXConn None (Some db') false)) /\
    d_live db' = {[1%positive]} ∖ {[1%positive]}.
Proof.
  intros a.
  destruct (@elixir_stream_delivers demo_beam demo_text demo_db demo_sqlite demo_sqlite_laws [] (Some 2%nat) a [str "n"] 1
    (mkXConn None (Some (mkDemo {[1%positive]} 2)) false) (mkDemo {[1%positive]} 2) [[TInt 1]; [TInt 0]] None 2)
    as (db' & E & Hs & _).
  - lia.
  - reflexivity.
  - reflexivity.
  - reflexivity.
  - discriminate.
  - reflexivity.
  - reflexivity.
  - exact demo_yields.
  - vm_compute. reflexivity.
  - exists db'. split; [exact E|exact Hs].
Defined.

(** The rows read before the failure, in the batch that fails, never arrive: with fewer of them than a
    batch holds the consumer of a tagged stream gets the error and nothing else. *)
Theorem failing_batch_is_lost `{Beam} `{RusqliteText} {Db} `{SqliteApiLaws Db} pd a names p (h : XqliteConn Db) db rs e n :
  1 <= n -> in_i 64 n = true -> batch_size a = TInt n -> errored a = false -> on_error a = EmitError ->
  poison h = None -> conn_opt h = Some db -> gives p db rs (Some e) -> p ∈ stmts db -> Z.of_nat (length rs) < n ->
  exists w, consume (length rs + 2) pd None a (mkStmt (Some p) names) h []
    = Some (Exhausted, [error_tuple (encode e)], w).
Proof.
  intros Hn Hi Hb He Hm Hpo Hc Hg Hp Hl.
  destruct (consume_gives (length rs + 2) pd None a names p h db rs (Some e) [] n) as (db' & E & _); try done; [lia|].
  rewrite E. unfold elements, natural_end, limit. rewrite full_batches_short, Hm by lia. eauto.
Qed.
