(* ===== verification/Elixir.v ===== *)
(** * Elixir's side of the boundary: sequences of NIF calls

    What [lib/] does with a connection is a sequence of NIF calls, each of which may
    answer an error; [with] goes from one to the next and stops at the first error.  A
    pattern that does not match raises. *)

From S2P Require Import Prelude RustStr Sqlite Terms Heap ConstraintParse Error Util HookList Hooks ProgressDispatch Connection Query Statements Nif.

(** A call from Elixir: a value, [{:error, reason}] or ([None]) an exception. *)
Definition outcome (R : Type) : Type := option (result R term).

Definition nif (Db R : Type) : Type := XqliteConn Db -> outcome R * XqliteConn Db.

Definition reply {Db R} (r : outcome R) : nif Db R := fun h => (r, h).

(** A clause of [with]: an error ends it. *)
Definition with_ok {Db A B} (m : nif Db A) (k : A -> nif Db B) : nif Db B := fun h =>
  match m h with
  | (Some (Ok a), h) => k a h
  | (Some (Err reason), h) => (Some (Err reason), h)
  | (None, h) => (None, h)
  end.
Notation "'let@' x ':=' m 'in' k" := (with_ok m (fun x => k)) (at level 10, x pattern, m at level 100, k at level 200).

(** A NIF that answers [{:ok, value}] or [{:error, reason}]. *)
Definition ok_or_error {Db R} `{Beam} (f : XqliteConn Db -> result R XqliteError * XqliteConn Db) : nif Db R := fun h =>
  let '(r, h) := f h in (Some (map_err encode r), h).

(** The rows of [XqliteNIF.query/3]. *)
Definition nif_query `{Beam} `{RusqliteText} {Db} `{RusqliteConn Db} (sql : bytes) (params : list term)
    : nif Db (list (list term)) := fun h =>
  let '(r, h) := query h sql (TList params) in
  (Some match r with Ok q => Ok (rows q) | Err e => Err (encode e) end, h).

Lemma with_ok_inv {Db A B} (m : nif Db A) (k : A -> nif Db B) h b h' : with_ok m k h = (Some (Ok b), h') ->
  exists a h1, m h = (Some (Ok a), h1) /\ k a h1 = (Some (Ok b), h').
Proof. unfold with_ok. destruct (m h) as [[[a|e]|] h1]; [|done..]. by exists a, h1. Qed.
