(* ===== verification/Regex.v ===== *)
(** * The regular expressions of [enable_strict_table] ([lib/xqlite.ex])

    [rebuild_as_strict] rewrites the stored CREATE statement with two regular
    expressions.  They are data here ([rx]), read by a backtracking matcher in PCRE's
    order (greedy repetition, first alternative first, leftmost match), and
    [Regex.replace/3] replaces every match.  Which of the bytes above 127 are
    letters or white space is the engine's character table, an argument of the
    matcher; the ASCII part is written out.

    [#{table}] is interpolated into the pattern: it stands for itself when the name
    has none of PCRE's metacharacters ([regex_literal]), and only such names are
    modelled. *)

From S2P Require Import Prelude RustStr.

(** A decidable closed fact, by evaluation. *)
Ltac decided := match goal with |- ?P => apply (bool_decide_unpack P); vm_compute; exact I end.

Section Engine.
  Context (high_word high_space : Z -> bool).      (* the bytes from 128 on *)

(** [\w] and [\s] *)
Definition word_char (b : Z) : bool := if b <? 128 then is_ascii_alphanumeric b || (b =? 95) else high_word b.
Definition space_char (b : Z) : bool := if b <? 128 then (b =? 32) || ((9 <=? b) && (b <=? 13)) else high_space b.

Inductive rx :=
| RText (s : bytes)              (* the bytes themselves *)
| RSpaces                        (* \s*  *)
| RSpaces1                       (* \s+  *)
| ROpt (r : rx)                  (* (r)? *)
| RAlt (r1 r2 : rx)              (* r1|r2 *)
| RSeq (r1 r2 : rx)
| RBoundary                      (* \b *)
| REnd.                          (* $, without the m flag: at the end or before a last newline *)

Definition is_word (c : option Z) : bool := match c with Some b => word_char b | None => false end.

(** Greedy: as many as possible first, one fewer each time the rest fails. *)
Fixpoint spaces {A} (k : option Z -> bytes -> option A) (prev : option Z) (s : bytes) : option A :=
  match s with
  | b :: s' => if space_char b then match spaces k (Some b) s' with Some x => Some x | None => k prev s end else k prev s
  | [] => k prev []
  end.

(** [k prev rest] is the rest of the pattern, after the byte [prev] and before [rest]. *)
Fixpoint rx_match {A} (r : rx) (k : option Z -> bytes -> option A) (prev : option Z) (s : bytes) : option A :=
  match r with
  | RText t => match strip_prefix t s with Some rest => k (last (map Some t) prev) rest | None => None end
  | RSpaces => spaces k prev s
  | RSpaces1 => match s with b :: s' => if space_char b then spaces k (Some b) s' else None | [] => None end
  | ROpt r => match rx_match r k prev s with Some x => Some x | None => k prev s end
  | RAlt r1 r2 => match rx_match r1 k prev s with Some x => Some x | None => rx_match r2 k prev s end
  | RSeq r1 r2 => rx_match r1 (rx_match r2 k) prev s
  | RBoundary => if xorb (is_word prev) (is_word (head s)) then k prev s else None
  | REnd => if bytes_eqb s [] || bytes_eqb s [10] then k prev s else None
  end.

(** The text left after a match that starts here. *)
Definition match_here (r : rx) (prev : option Z) (s : bytes) : option bytes := rx_match r (fun _ rest => Some rest) prev s.

(** [Regex.replace(r, s, by)]: every match, from the left; [skip] counts the bytes of
    the last match still to pass over.  (No pattern here matches the empty text.) *)
Fixpoint replace_from (r : rx) (by_ : bytes) (prev : option Z) (skip : nat) (s : bytes) : bytes :=
  match s with
  | [] => []
  | b :: s' =>
      match skip with
      | S n => replace_from r by_ (Some b) n s'
      | O =>
          match match_here r prev s with
          | Some rest => by_ ++ replace_from r by_ (Some b) (length s' - length rest) s'
          | None => b :: replace_from r by_ (Some b) O s'
          end
      end
  end.

Definition regex_replace (r : rx) (s by_ : bytes) : bytes := replace_from r by_ None O s.

(** ** The two patterns *)

(** [\)\s*(STRICT)?\s*$] *)
Definition STRICT_TAIL : rx := RSeq (RText (str ")")) (RSeq RSpaces (RSeq (ROpt (RText (str "STRICT"))) (RSeq RSpaces REnd))).

Definition BACKTICK : Z := 96.

(** [\bCREATE TABLE\s+(?:"#{table}"|`#{table}`|#{table})\b] *)
Definition CREATE_HEAD (table : bytes) : rx :=
  RSeq RBoundary (RSeq (RText (str "CREATE TABLE")) (RSeq RSpaces1
    (RSeq (RAlt (RText ([DQUOTE] ++ table ++ [DQUOTE])) (RAlt (RText ([BACKTICK] ++ table ++ [BACKTICK])) (RText table)))
          RBoundary))).

(** A name that is its own pattern: no backslash, caret, dollar, dot, bracket, bar,
    parenthesis, question mark, star, plus or brace. *)
Definition metacharacter (b : Z) : bool :=
  existsb (Z.eqb b) [92; 94; 36; 46; 91; 124; 40; 41; 63; 42; 43; 123].
Definition regex_literal (table : bytes) : bool := forallb (fun b => negb (metacharacter b)) table.

Definition tmp_table (table : bytes) : bytes := table ++ str "_xqlite_strict_rebuild".

(** [strict_sql]: both replacements, one after the other. *)
Definition as_strict (table original_create_sql : bytes) : bytes :=
  regex_replace (CREATE_HEAD table) (regex_replace STRICT_TAIL original_create_sql (str ") STRICT"))
    (str "CREATE TABLE " ++ [DQUOTE] ++ tmp_table table ++ [DQUOTE]).

(** ** Lemmas *)

(** A pattern that needs the byte [c] first does not touch a text without it. *)
Definition starts_at (c : Z) (r : rx) : Prop := forall prev s rest, match_here r prev s = Some rest -> hd_error s = Some c.

Lemma last_some (b : Z) p prev : last (map Some (b :: p)) prev = last (map Some p) (Some b).
Proof. revert b prev. induction p as [|c p IH]; intros b prev; [done|]. exact (eq_trans (IH c prev) (eq_sym (IH c (Some b)))). Qed.

Lemma replace_passes c r by_ p : starts_at c r -> c ∉ p -> forall prev s,
  replace_from r by_ prev 0 (p ++ s) = p ++ replace_from r by_ (last (map Some p) prev) 0 s.
Proof.
  intros Hc. induction p as [|b p IH]; intros Hp prev s; [done|]. apply not_elem_of_cons in Hp as [Hb Hp].
  rewrite last_some. cbn [app replace_from]. destruct (match_here r prev (b :: p ++ s)) as [rest|] eqn:E.
  - apply Hc in E. cbn in E. congruence.
  - by rewrite (IH Hp).
Qed.

Lemma replace_skips r by_ p : forall prev s,
  replace_from r by_ prev (length p) (p ++ s) = replace_from r by_ (last (map Some p) prev) 0 s.
Proof. induction p as [|b p IH]; intros prev s; [done|]. rewrite last_some. cbn [app replace_from length]. apply IH. Qed.

(** A match at the start that leaves [rest]. *)
Lemma replace_matched r by_ prev b p rest : match_here r prev (b :: p ++ rest) = Some rest ->
  replace_from r by_ prev 0 (b :: p ++ rest) = by_ ++ replace_from r by_ (last (map Some p) (Some b)) 0 rest.
Proof.
  intros E. cbn [replace_from]. rewrite E, length_app. replace (length p + length rest - length rest)%nat with (length p) by lia.
  by rewrite replace_skips.
Qed.

Lemma text_match {A} t (k : option Z -> bytes -> option A) prev s x : rx_match (RText t) k prev s = Some x ->
  exists rest, s = t ++ rest /\ k (last (map Some t) prev) rest = Some x.
Proof. cbn. destruct (strip_prefix t s) as [rest|] eqn:E; [|done]. apply strip_prefix_some in E as ->. by exists rest. Qed.

Lemma spaces_match {A} (k : option Z -> bytes -> option A) prev s x : spaces k prev s = Some x ->
  exists sp rest prev', s = sp ++ rest /\ Forall (fun b => space_char b = true) sp /\ k prev' rest = Some x.
Proof.
  revert prev. induction s as [|b s IH]; intros prev; cbn [spaces]; [intros E; by exists [], [], prev|].
  destruct (space_char b) eqn:Eb; [|intros E; by exists [], (b :: s), prev].
  destruct (spaces k (Some b) s) as [y|] eqn:Es; intros E; [|by exists [], (b :: s), prev].
  injection E as ->. destruct (IH _ Es) as (sp & rest & prev' & -> & Hsp & Hk). exists (b :: sp), rest, prev'.
  split_and!; [done| |done]. by constructor.
Qed.

(** White space is taken whole when what follows it is none. *)
Lemma spaces_whole {A} (k : option Z -> bytes -> option A) sp s x : Forall (fun b => space_char b = true) sp ->
  (forall b, hd_error s = Some b -> space_char b = false) -> (forall prev, k prev s = Some x) ->
  forall prev, spaces k prev (sp ++ s) = Some x.
Proof.
  intros Hsp Hs Hk. induction Hsp as [|b sp Hb _ IH]; intros prev; cbn [app spaces].
  - destruct s as [|b s]; cbn [spaces]; [apply Hk|]. rewrite (Hs b eq_refl). apply Hk.
  - by rewrite Hb, IH.
Qed.

(** ** What may follow the last parenthesis *)

Inductive strict_suffix : bytes -> Prop :=
| suffix_none sp : Forall (fun b => space_char b = true) sp -> strict_suffix sp
| suffix_strict sp sp' : Forall (fun b => space_char b = true) sp -> Forall (fun b => space_char b = true) sp' ->
    strict_suffix (sp ++ str "STRICT" ++ sp').

Lemma tail_matches tail prev : strict_suffix tail -> match_here STRICT_TAIL prev (str ")" ++ tail) = Some [].
Proof.
  unfold match_here, STRICT_TAIL. cbn [rx_match]. rewrite strip_prefix_app.
  intros [sp Hsp|sp sp' Hsp Hsp'].
  - rewrite <- (app_nil_r sp) at 1. by apply spaces_whole.
  - apply spaces_whole; [done|by intros b [= <-]|]. intros prev'. rewrite strip_prefix_app.
    rewrite <- (app_nil_r sp'). by rewrite (spaces_whole _ sp' [] []).
Qed.

Lemma paren_no_space sp : Forall (fun b => space_char b = true) sp -> 41 ∉ sp.
Proof. intros Hsp Hin. rewrite list.Forall_forall in Hsp. specialize (Hsp _ Hin). done. Qed.

(** Past a match there is no other parenthesis: the match is at the last one. *)
Lemma tail_last prev s rest : match_here STRICT_TAIL prev s = Some rest -> exists s', s = 41 :: s' /\ 41 ∉ s'.
Proof.
  unfold match_here, STRICT_TAIL. intros (s' & -> & E)%text_match. exists s'. split; [done|].
  apply spaces_match in E as (sp & s1 & p1 & -> & Hsp & E).
  assert (E2 : exists sp' s2 p2, (s1 = str "STRICT" ++ sp' ++ s2 \/ s1 = sp' ++ s2) /\ Forall (fun b => space_char b = true) sp' /\
    rx_match REnd (fun _ r => Some r) p2 s2 = Some rest).
  { cbn [rx_match] in E. destruct (strip_prefix (str "STRICT") s1) as [s2|] eqn:Es.
    - apply strip_prefix_some in Es as ->. destruct (spaces _ _ s2) as [y|] eqn:Ey.
      + injection E as ->. apply spaces_match in Ey as (sp' & s3 & p2 & -> & Hs & Hk). exists sp', s3, p2. eauto.
      + apply spaces_match in E as (sp' & s3 & p2 & -> & Hs & Hk). exists sp', s3, p2. eauto.
    - apply spaces_match in E as (sp' & s3 & p2 & -> & Hs & Hk). exists sp', s3, p2. eauto. }
  destruct E2 as (sp' & s2 & p2 & Hs1 & Hsp' & Hend). apply paren_no_space in Hsp, Hsp'.
  assert (41 ∉ s2).
  { cbn [rx_match] in Hend. destruct (bytes_eqb s2 []) eqn:E1; [apply bytes_eqb_eq in E1 as ->; by decided|].
    destruct (bytes_eqb s2 [10]) eqn:E2; [apply bytes_eqb_eq in E2 as ->|done]. by decided. }
  destruct Hs1 as [-> | ->]; rewrite ?not_elem_of_app; split_and!; try done; by decided.
Qed.

(** The tail of the statement becomes [) STRICT]. *)
Lemma replace_tail body tail : strict_suffix tail -> 
  regex_replace STRICT_TAIL (body ++ str ")" ++ tail) (str ") STRICT") = body ++ str ") STRICT".
Proof.
  intros Ht. unfold regex_replace. generalize (@None Z). induction body as [|b body IH]; intros prev.
  - pose proof (tail_matches tail prev Ht) as E. rewrite <- (app_nil_r tail) in E. rewrite <- (app_nil_r tail).
    exact (replace_matched STRICT_TAIL _ prev 41 tail [] E).
  - cbn [app replace_from]. destruct (match_here STRICT_TAIL prev (b :: body ++ str ")" ++ tail)) as [rest|] eqn:E.
    + apply tail_last in E as (s' & [= _ <-] & Hin). contradict Hin. rewrite !elem_of_app. right. by left.
    + f_equal. apply IH.
Qed.

(** ** The head of the statement *)

Lemma head_match table prev s rest : match_here (CREATE_HEAD table) prev s = Some rest ->
  exists s', s = str "CREATE TABLE" ++ s'.
Proof.
  unfold match_here, CREATE_HEAD. cbn [rx_match]. destruct (xorb _ _); [|done].
  destruct (strip_prefix (str "CREATE TABLE") s) as [s'|] eqn:E; [|done]. intros _. exists s'. by apply strip_prefix_some.
Qed.

Lemma head_starts table : starts_at 67 (CREATE_HEAD table).
Proof. intros prev s rest (s' & ->)%head_match. done. Qed.

Lemma tail_starts : starts_at 41 STRICT_TAIL.
Proof. intros prev s rest (s' & -> & _)%tail_last. done. Qed.

Lemma replace_elsewhere table by_ prev s : split_once (str "CREATE TABLE") s = None ->
  replace_from (CREATE_HEAD table) by_ prev 0 s = s.
Proof.
  revert prev. induction s as [|b s IH]; intros prev Hs; [done|]. cbn [replace_from].
  destruct (match_here _ prev (b :: s)) as [rest|] eqn:E.
  - apply head_match in E as (s' & E). rewrite E in Hs. cbn [split_once] in Hs.
    destruct s' as [|]; by rewrite ?strip_prefix_app in Hs.
  - f_equal. apply IH. cbn [split_once] in Hs. destruct (strip_prefix _ (b :: s)); [done|].
    by destruct (split_once _ s) as [[]|].
Qed.

(** A bare name of ASCII word characters, followed by something else, is replaced. *)
Definition bare_name (table : bytes) : Prop := table <> [] /\ Forall (fun b => b < 128 /\ word_char b = true) table.

Lemma word_not_space b : b < 128 -> word_char b = true -> space_char b = false /\ b <> DQUOTE /\ b <> BACKTICK.
Proof.
  unfold word_char, space_char, is_ascii_alphanumeric, is_ascii_digit, is_ascii_lowercase, is_ascii_uppercase, DQUOTE, BACKTICK.
  intros Hb. destruct (Z.ltb_spec b 128); [|lia]. intros E. lia.
Qed.

Lemma last_word table prev : bare_name table -> is_word (last (map Some table) prev) = true.
Proof.
  intros [Hne Hw]. destruct table as [|b table]; [done|]. clear Hne. revert b prev Hw.
  induction table as [|c table IH]; intros b prev Hw; apply Forall_cons_1 in Hw as [Hb Hw]; [apply Hb|].
  rewrite last_some. by apply IH.
Qed.

Lemma head_matches table body : bare_name table -> is_word (hd_error body) = false ->
  match_here (CREATE_HEAD table) None (str "CREATE TABLE " ++ table ++ body) = Some body.
Proof.
  intros Hn Hb. unfold match_here, CREATE_HEAD. cbn [rx_match].
  change (str "CREATE TABLE " ++ table ++ body) with (str "CREATE TABLE" ++ 32 :: table ++ body).
  rewrite strip_prefix_app. cbn [is_word hd_error xorb str app]. change (word_char 67) with true. cbn [xorb].
  change (space_char 32) with true. cbn iota. destruct table as [|b table]; [by destruct Hn|].
  assert (Hw : b < 128 /\ word_char b = true) by (destruct Hn as [_ Hf]; by apply Forall_cons_1 in Hf as [? _]).
  destruct (word_not_space b) as (Hs & Hq & Hk); [apply Hw..|]. cbn [app spaces]. rewrite Hs.
  cbn [strip_prefix]. destruct (Z.eqb_spec DQUOTE b); [congruence|]. destruct (Z.eqb_spec BACKTICK b); [congruence|].
  rewrite Z.eqb_refl, strip_prefix_app. rewrite (last_word (b :: table) _ Hn), Hb. done.
Qed.

(** ** What the rewriting does *)

(** The text stays a CREATE statement, whatever else it holds. *)
Lemma as_strict_creates table sql : starts_with (str "CREATE ") sql = true ->
  starts_with (str "CREATE ") (as_strict table sql) = true.
Proof.
  intros [s ->]%starts_with_true. apply starts_with_true. unfold as_strict, regex_replace at 2.
  rewrite (replace_passes 41 STRICT_TAIL _ (str "CREATE ") tail_starts) by decided.
  set (t := replace_from STRICT_TAIL _ _ _ _). unfold regex_replace. change (str "CREATE " ++ t) with (67 :: str "REATE " ++ t).
  cbn [replace_from]. destruct (match_here (CREATE_HEAD table) None _) as [rest|].
  - eexists. rewrite <- !app_assoc. change (str "CREATE TABLE ") with (str "CREATE " ++ str "TABLE "). by rewrite <- !app_assoc.
  - rewrite (replace_passes 67 (CREATE_HEAD table) _ (str "REATE ") (head_starts table)) by decided. by eexists.
Qed.

(** The statement SQLite stores for a table made under a bare name, its columns, and
    an optional STRICT: the name becomes the temporary one and the table is STRICT. *)
Lemma as_strict_rewrites table columns tail : bare_name table -> strict_suffix tail ->
  is_word (hd_error (columns ++ str ") STRICT")) = false -> split_once (str "CREATE TABLE") (columns ++ str ") STRICT") = None ->
  as_strict table (str "CREATE TABLE " ++ table ++ columns ++ str ")" ++ tail) =
  str "CREATE TABLE " ++ [DQUOTE] ++ tmp_table table ++ [DQUOTE] ++ columns ++ str ") STRICT".
Proof.
  intros Hn Ht Hw Hc. unfold as_strict. rewrite !app_assoc, <- (app_assoc _ (str ")") tail), replace_tail by done.
  rewrite <- !app_assoc. pose proof (head_matches table (columns ++ str ") STRICT") Hn Hw) as E.
  unfold regex_replace. change (str "CREATE TABLE ") with (67 :: str "REATE TABLE ") in E at 1 |- * at 1.
  rewrite app_assoc in E |- *. cbn [app] in E |- *. rewrite (replace_matched _ _ _ _ _ _ E), replace_elsewhere by done.
  cbn [app]. rewrite <- !app_assoc. reflexivity.
Qed.

End Engine.

(** A quoted name is not replaced: no word boundary lies between the closing quote and
    the space or parenthesis after it.  The statement is then the original one, and
    the table it would create exists already. *)
Example quoted_name_is_kept high_word high_space :
  as_strict high_word high_space (str "t") (str "CREATE TABLE " ++ [DQUOTE] ++ str "t" ++ [DQUOTE] ++ str " (n INTEGER)") =
  str "CREATE TABLE " ++ [DQUOTE] ++ str "t" ++ [DQUOTE] ++ str " (n INTEGER) STRICT".
Proof. vm_compute. reflexivity. Qed.

(** After [WITHOUT ROWID] no STRICT is added: the copy is made, and is no STRICT table. *)
Example without_rowid_is_not_strict high_word high_space :
  as_strict high_word high_space (str "t") (str "CREATE TABLE t (n INTEGER PRIMARY KEY) WITHOUT ROWID") =
  str "CREATE TABLE " ++ [DQUOTE] ++ str "t_xqlite_strict_rebuild" ++ [DQUOTE] ++ str " (n INTEGER PRIMARY KEY) WITHOUT ROWID".
Proof. vm_compute. reflexivity. Qed.
