(* ===== verification/StrictTable.v ===== *)
(** * STRICT tables: [check_strict_violations] and [enable_strict_table] of [lib/xqlite.ex]

    The one operation of the Elixir library that runs a transaction of its own: a
    sequence of NIF calls, each of which may fail.  What SQLite's transactions do is
    the class [TxnLaws] (content and, inside a transaction, the content it began
    with).  The CREATE statement is rewritten by the regular expressions of [Regex]. *)

From S2P Require Import Prelude RustStr Sqlite Terms Heap ConstraintParse Error Util HookList Hooks ProgressDispatch Connection Query Statements Nif Elixir Regex.

Section Strict.
  Context `{Beam} `{RusqliteText} {Db : Type} `{RusqliteConn Db}.
  Context (downcase_table : case_table).                    (* [String.downcase/1] *)
  Context (high_word high_space : Z -> bool).               (* PCRE's table above ASCII *)
  Local Notation strict_text := (as_strict high_word high_space).

Definition exec (sql : bytes) : nif Db unit := fun h =>
  let '(r, h) := execute h sql (TList []) in
  (Some match r with Ok _ => Ok tt | Err e => Err (encode e) end, h).

(** ["\"#{name}\""] *)
Definition in_quotes (name : bytes) : bytes := [DQUOTE] ++ name ++ [DQUOTE].

Inductive strict_type := SInteger | SReal | SText | SBlob | SAny.
#[export] Instance strict_type_eq_dec : EqDecision strict_type.
Proof. solve_decision. Defined.

Definition parse_column_type (type : term) : strict_type :=
  match type with
  | TBin b =>
      let lower := to_lowercase downcase_table b in
      if bytes_eqb lower (str "integer") || bytes_eqb lower (str "int") then SInteger
      else if bytes_eqb lower (str "real") then SReal
      else if bytes_eqb lower (str "text") then SText
      else if bytes_eqb lower (str "blob") then SBlob
      else SAny
  | _ => SAny
  end.

Definition strict_allowed_types (t : strict_type) : list string :=
  match t with
  | SInteger => ["integer"; "null"]
  | SReal => ["real"; "integer"; "null"]
  | SText => ["text"; "integer"; "real"; "null"]
  | SBlob => ["blob"; "null"]
  | SAny => ["integer"; "real"; "text"; "blob"; "null"]
  end%string.

Definition upcased (t : strict_type) : bytes :=
  match t with
  | SInteger => str "INTEGER" | SReal => str "REAL" | SText => str "TEXT" | SBlob => str "BLOB" | SAny => str "ANY"
  end.

(** [fn [_cid, name, type | _rest] -> ..]: any other row raises. *)
Definition typed_column (row : list term) : option (term * strict_type) :=
  match row with
  | _ :: name :: type :: _ => Some (name, parse_column_type type)
  | _ => None
  end.

Definition no_such_table (table : bytes) : term := TTuple [TAtom "no_such_table"; TBin table].

Definition get_typed_columns (table : bytes) : nif Db (list (term * strict_type)) :=
  let@ rows := nif_query (str "PRAGMA table_info(" ++ in_quotes table ++ str ")") [] in
  match rows with
  | [] => reply (Some (Err (no_such_table table)))
  | _ => reply (option_map (fun cs => Ok (filter (fun c => c.2 <> SAny) cs)) (mapM typed_column rows))
  end.

(** One SELECT per column (a column name is always text). *)
Definition violation_query (table : bytes) (c : term * strict_type) : option bytes :=
  match c.1 with
  | TBin col_name =>
      let type_list := join (str ", ") (map (fun t => [QUOTE] ++ str t ++ [QUOTE]) (strict_allowed_types c.2)) in
      Some (str "SELECT rowid, '" ++ col_name ++ str "' AS col, typeof(" ++ in_quotes col_name ++
            str ") AS actual_type, " ++ [QUOTE] ++ upcased c.2 ++ str "' AS expected_type FROM " ++ in_quotes table ++
            str " WHERE typeof(" ++ in_quotes col_name ++ str ") NOT IN (" ++ type_list ++ str ")")
  | _ => None
  end.

Definition violation (row : list term) : option term :=
  match row with
  | [rowid; col; actual; expected] =>
      Some (TMap [(TAtom "rowid", rowid); (TAtom "column", col); (TAtom "actual_type", actual);
                  (TAtom "expected_type", expected)])
  | _ => None
  end.

Definition check_strict_violations (table : bytes) : nif Db (list term) :=
  let@ columns := get_typed_columns table in
  match mapM (violation_query table) columns with
  | None => reply None
  | Some [] => reply (Some (Ok []))
  | Some queries =>
      let@ rows := nif_query (join (str " UNION ALL ") queries) [] in
      reply (option_map Ok (mapM violation rows))
  end.

Definition reject_violations (violations : list term) : result unit term :=
  match violations with
  | [] => Ok tt
  | _ => Err (TTuple [TAtom "strict_violations"; TList violations])
  end.

Definition TABLE_SQL : bytes := str "SELECT sql FROM sqlite_master WHERE type='table' AND name=?".
Definition INDEX_SQL : bytes :=
  str "SELECT sql FROM sqlite_master WHERE type='index' AND tbl_name=? AND sql IS NOT NULL".

Definition table_create_sql (table : bytes) : nif Db term :=
  let@ rows := nif_query TABLE_SQL [TBin table] in
  match rows with
  | [[create_sql]] => reply (Some (Ok create_sql))
  | [] => reply (Some (Err (no_such_table table)))
  | _ => reply None
  end.

Definition get_index_sqls (table : bytes) : nif Db (list term) :=
  let@ rows := nif_query INDEX_SQL [TBin table] in
  reply (option_map Ok (mapM (fun row => match row with [s] => Some s | _ => None end) rows)).

Fixpoint recreate_indexes (sqls : list term) : nif Db unit :=
  match sqls with
  | [] => reply (Some (Ok tt))
  | TBin sql :: rest => let@ _ := exec sql in recreate_indexes rest
  | _ :: _ => reply None
  end.

(** The clauses of the [with], in order: those of the transaction, and the first one. *)
Definition rebuild_txn (table strict_sql : bytes) (index_sqls : list term) : nif Db unit :=
  let@ _ := exec (str "BEGIN IMMEDIATE") in
  let@ _ := exec strict_sql in
  let@ _ := exec (str "INSERT INTO " ++ in_quotes (tmp_table table) ++ str " SELECT * FROM " ++ in_quotes table) in
  let@ _ := exec (str "DROP TABLE " ++ in_quotes table) in
  let@ _ := exec (str "ALTER TABLE " ++ in_quotes (tmp_table table) ++ str " RENAME TO " ++ in_quotes table) in
  let@ _ := recreate_indexes index_sqls in
  exec (str "COMMIT").

Definition rebuild_steps (table strict_sql : bytes) : nif Db unit :=
  let@ index_sqls := get_index_sqls table in
  rebuild_txn table strict_sql index_sqls.

(** [else {:error, _} = err -> exec(conn, "ROLLBACK"); err] *)
Definition rebuild_as_strict (table : bytes) (original_create_sql : term) : nif Db unit :=
  match original_create_sql with
  | TBin sql => fun h =>
      match rebuild_steps table (strict_text table sql) h with
      | (Some (Err reason), h) => let '(_, h) := exec (str "ROLLBACK") h in (Some (Err reason), h)
      | other => other
      end
  | _ => reply None
  end.

Definition enable_strict_table (table : bytes) : nif Db unit :=
  let@ violations := check_strict_violations table in
  let@ _ := reply (Some (reject_violations violations)) in
  let@ create_sql := table_create_sql table in
  rebuild_as_strict table create_sql.

(** ** A rebuild that succeeds *)

(** The statements ran, one after the other, and none failed. *)
Inductive ran_all : list bytes -> Db -> Db -> Prop :=
| ran_none db : ran_all [] db db
| ran_one sql sqls db db1 db2 db' names n :
    conn_prepare sql db = (Ok names, db1) -> stmt_execute sql PNone db1 = (Ok n, db2) -> ran_all sqls db2 db' ->
    ran_all (sql :: sqls) db db'.

Definition rebuild_script (table strict_sql : bytes) (index_sqls : list bytes) : list bytes :=
  [str "BEGIN IMMEDIATE"; strict_sql;
   str "INSERT INTO " ++ in_quotes (tmp_table table) ++ str " SELECT * FROM " ++ in_quotes table;
   str "DROP TABLE " ++ in_quotes table;
   str "ALTER TABLE " ++ in_quotes (tmp_table table) ++ str " RENAME TO " ++ in_quotes table] ++
  index_sqls ++ [str "COMMIT"].

(** [m] answers [:ok] from [h] to [h'] only by running [sqls]. *)
Definition performs (m : nif Db unit) (sqls : list bytes) : Prop := forall h h',
  m h = (Some (Ok tt), h') -> exists db db', conn_opt h = Some db /\ conn_opt h' = Some db' /\ ran_all sqls db db'.

Lemma ran_all_app a b db db1 db' : ran_all a db db1 -> ran_all b db1 db' -> ran_all (a ++ b) db db'.
Proof. induction 1; [done|]. intros Hb. econstructor; eauto. Qed.

Lemma performs_exec sql : performs (exec sql) [sql].
Proof.
  intros h h'. unfold exec, execute, with_conn. destruct (poison h); [done|]. destruct (conn_opt h) as [db|]; [|done].
  unfold core_execute, bind, lift, rq. destruct (reject_interior_nul sql); [|done].
  destruct (conn_prepare sql db) as [[names|e] db1] eqn:Ep; [|done]. cbn [map_err decode_params get_type is_empty_list].
  destruct (stmt_execute sql PNone db1) as [[n|e] db2] eqn:Es; [|done]. cbn [map_err]. intros E. injection E as <-.
  exists db, db2. split_and!; [done|done|]. econstructor; [exact Ep|exact Es|constructor].
Qed.

Lemma performs_seq (m : nif Db unit) (k : unit -> nif Db unit) a b : performs m a -> performs (k tt) b ->
  performs (with_ok m k) (a ++ b).
Proof.
  intros Hm Hk h h' ([] & h1 & E1 & E2)%with_ok_inv. destruct (Hm _ _ E1) as (db & db1 & Hc & Hc1 & Hr1).
  destruct (Hk _ _ E2) as (db1' & db' & Hc1' & Hc' & Hr2). assert (db1' = db1) as -> by congruence.
  exists db, db'. split_and!; [done|done|]. by eapply ran_all_app.
Qed.

Lemma performs_recreate sqls (k : unit -> nif Db unit) rest : performs (k tt) rest ->
  performs (with_ok (recreate_indexes (map TBin sqls)) k) (sqls ++ rest).
Proof.
  intros Hk. induction sqls as [|sql sqls IH]; [exact Hk|].
  intros h h' ([] & h2 & E & E3)%with_ok_inv. cbn [map recreate_indexes] in E.
  apply with_ok_inv in E as (u & h1 & E1 & E2). change (recreate_indexes (map TBin sqls) h1 = (Some (Ok tt), h2)) in E2.
  apply (performs_seq (exec sql) (fun _ => with_ok (recreate_indexes (map TBin sqls)) k) [sql] (sqls ++ rest)
    (performs_exec sql) IH). unfold with_ok. destruct u. by rewrite E1, E2.
Qed.

Lemma recreated_texts ts h h' : recreate_indexes ts h = (Some (Ok tt), h') -> exists sqls, ts = map TBin sqls.
Proof.
  revert h. induction ts as [|t ts IH]; intros h; [by exists []|]. destruct t; try done. cbn [recreate_indexes].
  intros (u & h1 & _ & E)%with_ok_inv. destruct (IH _ E) as [sqls ->]. by exists (b :: sqls).
Qed.

Lemma performs_rebuild table strict_sql sqls :
  performs (rebuild_txn table strict_sql (map TBin sqls)) (rebuild_script table strict_sql sqls).
Proof.
  unfold rebuild_txn, rebuild_script. cbn [app].
  repeat (refine (performs_seq _ _ [_] _ (performs_exec _) _)). apply performs_recreate, performs_exec.
Qed.

(** What the statement stored in the schema becomes: for a table made under a bare
    name, the same columns under the temporary name, STRICT whether it was or not. *)
Definition rewritten (table sql strict_sql : bytes) : Prop :=
  strict_sql = strict_text table sql /\
  forall columns tail, sql = str "CREATE TABLE " ++ table ++ columns ++ str ")" ++ tail ->
    bare_name high_word table -> strict_suffix high_space tail -> is_word high_word (hd_error (columns ++ str ")")) = false ->
    split_once (str "CREATE TABLE") (columns ++ str ") STRICT") = None ->
    strict_sql = str "CREATE TABLE " ++ in_quotes (tmp_table table) ++ columns ++ str ") STRICT".

Lemma as_strict_rewritten table sql : rewritten table sql (strict_text table sql).
Proof.
  split; [done|]. intros columns tail -> Hn Ht Hw Hc. rewrite as_strict_rewrites; [|done..|by destruct columns|done].
  unfold in_quotes. by rewrite <- !app_assoc.
Qed.

(** The statements of a rebuild that answered [:ok], and where their texts come from. *)
Definition rebuilt_from (table : bytes) (h h' : XqliteConn Db) : Prop :=
  exists h0 h1 h2 sql strict_sql indexes db1 db', rewritten table sql strict_sql /\
    check_strict_violations table h = (Some (Ok []), h0) /\ table_create_sql table h0 = (Some (Ok (TBin sql)), h1) /\
    get_index_sqls table h1 = (Some (Ok (map TBin indexes)), h2) /\ conn_opt h2 = Some db1 /\ conn_opt h' = Some db' /\
    ran_all (rebuild_script table strict_sql indexes) db1 db'.

Lemma enable_performs table h h' : enable_strict_table table h = (Some (Ok tt), h') -> rebuilt_from table h h'.
Proof.
  intros (vs & h0 & E1 & E)%with_ok_inv. apply with_ok_inv in E as (u & h0' & E0 & E). unfold reply in E0.
  destruct vs as [|v vs]; [|done]. destruct u. injection E0 as <-. apply with_ok_inv in E as (t & h1 & E2 & E).
  destruct t as [ | | | sql | | | | | | | | | | ]; try done. unfold rebuild_as_strict in E.
  destruct (rebuild_steps table (strict_text table sql) h1) as [[[[]|e]|] hx] eqn:Er; [| |done];
    [|by destruct (exec (str "ROLLBACK") hx)]. injection E as ->.
  apply with_ok_inv in Er as (ts & h2 & E3 & E).
  assert (Ht : exists indexes, ts = map TBin indexes).
  { unfold rebuild_txn in E. do 5 apply with_ok_inv in E as (? & ? & _ & E). apply with_ok_inv in E as ([] & ? & E & _).
    by eapply recreated_texts. }
  destruct Ht as [indexes ->]. destruct (performs_rebuild _ _ _ _ _ E) as (db1 & db' & Hc & Hc' & Hr).
  exists h0, h1, h2, sql, (strict_text table sql), indexes, db1, db'. split; [apply as_strict_rewritten|]. by split_and!.
Qed.

(** ** Transactions *)

(** What the connection sees, and inside a transaction what it began with. *)
Context {C : Type} (content : Db -> C) (begun : Db -> option C).
(** Statements that only read, and statements that are no transaction control. *)
Context (read_only ordinary : bytes -> Prop).

Definition txn (db : Db) : C * option C := (content db, begun db).

(** After a failed statement the transaction is still open, or SQLite has rolled it back. *)
Definition open_or_undone (c : C) (s : C * option C) : Prop := s.2 = Some c \/ s = (c, None).

(** A row of the schema query. *)
Definition created_row (r : result row RusqliteError) : Prop :=
  match r with Ok r => exists s, r 0%nat = Ok (VText s) /\ starts_with (str "CREATE ") s = true | Err _ => True end.

Class TxnLaws : Prop := {
  prepare_txn sql db : txn (conn_prepare sql db).2 = txn db;
  query_txn sql ps db : read_only sql -> txn (stmt_query sql ps db).2 = txn db;
  begin_txn db : let '(r, db') := stmt_execute (str "BEGIN IMMEDIATE") PNone db in
    match begun db, r with
    | None, Ok _ => txn db' = (content db, Some (content db))
    | Some _, Ok _ => False
    | _, Err _ => txn db' = txn db
    end;
  commit_txn db c : begun db = Some c ->
    let '(r, db') := stmt_execute (str "COMMIT") PNone db in
    match r with Ok _ => txn db' = (content db, None) | Err _ => open_or_undone c (txn db') end;
  rollback_txn db : txn (stmt_execute (str "ROLLBACK") PNone db).2 =
    match begun db with Some c => (c, None) | None => txn db end;
  rollback_prepares db : exists names, (conn_prepare (str "ROLLBACK") db).1 = Ok names;
  ordinary_txn sql db c : ordinary sql -> begun db = Some c ->
    let '(r, db') := stmt_execute sql PNone db in
    match r with Ok _ => begun db' = Some c | Err _ => open_or_undone c (txn db') end;
  (** [sqlite_master.sql] is the text of a CREATE statement, which controls no transaction *)
  create_ordinary sql : starts_with (str "CREATE ") sql = true -> ordinary sql;
  table_sql_names db : forall names, (conn_prepare TABLE_SQL db).1 = Ok names -> length names = 1%nat;
  table_sql_rows ps db : forall rows, (stmt_query TABLE_SQL ps db).1 = Ok rows -> Forall created_row rows;
  index_sql_names db : forall names, (conn_prepare INDEX_SQL db).1 = Ok names -> length names = 1%nat;
  index_sql_rows ps db : forall rows, (stmt_query INDEX_SQL ps db).1 = Ok rows ->
    Forall created_row rows;
}.

(** The texts a rebuild of [table] runs. *)
Record rebuildable (table : bytes) : Prop := {
  name_literal : regex_literal table = true;
  info_reads : read_only (str "PRAGMA table_info(" ++ in_quotes table ++ str ")");
  checks_read cs qs : mapM (violation_query table) cs = Some qs -> read_only (join (str " UNION ALL ") qs);
  table_sql_reads : read_only TABLE_SQL;
  index_sql_reads : read_only INDEX_SQL;
  copy_ordinary : ordinary (str "INSERT INTO " ++ in_quotes (tmp_table table) ++ str " SELECT * FROM " ++ in_quotes table);
  drop_ordinary : ordinary (str "DROP TABLE " ++ in_quotes table);
  rename_ordinary :
    ordinary (str "ALTER TABLE " ++ in_quotes (tmp_table table) ++ str " RENAME TO " ++ in_quotes table);
}.

(** ** Calls as transformations of the transaction state *)

Definition runs {A} (m : nif Db A) (P : C * option C -> Prop) (Q : outcome A -> C * option C -> Prop) : Prop :=
  forall h db, poison h = None -> conn_opt h = Some db -> P (txn db) ->
    exists db', (m h).2 = set_conn h (Some db') /\ Q (m h).1 (txn db').

Lemma runs_with {A B} (m : nif Db A) (k : A -> nif Db B) P Q R : runs m P Q ->
  (forall a, runs (k a) (Q (Some (Ok a))) R) ->
  (forall reason s, Q (Some (Err reason)) s -> R (Some (Err reason)) s) -> (forall s, Q None s -> R None s) ->
  runs (with_ok m k) P R.
Proof.
  intros Hm Hk He Hn h db Hp Hc HP. destruct (Hm h db Hp Hc HP) as (db1 & E & HQ). unfold with_ok.
  destruct (m h) as [[[a|reason]|] h1]; cbn [fst snd] in *; subst h1; [|exists db1; eauto..].
  by destruct (Hk a (set_conn h (Some db1)) db1 Hp eq_refl HQ) as (db2 & -> & HR); exists db2.
Qed.

Lemma runs_reply {A} (r : outcome A) (P : C * option C -> Prop) (Q : outcome A -> C * option C -> Prop) :
  (forall s, P s -> Q r s) -> runs (reply r) P Q.
Proof.
  intros HQ h db Hp Hc HP. exists db. split; [|by apply HQ]. destruct h as [po co ex]. cbn in *. by subst.
Qed.

Lemma runs_weaken {A} (m : nif Db A) (P P' : C * option C -> Prop) (Q Q' : outcome A -> C * option C -> Prop) :
  runs m P Q -> (forall s, P' s -> P s) -> (forall r s, Q r s -> Q' r s) -> runs m P' Q'.
Proof. intros Hm HP HQ h db Hp Hc Hpre. destruct (Hm h db Hp Hc (HP _ Hpre)) as (db' & E & Hr). exists db'. auto. Qed.

Context {laws : TxnLaws}.

Lemma runs_query sql ps s0 : read_only sql ->
  runs (nif_query sql ps) (eq s0) (fun r s => s = s0 /\ exists x, r = Some x).
Proof.
  intros Hr h db Hp Hc ->. unfold nif_query, query, with_conn. rewrite Hp, Hc.
  assert (Hq : txn (core_query sql (TList ps) db).2 = txn db).
  { unfold core_query, bind, lift, rq, ret. destruct (reject_interior_nul sql); [|done].
    pose proof (prepare_txn sql db) as Ht. destruct (conn_prepare sql db) as [[names|e] db1]; cbn [fst snd map_err] in *; [|done].
    destruct (decode_params (TList ps)) as [p|]; [|done]. pose proof (query_txn sql p db1 Hr) as Ht2.
    destruct (stmt_query sql p db1) as [[rs|e] db2]; cbn [fst snd map_err] in *; [|congruence].
    destruct (process_rows rs _ _); cbn [snd]; congruence. }
  destruct (core_query sql (TList ps) db) as [r db']. exists db'. cbn [fst snd] in *. eauto.
Qed.

(** [exec] fails before the statement runs, or answers what running it answers. *)
Lemma runs_exec sql (P : C * option C -> Prop) (Q : outcome unit -> C * option C -> Prop) :
  (forall db, P (txn db) -> forall reason, Q (Some (Err reason)) (txn db)) ->
  (forall db, P (txn db) -> match stmt_execute sql PNone db with
                            | (Ok _, db') => Q (Some (Ok tt)) (txn db')
                            | (Err _, db') => forall reason, Q (Some (Err reason)) (txn db')
                            end) ->
  runs (exec sql) P Q.
Proof.
  intros Hbefore Hrun h db Hp Hc HP. unfold exec, execute, with_conn. rewrite Hp, Hc.
  unfold core_execute, bind, lift, rq. destruct (reject_interior_nul sql) as [u|e]; [|exists db; cbn [fst snd]; eauto].
  pose proof (prepare_txn sql db) as Ht. destruct (conn_prepare sql db) as [[names|e] db1]; cbn [map_err] in *;
    [|exists db1; cbn [fst snd] in *; rewrite Ht; eauto].
  cbn [decode_params get_type is_empty_list]. cbn [snd] in Ht. rewrite <- Ht in HP. specialize (Hrun db1 HP).
  destruct (stmt_execute sql PNone db1) as [[n|e] db2]; exists db2; cbn [fst snd map_err]; eauto.
Qed.

Lemma runs_begin c : runs (exec (str "BEGIN IMMEDIATE")) (eq (c, None))
  (fun r s => match r with Some (Ok _) => s = (c, Some c) | Some (Err _) => s = (c, None) | None => False end).
Proof.
  apply runs_exec; [by intros db <- reason|]. intros db E. pose proof (begin_txn db) as Hb. unfold txn in E.
  injection E as Ec Eb. rewrite <- Eb in Hb. destruct (stmt_execute _ PNone db) as [[n|e] db'].
  - by rewrite Hb, Ec.
  - intros reason. rewrite Hb. unfold txn. congruence.
Qed.

(** Inside a transaction a second BEGIN is refused. *)
Lemma runs_begin_nested c c0 : runs (exec (str "BEGIN IMMEDIATE")) (eq (c, Some c0))
  (fun r s => match r with Some (Err _) => s = (c, Some c0) | _ => False end).
Proof.
  apply runs_exec; [by intros db <- reason|]. intros db E. pose proof (begin_txn db) as Hb. unfold txn in E.
  injection E as Ec Eb. rewrite <- Eb in Hb. destruct (stmt_execute _ PNone db) as [[n|e] db']; [done|].
  intros reason. rewrite Hb. unfold txn. congruence.
Qed.

(** A step of a transaction that began with [c]. *)
Definition in_txn (c : C) (r : outcome unit) (s : C * option C) : Prop :=
  match r with Some (Ok _) => s.2 = Some c | Some (Err _) => open_or_undone c s | None => False end.

Lemma runs_ordinary c sql : ordinary sql -> runs (exec sql) (fun s => s.2 = Some c) (in_txn c).
Proof.
  intros Ho. apply runs_exec; [intros db E reason; by left|]. intros db E.
  pose proof (ordinary_txn sql db c Ho E) as Hx. by destruct (stmt_execute sql PNone db) as [[n|e] db'].
Qed.

Lemma runs_commit c : runs (exec (str "COMMIT")) (fun s => s.2 = Some c)
  (fun r s => match r with Some (Ok _) => s.2 = None | Some (Err _) => open_or_undone c s | None => False end).
Proof.
  apply runs_exec; [intros db E reason; by left|]. intros db E. pose proof (commit_txn db c E) as Hx.
  destruct (stmt_execute _ PNone db) as [[n|e] db']; [by rewrite Hx|done].
Qed.

Lemma run_rollback c h db : poison h = None -> conn_opt h = Some db -> open_or_undone c (txn db) ->
  exists db', (exec (str "ROLLBACK") h).2 = set_conn h (Some db') /\ txn db' = (c, None).
Proof.
  intros Hp Hc Ho. unfold exec, execute, with_conn. rewrite Hp, Hc. unfold core_execute, bind, lift, rq.
  replace (reject_interior_nul (str "ROLLBACK")) with (Ok tt : result unit XqliteError) by reflexivity.
  pose proof (prepare_txn (str "ROLLBACK") db) as Ht. destruct (rollback_prepares db) as [names Hn].
  destruct (conn_prepare (str "ROLLBACK") db) as [x db1]. cbn [fst] in Hn. subst x. cbn [snd map_err] in *.
  cbn [decode_params get_type is_empty_list]. pose proof (rollback_txn db1) as Hr.
  destruct (stmt_execute (str "ROLLBACK") PNone db1) as [r db2]. cbn [snd] in Hr. exists db2. split; [by destruct r|].
  rewrite <- Ht in Ho. rewrite Hr. destruct Ho as [Ho|Ho]; unfold txn in *; cbn in Ho.
  - by rewrite Ho.
  - injection Ho as Ho1 Ho2. rewrite Ho2. congruence.
Qed.

(** What a schema query gives is CREATE statements. *)
Definition schema_query (sql : bytes) : Prop :=
  (forall db names, (conn_prepare sql db).1 = Ok names -> length names = 1%nat) /\
  (forall ps db rows, (stmt_query sql ps db).1 = Ok rows -> Forall created_row rows).

Lemma table_sql_schema : schema_query TABLE_SQL.
Proof. split; intros; [by eapply table_sql_names|by eapply table_sql_rows]. Qed.

Lemma index_sql_schema : schema_query INDEX_SQL.
Proof. split; intros; [by eapply index_sql_names|by eapply index_sql_rows]. Qed.

Definition created (t : term) : Prop := exists sql, t = TBin sql /\ starts_with (str "CREATE ") sql = true.

Lemma schema_rows_texts sql h db q h' table : schema_query sql ->
  query h sql (TList [TBin table]) = (Ok q, h') -> conn_opt h = Some db ->
  Forall (fun row => exists t, row = [t] /\ created t) (rows q).
Proof.
  intros [Hn Hr]. unfold query, with_conn. intros E Hc. destruct (poison h); [done|]. rewrite Hc in E.
  destruct (core_query _ _ db) as [r dbx] eqn:Eq. injection E as -> _. unfold core_query, bind, lift, rq, ret in Eq.
  destruct (reject_interior_nul sql); [|done].
  specialize (Hn db). destruct (conn_prepare sql db) as [[names|e] db1]; cbn [map_err] in *; [|done].
  destruct (decode_params _) as [p|]; [|done]. specialize (Hr p db1).
  destruct (stmt_query sql p db1) as [[rs|e] db2]; cbn [map_err] in *; [|done].
  destruct (process_rows rs (length names) []) as [out|] eqn:Ep; [|done]. injection Eq as <- _. cbn [rows].
  specialize (Hr rs eq_refl). rewrite (Hn names eq_refl) in Ep. apply process_rows_shape in Ep as (_ & _ & Hs).
  clear - Hr Hs. induction Hs as [|r row rs out (x & -> & Hx) _ IH]; [constructor|].
  apply Forall_cons_1 in Hr as [Hr Hrs]. constructor; [|by apply IH]. destruct Hr as (s & Hs & Ho).
  unfold encode_row in Hx. cbn in Hx. rewrite Hs in Hx. cbn in Hx. unfold encode_text in Hx.
  destruct (owned_binary_ok _); [|done]. injection Hx as <-. exists (TBin s). split; [done|]. by exists s.
Qed.

Lemma runs_index_sqls table s0 : read_only INDEX_SQL ->
  runs (get_index_sqls table) (eq s0) (fun r s => s = s0 /\
    match r with Some (Ok sqls) => Forall created sqls | Some (Err _) => True | None => False end).
Proof.
  intros Hr h db Hp Hc Hs. destruct (runs_query INDEX_SQL [TBin table] s0 Hr h db Hp Hc Hs) as (db' & E & Es & _).
  exists db'. unfold get_index_sqls, with_ok, nif_query in *.
  destruct (query h INDEX_SQL (TList [TBin table])) as [[q|e] h'] eqn:Eq; cbn [fst snd] in *; [|done].
  pose proof (schema_rows_texts _ h db q h' table index_sql_schema Eq Hc) as Ht. split; [done|]. split; [done|].
  assert (Hm : exists sqls, mapM (fun row : list term => match row with [s] => Some s | _ => None end) (rows q) = Some sqls /\
    Forall created sqls).
  { clear - Ht. induction Ht as [|row rs (t & -> & Ho) _ (sqls & Hm & HF)]; [by exists []|].
    exists (t :: sqls). cbn. rewrite Hm. split; [done|]. by constructor. }
  destruct Hm as (sqls & Hm & HF). cbn. by rewrite Hm.
Qed.

Lemma runs_create_sql table s0 : read_only TABLE_SQL ->
  runs (table_create_sql table) (eq s0) (fun r s => s = s0 /\ match r with Some (Ok t) => created t | _ => True end).
Proof.
  intros Hr h db Hp Hc Hs. destruct (runs_query TABLE_SQL [TBin table] s0 Hr h db Hp Hc Hs) as (db' & E & Es & _).
  exists db'. unfold table_create_sql, with_ok, nif_query in *.
  destruct (query h TABLE_SQL (TList [TBin table])) as [[q|e] h'] eqn:Eq; cbn [fst snd] in *; [|done].
  pose proof (schema_rows_texts _ h db q h' table table_sql_schema Eq Hc) as Ht.
  destruct (rows q) as [|[|t []] []]; try done. apply Forall_cons_1 in Ht as [(t' & [= <-] & Hx) _]. done.
Qed.

Lemma runs_recreate c sqls : Forall created sqls -> runs (recreate_indexes sqls) (fun s => s.2 = Some c) (in_txn c).
Proof.
  induction 1 as [|t sqls (sql & -> & Ho) _ IH]; [by apply runs_reply|]. cbn [recreate_indexes].
  apply (runs_with _ _ _ (in_txn c)); [by apply runs_ordinary, create_ordinary| |done|done]. intros u. exact IH.
Qed.

(** The state a failed rebuild leaves, before its ROLLBACK. *)
Definition rebuilt (c : C) (r : outcome unit) (s : C * option C) : Prop :=
  match r with Some (Ok _) => s.2 = None | Some (Err _) => open_or_undone c s | None => False end.

Lemma runs_in_txn {A} (m : nif Db unit) (k : unit -> nif Db A) c R : runs m (fun s => s.2 = Some c) (in_txn c) ->
  runs (k tt) (fun s => s.2 = Some c) R -> (forall reason s, open_or_undone c s -> R (Some (Err reason)) s) ->
  runs (with_ok m k) (fun s => s.2 = Some c) R.
Proof. intros Hm Hk HR. apply (runs_with m k _ (in_txn c)); [done|by intros []|done|done]. Qed.

Lemma runs_rebuild_txn c table sql sqls : rebuildable table -> starts_with (str "CREATE ") sql = true -> Forall created sqls ->
  runs (rebuild_txn table (strict_text table sql) sqls) (eq (c, None)) (rebuilt c).
Proof.
  intros Hr Hs HF. unfold rebuild_txn. pose proof (create_ordinary _ (as_strict_creates high_word high_space table sql Hs)) as Ho. eapply runs_with; [apply runs_begin| | |done]; [|intros reason s ->; by right].
  intros u. eapply (runs_weaken _ (fun s => s.2 = Some c)); [|by intros s ->|by intros r s Hx; exact Hx].
  repeat (apply runs_in_txn; [by first [apply runs_ordinary; first [exact Ho|apply Hr]|apply runs_recreate]| |done]). apply runs_commit.
Qed.

Lemma runs_rebuild c table sql : rebuildable table -> starts_with (str "CREATE ") sql = true ->
  runs (rebuild_steps table (strict_text table sql)) (eq (c, None)) (rebuilt c).
Proof.
  intros Hr Hs. unfold rebuild_steps. eapply runs_with; [apply runs_index_sqls, (index_sql_reads _ Hr)| | |].
  - intros sqls h db Hp Hc [E HF]. exact (runs_rebuild_txn c table sql sqls Hr Hs HF h db Hp Hc (eq_sym E)).
  - intros reason s [-> _]. by right.
  - by intros s [_ []].
Qed.

Lemma runs_nested_txn c c0 table strict_sql sqls : runs (rebuild_txn table strict_sql sqls) (eq (c, Some c0))
  (fun r s => match r with Some (Err _) => s = (c, Some c0) | _ => False end).
Proof.
  unfold rebuild_txn. eapply runs_with; [apply runs_begin_nested| |done|done]. by intros u h2 db2 _ _ [].
Qed.

(** ** The rebuild *)

Lemma rebuild_atomic c table t h db : rebuildable table -> created t -> poison h = None -> conn_opt h = Some db -> txn db = (c, None) ->
  exists db', (rebuild_as_strict table t h).2 = set_conn h (Some db') /\ begun db' = None /\
    match (rebuild_as_strict table t h).1 with Some (Ok _) => True | _ => content db' = c end.
Proof.
  intros Hr (b & -> & Hcr) Hp Hc E.
  unfold rebuild_as_strict. destruct (runs_rebuild c table b Hr Hcr h db Hp Hc (eq_sym E)) as (db1 & E1 & HQ).
  destruct (rebuild_steps table (strict_text table b) h) as [[[u|reason]|] h1]; cbn [fst snd] in *; subst h1; [by exists db1| |done].
  destruct (run_rollback c (set_conn h (Some db1)) db1 Hp eq_refl HQ) as (db2 & E2 & Hs).
  destruct (exec (str "ROLLBACK") (set_conn h (Some db1))) as [r2 h2]. cbn [fst snd] in *. subst h2. exists db2.
  unfold txn in Hs. injection Hs as Hs1 Hs2. by split_and!.
Qed.

Lemma rebuild_nested c c0 table sql h db : rebuildable table -> poison h = None -> conn_opt h = Some db ->
  txn db = (c, Some c0) -> exists reason db',
    rebuild_as_strict table (TBin sql) h = (Some (Err reason), set_conn h (Some db')) /\ txn db' = (c0, None).
Proof.
  intros Hr Hp Hc E. unfold rebuild_as_strict.
  assert (Hs : runs (rebuild_steps table (strict_text table sql)) (eq (c, Some c0))
    (fun r s => match r with Some (Err _) => s = (c, Some c0) | _ => False end)).
  { unfold rebuild_steps. eapply runs_with; [apply runs_index_sqls, (index_sql_reads _ Hr)| | |].
    - intros sqls h' db' Hp' Hc' [E' _].
      exact (runs_nested_txn c c0 table (strict_text table sql) sqls h' db' Hp' Hc' (eq_sym E')).
    - by intros reason s [-> _].
    - by intros s [_ []]. }
  destruct (Hs h db Hp Hc (eq_sym E)) as (db1 & E1 & HQ).
  destruct (rebuild_steps table (strict_text table sql) h) as [[[u|reason]|] h1]; cbn [fst snd] in *; try done. subst h1.
  destruct (run_rollback c0 (set_conn h (Some db1)) db1 Hp eq_refl) as (db2 & E2 & Hs2); [left; by rewrite HQ|].
  destruct (exec (str "ROLLBACK") (set_conn h (Some db1))) as [r2 h2]. cbn [fst snd] in *. subst h2. by exists reason, db2.
Qed.

(** Calls that only read. *)
Definition keeps {A} (m : nif Db A) : Prop := forall s0, runs m (eq s0) (fun _ s => s = s0).

Lemma keeps_with {A B} (m : nif Db A) (k : A -> nif Db B) : keeps m -> (forall a, keeps (k a)) -> keeps (with_ok m k).
Proof.
  intros Hm Hk s0. eapply runs_with; [apply Hm| |done|done]. intros a h db Hp Hc E.
  exact (Hk a s0 h db Hp Hc (eq_sym E)).
Qed.

Lemma keeps_reply {A} (r : outcome A) : keeps (reply r).
Proof. intros s0. by apply runs_reply. Qed.

Lemma keeps_query sql ps : read_only sql -> keeps (nif_query sql ps).
Proof. intros Hr s0. eapply runs_weaken; [by apply runs_query|done|by intros r s [? _]]. Qed.

Lemma keeps_check table : rebuildable table -> keeps (check_strict_violations table).
Proof.
  intros Hr. unfold check_strict_violations. apply keeps_with.
  - unfold get_typed_columns. apply keeps_with; [apply keeps_query, Hr|]. intros [|r rs]; apply keeps_reply.
  - intros cs. destruct (mapM (violation_query table) cs) as [[|q qs]|] eqn:E; try apply keeps_reply.
    apply keeps_with; [|intros; apply keeps_reply]. by apply keeps_query, (checks_read _ Hr cs).
Qed.

Lemma keeps_create_sql table : rebuildable table -> keeps (table_create_sql table).
Proof.
  intros Hr. unfold table_create_sql. apply keeps_with; [apply keeps_query, Hr|].
  intros [|[|x []] []]; apply keeps_reply.
Qed.

Lemma enable_atomic c table h db : rebuildable table -> poison h = None -> conn_opt h = Some db -> txn db = (c, None) ->
  exists db', (enable_strict_table table h).2 = set_conn h (Some db') /\ begun db' = None /\
    match (enable_strict_table table h).1 with Some (Ok _) => True | _ => content db' = c end.
Proof.
  intros Hr Hp Hc E. unfold enable_strict_table.
  set (Q := fun (r : outcome unit) (s : C * option C) => s.2 = None /\ match r with Some (Ok _) => True | _ => s.1 = c end).
  assert (Hm : runs (with_ok (check_strict_violations table) (fun violations =>
    with_ok (reply (Some (reject_violations violations))) (fun _ =>
      with_ok (table_create_sql table) (rebuild_as_strict table)))) (eq (c, None)) Q).
  { assert (Hq : forall r : outcome unit, (forall u, r <> Some (Ok u)) -> forall s, s = (c, None) -> Q r s).
    { intros [[u|]|] Hn s ->; [by destruct (Hn u)|by split..]. }
    eapply runs_with; [by apply keeps_check| |by intros; apply Hq|by intros; apply Hq]. intros vs.
    eapply (runs_with _ _ _ (fun _ s => s = (c, None))); [by apply runs_reply| |by intros; apply Hq|by intros; apply Hq].
    intros u. eapply (runs_with _ _ _ (fun r s => s = (c, None) /\ match r with Some (Ok t) => created t | _ => True end)); [| |by intros reason s [-> _]; apply Hq|by intros s [-> _]; apply Hq].
    - intros h' db' Hp' Hc' E'. exact (runs_create_sql table (c, None) (table_sql_reads _ Hr) h' db' Hp' Hc' (eq_sym E')).
    - intros t h' db' Hp' Hc' [E' Hcr]. destruct (rebuild_atomic c table t h' db' Hr Hcr Hp' Hc' E') as (db2 & E2 & Hb & Hres).
      exists db2. by split_and!. }
  destruct (Hm h db Hp Hc (eq_sym E)) as (db' & E' & Hb & Hres). exists db'. by split_and!.
Qed.

End Strict.

(** ** Theorems *)

(** C14: [enable_strict_table], called outside a transaction for a table whose name has
    no regular-expression metacharacter, is all or nothing: it ends outside a
    transaction, whatever fails on the way (the checks, the rebuilt table, the copy,
    an index, the COMMIT, with or without SQLite's own rollback), and unless it answers
    [:ok] the database is what it was.  It answers [:ok] only when there were no
    violations and BEGIN, the CREATE text rewritten from the schema's, the copy, the
    drop, the rename, the table's own indexes and COMMIT ran in that order without an
    error; when the stored text is CREATE TABLE, a bare ASCII name, columns (without
    another CREATE TABLE in them) and at most STRICT after them, the rewritten text is
    the same columns under the temporary name, STRICT. *)
Theorem strict_rebuild_is_atomic `{Beam} `{RusqliteText} {Db} `{RusqliteConn Db} tbl high_word high_space {C} (content : Db -> C)
    (begun : Db -> option C) read_only ordinary `{!TxnLaws content begun read_only ordinary} table (h : XqliteConn Db) db :
  rebuildable read_only ordinary table -> poison h = None -> conn_opt h = Some db -> begun db = None ->
  let '(r, h') := enable_strict_table tbl high_word high_space table h in
  exists db', h' = set_conn h (Some db') /\ begun db' = None /\ (r <> Some (Ok tt) -> content db' = content db) /\
    (r = Some (Ok tt) -> rebuilt_from tbl high_word high_space table h h').
Proof.
  intros Hr Hp Hc Hb.
  destruct (enable_atomic tbl high_word high_space content begun read_only ordinary (content db) table h db Hr Hp Hc) as (db' & E & Hb' & Hres);
    [unfold txn; by rewrite Hb|].
  pose proof (enable_performs tbl high_word high_space table h) as Hok.
  destruct (enable_strict_table tbl high_word high_space table h) as [r h']. cbn [fst snd] in *. exists db'. split_and!; [done|done| |].
  - intros Hn. by destruct r as [[[]|]|].
  - intros ->. by apply Hok.
Qed.

(** Called inside a transaction, it ends that transaction and discards what the caller
    had done in it: BEGIN is refused, and the ROLLBACK that follows is the caller's. *)
Theorem strict_rebuild_discards_transaction `{Beam} `{RusqliteText} {Db} `{RusqliteConn Db} tbl high_word high_space {C}
    (content : Db -> C) (begun : Db -> option C) read_only ordinary `{!TxnLaws content begun read_only ordinary}
    table (h h1 h2 : XqliteConn Db) db c0 sql :
  rebuildable read_only ordinary table -> poison h = None -> conn_opt h = Some db -> begun db = Some c0 ->
  check_strict_violations tbl table h = (Some (Ok []), h1) ->
  table_create_sql table h1 = (Some (Ok (TBin sql)), h2) ->
  exists reason db', enable_strict_table tbl high_word high_space table h = (Some (Err reason), set_conn h (Some db')) /\
    content db' = c0 /\ begun db' = None.
Proof.
  intros Hr Hp Hc Hb E1 E2. unfold enable_strict_table, with_ok, reply. rewrite E1. cbn [reject_violations]. rewrite E2.
  assert (Hk : txn content begun db = (content db, Some c0)) by (unfold txn; by rewrite Hb).
  destruct (keeps_check tbl content begun read_only ordinary table Hr _ h db Hp Hc (eq_sym Hk)) as (db1 & Eh1 & Ht1).
  rewrite E1 in Eh1. cbn [snd] in Eh1. subst h1.
  destruct (keeps_create_sql content begun read_only ordinary table Hr _ (set_conn h (Some db1)) db1 Hp eq_refl (eq_sym Ht1))
    as (db2 & Eh2 & Ht2). rewrite E2 in Eh2. cbn [snd] in Eh2. subst h2.
  destruct (rebuild_nested high_word high_space content begun read_only ordinary (content db) c0 table sql (set_conn (set_conn h (Some db1)) (Some db2))
    db2 Hr Hp eq_refl) as (reason & db' & E & Hs); [exact Ht2|].
  exists reason, db'. split; [exact E|]. unfold txn in Hs. injection Hs as Hs1 Hs2. done.
Qed.

(** ** A database that records the statements it ran *)

Record journal := mkJournal { ran : list bytes; before : option (list bytes) }.

Definition control (sql : bytes) : bool :=
  bytes_eqb sql (str "BEGIN IMMEDIATE") || bytes_eqb sql (str "COMMIT") || bytes_eqb sql (str "ROLLBACK").

Definition refused : RusqliteError := R_SqliteFailure (ffi_new SQLITE_ERROR) None.
Definition ROGUE_INDEX : bytes := str "CREATE INDEX i ON t (missing)".

(** One table with an INTEGER column and an index that cannot be built again. *)
Definition journal_execute (sql : bytes) (db : journal) : result Z RusqliteError * journal :=
  if bytes_eqb sql (str "BEGIN IMMEDIATE") then
    match before db with None => (Ok 0, mkJournal (ran db) (Some (ran db))) | Some _ => (Err refused, db) end
  else if bytes_eqb sql (str "COMMIT") then
    match before db with Some _ => (Ok 0, mkJournal (ran db) None) | None => (Err refused, db) end
  else if bytes_eqb sql (str "ROLLBACK") then
    match before db with Some c => (Ok 0, mkJournal c None) | None => (Err refused, db) end
  else if bytes_eqb sql ROGUE_INDEX then (Err refused, db)
  else (Ok 1, mkJournal (ran db ++ [sql]) (before db)).

Definition only (v : Value) : row := fun _ => Ok v.
Definition one_column (sql : bytes) : bool := bytes_eqb sql TABLE_SQL || bytes_eqb sql INDEX_SQL.

Definition journal_rows (sql : bytes) : list (result row RusqliteError) :=
  if bytes_eqb sql TABLE_SQL then [Ok (only (VText (str "CREATE TABLE t (n INTEGER)")))]
  else if bytes_eqb sql INDEX_SQL then [Ok (only (VText ROGUE_INDEX))]
  else if starts_with (str "PRAGMA") sql then [Ok (fun i => Ok (match i with O => VInteger 0 | S O => VText (str "n") | _ => VText (str "INTEGER") end))]
  else [].

Definition journal_conn : RusqliteConn journal := {|
  conn_prepare sql db := (Ok (if one_column sql then [str "sql"] else [str "a"; str "b"; str "c"]), db);
  stmt_query sql _ db := (Ok (journal_rows sql), db);
  stmt_execute sql _ db := journal_execute sql db;
  conn_execute sql db := journal_execute sql db;
  conn_execute_batch _ db := (Ok tt, db);
  conn_query_value _ db := (Ok VNull, db);
  total_changes _ := 0;
  changes _ := 0;
|}.

Definition journal_ordinary (sql : bytes) : Prop := control sql = false.

#[export] Instance journal_laws : @TxnLaws journal journal_conn _ ran before (fun _ => True) journal_ordinary.
Proof.
  split; try done.
  - intros [l b]. by destruct b.
  - intros [l b] c E. cbn in E. by subst b.
  - intros [l b]. by destruct b.
  - intros db. eexists. reflexivity.
  - intros sql [l b] c Ho E. unfold journal_ordinary, control in Ho. cbn [before] in E. subst b.
    apply orb_false_iff in Ho as [[Hb Hc]%orb_false_iff Hr]. cbn [stmt_execute journal_conn]. unfold journal_execute.
    rewrite Hb, Hc, Hr. destruct (bytes_eqb sql ROGUE_INDEX); [by left|done].
  - intros sql [r ->]%starts_with_true. reflexivity.
  - intros db names E. cbn in E. injection E as <-. reflexivity.
  - intros ps db rows E. cbn [stmt_query journal_conn fst] in E. injection E as <-. constructor; [|constructor].
    exists (str "CREATE TABLE t (n INTEGER)"). split; reflexivity.
  - intros db names E. cbn in E. injection E as <-. reflexivity.
  - intros ps db rows E. cbn [stmt_query journal_conn fst] in E. injection E as <-. constructor; [|constructor].
    exists ROGUE_INDEX. split; reflexivity.
Qed.

(** An engine whose letters and white space are ASCII. *)
Definition ascii_only (_ : Z) : bool := false.

Definition journal_rebuildable : rebuildable (fun _ => True) journal_ordinary (str "t").
Proof. by split; vm_compute. Qed.

(** The index cannot be built again: the table, its copy and the drop are undone. *)
Lemma strict_rebuild_is_atomic_witness :
  let h := mkXConn None (Some (mkJournal [str "CREATE TABLE t"] None)) false in
  let '(r, h') := @enable_strict_table demo_beam demo_text journal journal_conn (fun _ _ => []) ascii_only ascii_only (str "t") h in
  (exists reason, r = Some (Err reason)) /\
  exists db', h' = set_conn h (Some db') /\ before db' = None /\ ran db' = [str "CREATE TABLE t"].
Proof.
  pose proof (@strict_rebuild_is_atomic demo_beam demo_text journal journal_conn (fun _ _ => []) ascii_only ascii_only _ ran before
    (fun _ => True) journal_ordinary journal_laws (str "t") (mkXConn None (Some (mkJournal [str "CREATE TABLE t"] None)) false)
    (mkJournal [str "CREATE TABLE t"] None) journal_rebuildable eq_refl eq_refl eq_refl) as Ha.
  cbv zeta. assert (Hf : exists reason, (@enable_strict_table demo_beam demo_text journal journal_conn (fun _ _ => [])
    ascii_only ascii_only (str "t") (mkXConn None (Some (mkJournal [str "CREATE TABLE t"] None)) false)).1 = Some (Err reason))
    by (eexists; vm_compute; reflexivity).
  destruct (@enable_strict_table _ _ _ _ _ _ _ _) as [r h']. cbn [fst] in Hf. split; [exact Hf|].
  destruct Ha as (db' & E & Hb & Hc & _). exists db'. split; [exact E|]. split; [exact Hb|]. apply Hc. destruct Hf as [reason ->]. discriminate.
Defined.

(** The caller's own statement, in its own transaction, is gone. *)
Example callers_insert_is_lost :
  let h := mkXConn None (Some (mkJournal [str "CREATE TABLE t"; str "INSERT"] (Some [str "CREATE TABLE t"]))) false in
  exists reason, @enable_strict_table demo_beam demo_text journal journal_conn (fun _ _ => []) ascii_only ascii_only (str "t") h
    = (Some (Err reason), mkXConn None (Some (mkJournal [str "CREATE TABLE t"] None)) false).
Proof. eexists. vm_compute. reflexivity. Qed.
