(* ===== verification/ElixirPragma.v ===== *)
(** * PRAGMAs from Elixir: [lib/xqlite/pragma.ex] and the options of [Xqlite.open/2]

    [Xqlite.Pragma] keeps a table of the PRAGMAs it knows, checks what is written
    against it and shapes what is read.  Without [:db_name] it calls the PRAGMA NIFs;
    with it, it writes the SQL itself.  [Xqlite.open/2] sets nine PRAGMAs in a fixed
    order; the options' validation is NimbleOptions', so the validated options are
    the argument. *)

From S2P Require Import Prelude RustStr Sqlite Terms Heap ConstraintParse Error Util HookList Hooks ProgressDispatch Connection Query Statements Nif Elixir.

(** ** [Xqlite.PragmaSpec] and the table *)

Inductive return_type_t := RInt | RText | RBool | RList | RNothing.

Inductive allowed_values := Range (first last : Z) | OneOf (l : list term).

Record PragmaSpec := mkSpec {
  return_type : return_type_t;
  read_arities : list Z;
  schema_prefix : bool;
  writable : bool;
  valid_values : option allowed_values;
  int_mapping : option (list (Z * term));
}.

Definition signed_i32 : allowed_values := Range (-2147483648) 2147483647.
Definition u32 : allowed_values := Range 0 2147483647.
Definition nonzero_u32 : allowed_values := Range 1 2147483647.
Definition bool_values : allowed_values := Range 0 1.
Definition texts (l : list string) : list term := map (fun s => TBin (str s)) l.

(** Only read; written too. *)
Definition reads_as (t : return_type_t) (arities : list Z) (prefix : bool) : PragmaSpec :=
  mkSpec t arities prefix false None None.
Definition writes (t : return_type_t) (prefix : bool) (values : allowed_values) : PragmaSpec :=
  mkSpec t [0] prefix true (Some values) None.
Definition named (prefix : bool) (values : allowed_values) (mapping : list (Z * term)) : PragmaSpec :=
  mkSpec RInt [0] prefix true (Some values) (Some mapping).

Definition integer_pragmas : list (string * PragmaSpec) := [
  ("application_id", writes RInt true signed_i32);
  ("analysis_limit", writes RInt false u32);
  ("busy_timeout", writes RInt false u32);
  ("cache_size", writes RInt true signed_i32);
  ("cache_spill", writes RInt false u32);
  ("data_version", reads_as RInt [0] false);
  ("freelist_count", reads_as RInt [0] true);
  ("hard_heap_limit", writes RInt false u32);
  ("incremental_vacuum", reads_as RInt [0; 1] true);
  ("journal_size_limit", writes RInt true signed_i32);
  ("legacy_file_format", reads_as RInt [0] false);
  ("max_page_count", writes RInt true nonzero_u32);
  ("mmap_size", writes RInt true signed_i32);
  ("page_count", reads_as RInt [0] true);
  ("page_size", writes RInt true (OneOf (map TInt [512; 1024; 2048; 4096; 8192; 16384; 32768; 65536])));
  ("soft_heap_limit", writes RInt false u32);
  ("threads", writes RInt false u32);
  ("user_version", writes RInt true signed_i32);
  ("wal_autocheckpoint", writes RInt false signed_i32)]%string.

Definition named_pragmas : list (string * PragmaSpec) := [
  ("auto_vacuum", named true (Range 0 2) [(0, TAtom "none"); (1, TAtom "full"); (2, TAtom "incremental")]);
  ("secure_delete", named true (Range 0 2) [(0, TAtom "false"); (1, TAtom "true"); (2, TAtom "fast")]);
  ("synchronous", named true (OneOf (map TInt [0; 1; 2; 3] ++ texts ["OFF"; "NORMAL"; "FULL"; "EXTRA"]))
     [(0, TAtom "off"); (1, TAtom "normal"); (2, TAtom "full"); (3, TAtom "extra")]);
  ("temp_store", named false (OneOf (map TInt [0; 1; 2] ++ texts ["DEFAULT"; "FILE"; "MEMORY"]))
     [(0, TAtom "default"); (1, TAtom "file"); (2, TAtom "memory")])]%string.

Definition boolean_pragmas : list (string * PragmaSpec) :=
  map (fun name => (name, writes RBool false bool_values))
    ["automatic_index"; "cell_size_check"; "checkpoint_fullfsync"; "defer_foreign_keys"; "foreign_keys"; "fullfsync";
     "ignore_check_constraints"; "legacy_alter_table"; "query_only"; "read_uncommitted"; "recursive_triggers";
     "reverse_unordered_selects"; "trusted_schema"]%string.

Definition text_pragmas : list (string * PragmaSpec) := [
  ("encoding", writes RText false (OneOf (texts ["UTF-8"; "UTF-16"; "UTF-16le"; "UTF-16be"])));
  ("journal_mode", writes RText true (OneOf (texts ["DELETE"; "TRUNCATE"; "PERSIST"; "MEMORY"; "WAL"; "OFF"])));
  ("locking_mode", writes RText true (OneOf (texts ["NORMAL"; "EXCLUSIVE"])));
  ("integrity_check", reads_as RText [0; 1] true);
  ("quick_check", reads_as RText [0; 1] true)]%string.

Definition list_pragmas : list (string * PragmaSpec) := [
  ("collation_list", reads_as RList [0] false);
  ("compile_options", reads_as RList [0] false);
  ("database_list", reads_as RList [0] false);
  ("foreign_key_check", reads_as RList [0; 1] true);
  ("foreign_key_list", reads_as RList [1] false);
  ("function_list", reads_as RList [0] false);
  ("index_info", reads_as RList [1] true);
  ("index_list", reads_as RList [1] true);
  ("index_xinfo", reads_as RList [1] true);
  ("module_list", reads_as RList [0] false);
  ("optimize", reads_as RList [0; 1] true);
  ("pragma_list", reads_as RList [0] false);
  ("table_info", reads_as RList [1] true);
  ("table_xinfo", reads_as RList [1] true);
  ("wal_checkpoint", reads_as RList [0; 1] true)]%string.

Definition nothing_pragmas : list (string * PragmaSpec) := [("shrink_memory", reads_as RNothing [0] false)]%string.

Definition schema : list (string * PragmaSpec) :=
  integer_pragmas ++ named_pragmas ++ boolean_pragmas ++ text_pragmas ++ list_pragmas ++ nothing_pragmas.

Fixpoint assoc_get {A} (key : string) (l : list (string * A)) : option A :=
  match l with
  | [] => None
  | (name, a) :: l => if String.eqb key name then Some a else assoc_get key l
  end.

(** [Map.get(@schema, key)] *)
Definition spec_of (key : string) : option PragmaSpec := assoc_get key schema.

Definition readable_with_one_arg (key : string) : bool :=
  match spec_of key with Some spec => existsb (Z.eqb 1) (read_arities spec) | None => false end.

(** ** Values *)

(** [@type pragma_key :: String.t() | atom()] *)
Inductive pragma_key := KAtom (a : string) | KText (b : bytes).
Definition key_text (key : pragma_key) : bytes := match key with KAtom a => str a | KText b => b end.
Definition key_term (key : pragma_key) : term := match key with KAtom a => TAtom a | KText b => TBin b end.

(** A keyword list; [:db_name], a text, is the only key that counts. *)
Definition pragma_opts : Type := list (string * bytes).
Definition db_name (opts : pragma_opts) : option bytes := assoc_get "db_name" opts.

(** The third argument of [get]: an argument, or options. *)
Inductive get_arg := Arg (key : pragma_key) | Opts (opts : pragma_opts).

(** [=:=], on the integers and texts of the table *)
Definition same_term (a b : term) : bool :=
  match a, b with TInt x, TInt y => x =? y | TBin x, TBin y => bytes_eqb x y | _, _ => false end.

(** [val in spec] *)
Definition member (val : term) (spec : allowed_values) : bool :=
  match spec with
  | Range first last => match val with TInt z => (first <=? z) && (z <=? last) | _ => false end
  | OneOf l => existsb (same_term val) l
  end.

Definition valid_pragma_value (spec : option PragmaSpec) (val : term) : bool :=
  match spec with
  | None => true
  | Some spec =>
      match valid_values spec with
      | None => true
      | Some values =>
          if is_atom "true" val then member (TInt 1) values
          else if is_atom "false" val then member (TInt 0) values
          else member val values
      end
  end.

(** Text, an integer or an atom; anything else raises. *)
Definition format_pragma_value (val : term) : option bytes :=
  match val with
  | TBin b => Some ([QUOTE] ++ b ++ [QUOTE])
  | TInt z => Some (show_Z z)
  | TAtom a =>
      Some (if String.eqb a "true" then str "1" else if String.eqb a "false" then str "0"
            else if String.eqb a "on" then str "ON" else if String.eqb a "off" then str "OFF" else str a)
  | _ => None
  end.

Definition quote_name (name : bytes) : bytes := [DQUOTE] ++ replace_char DQUOTE [DQUOTE; DQUOTE] name ++ [DQUOTE].

Definition pragma_prefix (opts : pragma_opts) : bytes :=
  match db_name opts with None => [] | Some name => quote_name name ++ str "." end.

Definition values_only (rows : list (list term)) : list term :=
  map (fun r => match r with [TTuple [_; v]] => v | [v] => v | other => TList other end) rows.

Definition single_column_rows (rows : list (list term)) : bool := match rows with [_] :: _ => true | _ => false end.

Definition process_list_result (key : pragma_key) (rows : list (list term)) : term :=
  let is_key k := match key with KAtom a => String.eqb a k | KText _ => false end in
  TList (if is_key "collation_list"%string then
           map (fun r => match r with
                         | [seq; name] => TMap [(TAtom "seq", seq); (TAtom "name", name)]
                         | other => TMap [(TAtom "unknown", TList other)]
                         end) rows
         else if is_key "integrity_check"%string || is_key "quick_check"%string then values_only rows
         else if single_column_rows rows then values_only rows else map TList rows).

Definition int2bool (value : term) : option term :=
  match value with TInt 0 => Some (TAtom "false") | TInt 1 => Some (TAtom "true") | _ => None end.

Definition mapped (mapping : list (Z * term)) (value : term) : option term :=
  match value with TInt z => option_map snd (find (fun e => e.1 =? z) mapping) | _ => None end.

(** ** Reading and writing *)

(** What [get] answers: [{:ok, value}], or [:ok]. *)
Inductive got := GotValue (value : term) | GotOk.

Section Pragma.
  Context `{Beam} `{RusqliteText} `{FloatText} {Db : Type} `{RusqliteConn Db} {L : Type}.
  Context (reinstall_wal : Db -> Db).

(** [opts] decides who writes the SQL. *)
Definition do_pragma_read (d : WalDispatch L) (key : pragma_key) (opts : pragma_opts) : nif Db term :=
  match db_name opts with
  | None => ok_or_error (fun h => get_pragma h d (key_text key))
  | Some name =>
      let@ rows := nif_query (str "PRAGMA " ++ quote_name name ++ str "." ++ key_text key ++ str ";") [] in
      match rows with
      | [[value]] => reply (Some (Ok value))
      | [] => reply (Some (Ok (TAtom "no_value")))
      | _ => reply None
      end
  end.

Definition do_query (key : pragma_key) (arg : option bytes) (opts : pragma_opts) : nif Db (list (list term)) :=
  let prefix := pragma_prefix opts in
  nif_query (str "PRAGMA " ++ prefix ++ key_text key ++
             match arg with None => str ";" | Some a => str "(" ++ quote_name a ++ str ");" end) [].

(** What a value read becomes: [int_mapping] first, then [return_type]. *)
Definition shape (spec : PragmaSpec) (value : term) : outcome got :=
  match int_mapping spec, return_type spec with
  | Some mapping, _ =>
      Some match mapped mapping value with
           | Some atom => Ok (GotValue atom)
           | None => Err (TTuple [TAtom "unexpected_value"; value])
           end
  | None, RBool => option_map (fun b => Ok (GotValue b)) (int2bool value)
  | None, RNothing => Some (Ok (if is_atom "no_value" value then GotOk else GotValue value))
  | None, _ => Some (Ok (GotValue value))
  end.

Definition dispatch_get (d : WalDispatch L) (key : pragma_key) (spec : PragmaSpec) (opts : pragma_opts) : nif Db got :=
  match int_mapping spec, return_type spec with
  | None, RList => let@ rows := do_query key None opts in reply (Some (Ok (GotValue (process_list_result key rows))))
  | _, _ => let@ value := do_pragma_read d key opts in reply (shape spec value)
  end.

Definition do_get_no_arg (d : WalDispatch L) (key : pragma_key) (opts : pragma_opts) : nif Db got :=
  match match key with KAtom a => spec_of a | KText _ => None end with
  | None => reply (Some (Err (TTuple [TAtom "unknown_pragma"; key_term key])))
  | Some spec => dispatch_get d key spec opts
  end.

(** [nil] is no argument. *)
Definition do_get_with_arg (key : pragma_key) (arg : pragma_key) (opts : pragma_opts) : nif Db got :=
  let arg := match arg with KAtom a => if String.eqb a "nil" then None else Some (str a) | KText b => Some b end in
  let@ rows := do_query key arg opts in reply (Some (Ok (GotValue (process_list_result key rows)))).

(** A keyword list is no text: as an argument it raises, unless empty. *)
Definition get (d : WalDispatch L) (key : pragma_key) (arg_or_opts : get_arg) (opts : pragma_opts) : nif Db got :=
  match arg_or_opts, opts with
  | Arg arg, _ => do_get_with_arg key arg opts
  | Opts o, [] => do_get_no_arg d key o
  | Opts arg_list, _ =>
      if match key with KAtom a => readable_with_one_arg a | KText _ => false end
      then match arg_list with [] => do_get_with_arg key (KText []) opts | _ => reply None end
      else do_get_no_arg d key (arg_list ++ opts)
  end.

Definition do_put (key : string) (val : term) (opts : pragma_opts) (h : XqliteConn Db) (d : WalDispatch L)
    : outcome term * XqliteConn Db * WalDispatch L :=
  if valid_pragma_value (spec_of key) val then
    match db_name opts with
    | None => let '(r, h, d) := set_pragma reinstall_wal h d (str key) val in (Some (map_err encode r), h, d)
    | Some name =>
        match format_pragma_value val with
        | None => (None, h, d)
        | Some lit =>
            let '(r, h) := with_conn h (core_execute_batch (str "PRAGMA " ++ quote_name name ++ str "." ++ str key ++
                                          str " = " ++ lit ++ str ";")) in
            (Some match r with Ok _ => Ok nil_term | Err e => Err (encode e) end, h, d)
        end
    end
  else (Some (Err (TTuple [TAtom "invalid_pragma_value"; TMap [(TAtom "pragma", TAtom key); (TAtom "value", val)]])), h, d).

Definition put (key : pragma_key) (val : term) (opts : pragma_opts) (h : XqliteConn Db) (d : WalDispatch L)
    : outcome term * XqliteConn Db * WalDispatch L :=
  match key with
  | KAtom a => do_put a val opts h d
  | KText b =>
      match find (fun e => bytes_eqb (str e.1) b) schema with
      | Some (key_atom, _) => do_put key_atom val opts h d
      | None => (Some (Err (TTuple [TAtom "invalid_pragma_name"; TBin b])), h, d)
      end
  end.

(** ** [Xqlite.open/2]: the validated options *)

Record open_opts := mkOpenOpts {
  journal_mode : string;
  busy_timeout : option Z;                    (* [None]: [:infinity] *)
  foreign_keys : bool;
  synchronous : string;
  cache_size : Z;
  temp_store : string;
  wal_autocheckpoint : Z;
  mmap_size : Z;
  auto_vacuum : string;
}.

Inductive open_key := OBusyTimeout | OJournalMode | OAutoVacuum | OForeignKeys | OSynchronous | OCacheSize | OTempStore
| OWalAutocheckpoint | OMmapSize.

Definition pragma_order : list open_key :=
  [OBusyTimeout; OJournalMode; OAutoVacuum; OForeignKeys; OSynchronous; OCacheSize; OTempStore; OWalAutocheckpoint; OMmapSize].

(** The arguments [set_pragma_value] passes to [XqliteNIF.set_pragma/3]. *)
Definition set_pragma_value (key : open_key) (o : open_opts) : bytes * term :=
  match key with
  | OBusyTimeout => (str "busy_timeout", TInt (default 2147483647 (busy_timeout o)))
  | OForeignKeys => (str "foreign_keys", TAtom (if foreign_keys o then "on" else "off"))
  | OAutoVacuum =>
      (str "auto_vacuum",
       if String.eqb (auto_vacuum o) "none" then TInt 0
       else if String.eqb (auto_vacuum o) "full" then TInt 1
       else if String.eqb (auto_vacuum o) "incremental" then TInt 2
       else TAtom (auto_vacuum o))
  | OTempStore =>
      (str "temp_store",
       if String.eqb (temp_store o) "default" then TInt 0
       else if String.eqb (temp_store o) "file" then TInt 1
       else if String.eqb (temp_store o) "memory" then TInt 2
       else TAtom (temp_store o))
  | OJournalMode => (str "journal_mode", TAtom (journal_mode o))
  | OSynchronous => (str "synchronous", TAtom (synchronous o))
  | OCacheSize => (str "cache_size", TInt (cache_size o))
  | OWalAutocheckpoint => (str "wal_autocheckpoint", TInt (wal_autocheckpoint o))
  | OMmapSize => (str "mmap_size", TInt (mmap_size o))
  end%string.

(** [Enum.reduce_while]: the first error ends it. *)
Fixpoint apply_from (keys : list open_key) (o : open_opts) (h : XqliteConn Db) (d : WalDispatch L)
    : result unit XqliteError * XqliteConn Db * WalDispatch L :=
  match keys with
  | [] => (Ok tt, h, d)
  | key :: keys =>
      let '(name, value) := set_pragma_value key o in
      match set_pragma reinstall_wal h d name value with
      | (Ok _, h, d) => apply_from keys o h d
      | (Err e, h, d) => (Err e, h, d)
      end
  end.
Definition apply_pragmas := apply_from pragma_order.

(** [XqliteNIF.open] answered [opened]. *)
Definition xqlite_open (opened : result (XqliteConn Db) XqliteError) (d : WalDispatch L) (o : open_opts)
    : result (XqliteConn Db * WalDispatch L) XqliteError :=
  let? h := opened in
  match apply_pragmas o h d with
  | (Ok _, h, d) => Ok (h, d)
  | (Err e, _, _) => Err e
  end.

End Pragma.

(** What [@open_opts_schema] lets through. *)
Definition wf_open_opts (o : open_opts) : Prop :=
  In (journal_mode o) ["wal"; "delete"; "truncate"; "memory"; "off"]%string /\
  (match busy_timeout o with Some ms => 0 <= ms | None => True end) /\
  In (synchronous o) ["off"; "normal"; "full"; "extra"]%string /\
  In (temp_store o) ["default"; "file"; "memory"]%string /\
  0 <= wal_autocheckpoint o /\ 0 <= mmap_size o /\
  In (auto_vacuum o) ["none"; "full"; "incremental"]%string.

(** ** The table *)

(** The texts of the table hold no quote, which [format_pragma_value] would not double. *)
Definition quoteless (s : bytes) : bool := forallb (fun b => negb (b =? QUOTE)) s.

Definition plain_value (t : term) : bool :=
  match t with TInt _ => true | TBin b => quoteless b | _ => false end.
Definition plain_values (v : allowed_values) : bool :=
  match v with Range _ _ => true | OneOf l => forallb plain_value l end.

(** Integers [put] lets through can be shown by [get]. *)
Definition shown (spec : PragmaSpec) (z : Z) : bool :=
  match shape spec (TInt z) with Some (Ok _) => true | _ => false end.
Definition all_shown (spec : PragmaSpec) : bool :=
  match int_mapping spec, return_type spec, valid_values spec with
  | None, RBool, Some (Range 0 1) => true
  | None, RBool, _ => false
  | Some _, _, Some (Range first last) =>
      forallb (shown spec) (seqZ first (last - first + 1))
  | Some _, _, Some (OneOf l) => forallb (fun t => match t with TInt z => shown spec z | _ => true end) l
  | Some _, _, None => false
  | None, _, _ => true
  end.

Definition entry_ok (e : string * PragmaSpec) : bool :=
  bool_decide (validate_name (str e.1) = Ok tt) && all_shown e.2 &&
  match valid_values e.2 with Some v => plain_values v && writable e.2 | None => negb (writable e.2) end.

Lemma schema_ok : forallb entry_ok schema = true.
Proof. vm_compute. reflexivity. Qed.

Lemma assoc_get_in {A} key (l : list (string * A)) a : assoc_get key l = Some a -> In (key, a) l.
Proof.
  induction l as [|[k b] l IH]; [done|]. cbn. destruct (String.eqb_spec key k) as [->|]; [intros [= ->]; by left|].
  intros Hf. right. by apply IH.
Qed.

Lemma spec_ok key spec : spec_of key = Some spec -> entry_ok (key, spec) = true.
Proof.
  intros Hs. pose proof schema_ok as Hok. rewrite List.forallb_forall in Hok. apply Hok. by apply assoc_get_in.
Qed.

(** ** What SQL reads *)

(** The value of a PRAGMA as SQLite's grammar has it ([minus_num], [plus_num], a quoted
    [nm]): a decimal integer, its sign included, that no letter or digit follows, or a
    text in single quotes.  Written for any text, not for the ones [put] makes. *)
Inductive pragma_value := PInt (z : Z) | PText (t : bytes).

Fixpoint take_digits (s : bytes) : bytes * bytes :=
  match s with
  | b :: s' => if is_ascii_digit b then let '(d, r) := take_digits s' in (b :: d, r) else ([], s)
  | [] => ([], [])
  end.

Definition number_token (s : bytes) : option (Z * bytes) :=
  match take_digits s with
  | ([], _) => None
  | (d, rest) =>
      match rest with
      | b :: _ => if is_ascii_alphanumeric b || (b =? UNDERSCORE) || (b =? 46) then None else Some (digits_value 10 d, rest)
      | [] => Some (digits_value 10 d, rest)
      end
  end.

Definition sql_value (s : bytes) : option (pragma_value * bytes) :=
  match s with
  | 45 :: s' => option_map (fun '(n, rest) => (PInt (- n), rest)) (number_token s')
  | 39 :: _ => option_map (fun '(t, rest) => (PText t, rest)) (sql_quoted_token QUOTE s)
  | _ => option_map (fun '(n, rest) => (PInt n, rest)) (number_token s)
  end.

(** The value a term stands for. *)
Definition denotes (val : term) (v : pragma_value) : Prop :=
  match v with
  | PInt z => val = TInt z \/ (val = TAtom "true" /\ z = 1) \/ (val = TAtom "false" /\ z = 0)
  | PText t => val = TBin t
  end.

(** What the table lists: an integer of a range, an integer or text of a list; a
    boolean counts as 1 or 0. *)
Definition listed_int (values : allowed_values) (z : Z) : Prop :=
  match values with Range first last => first <= z <= last | OneOf l => In (TInt z) l end.

Definition listed (values : allowed_values) (val : term) : Prop :=
  (exists z, val = TInt z /\ listed_int values z) \/
  (exists t l, val = TBin t /\ values = OneOf l /\ In (TBin t) l) \/
  (val = TAtom "true" /\ listed_int values 1) \/ (val = TAtom "false" /\ listed_int values 0).

Lemma member_int values z : member (TInt z) values = true <-> listed_int values z.
Proof.
  destruct values as [first last|l]; cbn; [lia|]. rewrite existsb_exists. split.
  - intros (t & Hin & Hs). destruct t; try done. cbn in Hs. by apply Z.eqb_eq in Hs as ->.
  - intros Hin. exists (TInt z). split; [done|]. apply Z.eqb_refl.
Qed.

Lemma member_other values val : (forall z, val <> TInt z) ->
  member val values = true <-> exists t l, val = TBin t /\ values = OneOf l /\ In (TBin t) l.
Proof.
  intros Hn. destruct values as [first last|l]; cbn.
  - split; [|intros (t & l & _ & E & _); done]. destruct val; try done. by destruct (Hn z).
  - rewrite existsb_exists. split.
    + intros (t & Hin & Hs). destruct val as [ |z| |b| | | | | | | | | | ]; try done; [by destruct (Hn z)|].
      destruct t; try done. cbn in Hs. apply bytes_eqb_eq in Hs as ->. by exists b0, l.
    + intros (t & l' & -> & [= ->] & Hin). exists (TBin t). split; [done|]. apply bytes_eqb_refl.
Qed.

Lemma valid_listed spec values val : valid_values spec = Some values ->
  valid_pragma_value (Some spec) val = true <-> listed values val.
Proof.
  intros Hv. unfold valid_pragma_value, listed. rewrite Hv.
  destruct (is_atom "true" val) eqn:E1; [apply is_atom_true in E1 as ->|].
  { rewrite member_int. split; [eauto|]. by intros [(z & ? & _)|[(t & l & ? & _)|[[_ ?]|[? _]]]]. }
  destruct (is_atom "false" val) eqn:E2; [apply is_atom_true in E2 as ->|].
  { rewrite member_int. split; [eauto|]. by intros [(z & ? & _)|[(t & l & ? & _)|[[? _]|[_ ?]]]]. }
  assert (Ha : forall P Q : Prop, (val = TAtom "true" /\ P) \/ (val = TAtom "false" /\ Q) -> False).
  { intros P Q [[-> _]|[-> _]]; done. }
  destruct val as [ |z| | | | | | | | | | | | ]; try (rewrite member_other by done; split;
    [by intros Hx; right; left|intros [(z & ? & _)|[Hx|Hx]]; [done|exact Hx|by destruct (Ha _ _ Hx)]]).
  rewrite member_int. split; [intros Hx; left; by exists z|]. intros [(z' & [= <-] & Hx)|[(t & l & ? & _)|Hx]]; [done|done|by destruct (Ha _ _ Hx)].
Qed.

Lemma take_digits_all d rest : forallb is_ascii_digit d = true ->
  match rest with b :: _ => is_ascii_digit b = false | [] => True end -> take_digits (d ++ rest) = (d, rest).
Proof.
  intros Hd Hr. induction d as [|b d IH]; cbn [app take_digits].
  - destruct rest as [|b rest]; [done|]. cbn. by rewrite Hr.
  - cbn in Hd. apply andb_true_iff in Hd as [Hb Hd]. by rewrite Hb, (IH Hd).
Qed.

Lemma number_token_semicolon d : digit_text d -> number_token (d ++ str ";") = Some (digits_value 10 d, str ";").
Proof.
  intros [Hne Hd]. unfold number_token. rewrite take_digits_all by done. by destruct d.
Qed.

Lemma sql_value_int z : sql_value (show_Z z ++ str ";") = Some (PInt z, str ";").
Proof.
  destruct (show_Z_spec z) as (d & Hd & Hv & ->). pose proof (number_token_semicolon d Hd) as Hn.
  destruct (Z.ltb_spec z 0) as [Hz|Hz]; cbn [app].
  - cbn [sql_value]. rewrite Hn, Hv. cbn. do 3 f_equal. lia.
  - destruct Hd as [Hne Hd]. destruct d as [|b d]; [done|]. assert (Hs : sql_value ((b :: d) ++ str ";") =
      option_map (fun '(n, rest) => (PInt n, rest)) (number_token ((b :: d) ++ str ";"))).
    { cbn in Hd. apply andb_true_iff in Hd as [Hb _]. unfold is_ascii_digit in Hb. cbn [app sql_value].
      destruct (Z.eqb_spec b 45); [subst; done|]. destruct (Z.eqb_spec b 39); [subst; done|].
      by repeat (case_match; try done). }
    rewrite Hs, Hn, Hv. cbn. do 3 f_equal. lia.
Qed.

Lemma read_quoteless t rest : quoteless t = true -> head rest <> Some QUOTE ->
  read_quoted QUOTE (t ++ [QUOTE] ++ rest) = Some (t, rest).
Proof.
  intros Ht Hr. rewrite <- (read_quoted_replace QUOTE t rest Hr). f_equal. f_equal.
  induction t as [|b t IH]; [done|]. cbn in Ht |- *. apply andb_true_iff in Ht as [Hb Ht].
  apply negb_true_iff in Hb. rewrite Hb. cbn. f_equal. by apply IH.
Qed.

Lemma accepted_literal spec values val : valid_values spec = Some values -> plain_values values = true ->
  listed values val -> exists lit v, format_pragma_value val = Some lit /\
    sql_value (lit ++ str ";") = Some (v, str ";") /\ denotes val v.
Proof.
  intros Hv Hp [(z & -> & _)|[(t & l & -> & -> & Hin)|[[-> _]|[-> _]]]].
  - exists (show_Z z), (PInt z). split_and!; [done|apply sql_value_int|by left].
  - exists ([QUOTE] ++ t ++ [QUOTE]), (PText t). split_and!; [done| |done].
    cbn [plain_values] in Hp. rewrite List.forallb_forall in Hp. specialize (Hp _ Hin). cbn [plain_value] in Hp.
    rewrite <- !app_assoc. change (option_map (fun '(t, rest) => (PText t, rest)) (read_quoted QUOTE (t ++ [QUOTE] ++ str ";")) = Some (PText t, str ";")).
    by rewrite read_quoteless.
  - exists (str "1"), (PInt 1). split_and!; [done|done|]. right. by left.
  - exists (str "0"), (PInt 0). split_and!; [done|done|]. right. by right.
Qed.

Lemma accepted_shown key spec values z : spec_of key = Some spec -> valid_values spec = Some values ->
  member (TInt z) values = true -> exists g, shape spec (TInt z) = Some (Ok g).
Proof.
  intros Hs Hv Hm. pose proof (spec_ok _ _ Hs) as Hok. unfold entry_ok in Hok. cbn [snd] in Hok.
  apply andb_true_iff in Hok as [[_ Hsh]%andb_true_iff _]. unfold all_shown in Hsh. rewrite Hv in Hsh.
  assert (Hx : shown spec z = true -> exists g, shape spec (TInt z) = Some (Ok g)).
  { unfold shown. destruct (shape spec (TInt z)) as [[g|]|]; [by exists g|done..]. }
  destruct (int_mapping spec) as [m|] eqn:Em.
  - apply Hx. destruct values as [first last|l].
    + cbn in Hm. rewrite List.forallb_forall in Hsh. apply Hsh, list_elem_of_In, elem_of_seqZ. lia.
    + cbn in Hm. apply existsb_exists in Hm as (t & Hin & He). rewrite List.forallb_forall in Hsh. apply Hsh in Hin.
      destruct t; try done. cbn in He. by apply Z.eqb_eq in He as ->.
  - unfold shape. rewrite Em. destruct (return_type spec) eqn:Er; try by eexists.
    destruct values as [first last|l]; [|done]. destruct first; try done. destruct last as [|[]|]; try done.
    cbn in Hm. assert (z = 0 \/ z = 1) as [->| ->] by lia; by eexists.
Qed.

(** ** The PRAGMA statements of [open] *)

Section Script.
  Context `{Beam} `{RusqliteText} `{FloatText} {Db : Type} `{RusqliteConn Db} {L : Type}.
  Context (reinstall_wal : Db -> Db).

Definition set_text (s : bytes * bytes) : bytes := str "PRAGMA " ++ s.1 ++ str " = " ++ s.2 ++ str ";".

(** One PRAGMA statement: prepared, and its first row read. *)
Definition run_set (sql : bytes) : M Db term :=
  let* _ := (fun db => let '(r, db) := conn_prepare sql db in (map_err (pragma_exec_error sql) r, db)) in
  let* rows := rq (stmt_query sql PNone) in
  match rows with
  | [] => ret nil_term
  | r :: _ =>
      let* row := lift (map_err from_rusqlite r) in
      let* value := lift (map_err from_rusqlite (row 0%nat)) in
      lift (encode_val value)
  end.

(** The statements one after the other, the first failure ending it; after the WAL
    threshold the crate's callback takes the hook slot back and keeps the threshold
    SQLite answered. *)
Fixpoint run_script (l : list (bytes * bytes)) (pages : Z) (db : Db) : result unit XqliteError * Z * Db :=
  match l with
  | [] => (Ok tt, pages, db)
  | s :: l =>
      match run_set (set_text s) db with
      | (Err e, db) => (Err e, pages, db)
      | (Ok t, db) =>
          if bool_decide (s.1 = WAL_AUTOCHECKPOINT)
          then run_script l (match decode_i64 t with Some n => clamp_i32 n | None => pages end) (reinstall_wal db)
          else run_script l pages db
      end
  end.

Definition position (x : string) (l : list string) : bytes :=
  match list_find (eq x) l with Some (i, _) => show_Z (Z.of_nat i) | None => str x end.

(** The nine statements, in order. *)
Definition open_script (o : open_opts) : list (bytes * bytes) := [
  (str "busy_timeout", show_Z (match busy_timeout o with Some ms => ms | None => 2147483647 end));
  (str "journal_mode", str (journal_mode o));
  (str "auto_vacuum", position (auto_vacuum o) ["none"; "full"; "incremental"]%string);
  (str "foreign_keys", if foreign_keys o then str "on" else str "off");
  (str "synchronous", str (synchronous o));
  (str "cache_size", show_Z (cache_size o));
  (str "temp_store", position (temp_store o) ["default"; "file"; "memory"]%string);
  (str "wal_autocheckpoint", show_Z (wal_autocheckpoint o));
  (str "mmap_size", show_Z (mmap_size o))].

Lemma set_pragma_runs h (d : WalDispatch L) db name v lit : poison h = None -> conn_opt h = Some db ->
  validate_name name = Ok tt -> format_term_for_pragma v = Ok lit ->
  set_pragma reinstall_wal h d name v =
    match run_set (set_text (name, lit)) db with
    | (Err e, db) => (Err e, set_conn h (Some db), d)
    | (Ok t, db) =>
        if bool_decide (name = WAL_AUTOCHECKPOINT)
        then (Ok t, set_conn h (Some (reinstall_wal db)),
              mkWal (wal_list d) (match decode_i64 t with Some n => clamp_i32 n | None => autocheckpoint_pages d end))
        else (Ok t, set_conn h (Some db), d)
    end.
Proof.
  intros Hp Hc Hv Hf. unfold set_pragma, with_conn, bind at 1. rewrite Hp, Hc.
  assert (E : pragma_set name v db = run_set (set_text (name, lit)) db).
  { unfold pragma_set, bind at 1 2, lift. by rewrite Hv, Hf. }
  rewrite E. destruct (run_set (set_text (name, lit)) db) as [[t|e] db1]; [|done].
  destruct (bool_decide (name = WAL_AUTOCHECKPOINT)); [done|]. by destruct d.
Qed.

(** A key of [pragma_order] and its statement. *)
Definition statement_of (o : open_opts) (key : open_key) (s : bytes * bytes) : Prop :=
  (set_pragma_value key o).1 = s.1 /\ validate_name s.1 = Ok tt /\
  format_term_for_pragma (set_pragma_value key o).2 = Ok s.2.

Lemma apply_from_runs o keys l : Forall2 (statement_of o) keys l -> 
  forall (h : XqliteConn Db) (d : WalDispatch L) db, poison h = None -> conn_opt h = Some db ->
  apply_from reinstall_wal keys o h d =
    (let '(r, pages, db') := run_script l (autocheckpoint_pages d) db in
     (r, set_conn h (Some db'), mkWal (wal_list d) pages)).
Proof.
  induction 1 as [|key [name lit] keys l (Hn & Hv & Hf) _ IH]; intros h d db Hp Hc.
  - cbn. destruct h, d. cbn in *. by subst.
  - cbn [apply_from run_script]. cbn [fst snd] in *. destruct (set_pragma_value key o) as [n v]. cbn [fst snd] in *. subst n.
    rewrite (set_pragma_runs _ _ _ _ _ _ Hp Hc Hv Hf). destruct (run_set (set_text (name, lit)) db) as [[t|e] db1].
    + destruct (bool_decide (name = WAL_AUTOCHECKPOINT)).
      * by rewrite (IH (set_conn h (Some (reinstall_wal db1))) _ _ Hp eq_refl).
      * by rewrite (IH (set_conn h (Some db1)) _ _ Hp eq_refl).
    + by destruct d.
Qed.

End Script.

(** A PRAGMA of the table under its atom or the text of it: [put] does the same. *)
Definition names_pragma (k : pragma_key) (key : string) : Prop := k = KAtom key \/ k = KText (str key).

Lemma put_by_text `{Beam} `{RusqliteText} `{FloatText} {Db} `{RusqliteConn Db} {L} (reinstall_wal : Db -> Db)
    k key spec val opts (h : XqliteConn Db) (d : WalDispatch L) : spec_of key = Some spec -> names_pragma k key ->
  put reinstall_wal k val opts h d = do_put reinstall_wal key val opts h d.
Proof.
  intros Hs [-> | ->]; [done|]. unfold put. destruct (find _ schema) as [[key' spec']|] eqn:E.
  - apply List.find_some in E as [_ E]. cbn [fst] in E. apply bytes_eqb_eq, str_inj in E as ->. done.
  - pose proof (List.find_none _ _ E (key, spec) (assoc_get_in _ _ _ Hs)) as Hn. cbn [fst] in Hn. by rewrite bytes_eqb_refl in Hn.
Qed.

(** One of the listed names, each by computation. *)
Ltac each_of H := solve [repeat (destruct H as [<-|H]; [reflexivity|]); destruct H].

(** ** Theorems *)

(** C22: [Xqlite.Pragma.put] of a PRAGMA the table constrains, under its atom or text: a value the table does not
    list is refused and nothing is run.  For a listed value, the PRAGMA's name passes
    the NIF's own check and an integer is one [get] has a name, a boolean or itself
    for; without [:db_name] [set_pragma] is called with the value.  With [:db_name] one
    statement is run and its answer given back, in which SQL reads the database's name
    as exactly that name and, up to the final semicolon, the value as exactly the value
    given: the integer, the text, or 1 and 0 for a boolean. *)
Theorem pragma_put_is_contained `{Beam} `{RusqliteText} `{FloatText} {Db} `{RusqliteConn Db} {L} (reinstall_wal : Db -> Db)
    k key spec values val opts (h : XqliteConn Db) (d : WalDispatch L) :
  spec_of key = Some spec -> valid_values spec = Some values -> names_pragma k key ->
  let '(r, h', d') := put reinstall_wal k val opts h d in
  (listed values val ->
    validate_name (str key) = Ok tt /\
    (forall z, val = TInt z -> exists g, shape spec val = Some (Ok g)) /\
    (db_name opts = None -> let '(r1, h1, d1) := set_pragma reinstall_wal h d (str key) val in
       r = Some (map_err encode r1) /\ h' = h1 /\ d' = d1) /\
    (forall name, db_name opts = Some name -> exists q lit v,
       let rest := str "." ++ str key ++ str " = " ++ lit ++ str ";" in
       sql_quoted_token DQUOTE (q ++ rest) = Some (name, rest) /\
       sql_value (lit ++ str ";") = Some (v, str ";") /\ denotes val v /\
       let '(answer, h1) := with_conn h (core_execute_batch (str "PRAGMA " ++ q ++ rest)) in
       r = Some match answer with Ok _ => Ok nil_term | Err e => Err (encode e) end /\ h' = h1 /\ d' = d)) /\
  (~ listed values val ->
    r = Some (Err (TTuple [TAtom "invalid_pragma_value"; TMap [(TAtom "pragma", TAtom key); (TAtom "value", val)]])) /\
    h' = h /\ d' = d).
Proof.
  intros Hs Hv Hk. pose proof (spec_ok _ _ Hs) as Hok. unfold entry_ok in Hok. cbn [fst snd] in Hok. rewrite Hv in Hok.
  apply andb_true_iff in Hok as [[Hn%bool_decide_eq_true _]%andb_true_iff [Hp _]%andb_true_iff].
  pose proof (valid_listed spec values val Hv) as Hl. rewrite (put_by_text _ _ _ _ _ _ _ _ Hs Hk). unfold do_put. rewrite Hs.
  destruct (valid_pragma_value (Some spec) val) eqn:Ea; [|split; [intros Hx%Hl; done|done]].
  pose proof (proj1 Hl eq_refl) as Hx. destruct (accepted_literal _ _ _ Hv Hp Hx) as (lit & v & Hf & Ht & Hd).
  assert (Hz : forall z, val = TInt z -> exists g, shape spec val = Some (Ok g)).
  { intros z ->. unfold valid_pragma_value in Ea. rewrite Hv in Ea. by eapply accepted_shown. }
  destruct (db_name opts) as [name|].
  - rewrite Hf. destruct (with_conn h _) as [r h'] eqn:Ew. split; [intros _|done]. split_and!; [done|done|done|].
    intros ? [= <-]. exists (quote_name name), lit, v. split_and!; [|done|done|by rewrite Ew].
    unfold quote_name, sql_quoted_token. rewrite <- !app_assoc. cbn [app]. rewrite Z.eqb_refl. by apply read_quoted_replace.
  - destruct (set_pragma reinstall_wal h d (str key) val) as [[r1 h1] d1]. split; [intros _|done]. by split_and!.
Qed.

(** C23: opening with validated options runs the nine PRAGMA statements of [open_script], in
    that order, spelled with the option's value or its number, and nothing else; the
    first that fails ends it with its error, and after the WAL threshold the crate's
    callback has the hook slot and SQLite's threshold.  The integers must fit 64 bits. *)
Theorem open_runs_nine_pragmas `{Beam} `{RusqliteText} `{FloatText} {Db} `{RusqliteConn Db} {L} (reinstall_wal : Db -> Db)
    o (h : XqliteConn Db) (d : WalDispatch L) db :
  wf_open_opts o -> Forall (fun z => in_i 64 z = true) [default 0 (busy_timeout o); cache_size o; wal_autocheckpoint o; mmap_size o] ->
  poison h = None -> conn_opt h = Some db ->
  xqlite_open reinstall_wal (Ok h) d o =
    match run_script reinstall_wal (open_script o) (autocheckpoint_pages d) db with
    | (Ok _, pages, db') => Ok (set_conn h (Some db'), mkWal (wal_list d) pages)
    | (Err e, _, _) => Err e
    end.
Proof.
  intros (Hj & _ & Hsy & Ht & _ & _ & Ha) Hi Hp Hc. unfold xqlite_open, apply_pragmas.
  rewrite (apply_from_runs _ o pragma_order (open_script o)) with (db := db); [|clear Hp Hc|done|done].
  - by destruct (run_script _ _ _ _) as [[[u|e] pages] db'].
  - do 4 apply Forall_cons_1 in Hi as [? Hi]. unfold open_script, pragma_order, statement_of.
    destruct o as [jm bt fk sy cs ts wa mm av]. cbn [journal_mode busy_timeout foreign_keys synchronous cache_size
      temp_store wal_autocheckpoint mmap_size auto_vacuum set_pragma_value] in *.
    assert (Hint : forall z, in_i 64 z = true -> format_term_for_pragma (TInt z) = Ok (show_Z z)).
    { intros z Hz. unfold format_term_for_pragma. cbn. by rewrite Hz. }
    repeat constructor; cbn [fst snd]; first [by apply Hint|by destruct bt; apply Hint|by destruct fk
      |each_of Hj|each_of Hsy|each_of Ht|each_of Ha|done].
Qed.

Lemma pragma_put_is_contained_witness :
  listed (OneOf (map TInt [0; 1; 2; 3] ++ texts ["OFF"; "NORMAL"; "FULL"; "EXTRA"]%string)) (TBin (str "FULL")) /\
  exists q lit v, let rest := str ".synchronous = " ++ lit ++ str ";" in
    sql_quoted_token DQUOTE (q ++ rest) = Some ([97; DQUOTE], rest) /\
    sql_value (lit ++ str ";") = Some (v, str ";") /\ v = PText (str "FULL").
Proof.
  assert (Hl : listed (OneOf (map TInt [0; 1; 2; 3] ++ texts ["OFF"; "NORMAL"; "FULL"; "EXTRA"]%string)) (TBin (str "FULL"))).
  { right. left. do 2 eexists. split_and!; [reflexivity|reflexivity|]. cbn. auto 10. }
  split; [exact Hl|].
  destruct (@pragma_put_is_contained demo_beam demo_text demo_floats bool demo_conn unit (fun db => db) (KText (str "synchronous")) "synchronous"
    (named true (OneOf (map TInt [0; 1; 2; 3] ++ texts ["OFF"; "NORMAL"; "FULL"; "EXTRA"]%string))
       [(0, TAtom "off"); (1, TAtom "normal"); (2, TAtom "full"); (3, TAtom "extra")])
    (OneOf (map TInt [0; 1; 2; 3] ++ texts ["OFF"; "NORMAL"; "FULL"; "EXTRA"]%string)) (TBin (str "FULL"))
    [("db_name"%string, [97; DQUOTE])] (mkXConn None (Some true) false) (mkWal tt 1000)) as [Hq _].
  - reflexivity.
  - reflexivity.
  - right. reflexivity.
  - destruct (Hq Hl) as (_ & _ & _ & Hn). destruct (Hn [97; DQUOTE] eq_refl) as (q & lit & v & Ht & Hs & Hd & _).
    exists q, lit, v. split; [exact Ht|]. split; [exact Hs|]. destruct v as [z|t]; [|injection Hd as ->; reflexivity].
    destruct Hd as [?|[[? _]|[? _]]]; discriminate.
Defined.

(** The defaults of [@open_opts_schema]. *)
Definition default_opts : open_opts := mkOpenOpts "wal" (Some 5000) true "normal" (-64000) "memory" 1000 0 "none".

Lemma open_runs_nine_pragmas_witness :
  nth 2 (map set_text (open_script default_opts)) [] = str "PRAGMA auto_vacuum = 0;" /\
  exists h d, @xqlite_open demo_beam demo_text demo_floats bool demo_conn unit (fun _ => true)
    (Ok (mkXConn None (Some true) false)) (mkWal tt 7) default_opts = Ok (h, d).
Proof.
  split; [reflexivity|].
  rewrite (@open_runs_nine_pragmas demo_beam demo_text demo_floats bool demo_conn unit (fun _ => true) default_opts
    (mkXConn None (Some true) false) (mkWal tt 7) true).
  - do 2 eexists. vm_compute. reflexivity.
  - unfold wf_open_opts. cbn. intuition discriminate.
  - repeat constructor.
  - reflexivity.
  - reflexivity.
Defined.

(** ** Where [Xqlite.Pragma] departs *)

(** Text for a PRAGMA without [valid_values], or for a name that is no key of the
    table, goes between quotes as it is: with [:db_name], SQL reads the text up to its
    own first quote, and the rest of it runs. *)
Theorem unchecked_text_escapes_its_quotes `{Beam} `{RusqliteText} `{FloatText} {Db} `{RusqliteConn Db} {L}
    (reinstall_wal : Db -> Db) key (h : XqliteConn Db) (d : WalDispatch L) :
  spec_of key = None ->
  let attack := str "x'; DROP TABLE t; --" in
  let lit := [QUOTE] ++ attack ++ [QUOTE] in
  (put reinstall_wal (KAtom key) (TBin attack) [("db_name"%string, str "main")] h d).1.2 =
    (with_conn h (core_execute_batch
      (str "PRAGMA " ++ quote_name (str "main") ++ str "." ++ str key ++ str " = " ++ lit ++ str ";"))).2 /\
  sql_quoted_token QUOTE (lit ++ str ";") = Some (str "x", str "; DROP TABLE t; --';").
Proof.
  intros Hs attack lit. split; [|reflexivity]. unfold put, do_put. rewrite Hs. cbn [valid_pragma_value].
  cbn [db_name assoc_get String.eqb Ascii.eqb Bool.eqb format_pragma_value]. fold lit.
  by destruct (with_conn h _).
Qed.

(** With [:db_name] the WAL threshold goes round the NIF that keeps the crate's copy of
    it: SQLite is told, and [get] goes on answering the old one. *)
Theorem qualified_autocheckpoint_is_not_mirrored `{Beam} `{RusqliteText} `{FloatText} {Db} `{RusqliteConn Db} {L}
    (reinstall_wal : Db -> Db) name z (h h' : XqliteConn Db) (d d' : WalDispatch L) db' :
  put reinstall_wal (KAtom "wal_autocheckpoint") (TInt z) [("db_name"%string, name)] h d = (Some (Ok nil_term), h', d') ->
  poison h' = None -> conn_opt h' = Some db' ->
  (get d' (KAtom "wal_autocheckpoint") (Opts []) [] h').1 = Some (Ok (GotValue (TInt (autocheckpoint_pages d)))).
Proof.
  intros E Hp Hc. assert (d' = d) as ->.
  { unfold put, do_put in E. destruct (valid_pragma_value _ _); [|by injection E as _ _ <-].
    cbn [db_name assoc_get String.eqb Ascii.eqb Bool.eqb format_pragma_value] in E.
    destruct (with_conn h _) as [r hx]. by injection E as _ _ <-. }
  change (get d (KAtom "wal_autocheckpoint") (Opts []) [] h') with
    (with_ok (ok_or_error (fun h => get_pragma h d (str "wal_autocheckpoint"))) (fun v => reply (Some (Ok (GotValue v)))) h').
  unfold with_ok, ok_or_error, get_pragma, with_conn. rewrite Hp, Hc. rewrite bool_decide_eq_true_2 by done. done.
Qed.

(** [get] is declared for text keys and looks up atoms: no text is ever found. *)
Theorem text_key_is_unknown `{Beam} `{RusqliteText} {Db} `{RusqliteConn Db} {L} (d : WalDispatch L) key opts
    (h : XqliteConn Db) :
  get d (KText key) (Opts opts) [] h = (Some (Err (TTuple [TAtom "unknown_pragma"; TBin key])), h).
Proof. done. Qed.

(** With [:db_name], a check that reports two problems or more raises. *)
Theorem qualified_check_raises `{Beam} `{RusqliteText} {Db} `{RusqliteConn Db} {L} (d : WalDispatch L) name
    (h h' : XqliteConn Db) r1 r2 rs :
  nif_query (str "PRAGMA " ++ quote_name name ++ str "." ++ str "integrity_check" ++ str ";") [] h
    = (Some (Ok (r1 :: r2 :: rs)), h') ->
  get d (KAtom "integrity_check") (Opts [("db_name"%string, name)]) [] h = (None, h').
Proof.
  intros E. change (get d (KAtom "integrity_check") (Opts [("db_name"%string, name)]) [] h) with
    (with_ok (do_pragma_read d (KAtom "integrity_check") [("db_name"%string, name)])
       (fun v => reply (shape (reads_as RText [0; 1] true) v)) h).
  unfold do_pragma_read. cbn [db_name assoc_get String.eqb Ascii.eqb Bool.eqb key_text].
  unfold with_ok. rewrite E. by destruct r1 as [|? []].
Qed.
