(* ===== verification/Bridge.v ===== *)
(** * [lib/xqlite/telemetry/bridge.ex]: hook deliveries as telemetry events

    A bridge is a process that subscribes to hooks of a connection (or to the log
    hook) through their NIFs and re-emits each message it receives.  The code is
    modelled against [HookPort], what it uses of the NIFs; [HookPortLaws] says who is
    subscribed to what, and [BridgePort] discharges it for the connection resource and
    the log hook of the crate.  Keyword lists and lists are proper; a
    handle is the integer the NIF answered. *)

From Stdlib Require Import Floats.SpecFloat.
From S2P Require Import Prelude RustStr Sqlite Terms Heap Elixir.

(** [hook_kind()], with [:busy], which the code has and the type does not. *)
Inductive hook := Wal | Commit | Rollback | Update | Progress | Busy | Log.
#[export] Instance hook_eq_dec : EqDecision hook.
Proof. solve_decision. Defined.

(** What [:progress] is registered with; the other hooks ignore it. *)
Record tick_args := mkTicks { ticks_every : Z; ticks_tag : option bytes }.

(** The fourteen hook NIFs: a subscriber pid or a handle in, a term out; [None] is
    undefined behaviour. *)
Class HookPort (St : Type) := {
  nif_register : hook -> Z -> tick_args -> St -> option (term * St);
  nif_unregister : hook -> Z -> St -> option (term * St);
}.

(** ** The options *)

Abbreviation keyword := (list (string * term)).

(** [Keyword.get(opts, key, default)] *)
Fixpoint keyword_get (opts : keyword) (key : string) (default : term) : term :=
  match opts with
  | [] => default
  | (k, v) :: opts => if String.eqb k key then v else keyword_get opts key default
  end.

Definition per_conn_hooks : list string := ["wal"; "commit"; "rollback"; "update"; "progress"; "busy"]%string.
Definition valid_per_conn_hooks : list string := per_conn_hooks ++ ["all"%string].

(** [None]: no clause. *)
Definition expand_hooks (hooks : term) : option (list term) :=
  match hooks with
  | TAtom a => if String.eqb a "all" then Some (map TAtom per_conn_hooks) else None
  | TList l => Some l
  | _ => None
  end.

(** [h not in @valid_per_conn_hooks] *)
Definition bad_hook (h : term) : bool := negb (existsb (fun a => is_atom a h) valid_per_conn_hooks).

(** [Enum.find] answers [nil] when it finds nothing, and when it finds [nil]. *)
Definition validate_hooks (hooks : list term) : result unit term :=
  match List.find bad_hook hooks with
  | None => Ok tt
  | Some bad =>
      if is_nil bad then Ok tt
      else Err (TTuple [TAtom "invalid_hook"; bad;
                        TList [TTuple [TAtom "valid"; TList (map TAtom valid_per_conn_hooks)]]])
  end.

(** The clauses of [register_per_conn_hook] and [unregister_hook] that have a hook's
    atom; no clause for [:all]. *)
Definition per_conn_hook (h : term) : option hook :=
  match h with
  | TAtom a =>
      if String.eqb a "wal" then Some Wal
      else if String.eqb a "commit" then Some Commit
      else if String.eqb a "rollback" then Some Rollback
      else if String.eqb a "update" then Some Update
      else if String.eqb a "progress" then Some Progress
      else if String.eqb a "busy" then Some Busy
      else None
  | _ => None
  end.

(** The value of [:progress], if it is a keyword list. *)
Definition keyword_of (t : term) : option keyword :=
  match t with
  | TList l => Some (omap (fun t => match t with TTuple [TAtom k; v] => Some (k, v) | _ => None end) l)
  | _ => None
  end.

(** [every_n] is decoded as [u32], the tag is [nil] or an atom; else an exception. *)
Definition progress_args (opts : option keyword) : option tick_args :=
  let! opts := opts in
  match keyword_get opts "every_n" (TInt 1000), keyword_get opts "tag" nil_term with
  | TInt n, TAtom a =>
      if in_u 32 n then Some (mkTicks n (if String.eqb a "nil" then None else Some (str a))) else None
  | _, _ => None
  end.

(** ** Bridges *)

Inductive scope := SConn (conn : Z) | SLog.

(** The state of the GenServer; the struct [%Bridge{}]. *)
Record bridge_state := mkBState { st_scope : scope; st_tag : term }.
Record bridge := mkBridge { b_pid : Z; b_scope : scope; b_tag : term; hook_handles : list (hook * Z) }.

(** The NIFs' state and the bridge processes that are alive. *)
Record sys (St : Type) := mkBSys { port : St; procs : gmap Z bridge_state }.
Arguments mkBSys {St}. Arguments port {St}. Arguments procs {St}.

Section Bridge.
  Context {St : Type} `{HookPort St}.
  (** [Xqlite.Telemetry.enabled?()], decided at compile time *)
  Context (telemetry_enabled : bool).

(** [{:ok, handle}], [{:error, _}], or no clause *)
Definition handle_of (answer : term) : outcome Z :=
  match answer with
  | TTuple [TAtom a; v] =>
      if String.eqb a "ok" then match v with TInt i => Some (Ok i) | _ => None end
      else if String.eqb a "error" then Some (Err v) else None
  | _ => None
  end.

Definition register_per_conn_hook (pid : Z) (h : term) (opts : option keyword) (s : St) : option (outcome (hook * Z) * St) :=
  let call k args :=
    let! x := nif_register k pid args s in
    Some (option_map (result_map (fun i => (k, i))) (handle_of x.1), x.2) in
  match per_conn_hook h with
  | None => Some (None, s)
  | Some Progress => match progress_args opts with Some args => call Progress args | None => Some (None, s) end
  | Some k => call k (mkTicks 0 None)
  end.

(** [None]: no clause for this scope and hook. *)
Definition unregister_hook (sc : scope) (k : hook) (handle : Z) (s : St) : option (option term * St) :=
  let call := let! x := nif_unregister k handle s in Some (Some x.1, x.2) in
  match sc, k with
  | SLog, Log => call
  | SLog, _ | SConn _, Log => Some (None, s)
  | SConn _, _ => call
  end.

(** [Enum.each(handles, ..)]: answers are ignored, an exception ends it ([false]). *)
Fixpoint unregister_each (sc : scope) (handles : list (hook * Z)) (s : St) : option (bool * St) :=
  match handles with
  | [] => Some (true, s)
  | (k, handle) :: handles =>
      let! x := unregister_hook sc k handle s in
      match x.1 with Some _ => unregister_each sc handles x.2 | None => Some (false, x.2) end
  end.

(** [if Process.alive?(pid), do: GenServer.stop(pid, :normal, 1_000)] *)
Definition stop_if_alive (pid : Z) (ps : gmap Z bridge_state) : gmap Z bridge_state :=
  match ps !! pid with Some _ => delete pid ps | None => ps end.

(** The reduction of [register_per_conn_hooks]; [acc] has the last handle first. *)
Fixpoint register_per_conn_hooks (pid conn : Z) (hooks : list term) (opts : option keyword) (acc : list (hook * Z)) (s : sys St)
    : option (outcome (list (hook * Z)) * sys St) :=
  match hooks with
  | [] => Some (Some (Ok (reverse acc)), s)
  | h :: hooks =>
      let! x := register_per_conn_hook pid h opts (port s) in
      match x.1 with
      | Some (Ok kh) => register_per_conn_hooks pid conn hooks opts (kh :: acc) (mkBSys x.2 (procs s))
      | Some (Err e) =>
          let! y := unregister_each (SConn conn) acc x.2 in
          if y.1 : bool then Some (Some (Err e), mkBSys y.2 (stop_if_alive pid (procs s)))
          else Some (None, mkBSys y.2 (procs s))
      | None => Some (None, mkBSys x.2 (procs s))
      end
  end.

(** [start_link]: a process with a pid of its own, the runtime's [pid]. *)
Definition start_link (pid : Z) (st : bridge_state) (s : sys St) : sys St := mkBSys (port s) (<[pid := st]> (procs s)).

Definition bridge_per_conn (pid conn : Z) (opts : keyword) (s : sys St) : option (outcome bridge * sys St) :=
  if telemetry_enabled then
    match expand_hooks (keyword_get opts "hooks" (TAtom "all")) with
    | None => Some (None, s)
    | Some hooks =>
        let tag := keyword_get opts "tag" nil_term in
        let progress_opts := keyword_of (keyword_get opts "progress" (TList [])) in
        match validate_hooks hooks with
        | Err e => Some (Some (Err e), s)
        | Ok _ =>
            let s := start_link pid (mkBState (SConn conn) tag) s in
            let! x := register_per_conn_hooks pid conn hooks progress_opts [] s in
            Some (option_map (result_map (mkBridge pid (SConn conn) tag)) x.1, x.2)
        end
    end
  else Some (Some (Err (TAtom "telemetry_disabled")), s).

Definition bridge_log_global (pid : Z) (opts : keyword) (s : sys St) : option (outcome bridge * sys St) :=
  if telemetry_enabled then
    let tag := keyword_get opts "tag" nil_term in
    let s := start_link pid (mkBState SLog tag) s in
    let! x := nif_register Log pid (mkTicks 0 None) (port s) in
    Some (option_map (result_map (fun i => mkBridge pid SLog tag [(Log, i)])) (handle_of x.1), mkBSys x.2 (procs s))
  else Some (Some (Err (TAtom "telemetry_disabled")), s).

Definition unbridge (b : bridge) (s : sys St) : option (outcome unit * sys St) :=
  let! x := unregister_each (b_scope b) (hook_handles b) (port s) in
  if x.1 : bool then Some (Some (Ok tt), mkBSys x.2 (stop_if_alive (b_pid b) (procs s)))
  else Some (None, mkBSys x.2 (procs s)).

End Bridge.

(** ** Messages as events *)

Record tevent := mkTEvent { name : list string; measurements : gmap string term; metadata : gmap string term }.

Definition scope_metadata (st : bridge_state) : gmap string term :=
  match st_scope st with
  | SConn conn => <["conn" := TRef conn]> {["tag" := st_tag st]}
  | SLog => {["tag" := st_tag st]}
  end.

(** [elapsed_ms * 1_000_000]; [None] is an [ArithmeticError]. *)
Definition scale_ms (ms : term) : option term :=
  match ms with
  | TInt z => Some (TInt (z * 1000000))
  | TFloat f =>
      match SFmul 53 1024 f (binary_normalize 53 1024 1000000 0 false) with
      | S754_infinity _ | S754_nan => None
      | g => Some (TFloat g)
      end
  | _ => None
  end.

(** [Bitwise.band(code, 0xFF)] *)
Definition base_code (code : term) : option term :=
  match code with TInt z => Some (TInt (Z.land z 255)) | _ => None end.

Inductive reaction := Emit (e : tevent) | Ignored | Crash.

Definition emit_if {A} (o : option A) (f : A -> tevent) : reaction :=
  match o with Some a => Emit (f a) | None => Crash end.

(** The clauses of [handle_hook_message]; [now] is the monotonic clock. *)
Definition handle_hook_message (now : Z) (message : term) (st : bridge_state) : reaction :=
  let ev (kind : string) m meta :=
    mkTEvent ["xqlite"; "hook"; kind]%string (<["monotonic_time" := TInt now]> m) meta in
  let meta := scope_metadata st in
  match message with
  | TTuple [TAtom a] =>
      if String.eqb a "xqlite_commit" then Emit (ev "commit" ∅ meta)
      else if String.eqb a "xqlite_rollback" then Emit (ev "rollback" ∅ meta)
      else Ignored
  | TTuple [TAtom a; x; y] =>
      if String.eqb a "xqlite_wal" then Emit (ev "wal" {["pages" := y]} (<["db_name" := x]> meta))
      else if String.eqb a "xqlite_progress" then
        emit_if (scale_ms y) (fun ns =>
          ev "progress" (<["count" := x]> {["elapsed" := ns]}) (<["hook_tag" := nil_term]> meta))
      else if String.eqb a "xqlite_busy" then
        emit_if (scale_ms y) (fun ns => ev "busy" (<["retries" := x]> {["elapsed" := ns]}) meta)
      else if String.eqb a "xqlite_log" then
        emit_if (base_code x) (fun base =>
          ev "log" ∅ (<["code" := x]> (<["base_code" := base]> (<["message" := y]> meta))))
      else Ignored
  | TTuple [TAtom a; hook_tag; count; ms] =>
      if String.eqb a "xqlite_progress" then
        emit_if (scale_ms ms) (fun ns =>
          ev "progress" (<["count" := count]> {["elapsed" := ns]}) (<["hook_tag" := hook_tag]> meta))
      else Ignored
  | TTuple [TAtom a; action; db_name; table; rowid] =>
      if String.eqb a "xqlite_update" then
        Emit (ev "update" ∅
          (<["action" := action]> (<["db_name" := db_name]> (<["table" := table]> (<["rowid" := rowid]> meta)))))
      else Ignored
  | _ => Ignored
  end.

(** [handle_info]: the state stays; with telemetry off, [emit] does nothing. *)
Definition handle_info (telemetry_enabled : bool) (now : Z) (message : term) (st : bridge_state)
    : option (list tevent * bridge_state) :=
  match handle_hook_message now message st with
  | Emit e => Some (if telemetry_enabled then [e] else [], st)
  | Ignored => Some ([], st)
  | Crash => None
  end.

(** ** What the NIFs promise: who is subscribed to what *)

(** Per hook, the handles with the pids they stand for, oldest first. *)
Abbreviation view := (hook -> list (Z * Z)).

Definition upd {A} (v : hook -> A) (k : hook) (a : A) : hook -> A := fun k' => if decide (k' = k) then a else v k'.

(** [subs s B v]: the NIFs can be used, [v] is subscribed and no list has given out
    more than [B] handles.  Removing an observer is a registration with SQLite, which
    may refuse it; the other lists only fail with their connection. *)
Class HookPortLaws (St : Type) `{HookPort St} := {
  subs : St -> Z -> view -> Prop;
  register_law k p a s B v : subs s B v -> B + 1 < 2 ^ 64 ->
    exists t s', nif_register k p a s = Some (t, s') /\
      ((exists i, t = ok_tuple (TInt i) /\ i ∉ (v k).*1 /\ subs s' (B + 1) (upd v k (v k ++ [(i, p)]))) \/
       (exists e, t = error_tuple e /\ subs s' (B + 1) v));
  unregister_law k i s B v : subs s B v -> B < 2 ^ 64 ->
    exists t s', nif_unregister k i s = Some (t, s') /\
      ((t = TAtom "ok" /\ subs s' B (upd v k (filter (fun x => x.1 <> i) (v k)))) \/
       (k = Busy /\ exists e, t = error_tuple e /\ subs s' B v));
  subs_le s B B' v : subs s B v -> B <= B' -> subs s B' v;
}.

(** Other processes' calls: the answer is theirs. *)
Inductive port_op := PReg (k : hook) (p : Z) (a : tick_args) | PUnreg (k : hook) (i : Z).

Fixpoint run_port {St} `{HookPort St} (ops : list port_op) (s : St) : option St :=
  match ops with
  | [] => Some s
  | o :: ops =>
      let! x := match o with PReg k p a => nif_register k p a s | PUnreg k i => nif_unregister k i s end in
      run_port ops x.2
  end.

(** The call is not made for the bridge: another pid, a handle that is not its own. *)
Definition foreign (b : bridge) (o : port_op) : Prop :=
  match o with PReg _ p _ => p <> b_pid b | PUnreg k i => (k, i) ∉ hook_handles b end.

(** The subscriptions of the bridge's process are its handles. *)
Definition owns (b : bridge) (v : view) : Prop :=
  (forall k x, x ∈ v k -> x.2 = b_pid b <-> (k, x.1) ∈ hook_handles b) /\
  (forall k i, (k, i) ∈ hook_handles b -> (i, b_pid b) ∈ v k).

Definition others (pid : Z) (l : list (Z * Z)) : list (Z * Z) := filter (fun x => x.2 <> pid) l.
(** Without the handles [hs]. *)
Definition except (hs : list (hook * Z)) (k : hook) (l : list (Z * Z)) : list (Z * Z) :=
  filter (fun x => (k, x.1) ∉ hs) l.

Definition in_scope (sc : scope) (k : hook) : Prop := match sc with SConn _ => k <> Log | SLog => k = Log end.

(** ** Lemmas *)

Lemma upd_same {A} (v : hook -> A) k a : upd v k a k = a.
Proof. unfold upd. by rewrite decide_True. Qed.
Lemma upd_other {A} (v : hook -> A) k k' a : k' <> k -> upd v k a k' = v k'.
Proof. intros Hk. unfold upd. by rewrite decide_False. Qed.

Lemma filter_ext_elem {A} (P Q : A -> Prop) `{!forall x, Decision (P x), !forall x, Decision (Q x)} (l : list A) :
  (forall x, x ∈ l -> P x <-> Q x) -> filter P l = filter Q l.
Proof.
  induction l as [|x l IH]; intros Hl; [done|]. rewrite !filter_cons, IH by (intros; apply Hl; by right).
  assert (P x <-> Q x) as Hx by (apply Hl; by left). destruct (decide (P x)), (decide (Q x)); tauto.
Qed.

Lemma filter_none {A} (P : A -> Prop) `{!forall x, Decision (P x)} (l : list A) : (forall x, x ∈ l -> ~ P x) -> filter P l = [].
Proof.
  intros Hl. transitivity (filter (fun _ : A => False) l).
  - apply filter_ext_elem. intros x Hx%Hl. done.
  - induction l as [|x l IH]; [done|]. rewrite filter_cons, decide_False by tauto. apply IH. intros; apply Hl. by right.
Qed.

Section Laws.
  Context {St : Type} `{HookPortLaws St}.

(** What is left of [v] when [hs] are unregistered: an observer may stay. *)
Definition left_of (hs : list (hook * Z)) (v v' : view) : Prop :=
  forall k, sublist (v' k) (v k) /\ except hs k (v' k) = except hs k (v k) /\ (k <> Busy -> v' k = except hs k (v k)).

Lemma left_of_nil v : left_of [] v v.
Proof.
  intros k. assert (except [] k (v k) = v k) as He.
  { apply filter_all, list.Forall_forall. intros x _ Hx. by inversion Hx. }
  by rewrite He.
Qed.

Lemma except_cons k0 i hs k l :
  except ((k0, i) :: hs) k l = except hs k (if decide (k = k0) then filter (fun x => x.1 <> i) l else l).
Proof.
  unfold except. destruct (decide (k = k0)) as [->|Hk].
  - rewrite list_filter_filter. apply filter_ext_elem. intros x _. rewrite not_elem_of_cons. naive_solver.
  - apply filter_ext_elem. intros x _. rewrite not_elem_of_cons. naive_solver.
Qed.

Lemma unregister_each_spec sc hs s B v : Forall (fun x => in_scope sc x.1) hs -> subs s B v -> B < 2 ^ 64 ->
  exists s' v', unregister_each sc hs s = Some (true, s') /\ subs s' B v' /\ left_of hs v v'.
Proof.
  intros Hsc Hs HB. revert s v Hs; induction Hsc as [|[k i] hs Hk _ IH]; intros s v Hs; cbn [unregister_each].
  { exists s, v. split_and!; [done|done|]. apply left_of_nil. }
  destruct (unregister_law k i s B v Hs HB) as (t & s1 & E & Hc).
  assert (unregister_hook sc k i s = Some (Some t, s1)) as ->.
  { unfold unregister_hook. rewrite E. destruct sc; cbn in Hk; [by destruct k|by subst k]. }
  cbn [fst snd]. destruct Hc as [[-> Hs1]|(-> & e & -> & Hs1)].
  - destruct (IH s1 _ Hs1) as (s' & v' & -> & Hs' & Hl). exists s', v'. split_and!; [done|done|].
    intros k'. destruct (Hl k') as (H1 & H2 & H3). rewrite !except_cons. unfold upd in *.
    destruct (decide (k' = k)) as [->|Hne]; [|by split_and!].
    split_and!; [etransitivity; [exact H1|apply sublist_filter]| |exact H3].
    rewrite <- H2. f_equal. apply filter_all, list.Forall_forall. intros x Hx.
    apply (sublist_subseteq _ _ H1) in Hx. by apply list_elem_of_filter in Hx as [? _].
  - destruct (IH s1 _ Hs1) as (s' & v' & -> & Hs' & Hl). exists s', v'. split_and!; [done|done|].
    intros k'. destruct (Hl k') as (H1 & H2 & H3). rewrite !except_cons.
    destruct (decide (k' = Busy)) as [->|Hne]; [|by split_and!].
    split_and!; [done| |done]. unfold except in *. rewrite !list_filter_filter.
    transitivity (filter (fun x : Z * Z => x.1 <> i) (filter (fun x => (Busy, x.1) ∉ hs) (v' Busy))).
    + rewrite list_filter_filter. apply filter_ext_elem. naive_solver.
    + rewrite H2, list_filter_filter. apply filter_ext_elem. naive_solver.
Qed.

Lemma handle_of_ok i : handle_of (ok_tuple (TInt i)) = Some (Ok i).
Proof. done. Qed.
Lemma handle_of_error e : handle_of (error_tuple e) = Some (Err e).
Proof. done. Qed.

Lemma register_hook_step pid h k opts s B v : per_conn_hook h = Some k -> is_Some (progress_args opts) ->
  subs s B v -> B + 1 < 2 ^ 64 ->
  exists x s', register_per_conn_hook pid h opts s = Some (Some x, s') /\
    match x with
    | Ok kh => exists i, kh = (k, i) /\ i ∉ (v k).*1 /\ subs s' (B + 1) (upd v k (v k ++ [(i, pid)]))
    | Err _ => subs s' (B + 1) v
    end.
Proof.
  intros Hk [args Ha] Hs HB. unfold register_per_conn_hook. rewrite Hk, Ha.
  assert (forall a, exists x s', (let! y := nif_register k pid a s in
      Some (option_map (result_map (fun i => (k, i))) (handle_of y.1), y.2)) = Some (Some x, s') /\
    match x with
    | Ok kh => exists i, kh = (k, i) /\ i ∉ (v k).*1 /\ subs s' (B + 1) (upd v k (v k ++ [(i, pid)]))
    | Err _ => subs s' (B + 1) v
    end) as Hc.
  { intros a. destruct (register_law k pid a s B v Hs HB) as (t & s' & -> & [(i & -> & Hi & Hs')|(e & -> & Hs')]);
      cbn [fst snd]; rewrite ?handle_of_ok, ?handle_of_error; eexists _, s'; (split; [done|]); cbn; eauto. }
  destruct k; apply Hc.
Qed.

(** The entries that the handles [hs] of [pid] add to the list of [k]. *)
Definition own (pid : Z) (k : hook) (hs : list (hook * Z)) : list (Z * Z) :=
  map (fun x => (x.2, pid)) (filter (fun x => x.1 = k) hs).

Lemma own_elem pid k hs x : x ∈ own pid k hs <-> x.2 = pid /\ (k, x.1) ∈ hs.
Proof.
  unfold own. rewrite list_elem_of_fmap. destruct x as [i p]. split.
  - intros ([k' i'] & [= -> ->] & [Hk Hin]%list_elem_of_filter). cbn in Hk. by subst k'.
  - intros [Hp Hin]. cbn in Hp, Hin. subst p. exists (k, i). by rewrite list_elem_of_filter.
Qed.

(** [v] with the handles [hs] of [pid], none of which [v] had. *)
Definition extends (pid : Z) (v0 : view) (hs : list (hook * Z)) (v : view) : Prop :=
  (forall k, v k = v0 k ++ own pid k hs) /\ (forall k i, (k, i) ∈ hs -> i ∉ (v0 k).*1) /\
  (forall k, pid ∉ (v0 k).*2).

Lemma extends_snoc pid v0 hs v k i : extends pid v0 hs v -> i ∉ (v k).*1 ->
  extends pid v0 (hs ++ [(k, i)]) (upd v k (v k ++ [(i, pid)])).
Proof.
  intros (Hv & Hf & Hp) Hi. split_and!; [| |done].
  - intros k'. unfold own in *. rewrite list.filter_app, map_app, app_assoc, filter_cons, filter_nil.
    destruct (decide (k' = k)) as [->|Hk]; [rewrite upd_same, decide_True by done|rewrite upd_other, decide_False by naive_solver];
      rewrite Hv; cbn; by rewrite ?app_nil_r.
  - intros k' i' [Hin|[= -> ->]%list_elem_of_singleton]%elem_of_app; [by eapply Hf|].
    rewrite Hv, fmap_app in Hi. intros Hx. apply Hi. apply elem_of_app. by left.
Qed.

(** For the entries of such a view, being the bridge's is having one of its handles. *)
Lemma extends_owns pid v0 hs v k x : extends pid v0 hs v -> x ∈ v k -> x.2 = pid <-> (k, x.1) ∈ hs.
Proof.
  intros (Hv & Hf & Hp). rewrite Hv. intros [Hx|Hx]%elem_of_app; [|by apply own_elem in Hx as [-> ?]].
  split; intros Hy; exfalso.
  - apply (Hp k). subst pid. by apply list_elem_of_fmap_2.
  - apply (Hf k x.1); [done|]. by apply list_elem_of_fmap_2.
Qed.

Lemma extends_except pid v0 hs v k : extends pid v0 hs v -> except hs k (v k) = v0 k.
Proof.
  intros Hx. pose proof Hx as (Hv & Hf & _). rewrite Hv. unfold except. rewrite list.filter_app.
  rewrite filter_all; [|apply list.Forall_forall; intros x Hin He; apply (Hf _ _ He); by apply list_elem_of_fmap_2].
  rewrite (filter_none _ (own pid k hs)); [by rewrite app_nil_r|]. intros x [_ Hin]%own_elem Hn. by apply Hn.
Qed.

(** Unregistering the handles of such a view. *)
Lemma left_of_others pid hs v v' : (forall k x, x ∈ v k -> x.2 = pid <-> (k, x.1) ∈ hs) -> left_of hs v v' ->
  forall k, others pid (v' k) = others pid (v k) /\ (k <> Busy -> v' k = others pid (v k)).
Proof.
  intros Ho Hl k. destruct (Hl k) as (H1 & H2 & H3).
  assert (except hs k (v k) = others pid (v k)) as He by (apply filter_ext_elem; intros x Hx; by rewrite <- Ho).
  assert (except hs k (v' k) = others pid (v' k)) as He'.
  { apply filter_ext_elem. intros x Hx%(sublist_subseteq _ _ H1). by rewrite <- Ho. }
  rewrite He in *. rewrite He' in H2. auto.
Qed.

Lemma extends_others pid v0 hs v k : extends pid v0 hs v -> others pid (v k) = v0 k.
Proof.
  intros Hx. rewrite <- (extends_except _ _ _ _ k Hx). apply filter_ext_elem. intros x Hin.
  by rewrite (extends_owns _ _ _ _ _ _ Hx Hin).
Qed.

(** A hook of a connection is not the log's. *)
Lemma per_conn_not_log h k : per_conn_hook h = Some k -> k <> Log.
Proof. intros Hk ->. unfold per_conn_hook in Hk. by repeat case_match. Qed.

Lemma register_hooks_spec pid conn hooks ks opts acc s B v0 v :
  Forall2 (fun h k => per_conn_hook h = Some k) hooks ks -> is_Some (progress_args opts) ->
  subs (port s) B v -> extends pid v0 (reverse acc) v -> Forall (fun x => x.1 <> Log) acc ->
  B + Z.of_nat (length hooks) < 2 ^ 64 ->
  exists x s' v', register_per_conn_hooks pid conn hooks opts acc s = Some (Some x, s') /\
    subs (port s') (B + Z.of_nat (length hooks)) v' /\
    match x with
    | Ok hs => exists new, hs = reverse acc ++ new /\ new.*1 = ks /\ extends pid v0 hs v' /\ procs s' = procs s
    | Err _ => (forall k, others pid (v' k) = v0 k /\ (k <> Busy -> v' k = v0 k)) /\
               procs s' = stop_if_alive pid (procs s)
    end.
Proof.
  intros Hf Hp. revert acc s B v; induction Hf as [|h k hooks ks Hk Hf IH]; intros acc s B v Hs Hx Hl HB;
    cbn [register_per_conn_hooks length].
  { exists (Ok (reverse acc)), s, v. rewrite Z.add_0_r. split_and!; [done|done|]. exists []. by rewrite app_nil_r. }
  cbn [length] in HB.
  destruct (register_hook_step pid h k opts (port s) B v Hk Hp Hs) as ([kh|e] & s1 & -> & Hc); [lia|..]; cbn [fst snd].
  - destruct Hc as (i & -> & Hi & Hs1).
    destruct (IH ((k, i) :: acc) (mkBSys s1 (procs s)) (B + 1) _ Hs1) as (x & s' & v' & -> & Hs' & Hr).
    + rewrite reverse_cons. by apply extends_snoc.
    + constructor; [|done]. by eapply per_conn_not_log.
    + lia.
    + exists x, s', v'. split_and!; [done|eapply subs_le; [exact Hs'|lia]|]. destruct x as [hs|e']; [|exact Hr].
      destruct Hr as (new & -> & Hn & Hx' & Hpr). exists ((k, i) :: new). rewrite reverse_cons, <- app_assoc in *.
      by cbn; rewrite Hn.
  - destruct (unregister_each_spec (SConn conn) acc s1 (B + 1) v Hl Hc ltac:(lia)) as (s2 & v2 & -> & Hs2 & Hr). cbn [fst snd].
    eexists _, _, v2. split_and!; [done|eapply subs_le; [exact Hs2|lia]|]. split; [|done].
    intros k'. destruct (left_of_others pid acc v v2) with (k := k') as [H1 H2]; [|done|].
    { intros k0 x Hin. rewrite (extends_owns _ _ _ _ _ _ Hx Hin). by rewrite elem_of_reverse. }
    rewrite (extends_others _ _ _ _ k' Hx) in *. auto.
Qed.

Lemma extends_bridge pid v0 v hs sc tag : extends pid v0 hs v -> owns (mkBridge pid sc tag hs) v.
Proof.
  intros Hx. split.
  - intros k x Hin. by apply (extends_owns _ _ _ _ _ _ Hx).
  - intros k i Hin. rewrite (proj1 Hx). apply elem_of_app. right. by apply own_elem.
Qed.

Lemma known_hooks conn hooks ks (hs : list (hook * Z)) : Forall2 (fun h k => per_conn_hook h = Some k) hooks ks -> hs.*1 = ks ->
  Forall (fun x => in_scope (SConn conn) x.1) hs.
Proof.
  intros Hf Hk. apply list.Forall_forall. intros x Hx. apply (list_elem_of_fmap_2 fst) in Hx. rewrite Hk in Hx.
  apply list_elem_of_lookup in Hx as [i Hi]. destruct (Forall2_lookup_r _ _ _ _ _ Hf Hi) as (h & _ & Hh).
  by eapply per_conn_not_log.
Qed.

(** Every accepted hook passes the validation. *)
Lemma known_hook_valid h k : per_conn_hook h = Some k -> bad_hook h = false.
Proof.
  unfold per_conn_hook. intros Hk. destruct h as [a| | | | | | | | | | | | |]; try done.
  repeat (destruct (String.eqb a _) eqn:E in Hk; [apply String.eqb_eq in E; by subst a|]; clear E). done.
Qed.

Lemma hooks_validate hooks ks : Forall2 (fun h k => per_conn_hook h = Some k) hooks ks -> validate_hooks hooks = Ok tt.
Proof.
  intros Hf. unfold validate_hooks. replace (List.find bad_hook hooks) with (@None term); [done|]. symmetry.
  induction Hf as [|h k hooks ks Hk _ IH]; [done|]. cbn [List.find]. by rewrite (known_hook_valid h k Hk).
Qed.

(** The first hook that is neither known nor [:all] nor [nil] is refused. *)
Lemma unknown_hook_invalid pre bad post : Forall (fun h => is_Some (per_conn_hook h)) pre -> per_conn_hook bad = None ->
  bad <> TAtom "all" -> bad <> nil_term ->
  validate_hooks (pre ++ bad :: post) =
    Err (TTuple [TAtom "invalid_hook"; bad; TList [TTuple [TAtom "valid"; TList (map TAtom valid_per_conn_hooks)]]]).
Proof.
  intros Hpre Hb Hall Hnil. unfold validate_hooks. replace (List.find bad_hook (pre ++ bad :: post)) with (Some bad).
  { replace (is_nil bad) with false; [done|]. symmetry. apply not_true_iff_false. by intros Hx%is_atom_true. }
  symmetry. induction Hpre as [|h pre [k Hk] _ IH]; cbn [app List.find].
  - replace (bad_hook bad) with true; [done|]. symmetry. unfold bad_hook. apply negb_true_iff, not_true_iff_false.
    intros (a & Hin & Ha)%existsb_exists. apply is_atom_true in Ha as ->. cbn in Hin. by intuition subst.
  - by rewrite (known_hook_valid h k Hk).
Qed.

(** Calls by others keep what the bridge owns. *)
Lemma foreign_owns b ops s B v : Forall (foreign b) ops -> owns b v -> subs s B v ->
  B + Z.of_nat (length ops) < 2 ^ 64 ->
  exists s' v', run_port ops s = Some s' /\ subs s' (B + Z.of_nat (length ops)) v' /\ owns b v'.
Proof.
  intros Hf. revert s B v; induction Hf as [|o ops Ho _ IH]; intros s B v Hown Hs HB; cbn [run_port length] in *.
  { exists s, v. by rewrite Z.add_0_r. }
  assert (exists t s1 v1, match o with PReg k p a => nif_register k p a s | PUnreg k i => nif_unregister k i s end
    = Some (t, s1) /\ subs s1 (B + 1) v1 /\ owns b v1) as (t & s1 & v1 & -> & Hs1 & Ho1).
  { destruct Hown as [Hio Hin]. destruct o as [k p a|k i]; cbn in Ho.
    - destruct (register_law k p a s B v Hs) as (t & s1 & E & [(i & -> & Hi & Hs1)|(e & -> & Hs1)]); [lia|..];
        eexists _, s1, _; (split_and!; [exact E|exact Hs1|]); [|done]. split.
      + intros k' x. unfold upd. destruct (decide (k' = k)) as [->|]; [|apply Hio].
        intros [Hx|Hx%list_elem_of_singleton]%elem_of_app; [by apply Hio|]. subst x. cbn. split; [done|].
        intros Hx%Hin. exfalso. apply Hi. by apply (list_elem_of_fmap_2 fst) in Hx.
      + intros k' i' Hx%Hin. unfold upd. destruct (decide (k' = k)) as [->|]; [|done]. apply elem_of_app. by left.
    - destruct (unregister_law k i s B v Hs) as (t & s1 & E & [[-> Hs1]|(_ & e & -> & Hs1)]); [lia|..];
        apply (subs_le _ _ (B + 1)) in Hs1; try lia; eexists _, s1, _; (split_and!; [exact E|exact Hs1|]); [|done]. split.
      + intros k' x. unfold upd. destruct (decide (k' = k)) as [->|]; [|apply Hio].
        intros [_ Hx]%list_elem_of_filter. by apply Hio.
      + intros k' i' Hx. pose proof (Hin _ _ Hx) as Hv. unfold upd. destruct (decide (k' = k)) as [->|]; [|done].
        apply list_elem_of_filter. split; [|done]. cbn. by intros ->. }
  cbn [snd]. destruct (IH s1 (B + 1) v1 Ho1 Hs1) as (s' & v' & -> & Hs' & Ho'); [lia|]. exists s', v'. split_and!; [done| |done].
  eapply subs_le; [exact Hs'|lia].
Qed.

End Laws.
