(* ===== verification/BridgePort.v ===== *)
(** * The telemetry bridge over the crate's hook NIFs

    The connection resource and the log hook keep [HookPortLaws], SQLite's callbacks
    send their messages to what it says is subscribed, and so the theorems on
    [Bridge]'s definitions hold of the program as a whole. *)

From S2P Require Import Prelude RustStr Sqlite Terms Heap ConstraintParse Error Util HookList Hooks ProgressDispatch BusyHandler Connection Query Statements Nif Resource Entrypoints Elixir Bridge.

(** ** The crate's NIFs keep the promise *)

Section Port.
  Context `{Beam} `{RusqliteText} {Db : Type} `{BusyApiLaws Db}.
  (** The clock, and what [sqlite3_config] answers when the log hook is first used. *)
  Context (now : Z) (config_log : result unit bytes).
  Abbreviation res := (resource Db).
  Abbreviation nifs := ((res * world) * log_state pid_list)%type.

Definition on_res (x : option (term * res * world)) (g : log_state pid_list) : option (term * nifs) :=
  let! x := x in let '(t, r, w) := x in Some (t, (r, w, g)).
Definition on_log (x : option (term * log_state pid_list)) (r : res) (w : world) : option (term * nifs) :=
  let! x := x in Some (x.1, (r, w, x.2)).

#[export] Instance resource_port : HookPort nifs := {|
  nif_register k p a s :=
    let '(r, w, g) := s in
    match k with
    | Wal => on_res (register_wal_hook p r w) g
    | Commit => on_res (register_commit_hook p r w) g
    | Rollback => on_res (register_rollback_hook p r w) g
    | Update => on_res (register_update_hook p r w) g
    | Progress => on_res (register_progress_hook_nif p (ticks_every a) (ticks_tag a) now r w) g
    | Busy => on_res (register_busy_observer p now r w) g
    | Log => on_log (register_log_hook config_log p g) r w
    end;
  nif_unregister k i s :=
    let '(r, w, g) := s in
    match k with
    | Wal => on_res (unregister_wal_hook i r w) g
    | Commit => on_res (unregister_commit_hook i r w) g
    | Rollback => on_res (unregister_rollback_hook i r w) g
    | Update => on_res (unregister_update_hook i r w) g
    | Progress => on_res (unregister_progress_hook_nif i r w) g
    | Busy => on_res (unregister_busy_observer i now r w) g
    | Log => on_log (unregister_log_hook i g) r w
    end |}.

(** The list holds these handles and pids. *)
Definition held {T} (who : T -> Z) (l : hook_list T) (B : Z) (rows : list (Z * Z)) : Prop :=
  exists es n, sl_holds l es n /\ n <= B /\ rows = map (fun e => (HookList.id e, who (HookList.state e))) es.

Definition arc_held (w : world) (p : ptr) (B : Z) (rows : list (Z * Z)) : Prop :=
  exists l n, cells (lists w) !! p = Some (l, n) /\ held pid l B rows.

Definition arc_view (k : arc_hook) : hook :=
  match k with HUpdate => Update | HCommit => Commit | HRollback => Rollback end.

Definition res_subs (r : res) (w : world) (B : Z) (v : view) : Prop :=
  (exists d, wal_hook r = Some d /\ held pid (wal_list d) B (v Wal)) /\
  (forall k, arc_held w (arc_field k r) B (v (arc_view k))) /\
  (exists d, progress_dispatch r = Some d /\ held tick_pid (ticks d) B (v Progress)) /\
  (exists c a, conn_opt (lock r) = Some c /\ busy_rep (mkState (busy_handler r) (boxes w) (raw c) (busy_fx w)) a /\
     sp_next a <= B /\ sp_observers a = v Busy /\
     forall k, exists i, list_find (fun x => x.1 = k) (closures c) = Some (i, (k, arc_field k r))).

Definition nifs_subs (s : nifs) (B : Z) (v : view) : Prop :=
  let '(r, w, g) := s in
  poison (lock r) = None /\ NoDup (field_ptrs r) /\ res_subs r w B v /\
  lock_poisoned g = None /\ held pid (LOG_SUBSCRIBERS g) B (v Log).

(** *** Lemmas *)

Lemma held_le {T} (who : T -> Z) l B B' rows : B <= B' -> held who l B rows -> held who l B' rows.
Proof. intros HB (es & n & ? & ? & ?). exists es, n. split_and!; [done|lia|done]. Qed.

Lemma held_register {T} (who : T -> Z) t l B rows : B + 1 < 2 ^ 64 -> held who l B rows ->
  exists i l', sl_register t l = Some (i, l') /\ i ∉ rows.*1 /\ held who l' (B + 1) (rows ++ [(i, who t)]).
Proof.
  intros HB (es & n & Hh & Hn & ->). destruct (sl_register_holds t l es n Hh) as (l' & E & Hh'); [lia|].
  exists n, l'. split_and!; [done| |].
  - destruct (sl_ids _ _ _ Hh) as [_ Hlt]. intros (x & Hx & (e & -> & He)%list_elem_of_fmap)%list_elem_of_fmap.
    rewrite list.Forall_forall in Hlt. specialize (Hlt e He). cbn in Hx. lia.
  - eexists _, _. split_and!; [exact Hh'|lia|]. by rewrite map_app.
Qed.

Lemma held_unregister {T} (who : T -> Z) i l B rows : held who l B rows ->
  exists b l', sl_unregister i l = Some (b, l') /\ held who l' B (filter (fun x => x.1 <> i) rows).
Proof.
  intros (es & n & Hh & Hn & ->). destruct (sl_unregister_holds i l es n Hh) as (l' & E & Hh').
  eexists _, l'. split; [exact E|]. eexists _, _. split_and!; [exact Hh'|done|].
  clear. induction es as [|e es IH]; [done|]. cbn [map]. rewrite !filter_cons. cbn [fst].
  destruct (decide (HookList.id e <> i)); cbn [map]; by rewrite IH.
Qed.

Lemma arc_view_inj k k' : arc_view k = arc_view k' -> k = k'.
Proof. by destruct k, k'. Qed.

Lemma field_inj (r : res) k k' : NoDup (field_ptrs r) -> arc_field k r = arc_field k' r -> k = k'.
Proof.
  unfold field_ptrs. rewrite !list.NoDup_cons, !not_elem_of_cons. intros ((H1' & H2' & _) & (H3' & _) & _).
  by destruct k, k'; cbn; intros E; try done; rewrite E in *.
Qed.

(** Storing a list through one [Arc] changes that hook's entries only. *)
Lemma arc_store_subs (r : res) w k l' n B v rows : NoDup (field_ptrs r) -> res_subs r w B v -> held pid l' B rows ->
  res_subs r (set_lists w (mkHeap (<[arc_field k r := (l', n)]> (cells (lists w))) (brk (lists w)))) B (upd v (arc_view k) rows).
Proof.
  intros Hnd (Hw & Ha & Hp & Hb) Hl. split_and!.
  - by destruct k.
  - intros k'. unfold arc_held. cbn [lists set_lists cells]. destruct (decide (k' = k)) as [->|Hk].
    + exists l', n. by rewrite lookup_insert, decide_True, upd_same.
    + rewrite lookup_insert_ne by (by intros ?%field_inj). rewrite upd_other by (by intros ?%arc_view_inj). apply Ha.
  - by destruct k.
  - by destruct k.
Qed.

Lemma res_subs_le r w B B' v : B <= B' -> res_subs r w B v -> res_subs r w B' v.
Proof.
  intros HB ((d & Hd & Hl) & Ha & (d' & Hd' & Hl') & (c & a & Hc & Hr & Hn & Ho)). split_and!.
  - exists d. split; [done|]. by eapply held_le.
  - intros k. destruct (Ha k) as (l & n & E & Hh). exists l, n. split; [done|]. by eapply held_le.
  - exists d'. split; [done|]. by eapply held_le.
  - exists c, a. split_and!; [done|done|lia|apply Ho|apply Ho].
Qed.

Definition usable (r : res) : Prop := poison (lock r) = None /\ NoDup (field_ptrs r).

(** The two answers of a registration and of its removal. *)
Definition registers (k : hook) (p : Z) (B : Z) (v : view) (x : option (term * res * world)) : Prop :=
  exists t r w, x = Some (t, r, w) /\ usable r /\
    ((exists i, t = ok_tuple (TInt i) /\ i ∉ (v k).*1 /\ res_subs r w (B + 1) (upd v k (v k ++ [(i, p)]))) \/
     (exists e, t = error_tuple e /\ res_subs r w (B + 1) v)).
Definition unregisters (k : hook) (i : Z) (B : Z) (v : view) (x : option (term * res * world)) : Prop :=
  exists t r w, x = Some (t, r, w) /\ usable r /\
    ((t = TAtom "ok" /\ res_subs r w B (upd v k (filter (fun x => x.1 <> i) (v k)))) \/
     (k = Busy /\ exists e, t = error_tuple e /\ res_subs r w B v)).

Lemma with_locked_run {R} (r : res) w (f : Conn Db -> option (result R XqliteError * res * world)) B v :
  usable r -> res_subs r w B v -> exists c, conn_opt (lock r) = Some c /\ with_locked r w f = f c.
Proof.
  intros [Hp _] (_ & _ & _ & (c & a & Hc & _)). exists c. split; [done|]. unfold with_locked. by rewrite Hp, Hc.
Qed.

Lemma register_arc_subs k p r w B v : usable r -> res_subs r w B v -> B + 1 < 2 ^ 64 ->
  registers (arc_view k) p B v (register_arc k (fun l => let! x := sl_register (mkSub p) l in Some (Ok x.1, x.2)) r w).
Proof.
  intros Hu Hs HB. unfold register_arc, id_term.
  match goal with |- context [with_locked r w ?f] => destruct (with_locked_run r w f B v Hu Hs) as (c & _ & ->) end.
  destruct (proj1 (proj2 Hs) k) as (l & n & E & Hl). unfold on_arc, arc_load. rewrite E.
  destruct (held_register pid (mkSub p) l B _ HB Hl) as (i & l' & -> & Hi & Hl'). cbn [fst snd]. unfold arc_store. rewrite E.
  eexists _, r, _. split_and!; [done|exact Hu|]. left. exists i. split_and!; [done|done|].
  apply arc_store_subs; [apply Hu| |done]. eapply res_subs_le; [|exact Hs]. lia.
Qed.

Lemma unregister_arc_subs k i r w B v : usable r -> res_subs r w B v ->
  unregisters (arc_view k) i B v (unregister_arc k (fun l => let! x := sl_unregister i l in Some x.2) r w).
Proof.
  intros Hu Hs. unfold unregister_arc, unit_term.
  match goal with |- context [with_locked r w ?f] => destruct (with_locked_run r w f B v Hu Hs) as (c & _ & ->) end.
  destruct (proj1 (proj2 Hs) k) as (l & n & E & Hl). unfold on_arc, arc_load. rewrite E.
  destruct (held_unregister pid i l B _ Hl) as (b & l' & -> & Hl'). cbn [fst snd]. unfold arc_store. rewrite E.
  eexists _, r, _. split_and!; [done|exact Hu|]. left. split; [done|].
  by apply arc_store_subs; [apply Hu| |].
Qed.

Lemma set_wal_subs r w d B v rows : res_subs r w B v -> held pid (wal_list d) B rows ->
  res_subs (set_wal r (Some d)) w B (upd v Wal rows).
Proof.
  intros (_ & Ha & Hp & Hb) Hl. split_and!; [by exists d| |done|].
  - intros k. specialize (Ha k). by destruct k.
  - destruct Hb as (c & a & Hc & Hr & Hn & Ho & Hcl). exists c, a. by split_and!.
Qed.

Lemma set_progress_subs r w d pw B v rows : res_subs r w B v -> held tick_pid (ticks d) B rows ->
  res_subs (set_progress r (Some d)) (set_prog w pw) B (upd v Progress rows).
Proof.
  intros (Hw & Ha & _ & Hb) Hl. split_and!; [done| |by exists d|].
  - intros k. specialize (Ha k). by destruct k.
  - destruct Hb as (c & a & Hc & Hr & Hn & Ho & Hcl). exists c, a. by split_and!.
Qed.

Lemma register_wal_subs p r w B v : usable r -> res_subs r w B v -> B + 1 < 2 ^ 64 ->
  registers Wal p B v (register_wal_hook p r w).
Proof.
  intros Hu Hs HB. unfold register_wal_hook, id_term.
  match goal with |- context [with_locked r w ?f] => destruct (with_locked_run r w f B v Hu Hs) as (c & _ & ->) end.
  destruct (proj1 Hs) as (d & -> & Hl). unfold wal_register.
  destruct (held_register pid (mkSub p) _ B _ HB Hl) as (i & l' & -> & Hi & Hl').
  eexists _, _, _. split_and!; [done|exact Hu|]. left. exists i. split_and!; [done|done|].
  apply set_wal_subs; [|done]. eapply res_subs_le; [|exact Hs]. lia.
Qed.

Lemma unregister_wal_subs i r w B v : usable r -> res_subs r w B v ->
  unregisters Wal i B v (unregister_wal_hook i r w).
Proof.
  intros Hu Hs. unfold unregister_wal_hook, unit_term.
  match goal with |- context [with_locked r w ?f] => destruct (with_locked_run r w f B v Hu Hs) as (c & _ & ->) end.
  destruct (proj1 Hs) as (d & -> & Hl). unfold wal_unregister.
  destruct (held_unregister pid i _ B _ Hl) as (b & l' & -> & Hl').
  eexists _, _, _. split_and!; [done|exact Hu|]. left. split; [done|]. by apply set_wal_subs.
Qed.

Lemma register_progress_subs p n tag r w B v : usable r -> res_subs r w B v -> B + 1 < 2 ^ 64 ->
  registers Progress p B v (register_progress_hook_nif p n tag now r w).
Proof.
  intros Hu Hs HB. assert (res_subs r w (B + 1) v) as Hs' by (eapply res_subs_le; [|exact Hs]; lia).
  unfold register_progress_hook_nif. destruct (n =? 0) eqn:En.
  { eexists _, r, w. split_and!; [done|exact Hu|]. right. eauto. }
  unfold id_term.
  match goal with |- context [with_locked r w ?f] => destruct (with_locked_run r w f B v Hu Hs) as (c & _ & ->) end.
  destruct (proj1 (proj2 (proj2 Hs))) as (d & -> & Hl). unfold register_progress_hook. rewrite En.
  unfold tick_new, box_into_raw.
  destruct (held_register tick_pid (mkTick p n tag (brk (counters (prog w))) now) (ticks d) B _ HB Hl)
    as (i & l' & -> & Hi & Hl').
  eexists _, _, _. split_and!; [done|exact Hu|]. left. exists i. split_and!; [done|done|].
  by apply set_progress_subs.
Qed.

Lemma unregister_progress_subs i r w B v : usable r -> res_subs r w B v ->
  unregisters Progress i B v (unregister_progress_hook_nif i r w).
Proof.
  intros Hu Hs. unfold unregister_progress_hook_nif, unit_term.
  match goal with |- context [with_locked r w ?f] => destruct (with_locked_run r w f B v Hu Hs) as (c & _ & ->) end.
  destruct (proj1 (proj2 (proj2 Hs))) as (d & -> & Hl). unfold unregister_progress_hook.
  destruct (held_unregister tick_pid i _ B _ Hl) as (b & l' & -> & Hl').
  eexists _, _, _. split_and!; [done|exact Hu|]. left. split; [done|].
  replace w with (set_prog w (prog w)) by (by destruct w). by apply set_progress_subs.
Qed.

(** A busy operation of [BusyHandler]'s system, through the resource. *)
Lemma on_busy_subs {R} (f : option ptr -> heap BusySlotState -> Db ->
      option (result R XqliteError * option ptr * heap BusySlotState * Db)) o r w B v :
  usable r -> res_subs r w B v -> B + is_observe o < 2 ^ 64 ->
  (forall slot bs db fx, busy_step o now (mkState slot bs db fx)
     = let! x := f slot bs db in let '(result, slot, bs, db) := x in Some (is_ok result, mkState slot bs db fx)) ->
  exists c a x slot bs db r' w', conn_opt (lock r) = Some c /\
    busy_rep (mkState (busy_handler r) (boxes w) (raw c) (busy_fx w)) a /\ sp_observers a = v Busy /\
    f (busy_handler r) (boxes w) (raw c) = Some (x, slot, bs, db) /\
    on_busy f r w = Some (x, r', w') /\ usable r' /\
    res_subs r' w' (B + is_observe o) (upd v Busy (sp_observers (busy_spec_step o (is_ok x) a))).
Proof.
  intros Hu Hs HB Hf. pose proof Hs as (Hw & Ha & Hp & (c & a & Hc & Hr & Hn & Ho & Hcl)). exists c, a.
  assert (0 <= is_observe o) as Hio by (destruct o; cbn; lia).
  destruct (busy_step_sim o now _ a Hr) as (ok & s' & Hst & Hr'); [lia|]. rewrite Hf in Hst.
  unfold on_busy. match goal with |- context [with_locked r w ?g] =>
    destruct (with_locked_run r w g B v Hu Hs) as (c' & Hc' & ->) end.
  rewrite Hc in Hc'. injection Hc' as <-.
  destruct (f (busy_handler r) (boxes w) (raw c)) as [[[[x slot] bs] db]|]; [|done]. injection Hst as <- <-.
  eexists x, slot, bs, db, _, _. split_and!; [done|done|done|done|done|exact Hu|].
  apply (res_subs_le _ _ _ (B + is_observe o)) in Hs as (Hw' & Ha' & Hp' & _); [|lia]. split_and!; [done| |done|].
  - intros k. specialize (Ha' k). by destruct k.
  - eexists _, _. split_and!; [done|exact Hr'| |done|].
    + pose proof (busy_spec_next o (is_ok x) a (busy_rep_next _ _ Hr)). lia.
    + intros k. specialize (Hcl k). by destruct k.
Qed.

Lemma renew_observers a : sp_observers (renew a) = sp_observers a.
Proof. unfold renew. case_match eqn:E; [|done]. apply andb_true_iff in E as [_ E%bool_decide_eq_true]. by rewrite E. Qed.

Lemma observer_handle p slot h (db : Db) fx a i slot' h' db' : busy_rep (mkState slot h db fx) a ->
  register_observer p slot now h db = Some (Ok i, slot', h', db') -> i = sp_next a /\ i ∉ (sp_observers a).*1.
Proof.
  intros (st & Hi & <-). cbn [b_slot b_heap b_db] in Hi |- *. rewrite (spec_of_current _ _ now). unfold register_observer.
  rewrite (snapshot_current _ _ now _ _ Hi). destruct (swap_in _ _ _ _) as [[[[[x|e] sl] hp] dd]|]; [|done..].
  cbn. intros [= <- _ _ _]. split; [done|].
  destruct (current_handles slot st now (proj1 (proj2 Hi))) as (_ & _ & Hlt).
  intros (ob & Ho & Hin)%list_elem_of_fmap. rewrite list.Forall_forall in Hlt. specialize (Hlt ob Hin). lia.
Qed.

Lemma upd_self (v : view) k l : l = v k -> forall k', upd v k l k' = v k'.
Proof. intros -> k'. unfold upd. by destruct (decide (k' = k)) as [->|]. Qed.

Lemma res_subs_ext r w B v v' : (forall k, v k = v' k) -> res_subs r w B v -> res_subs r w B v'.
Proof.
  intros Hv (Hw & Ha & Hp & Hb). unfold res_subs. rewrite <- !Hv. split_and!; [done| |done|done].
  intros k. rewrite <- Hv. apply Ha.
Qed.

Lemma register_busy_subs p r w B v : usable r -> res_subs r w B v -> B + 1 < 2 ^ 64 ->
  registers Busy p B v (register_busy_observer p now r w).
Proof.
  intros Hu Hs HB.
  destruct (on_busy_subs (fun slot => register_observer p slot now) (Observe p) r w B v Hu Hs HB)
    as (c & a & x & slot & bs & db & r' & w' & Hc & Hr & Ho & Hf & E & Hu' & Hs'); [done|].
  unfold register_busy_observer, id_term. rewrite E. eexists _, r', w'. split_and!; [done|done|].
  destruct x as [i|e]; cbn [is_ok busy_spec_step] in Hs'.
  - left. destruct (observer_handle _ _ _ _ _ _ _ _ _ _ Hr Hf) as [-> Hi]. exists (sp_next a).
    rewrite renew_observers in Hs'. cbn [sp_observers] in Hs'. rewrite Ho in *. by split_and!.
  - right. eexists. split; [done|]. eapply res_subs_ext; [|exact Hs']. by apply upd_self.
Qed.

Lemma unregister_busy_subs i r w B v : usable r -> res_subs r w B v -> B < 2 ^ 64 ->
  unregisters Busy i B v (unregister_busy_observer i now r w).
Proof.
  intros Hu Hs HB.
  destruct (on_busy_subs (fun slot => unregister_observer i slot now) (Unobserve i) r w B v Hu Hs)
    as (c & a & x & slot & bs & db & r' & w' & Hc & Hr & Ho & Hf & E & Hu' & Hs'); [cbn; lia|done|].
  cbn [is_observe] in Hs'. rewrite Z.add_0_r in Hs'.
  unfold unregister_busy_observer, unit_term. rewrite E. eexists _, r', w'. split_and!; [done|done|].
  destruct x as [[]|e]; cbn [is_ok busy_spec_step] in Hs'.
  - left. split; [done|]. rewrite renew_observers in Hs'. cbn [sp_observers] in Hs'. by rewrite Ho in Hs'.
  - right. split; [done|]. eexists. split; [done|]. eapply res_subs_ext; [|exact Hs']. by apply upd_self.
Qed.

Lemma register_log_subs p g B (v : view) : lock_poisoned g = None -> held pid (LOG_SUBSCRIBERS g) B (v Log) ->
  B + 1 < 2 ^ 64 ->
  exists t g', register_log_hook config_log p g = Some (t, g') /\ lock_poisoned g' = None /\
    ((exists i, t = ok_tuple (TInt i) /\ i ∉ (v Log).*1 /\ held pid (LOG_SUBSCRIBERS g') (B + 1) (v Log ++ [(i, p)])) \/
     (exists e, t = error_tuple e /\ held pid (LOG_SUBSCRIBERS g') (B + 1) (v Log))).
Proof.
  intros Hp Hl HB. unfold register_log_hook, log_register. rewrite Hp.
  destruct (held_register pid (mkSub p) _ B _ HB Hl) as (i & l' & E & Hi & Hl').
  apply (held_le _ _ _ (B + 1)) in Hl; [|lia].
  destruct (MASTER_INSTALLED g); [|destruct config_log]; cbn [LOG_SUBSCRIBERS]; rewrite ?E;
    eexists _, _; (split_and!; [done|done|]); naive_solver.
Qed.

Lemma unregister_log_subs i g B (v : view) : lock_poisoned g = None -> held pid (LOG_SUBSCRIBERS g) B (v Log) ->
  exists g', unregister_log_hook i g = Some (TAtom "ok", g') /\ lock_poisoned g' = None /\
    held pid (LOG_SUBSCRIBERS g') B (filter (fun x => x.1 <> i) (v Log)).
Proof.
  intros Hp Hl. unfold unregister_log_hook, log_unregister. rewrite Hp.
  destruct (held_unregister pid i _ B _ Hl) as (b & l' & -> & Hl'). by eexists.
Qed.

(** A change of the log hook's list is none of the connection's, and the other way. *)
Lemma res_subs_log r w B v l : res_subs r w B v -> res_subs r w B (upd v Log l).
Proof. intros (Hw & Ha & Hp & Hb). split_and!; [done| |done|done]. intros k. specialize (Ha k). by destruct k. Qed.

(** An operation of the connection, with the log hook beside it. *)
Lemma registers_port k p B v x g : k <> Log -> registers k p B v x -> lock_poisoned g = None ->
  held pid (LOG_SUBSCRIBERS g) B (v Log) ->
  exists t s', on_res x g = Some (t, s') /\
    ((exists i, t = ok_tuple (TInt i) /\ i ∉ (v k).*1 /\ nifs_subs s' (B + 1) (upd v k (v k ++ [(i, p)]))) \/
     (exists e, t = error_tuple e /\ nifs_subs s' (B + 1) v)).
Proof.
  intros Hk (t & r' & w' & -> & [Hp' Hnd'] & Hc) Hg Hl. eexists t, (r', w', g). split; [done|].
  apply (held_le _ _ _ (B + 1)) in Hl; [|lia].
  destruct Hc as [(i & -> & Hi & Hs')|(e & -> & Hs')]; [left; exists i|right; exists e]; split_and!; try done.
  split_and!; try done. by rewrite upd_other.
Qed.

Lemma unregisters_port k i B v x g : k <> Log -> unregisters k i B v x -> lock_poisoned g = None ->
  held pid (LOG_SUBSCRIBERS g) B (v Log) ->
  exists t s', on_res x g = Some (t, s') /\
    ((t = TAtom "ok" /\ nifs_subs s' B (upd v k (filter (fun x => x.1 <> i) (v k)))) \/
     (k = Busy /\ exists e, t = error_tuple e /\ nifs_subs s' B v)).
Proof.
  intros Hk (t & r' & w' & -> & [Hp' Hnd'] & Hc) Hg Hl. eexists t, (r', w', g). split; [done|].
  destruct Hc as [(-> & Hs')|(-> & e & -> & Hs')]; [left|right; split; [done|]; exists e]; split_and!; try done.
  split_and!; try done. by rewrite upd_other.
Qed.

#[export] Instance resource_port_laws : HookPortLaws nifs.
Proof.
  refine {| subs := nifs_subs |}.
  - intros k p a [[r w] g] B v (Hp & Hnd & Hs & Hg & Hl) HB. assert (usable r) as Hu by done.
    cbn [nif_register resource_port]. destruct k; try (apply registers_port; [done| |done|done]).
    + by apply register_wal_subs.
    + by apply (register_arc_subs HCommit).
    + by apply (register_arc_subs HRollback).
    + by apply (register_arc_subs HUpdate).
    + by apply register_progress_subs.
    + by apply register_busy_subs.
    + destruct (register_log_subs p g B v Hg Hl HB) as (t & g' & -> & Hg' & Hc). eexists t, (r, w, g'). split; [done|].
      apply (res_subs_le _ _ _ (B + 1)) in Hs; [|lia].
      destruct Hc as [(i & -> & Hi & Hl')|(e & -> & Hl')]; [left; exists i|right; exists e]; split_and!; try done.
      split_and!; try done. by apply res_subs_log.
  - intros k i [[r w] g] B v (Hp & Hnd & Hs & Hg & Hl) HB. assert (usable r) as Hu by done.
    cbn [nif_unregister resource_port]. destruct k; try (apply unregisters_port; [done| |done|done]).
    + by apply unregister_wal_subs.
    + by apply (unregister_arc_subs HCommit).
    + by apply (unregister_arc_subs HRollback).
    + by apply (unregister_arc_subs HUpdate).
    + by apply unregister_progress_subs.
    + by apply unregister_busy_subs.
    + destruct (unregister_log_subs i g B v Hg Hl) as (g' & -> & Hg' & Hl'). eexists _, (r, w, g'). split; [done|].
      left. split_and!; try done. split_and!; try done. by apply res_subs_log.
  - intros [[r w] g] B B' v (Hp & Hnd & Hs & Hg & Hl) HBB. split_and!; try done; [by eapply res_subs_le|by eapply held_le].
Defined.

(** *** What SQLite's callbacks send *)

Definition event_kind (e : event) : hook :=
  match e with
  | EUpdate _ _ _ _ => Update | ECommit => Commit | ERollback => Rollback
  | EWal _ _ => Wal | EProgress _ => Progress | EBusy _ _ _ => Busy
  end.

(** Where the messages of a hook go. *)
Definition outgoing (k : hook) (w : world) : outbox :=
  match k with
  | Wal => wal_out (wal_fx w) | Busy => busy_sent (busy_fx w) | Progress => sent (prog w) | _ => out w
  end.

(** The message of an event; a busy event's time is counted from [since]. *)
Definition message_of (e : event) (since : Z) : term :=
  match e with
  | EUpdate a db tbl rowid => update_message a db tbl rowid
  | ECommit => TTuple [make_atom (str "xqlite_commit")]
  | ERollback => TTuple [make_atom (str "xqlite_rollback")]
  | EWal db pages => TTuple [make_atom (str "xqlite_wal"); TBin (db_name_str db); TInt pages]
  | EProgress _ => TOther
  | EBusy count _ later =>
      TTuple [make_atom (str "xqlite_busy"); TInt (wrap_signed 64 (wrap_unsigned 32 count));
              TInt (wrap_signed 64 (elapsed_ms later since))]
  end.

Definition is_progress (e : event) : bool := match e with EProgress _ => true | _ => false end.

Definition since_ok (e : event) (since : Z) : Prop :=
  match e with EBusy count at_call _ => wrap_unsigned 32 count = 0 -> since = at_call | _ => True end.

Definition fan (l : list (Z * Z)) (msg : term) : outbox := map (fun x => (x.2, msg)) l.

Lemma held_fan (l : pid_list) B rows msg o : held pid l B rows ->
  sl_for_each (fun e o => Some (enif_send (pid (HookList.state e)) msg o)) l o = Some (o ++ fan rows msg).
Proof.
  intros (es & n & Hh & _ & ->). rewrite (sl_fan_out msg l es n o Hh). unfold fan, to_all, pids. by rewrite !map_map.
Qed.

Lemma closure_fan k c r w B v msg f : res_subs r w B v -> conn_opt (lock r) = Some c ->
  (forall l o, f l o = sl_for_each (fun e o => Some (enif_send (pid (HookList.state e)) msg o)) l o) ->
  call_closure k c f w = Some (set_out w (out w ++ fan (v (arc_view k)) msg)).
Proof.
  intros (_ & Ha & _ & (c' & a & Hc' & _ & _ & _ & Hcl)) Hc Hf. rewrite Hc in Hc'. injection Hc' as <-.
  unfold call_closure. destruct (Hcl k) as (i & ->). destruct (Ha k) as (l & n & E & Hl). unfold arc_load. rewrite E, Hf.
  by rewrite (held_fan _ _ _ _ _ Hl).
Qed.

Lemma busy_fan retries ms obs (o : outbox) :
  foldl (fun o x => send_busy_to_pid x.2 retries ms o) o obs
  = o ++ fan obs (TTuple [make_atom (str "xqlite_busy"); TInt (wrap_signed 64 retries); TInt (wrap_signed 64 ms)]).
Proof.
  revert o; induction obs as [|x obs IH]; intros o; cbn [foldl]; [by rewrite app_nil_r|].
  rewrite IH. unfold send_busy_to_pid, enif_send. by rewrite <- app_assoc.
Qed.

(** SQLite's busy call reaches the observers. *)
Lemma busy_fires_fan count at_call later c r w B v : res_subs r w B v -> conn_opt (lock r) = Some c ->
  exists w' since, fire (EBusy count at_call later) c r w = Some w' /\ since_ok (EBusy count at_call later) since /\
    outgoing Busy w' = outgoing Busy w ++ fan (v Busy) (message_of (EBusy count at_call later) since).
Proof.
  intros (_ & _ & _ & (c' & a & Hc' & (st & ((Harg & Hb) & _ & He) & Hspec) & _ & Ho & _)) Hc.
  rewrite Hc in Hc'. injection Hc' as <-. cbn [b_slot b_heap b_db] in *. cbn [fire]. rewrite Harg.
  destruct (busy_handler r) as [p|].
  - unfold busy_callback. rewrite (deref_held _ _ _ Hb). subst a. cbn in Ho.
    set (st' := if wrap_unsigned 32 count =? 0 then _ else st). cbv zeta.
    assert (observers st' = v Busy) as Hobs by (unfold st'; by destruct (_ =? 0)).
    assert (wrap_unsigned 32 count = 0 -> start st' = at_call) as Hst by (unfold st'; by intros ->).
    rewrite busy_fan, Hobs.
    destruct (policy st') as [pl|]; [destruct (_ || _)|]; eexists _, (start st'); split_and!; done.
  - exists w, at_call. split_and!; [done|done|]. rewrite <- Ho, <- Hspec. cbn. by rewrite app_nil_r.
Qed.

Lemma fire_fan e c r w B v : res_subs r w B v -> conn_opt (lock r) = Some c -> is_progress e = false ->
  exists w' since, fire e c r w = Some w' /\ since_ok e since /\
    outgoing (event_kind e) w' = outgoing (event_kind e) w ++ fan (v (event_kind e)) (message_of e since).
Proof.
  intros Hs Hc Hp. destruct e as [a db tbl rowid| | |db pages|nw|count at_call later]; [..|done|by eapply busy_fires_fan];
    cbn [fire event_kind].
  - rewrite (closure_fan HUpdate c r w B v (update_message a db tbl rowid)) by done. by eexists _, 0.
  - rewrite (closure_fan HCommit c r w B v (TTuple [make_atom (str "xqlite_commit")])); [by eexists _, 0|done|done|].
    intros l o. unfold commit_callback, send_commit_to_pid. by destruct (sl_for_each _ _ _).
  - rewrite (closure_fan HRollback c r w B v (TTuple [make_atom (str "xqlite_rollback")])) by done. by eexists _, 0.
  - destruct (proj1 Hs) as (d & -> & Hl). unfold wal_hook_callback, send_wal_to_pid. rewrite (held_fan _ _ _ _ _ Hl).
    by eexists _, 0.
Qed.

End Port.

(** [enif_make_atom_len] on an ASCII name gives the atom of that name. *)
Definition makes_atoms `{Beam} : Prop :=
  forall s : string, forallb (fun b => b <? 128) (str s) && (length (str s) <=? 255)%nat = true -> make_atom (str s) = TAtom s.

Definition hook_event (kind : string) : list string := ["xqlite"; "hook"; kind]%string.

(** What the event says of the call SQLite made. *)
Definition reports (e : event) (since : Z) (ev : tevent) : Prop :=
  match e with
  | EUpdate a db tbl rowid =>
      name ev = hook_event "update" /\ metadata ev !! "action" = Some (TAtom (string_of_bytes (action_name a))) /\
      metadata ev !! "db_name" = Some (TBin db) /\ metadata ev !! "table" = Some (TBin tbl) /\
      metadata ev !! "rowid" = Some (TInt rowid)
  | ECommit => name ev = hook_event "commit"
  | ERollback => name ev = hook_event "rollback"
  | EWal db pages =>
      name ev = hook_event "wal" /\ measurements ev !! "pages" = Some (TInt pages) /\
      metadata ev !! "db_name" = Some (TBin (db_name_str db))
  | EProgress _ => False
  | EBusy count _ later =>
      name ev = hook_event "busy" /\ measurements ev !! "retries" = Some (TInt (wrap_unsigned 32 count)) /\
      measurements ev !! "elapsed" = Some (TInt (wrap_signed 64 (elapsed_ms later since) * 1000000))
  end%string.

(** The bridge that emitted it, and when. *)
Definition stamped (clock : Z) (st : bridge_state) (ev : tevent) : Prop :=
  measurements ev !! "monotonic_time"%string = Some (TInt clock) /\ metadata ev !! "tag"%string = Some (st_tag st) /\
  match st_scope st with SConn conn => metadata ev !! "conn"%string = Some (TRef conn) | SLog => True end.

Lemma wrap_signed_u32 n : wrap_signed 64 (wrap_unsigned 32 n) = wrap_unsigned 32 n.
Proof.
  assert (0 <= n mod 2 ^ 32 < 2 ^ 32) by (apply Z.mod_pos_bound; lia). unfold wrap_signed, wrap_unsigned.
  rewrite (Z.mod_small (n mod 2 ^ 32)) by lia. destruct (_ <? _) eqn:E; lia.
Qed.

Ltac atoms_in Hat := rewrite ?(Hat "xqlite_update"%string), ?(Hat "xqlite_commit"%string), ?(Hat "xqlite_rollback"%string),
  ?(Hat "xqlite_wal"%string), ?(Hat "xqlite_busy"%string), ?(Hat "xqlite_progress"%string), ?(Hat "xqlite_log"%string) by done.

Lemma message_is_emitted `{Beam} e since clock st : makes_atoms -> is_progress e = false ->
  exists ev, handle_info true clock (message_of e since) st = Some ([ev], st) /\ reports e since ev /\ stamped clock st ev.
Proof.
  intros Hat Hp. unfold handle_info, message_of.
  destruct e as [a db tbl rowid| | |db pages|nw|count at_call later]; try done; unfold update_message; atoms_in Hat;
    eexists; (split; [done|]); (split; [|unfold stamped, scope_metadata; destruct (st_scope st); by vm_compute]);
    cbn [reports]; try done.
  - replace (make_atom (action_name a)) with (TAtom (string_of_bytes (action_name a)));
      [|destruct a; symmetry; by apply Hat]. unfold scope_metadata. destruct (st_scope st); by vm_compute.
  - unfold scope_metadata. destruct (st_scope st); by vm_compute.
  - split_and!; [done| |done].
    transitivity (Some (TInt (wrap_signed 64 (wrap_unsigned 32 count)))); [done|by rewrite wrap_signed_u32].
Qed.

(** Unbridging takes back the bridge's subscriptions and nothing else: whatever other
    processes registered and unregistered since, their subscriptions stay as they are,
    the bridge's process is gone, and no list but the busy observers (whose removal
    SQLite may refuse) has an entry for it. *)
Lemma unbridge_takes_its_own {St} `{HookPortLaws St} (b : bridge) ops (s : sys St) B v :
  subs (port s) B v -> owns b v -> Forall (fun x => in_scope (b_scope b) x.1) (hook_handles b) ->
  Forall (foreign b) ops -> B + Z.of_nat (length ops) < 2 ^ 64 ->
  exists s1 v1 s' v', run_port ops (port s) = Some s1 /\ subs s1 (B + Z.of_nat (length ops)) v1 /\
    unbridge b (mkBSys s1 (procs s)) = Some (Some (Ok tt), s') /\ subs (port s') (B + Z.of_nat (length ops)) v' /\
    procs s' = delete (b_pid b) (procs s) /\
    forall k, others (b_pid b) (v' k) = others (b_pid b) (v1 k) /\ (k <> Busy -> v' k = others (b_pid b) (v1 k)).
Proof.
  intros Hs Ho Hsc Hf HB. destruct (foreign_owns b ops (port s) B v Hf Ho Hs HB) as (s1 & v1 & Hrun & Hs1 & Ho1).
  destruct (unregister_each_spec (b_scope b) (hook_handles b) s1 _ v1 Hsc Hs1 HB) as (s2 & v2 & Hu & Hs2 & Hl).
  exists s1, v1. unfold unbridge. cbn [port procs]. rewrite Hu. eexists _, v2. split_and!; [done|done|done|done| |].
  - cbn. unfold stop_if_alive. destruct (procs s !! b_pid b) eqn:E; [done|]. symmetry. by apply delete_id.
  - by eapply left_of_others; [apply Ho1|].
Qed.

(** ** Theorems *)

(** C26: bridging is all or nothing, and unbridging undoes it.  A hooks list whose first
    unlisted member is neither [:all] nor [nil] is refused with that member, and nothing
    is started or subscribed.  With known hooks (or [:all] itself) and usable progress
    options, the call either answers an error, its process is gone and nothing is
    subscribed for it; or it answers a bridge, whose process is alive and subscribed
    once for each hook asked for, in that order, every other subscription being as it
    was.  Whatever other processes then register, and unregister by handles that are
    not the bridge's, [unbridge] ends the process and takes back its subscriptions and
    no other's.  (Removing a busy observer is a registration with SQLite, which may
    refuse: that entry alone may stay.  For [:all] inside a list see
    [all_in_a_list_leaves_subscribers].) *)
Theorem bridge_is_all_or_nothing {St} `{HookPortLaws St} pid conn opts hooks ks (s : sys St) B v ops :
  subs (port s) B v -> procs s !! pid = None -> (forall k, pid ∉ (v k).*2) ->
  expand_hooks (keyword_get opts "hooks" (TAtom "all")) = Some hooks ->
  B + Z.of_nat (length hooks) + Z.of_nat (length ops) < 2 ^ 64 ->
  (forall pre bad post, hooks = pre ++ bad :: post -> Forall (fun h => is_Some (per_conn_hook h)) pre ->
     per_conn_hook bad = None -> bad <> TAtom "all" -> bad <> nil_term ->
     bridge_per_conn true pid conn opts s = Some (Some (Err (TTuple [TAtom "invalid_hook"; bad;
       TList [TTuple [TAtom "valid"; TList (map TAtom valid_per_conn_hooks)]]])), s)) /\
  (Forall2 (fun h k => per_conn_hook h = Some k) hooks ks ->
   is_Some (progress_args (keyword_of (keyword_get opts "progress" (TList [])))) ->
  exists x s' v', bridge_per_conn true pid conn opts s = Some (Some x, s') /\
    subs (port s') (B + Z.of_nat (length hooks)) v' /\
    match x with
    | Err _ => procs s' = procs s /\ forall k, others pid (v' k) = v k /\ (k <> Busy -> v' k = v k)
    | Ok b =>
        b_pid b = pid /\ (hook_handles b).*1 = ks /\
        procs s' = <[pid := mkBState (SConn conn) (keyword_get opts "tag" nil_term)]> (procs s) /\
        (forall k, v' k = v k ++ own pid k (hook_handles b)) /\
        (Forall (foreign b) ops ->
         exists s1 v1 s2 v2, run_port ops (port s') = Some s1 /\ subs s1 (B + Z.of_nat (length hooks) + Z.of_nat (length ops)) v1 /\
           unbridge b (mkBSys s1 (procs s')) = Some (Some (Ok tt), s2) /\
           subs (port s2) (B + Z.of_nat (length hooks) + Z.of_nat (length ops)) v2 /\ procs s2 = procs s /\
           forall k, others pid (v2 k) = others pid (v1 k) /\ (k <> Busy -> v2 k = others pid (v1 k)))
    end).
Proof.
  intros Hs Hpid Hfresh He HB. unfold bridge_per_conn. rewrite He. split.
  { intros pre bad post -> Hpre Hb Hall Hnil. by rewrite unknown_hook_invalid. }
  intros Hf Hp. rewrite (hooks_validate _ _ Hf).
  destruct (register_hooks_spec pid conn hooks ks (keyword_of (keyword_get opts "progress" (TList []))) []
    (start_link pid (mkBState (SConn conn) (keyword_get opts "tag" nil_term)) s) B v v Hf Hp Hs)
    as (x & s' & v' & -> & Hs' & Hr); [|constructor|lia|].
  { split_and!; [intros k; by rewrite app_nil_r|intros k i Hx; by inversion Hx|done]. }
  eexists _, s', v'. split_and!; [done|done|]. destruct x as [hs|e]; cbn [result_map].
  - destruct Hr as (new & -> & Hn & Hx & Hpr). split_and!; [done|done|exact Hpr|apply Hx|]. intros Hfo.
    destruct (unbridge_takes_its_own (mkBridge pid (SConn conn) (keyword_get opts "tag" nil_term) (reverse [] ++ new))
      ops s' _ v' Hs' (extends_bridge _ _ _ _ _ _ Hx)) as (s1 & v1 & s2 & v2 & Hu); [|done|lia|].
    { eapply known_hooks; [exact Hf|exact Hn]. }
    exists s1, v1, s2, v2. destruct Hu as (H1 & H2 & H3 & H4 & H5 & H6). split_and!; try done.
    rewrite H5, Hpr. by apply delete_insert_id.
  - destruct Hr as [Hv Hpr]. split; [|done]. rewrite Hpr. unfold stop_if_alive. cbn [procs start_link].
    rewrite lookup_insert, decide_True by done. by apply delete_insert_id.
Qed.

(** C27: an event of SQLite becomes telemetry.  A row change, commit, rollback, WAL commit or
    busy call sends one message to each subscription of its hook, and a bridge turns
    that message into exactly one event of that hook's name, with the call's data, the
    bridge's tag and connection, and milliseconds as nanoseconds; so it does with the
    ticks of the progress hook, tagged or not, and with the log's messages. *)
Theorem bridged_events_are_emitted `{Beam} `{RusqliteText} {Db} `{BusyApiLaws Db}
    (r : resource Db) w g B v e clock st :
  makes_atoms -> nifs_subs (r, w, g) B v ->
  (is_progress e = false -> exists c w' since ev, conn_opt (lock r) = Some c /\ fire e c r w = Some w' /\ since_ok e since /\
     outgoing (event_kind e) w' = outgoing (event_kind e) w ++ fan (v (event_kind e)) (message_of e since) /\
     handle_info true clock (message_of e since) st = Some ([ev], st) /\ reports e since ev /\ stamped clock st ev) /\
  (forall tag n ms, exists ev, handle_info true clock (tick_message tag n ms) st = Some ([ev], st) /\
     stamped clock st ev /\ name ev = hook_event "progress" /\
     metadata ev !! "hook_tag"%string = Some (encode_opt make_atom tag) /\
     measurements ev !! "count"%string = Some (TInt (wrap_signed 64 n)) /\
     measurements ev !! "elapsed"%string = Some (TInt (wrap_signed 64 ms * 1000000))) /\
  (forall code text, exists ev,
     handle_info true clock (TTuple [make_atom (str "xqlite_log"); TInt code; TBin text]) st = Some ([ev], st) /\
     stamped clock st ev /\ name ev = hook_event "log" /\ metadata ev !! "code"%string = Some (TInt code) /\
     metadata ev !! "base_code"%string = Some (TInt (Z.land code 255)) /\
     metadata ev !! "message"%string = Some (TBin text)).
Proof.
  intros Hat (_ & _ & Hs & _). split_and!.
  - intros Hp. pose proof Hs as (_ & _ & _ & (c & a & Hc & _)).
    destruct (fire_fan e c r w B v Hs Hc Hp) as (w' & since & Hf & Hsi & Ho).
    destruct (message_is_emitted e since clock st Hat Hp) as (ev & Hev). by exists c, w', since, ev.
  - intros tag n ms. unfold tick_message, handle_info. destruct tag as [t|]; atoms_in Hat;
      eexists; (split; [done|]); unfold stamped, scope_metadata; destruct (st_scope st); by split_and!.
  - intros code text. unfold handle_info. atoms_in Hat.
    eexists. split; [done|]. unfold stamped, scope_metadata. destruct (st_scope st); by split_and!.
Qed.

(** *** For the witnesses: a freshly opened connection *)

Definition demo_port : HookPort ((resource (option ptr) * world) * log_state pid_list) :=
  @resource_port demo_text (option ptr) demo_busy 0 (Ok tt).
Definition demo_port_laws : @HookPortLaws _ demo_port :=
  @resource_port_laws demo_beam demo_text (option ptr) demo_busy demo_busy_laws 0 (Ok tt).
Definition demo_conn : resource (option ptr) :=
  new_handle 1 2 3 (mkConn None [(HUpdate, 1%positive); (HCommit, 2%positive); (HRollback, 3%positive)]).
Definition demo_lists : world :=
  set_lists demo_w (mkHeap {[1%positive := (sl_new, 2%nat); 2%positive := (sl_new, 2%nat); 3%positive := (sl_new, 2%nat)]} 4).
Definition demo_log : log_state pid_list := mkLog sl_new false None [].
Definition demo_nifs : (resource (option ptr) * world) * log_state pid_list := (demo_conn, demo_lists, demo_log).

Lemma demo_opened : @open_resource demo_beam demo_text (option ptr) demo_busy demo_install [] (Ok None) (str "a.db") demo_w
  = Some (Ok demo_conn, demo_lists).
Proof. vm_compute. reflexivity. Qed.

Lemma held_new {T} (who : T -> Z) : held who sl_new 1 [].
Proof. exists [], 1. split_and!; [apply sl_new_holds|lia|done]. Qed.

Lemma demo_subs : @nifs_subs (option ptr) demo_busy demo_nifs 1 (fun _ => []).
Proof.
  split_and!; [done|by_compute| |done|apply held_new]. split_and!.
  - eexists. split; [done|]. apply held_new.
  - intros k. exists sl_new, 2%nat. split; [by destruct k|apply held_new].
  - eexists. split; [done|]. apply held_new.
  - eexists _, spec_empty. split_and!; [done| |cbn; lia|done|].
    + exists (mkBusy None [] 0 0). split; [|done]. split_and!; [by split|split_and!; simpl; [lia..|constructor|constructor]|done].
    + intros k. by destruct k; eexists.
Qed.

Lemma bridge_is_all_or_nothing_witness :
  exists b s' s1 s2, @bridge_per_conn _ demo_port true 50 7
      [("tag", TAtom "replica"); ("progress", TList [TTuple [TAtom "every_n"; TInt 5]])]%string (mkBSys demo_nifs ∅)
      = Some (Some (Ok b), s') /\
    (hook_handles b).*1 = [Wal; Commit; Rollback; Update; Progress; Busy] /\ is_Some (procs s' !! 50) /\
    @run_port _ demo_port [PReg Wal 60 (mkTicks 0 None); PUnreg Commit 3] (port s') = Some s1 /\
    @unbridge _ demo_port b (mkBSys s1 (procs s')) = Some (Some (Ok tt), s2) /\ procs s2 = ∅.
Proof.
  destruct (@bridge_is_all_or_nothing _ demo_port demo_port_laws 50 7
    [("tag", TAtom "replica"); ("progress", TList [TTuple [TAtom "every_n"; TInt 5]])]%string (map TAtom per_conn_hooks)
    [Wal; Commit; Rollback; Update; Progress; Busy] (mkBSys demo_nifs ∅) 1 (fun _ => [])
    [PReg Wal 60 (mkTicks 0 None); PUnreg Commit 3] demo_subs) as [_ Hb].
  - reflexivity.
  - intros k Hk. inversion Hk.
  - reflexivity.
  - vm_compute. reflexivity.
  - destruct Hb as ([b|e] & s' & v' & E & _ & Hx); [repeat constructor|eexists; vm_compute; reflexivity| |exfalso; vm_compute in E; discriminate E].
    destruct Hx as (Hp & Hk & Hpr & _ & Hu).
    assert (hook_handles b = [(Wal, 1); (Commit, 1); (Rollback, 1); (Update, 1); (Progress, 1); (Busy, 0)]) as Hh
      by (vm_compute in E; injection E as <- _; reflexivity).
    destruct Hu as (s1 & v1 & s2 & v2 & Hr & _ & Hun & _ & Hp2 & _).
    { repeat constructor; cbn; [rewrite Hp; lia|]. rewrite Hh. by_compute. }
    exists b, s', s1, s2. split; [exact E|]. split; [exact Hk|]. split; [rewrite Hpr; eexists; vm_compute; reflexivity|].
    split; [exact Hr|]. split; [exact Hun|]. rewrite Hp2. reflexivity.
Defined.

Lemma demo_makes_atoms : @makes_atoms demo_beam.
Proof.
  intros s _. cbn [make_atom demo_beam]. f_equal. induction s as [|a s IH]; [done|].
  transitivity (String (Ascii.ascii_of_N (Z.to_N (byte_of_ascii a))) (string_of_bytes (str s))); [done|].
  rewrite IH. unfold byte_of_ascii. by rewrite N2Z.id, Ascii.ascii_N_embedding.
Qed.

Lemma bridged_events_are_emitted_witness :
  exists ev, handle_info true 9 (@message_of demo_beam (EUpdate SQLITE_INSERT (str "main") (str "t") 3) 0)
      (mkBState (SConn 7) nil_term) = Some ([ev], mkBState (SConn 7) nil_term) /\
    metadata ev !! "rowid"%string = Some (TInt 3).
Proof.
  destruct (@bridged_events_are_emitted demo_beam demo_text (option ptr) demo_busy demo_busy_laws demo_conn demo_lists
    demo_log 1 (fun _ => []) (EUpdate SQLITE_INSERT (str "main") (str "t") 3) 9 (mkBState (SConn 7) nil_term) demo_makes_atoms demo_subs)
    as [He _].
  destruct (He eq_refl) as (c & w' & since & ev & _ & _ & _ & _ & Hh & Hr & _). exists ev. split; [exact Hh|].
  apply Hr.
Defined.

(** [:all] inside a list passes the validation, has no clause to register it, and the
    exception is raised after the hooks before it were registered: the process and its
    subscription stay, and the caller has no bridge to remove them with. *)
Theorem all_in_a_list_leaves_subscribers :
  exists s', @bridge_per_conn _ demo_port true 50 7 [("hooks", TList [TAtom "commit"; TAtom "all"])]%string (mkBSys demo_nifs ∅)
    = Some (None, s') /\ is_Some (procs s' !! 50) /\
    exists o, @fire demo_beam (option ptr) demo_busy ECommit (mkConn None [(HUpdate, 1%positive); (HCommit, 2%positive); (HRollback, 3%positive)])
      (port s').1.1 (port s').1.2 = Some o /\ out o = [(50, TTuple [TAtom "xqlite_commit"])].
Proof. eexists. split; [vm_compute; reflexivity|]. split; [by eexists|]. by eexists. Qed.

(** When the log hook can not be registered, the process started for it stays. *)
Theorem failed_log_bridge_leaves_its_process :
  exists e s', @bridge_log_global _ (@resource_port demo_text (option ptr) demo_busy 0 (Err (str "misuse"))) true 50 []
    (mkBSys demo_nifs ∅) = Some (Some (Err e), s') /\ is_Some (procs s' !! 50).
Proof. eexists _, _. split; [vm_compute; reflexivity|]. by eexists. Qed.
