(* ===== verification/BusyTimeout.v ===== *)
(** * The busy slot beside [PRAGMA busy_timeout]

    SQLite has one busy handler per connection.  The crate's callback, which carries
    the retry policy and the observers ([BusyHandler]), shares it with SQLite's own
    timeout, which [PRAGMA busy_timeout] (the option of [Xqlite.open/2], and
    [Xqlite.busy_timeout/2]) installs without the slot's knowledge.  Here both are
    used in any order: the slot's pointer and SQLite's may now differ. *)

From S2P Require Import Prelude RustStr Sqlite Terms Heap ConstraintParse Error Util HookList Hooks ProgressDispatch BusyHandler Connection Query Resource Bridge BridgePort.

(** ** What the code relies on of SQLite *)

Class TimeoutApi (Db : Type) := {
  (** the timeout of SQLite's built-in handler; 0 when that is not installed *)
  busy_timeout_ms : Db -> Z;
}.

(** The one handler: setting a callback clears the timeout, and [PRAGMA busy_timeout = ms]
    clears the callback (it may do so and still report an error later). *)
Class TimeoutLaws (Db : Type) `{Beam} `{RusqliteText} `{FloatText} `{BusyApi Db} `{RusqliteConn Db} `{TimeoutApi Db} := {
  handler_clears_timeout o db : let '(rc, db') := sqlite3_busy_handler o db in
    busy_timeout_ms db' = if rc =? SQLITE_OK then 0 else busy_timeout_ms db;
  pragma_sets_timeout ms db : 0 <= ms <= i32_max ->
    let '(r, db') := pragma_set (str "busy_timeout") (TInt ms) db in
    (busy_arg db' = None /\ busy_timeout_ms db' = ms) \/
    (is_ok r = false /\ busy_arg db' = busy_arg db /\ busy_timeout_ms db' = busy_timeout_ms db);
}.

Section Timeout.
  Context `{Beam} `{RusqliteText} `{FloatText} {Db : Type} `{BusyApiLaws Db} `{RusqliteConn Db} `{!TimeoutApi Db}.
  Abbreviation slots := (heap BusySlotState).
  Abbreviation state := (busy_state Db).

(** ** Operations *)

Inductive slot_op := SBusy (o : busy_op) | SPragma (ms : Z).

(** [XqliteNIF.set_pragma(conn, "busy_timeout", ms)] under the lock *)
Definition raw_pragma (ms : Z) (s : state) : bool * state :=
  let '(r, db) := pragma_set (str "busy_timeout") (TInt ms) (b_db s) in
  (is_ok r, mkState (b_slot s) (b_heap s) db (b_fx s)).

Definition slot_step (o : slot_op) (now : Z) (s : state) : option (bool * state) :=
  match o with
  | SBusy o => busy_step o now s
  | SPragma ms => Some (raw_pragma ms s)
  end.

Fixpoint run_slot (ops : list (slot_op * Z)) (s : state) : option (list bool * state) :=
  match ops with
  | [] => Some ([], s)
  | (o, now) :: ops =>
      let! r := slot_step o now s in
      let! q := run_slot ops r.2 in Some (r.1 :: q.1, q.2)
  end.

(** [Xqlite.busy_timeout/2]: [with :ok <- remove_busy_policy, {:ok, _} <- set_pragma] *)
Definition busy_timeout (ms now : Z) (s : state) : option (bool * state) :=
  let! r := busy_step RemovePolicy now s in
  if r.1 : bool then Some (raw_pragma ms r.2) else Some (false, r.2).

(** [Xqlite.set_busy_policy/2]: the options, decoded by the NIF as [u32], [u64], [u64];
    [None] is an exception. *)
Definition policy_of (opts : keyword) : option BusyPolicy :=
  match keyword_get opts "max_retries" (TInt 50), keyword_get opts "max_elapsed_ms" (TInt 5000),
        keyword_get opts "sleep_ms" (TInt 10) with
  | TInt retries, TInt elapsed, TInt sleep =>
      if in_u 32 retries && in_u 64 elapsed && in_u 64 sleep then Some (mkPolicy retries elapsed sleep) else None
  | _, _, _ => None
  end.

(** ** Specification: the slot's state, and which handler is in force *)

Inductive handler := Crate | BuiltIn (ms : Z) | Nobody.

Record slot_spec := mkSlotSpec { sp_slot : busy_spec; in_force : handler }.

Definition timeout_handler (ms : Z) : handler := if 0 <? ms then BuiltIn ms else Nobody.

(** [eff]: whether the change took effect. *)
Definition slot_spec_step (o : slot_op) (eff : bool) (a : slot_spec) : slot_spec :=
  match o with
  | SPragma ms => if eff then mkSlotSpec (sp_slot a) (timeout_handler ms) else a
  | SBusy (BusyFires _ _) => a
  | SBusy o =>
      if eff then
        let b := busy_spec_step o true (sp_slot a) in
        mkSlotSpec b (if is_none (sp_policy b) && bool_decide (sp_observers b = []) then Nobody else Crate)
      else a
  end.

Fixpoint run_slot_spec (ops : list (slot_op * Z)) (effs : list bool) (a : slot_spec) : slot_spec :=
  match ops, effs with
  | (o, _) :: ops, eff :: effs => run_slot_spec ops effs (slot_spec_step o eff a)
  | _, _ => a
  end.

(** What was answered and what happened: an error of the PRAGMA decides nothing. *)
Definition told (o : slot_op) (ok eff : bool) : Prop :=
  match o with SBusy _ => eff = ok | SPragma _ => ok = true -> eff = true end.

Fixpoint all_told (ops : list (slot_op * Z)) (oks effs : list bool) : Prop :=
  match ops, oks, effs with
  | [], [], [] => True
  | (o, _) :: ops, ok :: oks, eff :: effs => told o ok eff /\ all_told ops oks effs
  | _, _, _ => False
  end.

(** ** Lemmas *)

Definition handler_of (db : Db) : handler :=
  match busy_arg db with Some _ => Crate | None => timeout_handler (busy_timeout_ms db) end.

Definition slot_rep (s : state) (a : slot_spec) : Prop :=
  slot_holds s (sp_slot a) /\ handler_of (b_db s) = in_force a.

  Context `{!TimeoutLaws Db}.

Lemma set_handler_timeout o db : busy_timeout_ms (set_handler o db).2
  = if is_ok (set_handler o db).1 then 0 else busy_timeout_ms db.
Proof.
  unfold set_handler. pose proof (handler_clears_timeout o db) as Ht.
  destruct (sqlite3_busy_handler o db) as [rc db']. by destruct (rc =? SQLITE_OK).
Qed.

(** An accepted change of the slot leaves no timeout behind. *)
Lemma swap_in_timeout slot next h db r slot' h' db' : swap_in slot next h db = Some (r, slot', h', db') ->
  busy_timeout_ms db' = if is_ok r then 0 else busy_timeout_ms db.
Proof.
  unfold swap_in, uninstall_hook, install_hook. destruct (_ && _).
  - pose proof (set_handler_timeout None db) as Ht. destruct (set_handler None db) as [[[]|e] d]; cbn in Ht |- *.
    + destruct (drop_nonnull _ _); [|done]. by intros [= <- _ _ <-].
    + by intros [= <- _ _ <-].
  - destruct (box_into_raw next h) as [p h1]. pose proof (set_handler_timeout (Some p) db) as Ht.
    destruct (set_handler (Some p) db) as [[[]|e] d]; cbn in Ht |- *.
    + destruct (drop_nonnull _ _); [|done]. by intros [= <- _ _ <-].
    + destruct (drop_box _ _); [|done]. by intros [= <- _ _ <-].
Qed.

Lemma busy_step_timeout o now s ok s' : is_fires o = false -> busy_step o now s = Some (ok, s') ->
  busy_timeout_ms (b_db s') = if ok then 0 else busy_timeout_ms (b_db s).
Proof.
  intros Ho. destruct o as [p| |p|i|]; [..|done]; cbn [busy_step];
    unfold set_policy, remove_policy, register_observer, unregister_observer;
    (destruct (snapshot _ _ _) as [st|]; [|done]);
    (destruct (swap_in _ _ _ _) as [[[[r sl] h] d]|] eqn:E; [|done]); apply swap_in_timeout in E; intros [= <- <-]; by destruct r.
Qed.

(** The slot is null exactly when there is neither policy nor observer. *)
Lemma slot_empty (s : state) b : slot_holds s b ->
  b_slot s = None <-> is_none (sp_policy b) && bool_decide (sp_observers b = []) = true.
Proof.
  intros (st & (_ & _ & _ & He) & <-). unfold spec_of, empty_state in *. destruct (b_slot s); [exact He|done].
Qed.

Definition is_registration (o : slot_op) : Z := match o with SBusy o => is_observe o | SPragma _ => 0 end.
Definition timeout_ok (o : slot_op) : Prop := match o with SPragma ms => 0 <= ms <= i32_max | _ => True end.

Lemma busy_step_slot o now s a : slot_rep s a -> sp_next (sp_slot a) + is_observe o < 2 ^ 64 ->
  exists ok s', busy_step o now s = Some (ok, s') /\ slot_rep s' (slot_spec_step (SBusy o) ok a).
Proof.
  intros [Hh Hf] Hn. destruct (busy_step_holds o now s (sp_slot a) Hh Hn) as (ok & s' & E & Hh' & Ha).
  exists ok, s'. split; [done|]. destruct (is_fires o) eqn:Ho.
  - destruct o; try done. destruct (busy_fires_holds count later now s (sp_slot a) Hh) as (s1 & E1 & Hh1 & Hd).
    rewrite E in E1. injection E1 as -> ->. split; [done|]. by rewrite Hd.
  - pose proof (busy_step_timeout o now s ok s' Ho E) as Ht. rewrite andb_true_r in Ha.
    destruct ok; [|split; [destruct o; exact Hh'|unfold handler_of in *; rewrite Ha, Ht; by destruct o]].
    pose proof (slot_empty s' _ Hh') as He.
    assert (slot_spec_step (SBusy o) true a = let b := busy_spec_step o true (sp_slot a) in
      mkSlotSpec b (if is_none (sp_policy b) && bool_decide (sp_observers b = []) then Nobody else Crate)) as -> by (by destruct o).
    split; [done|]. unfold handler_of. rewrite Ha, Ht. cbv zeta. cbn [in_force].
    destruct (_ && _) eqn:Ee; [by rewrite (proj2 He eq_refl)|]. destruct (b_slot s'); [done|]. by discriminate (proj1 He eq_refl).
Qed.

Lemma pragma_slot ms s a : 0 <= ms <= i32_max -> slot_rep s a ->
  exists ok eff s', raw_pragma ms s = (ok, s') /\ (ok = true -> eff = true) /\ slot_rep s' (slot_spec_step (SPragma ms) eff a).
Proof.
  intros Hms [(st & (Hb & Ha & Hh & He) & Hsp) Hf]. unfold raw_pragma. pose proof (pragma_sets_timeout ms (b_db s) Hms) as Hp.
  destruct (pragma_set (str "busy_timeout") (TInt ms) (b_db s)) as [r db].
  destruct Hp as [[Hp1 Hp2]|(Hr & Hp1 & Hp2)]; [exists (is_ok r), true|exists (is_ok r), false]; eexists; (split; [done|]).
  - split; [done|]. split; [|by unfold handler_of; cbn [b_db]; rewrite Hp1, Hp2].
    exists st. split; [|done]. split_and!; [done|by left|done|done].
  - split; [by rewrite Hr|]. split; [|by unfold handler_of in *; cbn [b_db]; rewrite Hp1, Hp2].
    exists st. split; [|done]. split_and!; [done|cbn [b_db]; by rewrite Hp1|done|done].
Qed.

Lemma slot_spec_next o eff a : 0 <= sp_next (sp_slot a) ->
  sp_next (sp_slot (slot_spec_step o eff a)) <= sp_next (sp_slot a) + is_registration o.
Proof.
  intros Ha. destruct o as [o|ms]; [|destruct eff; cbn; lia].
  assert (0 <= is_observe o) by (destruct o; cbn; lia). cbn [is_registration].
  destruct eff; [|destruct o; cbn; lia]. pose proof (busy_spec_next o true (sp_slot a) Ha) as Hb.
  destruct o; cbn [slot_spec_step sp_slot]; exact Hb.
Qed.

Definition slot_registrations (ops : list (slot_op * Z)) : Z := foldr (fun o n => is_registration o.1 + n) 0 ops.

Lemma slot_registrations_nonneg ops : 0 <= slot_registrations ops.
Proof.
  induction ops as [|[o now] ops IH]; [done|]. unfold slot_registrations in *. cbn [foldr fst].
  assert (0 <= is_registration o) by (destruct o as [[]|]; cbn; lia). lia.
Qed.

Lemma run_slot_sim ops s a : slot_rep s a -> Forall (fun o => timeout_ok o.1) ops ->
  sp_next (sp_slot a) + slot_registrations ops < 2 ^ 64 ->
  exists oks effs s', run_slot ops s = Some (oks, s') /\ all_told ops oks effs /\ slot_rep s' (run_slot_spec ops effs a).
Proof.
  intros Hr Hf. revert s a Hr; induction Hf as [|[o now] ops Ho Hf IH]; intros s a Hr Hn; cbn [run_slot].
  { exists [], [], s. by split_and!. }
  cbn [slot_registrations foldr fst] in Hn. fold (slot_registrations ops) in Hn.
  pose proof (slot_registrations_nonneg ops).
  pose proof (slot_holds_next s _ (proj1 Hr)) as H0'.
  assert (exists ok eff s1, slot_step o now s = Some (ok, s1) /\ told o ok eff /\ slot_rep s1 (slot_spec_step o eff a))
    as (ok & eff & s1 & -> & Ht & Hr1).
  { destruct o as [o|ms]; cbn [slot_step].
    - destruct (busy_step_slot o now s a Hr) as (ok & s1 & -> & Hr1); [cbn in Hn; lia|]. by exists ok, ok, s1.
    - destruct (pragma_slot ms s a Ho Hr) as (ok & eff & s1 & -> & Ht & Hr1). by exists ok, eff, s1. }
  cbn [fst snd]. pose proof (slot_spec_next o eff a H0').
  destruct (IH s1 _ Hr1) as (oks & effs & s2 & -> & Hts & Hr2); [lia|]. by exists (ok :: oks), (eff :: effs), s2.
Qed.

Lemma slot_init db : busy_arg db = None -> slot_rep (busy_init db) (mkSlotSpec spec_empty (timeout_handler (busy_timeout_ms db))).
Proof.
  intros Hdb. split; [|by unfold handler_of; cbn; rewrite Hdb]. by apply busy_rep_holds, busy_init_rep.
Qed.

(** What a busy call sends: to the observers, if the crate's handler is in force. *)
Lemma slot_sends s a count now later : slot_rep s a ->
  exists s' since, busy_step (BusyFires count later) now s = Some (true, s') /\
    busy_sent (b_fx s') = busy_sent (b_fx s) ++
      match in_force a with
      | Crate => fan (sp_observers (sp_slot a)) (message_of (EBusy count now later) since)
      | _ => []
      end.
Proof.
  intros [(st & (Hb & Ha & Hh & He) & Hsp) Hf]. cbn [busy_step]. unfold handler_of in Hf.
  destruct (busy_arg (b_db s)) as [p|]; rewrite <- Hf.
  - destruct Ha as [Ha|Ha]; [done|]. rewrite <- Ha in Hb, Hsp. unfold busy_callback. rewrite (deref_held _ _ _ Hb).
    set (st' := if wrap_unsigned 32 count =? 0 then _ else st). cbv zeta.
    assert (observers st' = sp_observers (sp_slot a)) as Hobs by (rewrite <- Hsp; unfold st'; by destruct (_ =? 0)).
    rewrite busy_fan, Hobs. destruct (policy st') as [pl|]; [destruct (_ || _)|]; by eexists _, (start st').
  - exists s, 0. unfold timeout_handler. destruct (0 <? _); by rewrite app_nil_r.
Qed.

End Timeout.

(** ** Theorems *)

(** C4: the busy slot stays safe, and means what it says, when [PRAGMA busy_timeout] takes
    SQLite's handler away from it.  On every sequence of policy changes, observer
    registrations, raw PRAGMAs and busy calls, each accepted or refused as SQLite likes,
    no freed state is read and none is lost: the slot's box is the one live allocation,
    and what SQLite holds is that box or nothing.  The slot has the specified policy,
    observers and next handle, the handler in force is the specified one, and a busy
    call reaches exactly the observers, if the crate's handler is in force, and else
    nobody. *)
Theorem busy_slot_survives_timeouts `{Beam} `{RusqliteText} `{FloatText} {Db} `{BusyApiLaws Db} `{RusqliteConn Db}
    `{!TimeoutApi Db} `{!TimeoutLaws Db} ops (db : Db) count now later :
  busy_arg db = None -> Forall (fun o => timeout_ok o.1) ops -> slot_registrations ops < 2 ^ 64 ->
  exists oks effs s, run_slot ops (busy_init db) = Some (oks, s) /\ all_told ops oks effs /\
    let a := run_slot_spec ops effs (mkSlotSpec spec_empty (timeout_handler (busy_timeout_ms db))) in
    (busy_arg (b_db s) = None \/ busy_arg (b_db s) = b_slot s) /\ handler_of (b_db s) = in_force a /\
    match b_slot s with
    | None => sp_slot a = spec_empty /\ cells (b_heap s) = ∅
    | Some p => exists st, cells (b_heap s) = {[p := st]} /\ sp_slot a = mkBSpec (policy st) (observers st) (next_handle st)
    end /\
    exists s' since, busy_step (BusyFires count later) now s = Some (true, s') /\
      busy_sent (b_fx s') = busy_sent (b_fx s) ++
        match in_force a with
        | Crate => fan (sp_observers (sp_slot a)) (message_of (EBusy count now later) since)
        | _ => []
        end.
Proof.
  intros Hdb Hf Hn. destruct (run_slot_sim ops _ _ (slot_init db Hdb) Hf) as (oks & effs & s & Hrun & Ht & Hr); [cbn; lia|].
  exists oks, effs, s. split; [done|]. split; [done|]. cbv zeta. pose proof (slot_sends s _ count now later Hr) as Hse.
  destruct Hr as [(st & (Hb & Ha & _) & Hsp) Hfo]. split_and!; [done|done| |done].
  rewrite <- Hsp. destruct (b_slot s) as [p|]; [exists st; by destruct Hb|by split].
Qed.

(** [Xqlite.busy_timeout/2] keeps its promise: when it answers [:ok] the timeout is in
    force, the policy is gone, and the observers keep their places but hear nothing
    until the slot is next changed. *)
Theorem busy_timeout_takes_over `{Beam} `{RusqliteText} `{FloatText} {Db} `{BusyApiLaws Db} `{RusqliteConn Db}
    `{!TimeoutApi Db} `{!TimeoutLaws Db} ms now (s : busy_state Db) a :
  slot_rep s a -> 0 <= ms <= i32_max -> sp_next (sp_slot a) < 2 ^ 64 ->
  exists ok s', busy_timeout ms now s = Some (ok, s') /\
    (ok = true -> exists a', slot_rep s' a' /\ in_force a' = timeout_handler ms /\ sp_policy (sp_slot a') = None /\
       sp_observers (sp_slot a') = sp_observers (sp_slot a)).
Proof.
  intros Hr Hms Hn. unfold busy_timeout. destruct (busy_step_slot RemovePolicy now s a Hr) as (ok & s1 & -> & Hr1); [cbn; lia|].
  cbn [fst snd]. destruct ok; [|by eexists _, _].
  destruct (pragma_slot ms s1 _ Hms Hr1) as (ok & eff & s2 & -> & Ht & Hr2). eexists _, _. split; [done|]. intros ->.
  rewrite (Ht eq_refl) in Hr2. eexists. split; [exact Hr2|]. cbn. split_and!; [done| |by rewrite renew_observers].
  unfold renew. by case_match.
Qed.

(** For the witness: SQLite with the one busy handler, a pointer or a timeout. *)
Definition demo_one : BusyApi (option ptr * Z) := {|
  sqlite3_busy_handler o _ := (SQLITE_OK, (o, 0)); errmsg _ := None; busy_arg db := db.1 |}.
Definition demo_one_laws : @BusyApiLaws (option ptr * Z) demo_one.
Proof. constructor. intros o db. reflexivity. Defined.
Definition demo_timeout : TimeoutApi (option ptr * Z) := {| busy_timeout_ms db := db.2 |}.

(** The number of the one statement it understands. *)
Definition timeout_text (sql : bytes) : option Z :=
  option_map (fun rest => digits_value 10 (take (length rest - 1) rest)) (strip_prefix (str "PRAGMA busy_timeout = ") sql).
Definition demo_pragma : RusqliteConn (option ptr * Z) := {|
  conn_prepare sql db := (Ok [str "timeout"], match timeout_text sql with Some ms => (None, ms) | None => db end);
  stmt_query _ _ db := (Ok [], db); stmt_execute _ _ db := (Ok 0, db); conn_execute _ db := (Ok 0, db);
  conn_execute_batch _ db := (Ok tt, db); conn_query_value _ db := (Ok VNull, db); total_changes _ := 0; changes _ := 0 |}.

Lemma demo_timeout_laws :
  @TimeoutLaws (option ptr * Z) demo_beam demo_text demo_floats demo_one demo_pragma demo_timeout.
Proof.
  constructor; [reflexivity|]. intros ms db Hms.
  assert (@format_term_for_pragma demo_beam demo_floats (TInt ms) = Ok (show_Z ms)) as Hf.
  { unfold format_term_for_pragma. cbn [get_type decode_i64]. replace (in_i 64 ms) with true; [done|].
    symmetry. unfold in_i, i32_max in *. lia. }
  assert (timeout_text (str "PRAGMA " ++ str "busy_timeout" ++ str " = " ++ show_Z ms ++ str ";") = Some ms) as Ht.
  { unfold timeout_text. change (str "PRAGMA " ++ str "busy_timeout" ++ str " = " ++ show_Z ms ++ str ";")
      with (str "PRAGMA busy_timeout = " ++ show_Z ms ++ str ";"). rewrite strip_prefix_app. cbn [option_map].
    rewrite length_app, Nat.add_sub, take_app_length. destruct (show_Z_spec ms) as (d & _ & Hd & ->).
    destruct (Z.ltb_spec ms 0); f_equal; lia. }
  assert (@pragma_set demo_beam demo_text demo_floats _ demo_pragma (str "busy_timeout") (TInt ms) db = (Ok nil_term, (None, ms))) as ->;
    [|by left].
  unfold pragma_set, bind, lift, ret, rq. rewrite Hf. cbn [conn_prepare demo_pragma]. by rewrite Ht.
Qed.

(** A connection opened with the default timeout: an observer, a timeout, a call. *)
Lemma busy_slot_survives_timeouts_witness :
  exists oks effs s, @run_slot demo_beam demo_text demo_floats _ demo_one demo_pragma
      [(SBusy (Observe 7), 0); (SPragma 1000, 1); (SBusy (BusyFires 0 5), 5)] (busy_init (None, 5000)) = Some (oks, s) /\
    all_told [(SBusy (Observe 7), 0); (SPragma 1000, 1); (SBusy (BusyFires 0 5), 5)] oks effs /\
    (b_db s).1 = None /\ @handler_of _ demo_one demo_timeout (b_db s) = BuiltIn 1000.
Proof.
  destruct (@busy_slot_survives_timeouts demo_beam demo_text demo_floats _ demo_one demo_one_laws demo_pragma demo_timeout
    demo_timeout_laws [(SBusy (Observe 7), 0); (SPragma 1000, 1); (SBusy (BusyFires 0 5), 5)] (None, 5000) 0 0 0)
    as (oks & effs & s & Hr & Ht & _ & Hf & _).
  - reflexivity.
  - repeat constructor; cbn; unfold i32_max; lia.
  - vm_compute. reflexivity.
  - exists oks, effs, s. assert ((b_db s).1 = None /\ (b_db s).2 = 1000) as [E1 E2]
      by (vm_compute in Hr; injection Hr as _ <-; split; reflexivity).
    split; [exact Hr|]. split; [exact Ht|]. split; [exact E1|]. unfold handler_of. cbn. by rewrite E1, E2.
Defined.

(** An observer takes the place of the timeout [Xqlite.open/2] sets by default: the
    first busy call is answered with 0, so SQLite no longer waits, and removing the
    observer does not bring the timeout back. *)
Theorem observer_replaces_open_timeout :
  exists s s', @run_slot demo_beam demo_text demo_floats _ demo_one demo_pragma [(SBusy (Observe 7), 0)] (busy_init (None, 5000))
      = Some ([true], s) /\
    (forall later, exists p h w, @busy_arg _ demo_one (b_db s) = Some p /\
       @busy_callback demo_beam p 0 0 later (b_heap s) (b_fx s) = Some (0, h, w)) /\
    @busy_step demo_beam demo_text _ demo_one (Unobserve 0) 1 s = Some (true, s') /\
    @handler_of _ demo_one demo_timeout (b_db s') = Nobody.
Proof.
  eexists _, _. split; [vm_compute; reflexivity|]. split; [|split; vm_compute; reflexivity].
  intros later. exists 1%positive. eexists _, _. split; reflexivity.
Qed.

(** Removing an observer that does not exist, or a policy that is not set, is no no-op:
    it clears the connection's timeout. *)
Theorem stale_removal_clears_timeout :
  Forall (fun o => exists s, @busy_step demo_beam demo_text _ demo_one o 0 (busy_init (None, 5000)) = Some (true, s) /\
    @handler_of _ demo_one demo_timeout (b_db s) = Nobody) [Unobserve 99; RemovePolicy].
Proof. repeat constructor; eexists; (split; [vm_compute; reflexivity|]); vm_compute; reflexivity. Qed.
